(** * The network resource scheduler (services/network/resource_scheduler)

    A shallow embedding of [resource_scheduler.cc]: the request queue and
    its sorter, the per-client admission algorithm
    ([ResourceScheduler::Client]) and the scheduler registry
    ([ResourceScheduler]), followed by the properties established about
    them.

    Conventions.
    - Heap objects ([ScheduledResourceRequestImpl], [net::URLRequest]) live
      in finite maps keyed by their address; a pointer is a [positive].
      Reading through a pointer is the total lookup [!!!]; the
      well-formedness predicates below say which pointers are live.
    - [size_t], [uint32_t], [uint8_t] and [int] values are integers of [Z]
      with the wrap-around of each operation written out.
    - [double] values are IEEE 754 binary64 values, with correctly rounded
      operations.
    - Histogram, trace and net-log recording has no effect on the state the
      scheduler reads back, and is left out. *)

From Stdlib Require Import ZArith Lia Bool.
From Stdlib Require Floats.SpecFloat.
From stdpp Require Import base option list sorting gmap fin_sets strings.

Local Open Scope Z_scope.

(** ** Machine arithmetic *)

Module Machine.

Definition size_t_max : Z := 2 ^ 64 - 1.

Definition wrap_size_t (x : Z) : Z := x mod 2 ^ 64.
Definition wrap_uint32 (x : Z) : Z := x mod 2 ^ 32.
Definition wrap_uint8 (x : Z) : Z := x mod 2 ^ 8.

(** [int] is 32 bits wide, two's complement. *)
Definition wrap_int (x : Z) : Z := (x + 2 ^ 31) mod 2 ^ 32 - 2 ^ 31.

(** [int64_t], as the result of a shift or an or on 64-bit operands. *)
Definition wrap_int64 (x : Z) : Z := (x + 2 ^ 63) mod 2 ^ 64 - 2 ^ 63.

(** [base::TimeTicks] and [base::TimeDelta] hold a number of microseconds
    in an [int64_t]; their subtraction saturates. *)
Definition saturate_int64 (x : Z) : Z :=
  Z.max (- 2 ^ 63) (Z.min (2 ^ 63 - 1) x).

Definition TimeTicks_sub (a b : Z) : Z := saturate_int64 (a - b).

(** A [double] is an IEEE 754 binary64 value: precision 53, maximal
    exponent 1024; conversions and products round to nearest, ties to
    even. *)
Definition double : Type := SpecFloat.spec_float.

(** The conversion of an integer to [double]. *)
Definition double_of_Z (n : Z) : double :=
  SpecFloat.binary_normalize 53 1024 n 0 false.

(** [a * b], [a / b], [a <= b] and [a < b] on [double]. *)
Definition double_mul (a b : double) : double := SpecFloat.SFmul 53 1024 a b.
Definition double_div (a b : double) : double := SpecFloat.SFdiv 53 1024 a b.
Definition double_le (a b : double) : bool := SpecFloat.SFleb a b.
Definition double_lt (a b : double) : bool := SpecFloat.SFltb a b.

(** The integral part of a finite value, rounding towards zero as the
    conversion of a floating value to an integer does; an infinity and a
    NaN have none, and 0 stands for it. *)
Definition truncate (x : double) : Z :=
  match x with
  | SpecFloat.S754_finite sign mantissa exponent =>
      let magnitude :=
        if 0 <=? exponent then Z.shiftl (Z.pos mantissa) exponent
        else Z.shiftr (Z.pos mantissa) (- exponent) in
      if sign then - magnitude else magnitude
  | _ => 0
  end.

(** [static_cast<size_t>(double)]. C++ defines the conversion only when
    the integral part is a value of [size_t]; outside that range the
    integral part is wrapped here. *)
Definition double_to_size_t (x : double) : Z := wrap_size_t (truncate x).

(** [TimeDelta * double] (base/time/time.h): the product is formed in
    [double] and converted back when it is a value of [int64_t]; otherwise
    the result saturates, at the minimum when the signs of the operands
    differ and at the maximum when they agree. *)
Definition TimeDelta_mul (d : Z) (a : double) : Z :=
  match double_mul (double_of_Z d) a with
  | SpecFloat.S754_infinity _ | SpecFloat.S754_nan =>
      if xorb (d <? 0) (double_lt a (double_of_Z 0))
      then - 2 ^ 63 else 2 ^ 63 - 1
  | product => saturate_int64 (truncate product)
  end.

End Machine.

Import Machine.

(** ** The [net] types the scheduler reads *)

Module net.

(** Modelled from the spec: [net::RequestPriority], an ordinal where a
    higher value is more urgent. Its declaration
    (net/base/request_priority.h) is not among the sources; the
    enumerators follow the names the scheduler uses. *)
Inductive RequestPriority : Type :=
| THROTTLED | IDLE | LOWEST | LOW | MEDIUM | HIGHEST.

Definition ordinal (p : RequestPriority) : Z :=
  match p with
  | THROTTLED => 0 | IDLE => 1 | LOWEST => 2
  | LOW => 3 | MEDIUM => 4 | HIGHEST => 5
  end.

Definition DEFAULT_PRIORITY : RequestPriority := LOWEST.
Definition MAXIMUM_PRIORITY : RequestPriority := HIGHEST.

#[global] Instance RequestPriority_eq_dec : EqDecision RequestPriority.
Proof. solve_decision. Defined.

(** Modelled from the spec: [net::EffectiveConnectionType]
    (net/nqe/effective_connection_type.h is not among the sources), the
    connection classes from unknown and offline up to 4G. *)
Inductive EffectiveConnectionType : Type :=
| EFFECTIVE_CONNECTION_TYPE_UNKNOWN
| EFFECTIVE_CONNECTION_TYPE_OFFLINE
| EFFECTIVE_CONNECTION_TYPE_SLOW_2G
| EFFECTIVE_CONNECTION_TYPE_2G
| EFFECTIVE_CONNECTION_TYPE_3G
| EFFECTIVE_CONNECTION_TYPE_4G.

Definition ect_ordinal (e : EffectiveConnectionType) : Z :=
  match e with
  | EFFECTIVE_CONNECTION_TYPE_UNKNOWN => 0
  | EFFECTIVE_CONNECTION_TYPE_OFFLINE => 1
  | EFFECTIVE_CONNECTION_TYPE_SLOW_2G => 2
  | EFFECTIVE_CONNECTION_TYPE_2G => 3
  | EFFECTIVE_CONNECTION_TYPE_3G => 4
  | EFFECTIVE_CONNECTION_TYPE_4G => 5
  end.

#[global] Instance EffectiveConnectionType_eq_dec :
  EqDecision EffectiveConnectionType.
Proof. solve_decision. Defined.

(** A URL, reduced to the parts the scheduler looks at. *)
Record GURL : Type := {
  scheme : string;
  host : string;
  port : Z;
}.

#[global] Instance GURL_eq_dec : EqDecision GURL.
Proof. solve_decision. Defined.

Definition SchemeIsHTTPOrHTTPS (u : GURL) : bool :=
  bool_decide (scheme u = "http"%string) || bool_decide (scheme u = "https"%string).

(** [net::HostPortPair]: host and port, without the scheme. *)
Definition HostPortPair : Type := (string * Z)%type.

Definition HostPortPair_FromURL (u : GURL) : HostPortPair := (host u, port u).

Definition HostPortPair_Equals (a b : HostPortPair) : bool :=
  bool_decide (a = b).

(** [net::URLRequest], with the members the scheduler reads or writes.
    [user_data] is the slot under [kUserDataKey]: the address of the
    scheduler handle attached to the request, if any. *)
Record URLRequest : Type := {
  url : GURL;
  priority : RequestPriority;
  load_flags : Z;
  creation_time : Z;
  status_is_success : bool;
  network_isolation_key : Z;
  traffic_annotation_hash : Z;
  user_data : option positive;
}.

Definition SetPriority (r : URLRequest) (p : RequestPriority) : URLRequest :=
  {| url := url r; priority := p; load_flags := load_flags r;
     creation_time := creation_time r;
     status_is_success := status_is_success r;
     network_isolation_key := network_isolation_key r;
     traffic_annotation_hash := traffic_annotation_hash r;
     user_data := user_data r |}.

Definition SetUserData (r : URLRequest) (d : option positive) : URLRequest :=
  {| url := url r; priority := priority r; load_flags := load_flags r;
     creation_time := creation_time r;
     status_is_success := status_is_success r;
     network_isolation_key := network_isolation_key r;
     traffic_annotation_hash := traffic_annotation_hash r;
     user_data := d |}.

#[global] Instance URLRequest_inhabited : Inhabited URLRequest :=
  populate {| url := {| scheme := ""; host := ""; port := 0 |};
              priority := DEFAULT_PRIORITY; load_flags := 0;
              creation_time := 0; status_is_success := false;
              network_isolation_key := 0; traffic_annotation_hash := 0;
              user_data := None |}.

End net.

(** ** Request attributes *)

(** [RequestAttributes] is a [uint8_t] bit mask. *)
Definition RequestAttributes : Type := Z.
Definition kAttributeNone : RequestAttributes := 0.
Definition kAttributeInFlight : RequestAttributes := 1.
Definition kAttributeDelayable : RequestAttributes := 2.
Definition kAttributeLayoutBlocking : RequestAttributes := 4.

Inductive StartMode : Type := START_SYNC | START_ASYNC.

Inductive RequestStartTrigger : Type :=
| NONE
| COMPLETION_PRE_BODY
| COMPLETION_POST_BODY
| BODY_REACHED
| CLIENT_KILL
| SPDY_PROXY_DETECTED
| REQUEST_REPRIORITIZED
| LONG_QUEUED_REQUESTS_TIMER_FIRED
| EFFECTIVE_CONNECTION_TYPE_CHANGED
| PEER_TO_PEER_CONNECTIONS_COUNT_CHANGED.

Definition kMaxNumDelayableRequestsPerHostPerClient : Z := 6.
Definition kMaxNumDelayableWhileLayoutBlockingPerClient : Z := 1.
Definition kDelayablePriorityThreshold : net.RequestPriority := net.MEDIUM.
Definition kInFlightNonDelayableRequestCountPerClientThreshold : Z := 1.

(** [Client::RequestAttributesAreSet]. *)
Definition RequestAttributesAreSet
    (request_attributes matching_attributes : RequestAttributes) : bool :=
  Z.land request_attributes matching_attributes =? matching_attributes.

(** ** Priority parameters and the queue order *)

Record RequestPriorityParams : Type := {
  rp_priority : net.RequestPriority;
  intra_priority : Z;
}.

#[global] Instance RequestPriorityParams_eq_dec : EqDecision RequestPriorityParams.
Proof. solve_decision. Defined.

(** [RequestPriorityParams::operator==]. *)
Definition params_eq (a b : RequestPriorityParams) : bool :=
  bool_decide (rp_priority a = rp_priority b)
  && (intra_priority a =? intra_priority b).

(** [RequestPriorityParams::GreaterThan]. *)
Definition GreaterThan (a b : RequestPriorityParams) : bool :=
  if negb (bool_decide (rp_priority a = rp_priority b))
  then net.ordinal (rp_priority b) <? net.ordinal (rp_priority a)
  else intra_priority b <? intra_priority a.

(** The handle returned to the caller of [ScheduleRequest]. [request_] is
    the address of the [net::URLRequest] it schedules. *)
Record ScheduledResourceRequestImpl : Type := {
  client_id_ : Z;
  request_ : positive;
  ready_ : bool;
  deferred_ : bool;
  is_async_ : bool;
  attributes_ : RequestAttributes;
  priority_ : RequestPriorityParams;
  fifo_ordering_ : Z;
  peak_delayable_requests_in_flight_ : Z;
  host_port_pair_ : net.HostPortPair;
}.

#[global] Instance ScheduledResourceRequestImpl_inhabited :
  Inhabited ScheduledResourceRequestImpl :=
  populate {| client_id_ := 0; request_ := 1%positive; ready_ := false;
              deferred_ := false; is_async_ := false;
              attributes_ := kAttributeNone;
              priority_ := {| rp_priority := net.DEFAULT_PRIORITY;
                              intra_priority := 0 |};
              fifo_ordering_ := 0; peak_delayable_requests_in_flight_ := 0;
              host_port_pair_ := (""%string, 0) |}.

Definition set_request_priority_params
    (r : ScheduledResourceRequestImpl) (p : RequestPriorityParams) :=
  {| client_id_ := client_id_ r; request_ := request_ r; ready_ := ready_ r;
     deferred_ := deferred_ r; is_async_ := is_async_ r;
     attributes_ := attributes_ r; priority_ := p;
     fifo_ordering_ := fifo_ordering_ r;
     peak_delayable_requests_in_flight_ := peak_delayable_requests_in_flight_ r;
     host_port_pair_ := host_port_pair_ r |}.

Definition set_fifo_ordering (r : ScheduledResourceRequestImpl) (f : Z) :=
  {| client_id_ := client_id_ r; request_ := request_ r; ready_ := ready_ r;
     deferred_ := deferred_ r; is_async_ := is_async_ r;
     attributes_ := attributes_ r; priority_ := priority_ r;
     fifo_ordering_ := f;
     peak_delayable_requests_in_flight_ := peak_delayable_requests_in_flight_ r;
     host_port_pair_ := host_port_pair_ r |}.

Definition set_attributes (r : ScheduledResourceRequestImpl) (a : RequestAttributes) :=
  {| client_id_ := client_id_ r; request_ := request_ r; ready_ := ready_ r;
     deferred_ := deferred_ r; is_async_ := is_async_ r;
     attributes_ := a; priority_ := priority_ r;
     fifo_ordering_ := fifo_ordering_ r;
     peak_delayable_requests_in_flight_ := peak_delayable_requests_in_flight_ r;
     host_port_pair_ := host_port_pair_ r |}.

Definition set_ready_deferred (r : ScheduledResourceRequestImpl) (rd df : bool) :=
  {| client_id_ := client_id_ r; request_ := request_ r; ready_ := rd;
     deferred_ := df; is_async_ := is_async_ r;
     attributes_ := attributes_ r; priority_ := priority_ r;
     fifo_ordering_ := fifo_ordering_ r;
     peak_delayable_requests_in_flight_ := peak_delayable_requests_in_flight_ r;
     host_port_pair_ := host_port_pair_ r |}.

(** [ScheduledResourceRequestImpl::UpdateDelayableRequestsInFlight]. *)
Definition UpdateDelayableRequestsInFlight
    (r : ScheduledResourceRequestImpl) (delayable_requests_in_flight : Z) :=
  {| client_id_ := client_id_ r; request_ := request_ r; ready_ := ready_ r;
     deferred_ := deferred_ r; is_async_ := is_async_ r;
     attributes_ := attributes_ r; priority_ := priority_ r;
     fifo_ordering_ := fifo_ordering_ r;
     peak_delayable_requests_in_flight_ :=
       Z.max (peak_delayable_requests_in_flight_ r) delayable_requests_in_flight;
     host_port_pair_ := host_port_pair_ r |}.

(** [ScheduledResourceSorter::operator()]: decreasing priority, then
    decreasing intra-priority, then increasing fifo ordering. *)
Definition ScheduledResourceSorter (a b : ScheduledResourceRequestImpl) : bool :=
  if negb (params_eq (priority_ a) (priority_ b))
  then GreaterThan (priority_ a) (priority_ b)
  else fifo_ordering_ a <? fifo_ordering_ b.


(** ** The store shared by the scheduler, its clients and their callers *)

(** A task posted to the scheduler's task runner: either the deferred
    [Start(START_SYNC)] of a handle, or a client's
    [LoadAnyStartablePendingRequests]. Each is bound to a weak pointer, here
    the address of the handle or of the client. *)
Inductive Task : Type :=
| StartTask (request : positive)
| LoadAnyStartablePendingRequestsTask (client : positive)
                                      (trigger : RequestStartTrigger).

(** Whether a task is bound to a weak pointer to the client at [this]. *)
Definition bound_to_client (this : positive) (t : Task) : bool :=
  match t with
  | LoadAnyStartablePendingRequestsTask client _ => bool_decide (client = this)
  | StartTask _ => false
  end.

#[global] Instance RequestStartTrigger_eq_dec : EqDecision RequestStartTrigger.
Proof. solve_decision. Defined.

#[global] Instance Task_eq_dec : EqDecision Task.
Proof. solve_decision. Defined.

(** [requests] and [url_requests] are the two heaps; [posted_tasks] is the
    task runner's queue, oldest first; [resumed] records the handles whose
    resume callback has run, latest first. *)
Record Store : Type := {
  requests : gmap positive ScheduledResourceRequestImpl;
  url_requests : gmap positive net.URLRequest;
  posted_tasks : list Task;
  resumed : list positive;
}.

Definition with_requests (st : Store)
    (h : gmap positive ScheduledResourceRequestImpl) : Store :=
  {| requests := h; url_requests := url_requests st;
     posted_tasks := posted_tasks st; resumed := resumed st |}.

Definition with_url_requests (st : Store)
    (h : gmap positive net.URLRequest) : Store :=
  {| requests := requests st; url_requests := h;
     posted_tasks := posted_tasks st; resumed := resumed st |}.

(** [task_runner()->PostTask]. *)
Definition PostTask (st : Store) (t : Task) : Store :=
  {| requests := requests st; url_requests := url_requests st;
     posted_tasks := posted_tasks st ++ [t]; resumed := resumed st |}.

Definition with_resumed (st : Store) (r : list positive) : Store :=
  {| requests := requests st; url_requests := url_requests st;
     posted_tasks := posted_tasks st; resumed := r |}.

(** [request->...]: the handle at an address. *)
Definition deref (st : Store) (request : positive) : ScheduledResourceRequestImpl :=
  requests st !!! request.

(** [request->url_request()->...]. *)
Definition url_request (st : Store) (request : positive) : net.URLRequest :=
  url_requests st !!! request_ (deref st request).

Definition store_request (st : Store) (request : positive)
    (r : ScheduledResourceRequestImpl) : Store :=
  with_requests st (<[request := r]> (requests st)).

(** [ScheduledResourceRequestImpl::Start]. Running the resume callback is
    recorded in [resumed]. *)
Definition Start (st : Store) (request : positive) (start_mode : StartMode) : Store :=
  if negb (net.status_is_success (url_request st request)) then st
  else if deferred_ (deref st request) then
    match start_mode with
    | START_ASYNC => PostTask st (StartTask request)
    | START_SYNC =>
        let st1 := store_request st request
                     (set_ready_deferred (deref st request)
                        (ready_ (deref st request)) false) in
        let st2 := with_resumed st1 (request :: resumed st1) in
        store_request st2 request
          (set_ready_deferred (deref st2 request) true
             (deferred_ (deref st2 request)))
    end
  else store_request st request
         (set_ready_deferred (deref st request) true
            (deferred_ (deref st request))).

(** [ScheduledResourceRequestImpl::WillStartRequest]; the second component
    is [*defer]. *)
Definition WillStartRequest (st : Store) (request : positive) : Store * bool :=
  let defer := negb (ready_ (deref st request)) in
  (store_request st request
     (set_ready_deferred (deref st request) (ready_ (deref st request)) defer),
   defer).

(** ** RequestQueue *)

(** [std::multiset::insert] on a sequence kept in the order of [comp]: the
    new element goes before the first element it compares less than, that
    is after every element equivalent to it. *)
Fixpoint multiset_insert (comp : positive -> positive -> bool)
    (x : positive) (l : list positive) : list positive :=
  match l with
  | [] => [x]
  | y :: l' => if comp x y then x :: l else y :: multiset_insert comp x l'
  end.

(** Removal of the node of [x]. *)
Fixpoint erase_node (x : positive) (l : list positive) : list positive :=
  match l with
  | [] => []
  | y :: l' => if decide (x = y) then l' else y :: erase_node x l'
  end.

Module RequestQueue.

(** [queue_] is the multiset in iteration order, highest first.
    [pointers_], the index from a handle to its node, is represented by
    membership in [queue_]. *)
Record t : Type := {
  fifo_ordering_ids_ : Z;
  queue_ : list positive;
}.

Definition empty : t := {| fifo_ordering_ids_ := 0; queue_ := [] |}.

Definition MakeFifoOrderingId (q : t) : Z * t :=
  let ids := wrap_uint32 (fifo_ordering_ids_ q + 1) in
  (ids, {| fifo_ordering_ids_ := ids; queue_ := queue_ q |}).

Definition IsQueued (q : t) (request : positive) : bool :=
  bool_decide (request ∈ queue_ q).

Definition IsEmpty (q : t) : bool :=
  match queue_ q with [] => true | _ => false end.

(** [Insert]: stamps the handle with a new ordering id, then inserts it. *)
Definition Insert (q : t) (st : Store) (request : positive) : t * Store :=
  let '(id, q1) := MakeFifoOrderingId q in
  let st1 := store_request st request (set_fifo_ordering (deref st request) id) in
  ({| fifo_ordering_ids_ := fifo_ordering_ids_ q1;
      queue_ := multiset_insert
                  (fun a b => ScheduledResourceSorter (deref st1 a) (deref st1 b))
                  request (queue_ q1) |},
   st1).

(** [Erase]: [None] is the failed [CHECK] on a handle that is not queued. *)
Definition Erase (q : t) (request : positive) : option t :=
  if IsQueued q request
  then Some {| fifo_ordering_ids_ := fifo_ordering_ids_ q;
               queue_ := erase_node request (queue_ q) |}
  else None.

End RequestQueue.

(** ** Scheduling parameters and the environment *)

(** Modelled from the spec: the parameter set of the ParamsTable, keyed by
    effective connection type (global delayable cap and its weighting, the
    multiplexed-delay mode flag, the maximum queuing time, the anticipation
    RTT multiplier). [ResourceSchedulerParamsManager] is not among the
    sources; the members carry the names the scheduler reads them by. *)
Record ParamsForNetworkQuality : Type := {
  max_delayable_requests : Z;
  non_delayable_weight : double;
  delay_requests_on_multiplexed_connections : bool;
  max_queuing_time : option Z;
  http_rtt_multiplier_for_proactive_throttling : option double;
}.

(** Modelled from the spec: the ParamsTable itself, with the P2P-throttle
    window and the set of traffic annotations that may be throttled. *)
Record ResourceSchedulerParamsManager : Type := {
  GetParamsForEffectiveConnectionType :
    net.EffectiveConnectionType -> ParamsForNetworkQuality;
  TimeToPauseHeavyBrowserInitiatedRequestsAfterEndOfP2PConnections : Z;
  max_wait_time_p2p_connections : option Z;
  CanThrottleNetworkTrafficAnnotationHash : Z -> bool;
}.

(** What the collaborators answer when asked during one call: the tick
    clock, the process clock, the HTTP server properties, the network
    quality estimator and the feature list. *)
Record Env : Type := {
  NowTicks : Z;
  TimeTicks_Now : Z;
  SupportsRequestPriority : net.GURL -> Z -> bool;
  GetHttpRTT : option Z;
  GetEffectiveConnectionType : net.EffectiveConnectionType;
  kPauseBrowserInitiatedHeavyTrafficForP2P : bool;
  kProactivelyThrottleLowPriorityRequests : bool;
}.

(** What a client reaches through [resource_scheduler_], together with the
    environment. *)
Record Context : Type := {
  env : Env;
  enabled : bool;
  resource_scheduler_params_manager_ : ResourceSchedulerParamsManager;
}.

(** ** Client *)

Module Client.

Inductive ShouldStartReqResult : Type :=
| DO_NOT_START_REQUEST_AND_STOP_SEARCHING
| DO_NOT_START_REQUEST_AND_KEEP_SEARCHING
| START_REQUEST.

#[global] Instance ShouldStartReqResult_eq_dec : EqDecision ShouldStartReqResult.
Proof. solve_decision. Defined.

(** [this_] is the address of the client, the target of the weak pointers
    bound into its posted tasks. [network_quality_estimator_] tells whether
    the estimator pointer is non-null; [p2p_connections_count_ended_timer_]
    whether that timer is running. *)
Record t : Type := {
  this_ : positive;
  pending_requests_ : RequestQueue.t;
  in_flight_requests_ : gset positive;
  is_browser_client_ : bool;
  in_flight_delayable_count_ : Z;
  total_layout_blocking_count_ : Z;
  num_skipped_scans_due_to_scheduled_start_ : Z;
  network_quality_estimator_ : bool;
  params_for_network_quality_ : ParamsForNetworkQuality;
  last_non_delayable_request_start_ : option Z;
  last_non_delayable_request_end_ : option Z;
  effective_connection_type_ : net.EffectiveConnectionType;
  p2p_connections_count_ : Z;
  p2p_connections_count_active_timestamp_ : option Z;
  p2p_connections_count_end_timestamp_ : option Z;
  p2p_connections_count_ended_timer_ : bool;
}.

Definition with_pending_requests (c : t) (q : RequestQueue.t) : t :=
  {| this_ := this_ c; pending_requests_ := q;
     in_flight_requests_ := in_flight_requests_ c;
     is_browser_client_ := is_browser_client_ c;
     in_flight_delayable_count_ := in_flight_delayable_count_ c;
     total_layout_blocking_count_ := total_layout_blocking_count_ c;
     num_skipped_scans_due_to_scheduled_start_ :=
       num_skipped_scans_due_to_scheduled_start_ c;
     network_quality_estimator_ := network_quality_estimator_ c;
     params_for_network_quality_ := params_for_network_quality_ c;
     last_non_delayable_request_start_ := last_non_delayable_request_start_ c;
     last_non_delayable_request_end_ := last_non_delayable_request_end_ c;
     effective_connection_type_ := effective_connection_type_ c;
     p2p_connections_count_ := p2p_connections_count_ c;
     p2p_connections_count_active_timestamp_ :=
       p2p_connections_count_active_timestamp_ c;
     p2p_connections_count_end_timestamp_ :=
       p2p_connections_count_end_timestamp_ c;
     p2p_connections_count_ended_timer_ := p2p_connections_count_ended_timer_ c |}.

Definition with_in_flight_requests (c : t) (s : gset positive) : t :=
  {| this_ := this_ c; pending_requests_ := pending_requests_ c;
     in_flight_requests_ := s;
     is_browser_client_ := is_browser_client_ c;
     in_flight_delayable_count_ := in_flight_delayable_count_ c;
     total_layout_blocking_count_ := total_layout_blocking_count_ c;
     num_skipped_scans_due_to_scheduled_start_ :=
       num_skipped_scans_due_to_scheduled_start_ c;
     network_quality_estimator_ := network_quality_estimator_ c;
     params_for_network_quality_ := params_for_network_quality_ c;
     last_non_delayable_request_start_ := last_non_delayable_request_start_ c;
     last_non_delayable_request_end_ := last_non_delayable_request_end_ c;
     effective_connection_type_ := effective_connection_type_ c;
     p2p_connections_count_ := p2p_connections_count_ c;
     p2p_connections_count_active_timestamp_ :=
       p2p_connections_count_active_timestamp_ c;
     p2p_connections_count_end_timestamp_ :=
       p2p_connections_count_end_timestamp_ c;
     p2p_connections_count_ended_timer_ := p2p_connections_count_ended_timer_ c |}.

Definition with_counts (c : t) (delayable layout_blocking : Z) : t :=
  {| this_ := this_ c; pending_requests_ := pending_requests_ c;
     in_flight_requests_ := in_flight_requests_ c;
     is_browser_client_ := is_browser_client_ c;
     in_flight_delayable_count_ := delayable;
     total_layout_blocking_count_ := layout_blocking;
     num_skipped_scans_due_to_scheduled_start_ :=
       num_skipped_scans_due_to_scheduled_start_ c;
     network_quality_estimator_ := network_quality_estimator_ c;
     params_for_network_quality_ := params_for_network_quality_ c;
     last_non_delayable_request_start_ := last_non_delayable_request_start_ c;
     last_non_delayable_request_end_ := last_non_delayable_request_end_ c;
     effective_connection_type_ := effective_connection_type_ c;
     p2p_connections_count_ := p2p_connections_count_ c;
     p2p_connections_count_active_timestamp_ :=
       p2p_connections_count_active_timestamp_ c;
     p2p_connections_count_end_timestamp_ :=
       p2p_connections_count_end_timestamp_ c;
     p2p_connections_count_ended_timer_ := p2p_connections_count_ended_timer_ c |}.

Definition with_num_skipped_scans (c : t) (n : Z) : t :=
  {| this_ := this_ c; pending_requests_ := pending_requests_ c;
     in_flight_requests_ := in_flight_requests_ c;
     is_browser_client_ := is_browser_client_ c;
     in_flight_delayable_count_ := in_flight_delayable_count_ c;
     total_layout_blocking_count_ := total_layout_blocking_count_ c;
     num_skipped_scans_due_to_scheduled_start_ := n;
     network_quality_estimator_ := network_quality_estimator_ c;
     params_for_network_quality_ := params_for_network_quality_ c;
     last_non_delayable_request_start_ := last_non_delayable_request_start_ c;
     last_non_delayable_request_end_ := last_non_delayable_request_end_ c;
     effective_connection_type_ := effective_connection_type_ c;
     p2p_connections_count_ := p2p_connections_count_ c;
     p2p_connections_count_active_timestamp_ :=
       p2p_connections_count_active_timestamp_ c;
     p2p_connections_count_end_timestamp_ :=
       p2p_connections_count_end_timestamp_ c;
     p2p_connections_count_ended_timer_ := p2p_connections_count_ended_timer_ c |}.

Definition with_last_non_delayable (c : t) (start finish : option Z) : t :=
  {| this_ := this_ c; pending_requests_ := pending_requests_ c;
     in_flight_requests_ := in_flight_requests_ c;
     is_browser_client_ := is_browser_client_ c;
     in_flight_delayable_count_ := in_flight_delayable_count_ c;
     total_layout_blocking_count_ := total_layout_blocking_count_ c;
     num_skipped_scans_due_to_scheduled_start_ :=
       num_skipped_scans_due_to_scheduled_start_ c;
     network_quality_estimator_ := network_quality_estimator_ c;
     params_for_network_quality_ := params_for_network_quality_ c;
     last_non_delayable_request_start_ := start;
     last_non_delayable_request_end_ := finish;
     effective_connection_type_ := effective_connection_type_ c;
     p2p_connections_count_ := p2p_connections_count_ c;
     p2p_connections_count_active_timestamp_ :=
       p2p_connections_count_active_timestamp_ c;
     p2p_connections_count_end_timestamp_ :=
       p2p_connections_count_end_timestamp_ c;
     p2p_connections_count_ended_timer_ := p2p_connections_count_ended_timer_ c |}.

Definition with_network_quality (c : t)
    (ect : net.EffectiveConnectionType) (p : ParamsForNetworkQuality) : t :=
  {| this_ := this_ c; pending_requests_ := pending_requests_ c;
     in_flight_requests_ := in_flight_requests_ c;
     is_browser_client_ := is_browser_client_ c;
     in_flight_delayable_count_ := in_flight_delayable_count_ c;
     total_layout_blocking_count_ := total_layout_blocking_count_ c;
     num_skipped_scans_due_to_scheduled_start_ :=
       num_skipped_scans_due_to_scheduled_start_ c;
     network_quality_estimator_ := network_quality_estimator_ c;
     params_for_network_quality_ := p;
     last_non_delayable_request_start_ := last_non_delayable_request_start_ c;
     last_non_delayable_request_end_ := last_non_delayable_request_end_ c;
     effective_connection_type_ := ect;
     p2p_connections_count_ := p2p_connections_count_ c;
     p2p_connections_count_active_timestamp_ :=
       p2p_connections_count_active_timestamp_ c;
     p2p_connections_count_end_timestamp_ :=
       p2p_connections_count_end_timestamp_ c;
     p2p_connections_count_ended_timer_ := p2p_connections_count_ended_timer_ c |}.

Definition with_p2p (c : t) (count : Z) (active finish : option Z)
    (timer : bool) : t :=
  {| this_ := this_ c; pending_requests_ := pending_requests_ c;
     in_flight_requests_ := in_flight_requests_ c;
     is_browser_client_ := is_browser_client_ c;
     in_flight_delayable_count_ := in_flight_delayable_count_ c;
     total_layout_blocking_count_ := total_layout_blocking_count_ c;
     num_skipped_scans_due_to_scheduled_start_ :=
       num_skipped_scans_due_to_scheduled_start_ c;
     network_quality_estimator_ := network_quality_estimator_ c;
     params_for_network_quality_ := params_for_network_quality_ c;
     last_non_delayable_request_start_ := last_non_delayable_request_start_ c;
     last_non_delayable_request_end_ := last_non_delayable_request_end_ c;
     effective_connection_type_ := effective_connection_type_ c;
     p2p_connections_count_ := count;
     p2p_connections_count_active_timestamp_ := active;
     p2p_connections_count_end_timestamp_ := finish;
     p2p_connections_count_ended_timer_ := timer |}.

(** Modelled from the spec: the fixed default parameter set a client falls
    back to without a network-quality source, as the default constructor
    of [ParamsForNetworkQuality] (not among the sources) builds it: at most
    ten delayable requests per client, no weight on non-delayable
    requests, multiplexed-delay mode off, no maximum queuing time and no
    anticipation multiplier. *)
Definition ParamsForNetworkQuality_default : ParamsForNetworkQuality :=
  {| max_delayable_requests := 10;
     non_delayable_weight := double_of_Z 0;
     delay_requests_on_multiplexed_connections := false;
     max_queuing_time := None;
     http_rtt_multiplier_for_proactive_throttling := None |}.

Section Methods.

Variable cx : Context.

(** [Client::UpdateParamsForNetworkQuality]. *)
Definition UpdateParamsForNetworkQuality (c : t) : t :=
  with_network_quality c (effective_connection_type_ c)
    (GetParamsForEffectiveConnectionType (resource_scheduler_params_manager_ cx)
       (if network_quality_estimator_ c
        then effective_connection_type_ c
        else net.EFFECTIVE_CONNECTION_TYPE_UNKNOWN)).

(** The constructor. *)
Definition new (this : positive) (is_browser_client : bool)
    (network_quality_estimator : bool) : t :=
  let c :=
    {| this_ := this;
       pending_requests_ := RequestQueue.empty;
       in_flight_requests_ := ∅;
       is_browser_client_ := is_browser_client;
       in_flight_delayable_count_ := 0;
       total_layout_blocking_count_ := 0;
       num_skipped_scans_due_to_scheduled_start_ := 0;
       network_quality_estimator_ := network_quality_estimator;
       params_for_network_quality_ := ParamsForNetworkQuality_default;
       last_non_delayable_request_start_ := None;
       last_non_delayable_request_end_ := None;
       effective_connection_type_ := net.EFFECTIVE_CONNECTION_TYPE_UNKNOWN;
       p2p_connections_count_ := 0;
       p2p_connections_count_active_timestamp_ := None;
       p2p_connections_count_end_timestamp_ := None;
       p2p_connections_count_ended_timer_ := false |} in
  if network_quality_estimator
  then UpdateParamsForNetworkQuality
         (with_network_quality c (GetEffectiveConnectionType (env cx))
            (params_for_network_quality_ c))
  else c.

Definition HasNoPendingRequests (c : t) : bool :=
  RequestQueue.IsEmpty (pending_requests_ c).

Definition IsActiveResourceSchedulerClient (c : t) : bool :=
  negb (RequestQueue.IsEmpty (pending_requests_ c))
  || negb (bool_decide (in_flight_requests_ c = ∅)).

(** [in_flight_requests_.size()]. *)
Definition in_flight_size (c : t) : Z := Z.of_nat (size (in_flight_requests_ c)).

Definition CountInflightDelayableRequests (c : t) : Z :=
  in_flight_delayable_count_ c.

Definition CountInflightNonDelayableRequests (c : t) : Z :=
  wrap_size_t (in_flight_size c - in_flight_delayable_count_ c).

Definition CountInflightLayoutBlockingRequests (c : t) : Z :=
  total_layout_blocking_count_ c.

(** The counting loop of [CountRequestsWithAttributes] over one container,
    continuing from [matching_request_count]. *)
Definition count_matching (st : Store) (attributes : RequestAttributes)
    (l : list positive) (matching_request_count : Z) : Z :=
  fold_left
    (fun n p =>
       if RequestAttributesAreSet (attributes_ (deref st p)) attributes
       then wrap_size_t (n + 1) else n)
    l matching_request_count.

(** [Client::CountRequestsWithAttributes]; [current_request] may be null. *)
Definition CountRequestsWithAttributes (c : t) (st : Store)
    (attributes : RequestAttributes) (current_request : option positive) : Z :=
  let matching_request_count :=
    count_matching st attributes (elements (in_flight_requests_ c)) 0 in
  if negb (RequestAttributesAreSet attributes kAttributeInFlight) then
    let matching_request_count :=
      count_matching st attributes
        (RequestQueue.queue_ (pending_requests_ c)) matching_request_count in
    match current_request with
    | Some r =>
        let current_request_is_pending :=
          bool_decide (r ∈ RequestQueue.queue_ (pending_requests_ c)) in
        if negb (bool_decide (r ∈ in_flight_requests_ c))
           && negb current_request_is_pending
        then
          if RequestAttributesAreSet (attributes_ (deref st r)) attributes
          then wrap_size_t (matching_request_count + 1)
          else matching_request_count
        else matching_request_count
    | None => matching_request_count
    end
  else matching_request_count.

(** [Client::SetRequestAttributes]. The two [DCHECK_EQ]s at its end compare
    the counters with [CountRequestsWithAttributes]. *)
Definition SetRequestAttributes (c : t) (st : Store) (request : positive)
    (attributes : RequestAttributes) : t * Store :=
  let old_attributes := attributes_ (deref st request) in
  if old_attributes =? attributes then (c, st)
  else
    let d := in_flight_delayable_count_ c in
    let l := total_layout_blocking_count_ c in
    let d :=
      if RequestAttributesAreSet old_attributes
           (Z.lor kAttributeInFlight kAttributeDelayable)
      then wrap_size_t (d - 1) else d in
    let l :=
      if RequestAttributesAreSet old_attributes kAttributeLayoutBlocking
      then wrap_size_t (l - 1) else l in
    let d :=
      if RequestAttributesAreSet attributes
           (Z.lor kAttributeInFlight kAttributeDelayable)
      then wrap_size_t (d + 1) else d in
    let l :=
      if RequestAttributesAreSet attributes kAttributeLayoutBlocking
      then wrap_size_t (l + 1) else l in
    (with_counts c d l,
     store_request st request (set_attributes (deref st request) attributes)).

(** [Client::DetermineRequestAttributes]. *)
Definition DetermineRequestAttributes (c : t) (st : Store)
    (request : positive) : RequestAttributes :=
  let attributes := kAttributeNone in
  let attributes :=
    if bool_decide (request ∈ in_flight_requests_ c)
    then Z.lor attributes kAttributeInFlight else attributes in
  if RequestAttributesAreSet (attributes_ (deref st request))
       kAttributeLayoutBlocking
  then Z.lor attributes kAttributeLayoutBlocking
  else if net.ordinal (net.priority (url_request st request))
          <? net.ordinal kDelayablePriorityThreshold
  then
    if delay_requests_on_multiplexed_connections (params_for_network_quality_ c)
    then Z.lor attributes kAttributeDelayable
    else
      if negb (SupportsRequestPriority (env cx)
                 (net.url (url_request st request))
                 (net.network_isolation_key (url_request st request)))
      then Z.lor attributes kAttributeDelayable
      else attributes
  else attributes.

(** The loop of [ReachedMaxRequestsPerHostPerClient], with its early
    return. *)
Fixpoint same_host_loop (st : Store) (active_request_host : net.HostPortPair)
    (l : list positive) (same_host_count : Z) : bool :=
  match l with
  | [] => false
  | p :: l' =>
      if net.HostPortPair_Equals active_request_host
           (host_port_pair_ (deref st p))
      then
        let same_host_count := wrap_size_t (same_host_count + 1) in
        if same_host_count >=? kMaxNumDelayableRequestsPerHostPerClient
        then true
        else same_host_loop st active_request_host l' same_host_count
      else same_host_loop st active_request_host l' same_host_count
  end.

(** [Client::ReachedMaxRequestsPerHostPerClient]. *)
Definition ReachedMaxRequestsPerHostPerClient (c : t) (st : Store)
    (active_request_host : net.HostPortPair) (supports_priority : bool) : bool :=
  if supports_priority
     && delay_requests_on_multiplexed_connections (params_for_network_quality_ c)
  then false
  else same_host_loop st active_request_host
         (elements (in_flight_requests_ c)) 0.

(** [Client::InsertInFlightRequest]. *)
Definition InsertInFlightRequest (c : t) (st : Store) (request : positive)
    : t * Store :=
  let c := with_in_flight_requests c ({[request]} ∪ in_flight_requests_ c) in
  let '(c, st) :=
    SetRequestAttributes c st request (DetermineRequestAttributes c st request) in
  let st :=
    if RequestAttributesAreSet (attributes_ (deref st request)) kAttributeDelayable
    then
      foldr
        (fun p st =>
           store_request st p
             (UpdateDelayableRequestsInFlight (deref st p)
                (in_flight_delayable_count_ c)))
        st (elements (in_flight_requests_ c))
    else st in
  let st :=
    if RequestAttributesAreSet (attributes_ (deref st request))
         kAttributeLayoutBlocking
       || negb (RequestAttributesAreSet (attributes_ (deref st request))
                  kAttributeDelayable)
    then store_request st request
           (UpdateDelayableRequestsInFlight (deref st request)
              (in_flight_delayable_count_ c))
    else st in
  (c, st).

(** [Client::EraseInFlightRequest]. *)
Definition EraseInFlightRequest (c : t) (st : Store) (request : positive)
    : t * Store :=
  let c := with_in_flight_requests c (in_flight_requests_ c ∖ {[request]}) in
  SetRequestAttributes c st request kAttributeNone.

(** [Client::ClearInFlightRequests]. *)
Definition ClearInFlightRequests (c : t) : t :=
  with_counts (with_in_flight_requests c ∅) 0 0.

(** [Client::StartRequest]. *)
Definition StartRequest (c : t) (st : Store) (request : positive)
    (start_mode : StartMode) (trigger : RequestStartTrigger) : t * Store :=
  let ticks_now := NowTicks (env cx) in
  let c :=
    if negb (RequestAttributesAreSet (attributes_ (deref st request))
               kAttributeDelayable)
    then with_last_non_delayable c (Some ticks_now)
           (last_non_delayable_request_end_ c)
    else c in
  let '(c, st) := InsertInFlightRequest c st request in
  (c, Start st request start_mode).

(** [Client::ShouldThrottleBrowserInitiatedRequestDueToP2PConnections].
    [None] is the failed check of [value()] on an empty optional. *)
Definition ShouldThrottleBrowserInitiatedRequestDueToP2PConnections
    (c : t) (st : Store) (request : positive) : option bool :=
  let mgr := resource_scheduler_params_manager_ cx in
  if negb (kPauseBrowserInitiatedHeavyTrafficForP2P (env cx)) then Some false
  else
    let ended_long_back_or_never :=
      if p2p_connections_count_ c =? 0 then
        match p2p_connections_count_end_timestamp_ c with
        | None => true
        | Some ended =>
            TimeTicks_sub (NowTicks (env cx)) ended
            >=? TimeToPauseHeavyBrowserInitiatedRequestsAfterEndOfP2PConnections mgr
        end
      else false in
    if ended_long_back_or_never then Some false
    else if (net.ect_ordinal (effective_connection_type_ c)
             <=? net.ect_ordinal net.EFFECTIVE_CONNECTION_TYPE_OFFLINE)
            || (net.ect_ordinal (effective_connection_type_ c)
                >=? net.ect_ordinal net.EFFECTIVE_CONNECTION_TYPE_4G)
    then Some false
    else if bool_decide (net.priority (url_request st request) = net.HIGHEST)
    then Some false
    else
      let check_annotation :=
        if negb (CanThrottleNetworkTrafficAnnotationHash mgr
                   (net.traffic_annotation_hash (url_request st request)))
        then Some false else Some true in
      if p2p_connections_count_ c >? 0 then
        match p2p_connections_count_active_timestamp_ c,
              max_wait_time_p2p_connections mgr with
        | Some active, Some max_wait =>
            if TimeTicks_sub (NowTicks (env cx)) active >? max_wait
            then Some false
            else check_annotation
        | _, _ => None
        end
      else check_annotation.

(** [Client::IsNonDelayableRequestAnticipated]. [None] is the dereference
    of a null estimator. *)
Definition IsNonDelayableRequestAnticipated (c : t) : option bool :=
  match http_rtt_multiplier_for_proactive_throttling
          (params_for_network_quality_ c) with
  | None => Some false
  | Some http_rtt_multiplier =>
      if double_le http_rtt_multiplier (double_of_Z 0)
      then Some false
      else
        match last_non_delayable_request_start_ c with
        | None => Some false
        | Some last_start =>
            if negb (network_quality_estimator_ c) then None
            else
              match GetHttpRTT (env cx) with
              | None => Some false
              | Some http_rtt =>
                  let threshold_for_proactive_throttling :=
                    TimeDelta_mul http_rtt http_rtt_multiplier in
                  let time_since_last_non_delayable_request_start :=
                    TimeTicks_sub (NowTicks (env cx)) last_start in
                  if time_since_last_non_delayable_request_start
                     >=? threshold_for_proactive_throttling
                  then Some false
                  else Some true
              end
        end
  end.

(** The global delayable cap tested by [ShouldStartRequest]. *)
Definition num_non_delayable_requests_weighted (c : t) : Z :=
  double_to_size_t
    (double_mul (non_delayable_weight (params_for_network_quality_ c))
       (double_of_Z (wrap_size_t (in_flight_size c - in_flight_delayable_count_ c)))).

(** [Client::ShouldStartRequest], the main scheduling algorithm. *)
Definition ShouldStartRequest (c : t) (st : Store) (request : positive)
    : option ShouldStartReqResult :=
  if negb (enabled cx) then Some START_REQUEST
  else if is_browser_client_ c then
    match ShouldThrottleBrowserInitiatedRequestDueToP2PConnections c st request with
    | None => None
    | Some true => Some DO_NOT_START_REQUEST_AND_KEEP_SEARCHING
    | Some false => Some START_REQUEST
    end
  else
    let url_request := url_request st request in
    if negb (is_async_ (deref st request)) then Some START_REQUEST
    else if negb (net.SchemeIsHTTPOrHTTPS (net.url url_request))
    then Some START_REQUEST
    else if match max_queuing_time (params_for_network_quality_ c) with
            | Some max_queuing_time =>
                TimeTicks_sub (NowTicks (env cx)) (net.creation_time url_request)
                >=? max_queuing_time
            | None => false
            end
    then Some START_REQUEST
    else
      let host_port_pair := host_port_pair_ (deref st request) in
      let priority_delayable :=
        delay_requests_on_multiplexed_connections (params_for_network_quality_ c) in
      let supports_priority :=
        SupportsRequestPriority (env cx) (net.url url_request)
          (net.network_isolation_key url_request) in
      if (if negb priority_delayable then supports_priority else false)
      then Some START_REQUEST
      else if negb (RequestAttributesAreSet (attributes_ (deref st request))
                      kAttributeDelayable)
      then Some START_REQUEST
      else if wrap_size_t (in_flight_delayable_count_ c
                           + num_non_delayable_requests_weighted c)
              >=? max_delayable_requests (params_for_network_quality_ c)
      then Some DO_NOT_START_REQUEST_AND_STOP_SEARCHING
      else if ReachedMaxRequestsPerHostPerClient c st host_port_pair
                supports_priority
      then Some DO_NOT_START_REQUEST_AND_KEEP_SEARCHING
      else
        let after_layout_blocking_phase :=
          match IsNonDelayableRequestAnticipated c with
          | None => None
          | Some true => Some DO_NOT_START_REQUEST_AND_STOP_SEARCHING
          | Some false => Some START_REQUEST
          end in
        if negb (total_layout_blocking_count_ c =? 0) then
          let non_delayable_requests_in_flight_count :=
            wrap_size_t (in_flight_size c - in_flight_delayable_count_ c) in
          if non_delayable_requests_in_flight_count
             >? kInFlightNonDelayableRequestCountPerClientThreshold
          then Some DO_NOT_START_REQUEST_AND_STOP_SEARCHING
          else if (in_flight_size c >? 0)
                  && (in_flight_delayable_count_ c
                      >=? kMaxNumDelayableWhileLayoutBlockingPerClient)
          then Some DO_NOT_START_REQUEST_AND_STOP_SEARCHING
          else after_layout_blocking_phase
        else after_layout_blocking_phase.

(** [Client::ScheduleLoadAnyStartablePendingRequests]. *)
Definition ScheduleLoadAnyStartablePendingRequests (c : t) (st : Store)
    (trigger : RequestStartTrigger) : t * Store :=
  let st :=
    if num_skipped_scans_due_to_scheduled_start_ c =? 0
    then PostTask st (LoadAnyStartablePendingRequestsTask (this_ c) trigger)
    else st in
  (with_num_skipped_scans c
     (wrap_int (num_skipped_scans_due_to_scheduled_start_ c + 1)),
   st).

(** The loop of [LoadAnyStartablePendingRequests]. The inner recursion walks
    [request_iter] forward while requests are skipped; after a start the
    walk begins again at the head of the queue, which is then one shorter,
    so that [restarts], taken as the length of the queue, is never
    exhausted (lemma [LoadAnyStartablePendingRequests_total]). [None] is a
    failed check, as in the functions called. *)
Fixpoint LoadLoop (restarts : nat) (trigger : RequestStartTrigger)
    (c : t) (st : Store) (request_iter : list positive) {struct restarts}
    : option (t * Store) :=
  (fix walk (request_iter : list positive) : option (t * Store) :=
     match request_iter with
     | [] => Some (c, st)
     | request :: next =>
         match ShouldStartRequest c st request with
         | None => None
         | Some START_REQUEST =>
             match RequestQueue.Erase (pending_requests_ c) request with
             | None => None
             | Some q =>
                 let '(c1, st1) :=
                   StartRequest (with_pending_requests c q) st request
                     START_ASYNC trigger in
                 match RequestQueue.queue_ (pending_requests_ c1) with
                 | [] => Some (c1, st1)
                 | _ :: _ =>
                     match restarts with
                     | O => None
                     | S restarts' =>
                         LoadLoop restarts' trigger c1 st1
                           (RequestQueue.queue_ (pending_requests_ c1))
                     end
                 end
             end
         | Some DO_NOT_START_REQUEST_AND_KEEP_SEARCHING => walk next
         | Some DO_NOT_START_REQUEST_AND_STOP_SEARCHING => Some (c, st)
         end
     end) request_iter.

(** [Client::LoadAnyStartablePendingRequests]. *)
Definition LoadAnyStartablePendingRequests (c : t) (st : Store)
    (trigger : RequestStartTrigger) : option (t * Store) :=
  let c := with_num_skipped_scans c 0 in
  LoadLoop (length (RequestQueue.queue_ (pending_requests_ c))) trigger c st
    (RequestQueue.queue_ (pending_requests_ c)).

(** [Client::ScheduleRequest]. *)
Definition ScheduleRequest (c : t) (st : Store) (request : positive)
    : option (t * Store) :=
  let '(c, st) :=
    SetRequestAttributes c st request (DetermineRequestAttributes c st request) in
  match ShouldStartRequest c st request with
  | None => None
  | Some START_REQUEST => Some (StartRequest c st request START_SYNC NONE)
  | Some _ =>
      let '(q, st) := RequestQueue.Insert (pending_requests_ c) st request in
      Some (with_pending_requests c q, st)
  end.

(** [Client::RemoveRequest]. *)
Definition RemoveRequest (c : t) (st : Store) (request : positive)
    : option (t * Store) :=
  if RequestQueue.IsQueued (pending_requests_ c) request then
    match RequestQueue.Erase (pending_requests_ c) request with
    | None => None
    | Some q => Some (with_pending_requests c q, st)
    end
  else
    let c :=
      if negb (RequestAttributesAreSet (attributes_ (deref st request))
                 kAttributeDelayable)
      then with_last_non_delayable c (last_non_delayable_request_start_ c)
             (Some (NowTicks (env cx)))
      else c in
    let '(c, st) := EraseInFlightRequest c st request in
    LoadAnyStartablePendingRequests c st COMPLETION_POST_BODY.

(** The first loop of [StartAndRemoveAllRequests]: start the head of the
    queue until the queue is empty. Every round removes the head, so
    [rounds], taken as the length of the queue, is never exhausted. *)
Fixpoint StartAllPending (rounds : nat) (c : t) (st : Store)
    : option (t * Store) :=
  match RequestQueue.queue_ (pending_requests_ c) with
  | [] => Some (c, st)
  | request :: _ =>
      match rounds with
      | O => None
      | S rounds' =>
          match RequestQueue.Erase (pending_requests_ c) request with
          | None => None
          | Some q =>
              let '(c1, st1) :=
                StartRequest (with_pending_requests c q) st request
                  START_ASYNC CLIENT_KILL in
              StartAllPending rounds' c1 st1
          end
      end
  end.

(** [Client::StartAndRemoveAllRequests]; the third component is the set of
    requests handed back as unowned. *)
Definition StartAndRemoveAllRequests (c : t) (st : Store)
    : option (t * Store * gset positive) :=
  match StartAllPending (length (RequestQueue.queue_ (pending_requests_ c))) c st with
  | None => None
  | Some (c, st) =>
      let unowned_requests := in_flight_requests_ c in
      let st :=
        foldr
          (fun p st => store_request st p (set_attributes (deref st p) kAttributeNone))
          st (elements (in_flight_requests_ c)) in
      Some (ClearInFlightRequests c, st, unowned_requests)
  end.

(** [Client::ReprioritizeRequest]. *)
Definition ReprioritizeRequest (c : t) (st : Store) (request : positive)
    (old_priority_params new_priority_params : RequestPriorityParams)
    : option (t * Store) :=
  let st :=
    with_url_requests st
      (<[request_ (deref st request) :=
           net.SetPriority (url_request st request)
             (rp_priority new_priority_params)]> (url_requests st)) in
  let st :=
    store_request st request
      (set_request_priority_params (deref st request) new_priority_params) in
  let '(c, st) :=
    SetRequestAttributes c st request (DetermineRequestAttributes c st request) in
  if negb (RequestQueue.IsQueued (pending_requests_ c) request) then Some (c, st)
  else
    match RequestQueue.Erase (pending_requests_ c) request with
    | None => None
    | Some q =>
        let '(q, st) := RequestQueue.Insert q st request in
        let c := with_pending_requests c q in
        if net.ordinal (rp_priority old_priority_params)
           <? net.ordinal (rp_priority new_priority_params)
        then Some (ScheduleLoadAnyStartablePendingRequests c st
                     REQUEST_REPRIORITIZED)
        else Some (c, st)
    end.

(** [Client::OnLongQueuedRequestsDispatchTimerFired]. *)
Definition OnLongQueuedRequestsDispatchTimerFired (c : t) (st : Store)
    : option (t * Store) :=
  LoadAnyStartablePendingRequests c st LONG_QUEUED_REQUESTS_TIMER_FIRED.

(** [Client::OnEffectiveConnectionTypeChanged]. *)
Definition OnEffectiveConnectionTypeChanged (c : t) (st : Store)
    (effective_connection_type : net.EffectiveConnectionType)
    : option (t * Store) :=
  if bool_decide (effective_connection_type_ c = effective_connection_type)
  then Some (c, st)
  else
    let c :=
      UpdateParamsForNetworkQuality
        (with_network_quality c effective_connection_type
           (params_for_network_quality_ c)) in
    LoadAnyStartablePendingRequests c st EFFECTIVE_CONNECTION_TYPE_CHANGED.

(** [Client::OnPeerToPeerConnectionsCountChange]; [count] is a
    [uint32_t]. *)
Definition OnPeerToPeerConnectionsCountChange (c : t) (st : Store) (count : Z)
    : option (t * Store) :=
  if p2p_connections_count_ c =? count then Some (c, st)
  else
    let went_down := (p2p_connections_count_ c >? 0) && (count =? 0) in
    let finish :=
      if went_down then Some (NowTicks (env cx))
      else p2p_connections_count_end_timestamp_ c in
    let timer :=
      if went_down then true else p2p_connections_count_ended_timer_ c in
    let active := p2p_connections_count_active_timestamp_ c in
    let active :=
      if (count >? 0) && negb (bool_decide (is_Some active))
      then Some (TimeTicks_Now (env cx)) else active in
    let active :=
      if (count =? 0) && bool_decide (is_Some active) then None else active in
    LoadAnyStartablePendingRequests (with_p2p c count active finish timer) st
      PEER_TO_PEER_CONNECTIONS_COUNT_CHANGED.

(** [Client::OnP2PConnectionsCountEndedTimerFired]; the one-shot timer has
    stopped when its task runs. *)
Definition OnP2PConnectionsCountEndedTimerFired (c : t) (st : Store)
    : option (t * Store) :=
  LoadAnyStartablePendingRequests
    (with_p2p c (p2p_connections_count_ c)
       (p2p_connections_count_active_timestamp_ c)
       (p2p_connections_count_end_timestamp_ c) false)
    st PEER_TO_PEER_CONNECTIONS_COUNT_CHANGED.

End Methods.

End Client.

(** ** ResourceScheduler, the registry *)

Module ResourceScheduler.

(** [long_queued_requests_dispatch_timer_] tells whether the timer is
    running. *)
Record t : Type := {
  store : Store;
  client_map_ : gmap Z Client.t;
  unowned_requests_ : gset positive;
  enabled_ : bool;
  params_manager_ : ResourceSchedulerParamsManager;
  long_queued_requests_dispatch_timer_ : bool;
}.

Definition with_store (s : t) (st : Store) : t :=
  {| store := st; client_map_ := client_map_ s;
     unowned_requests_ := unowned_requests_ s; enabled_ := enabled_ s;
     params_manager_ := params_manager_ s;
     long_queued_requests_dispatch_timer_ :=
       long_queued_requests_dispatch_timer_ s |}.

Definition with_client_map (s : t) (m : gmap Z Client.t) : t :=
  {| store := store s; client_map_ := m;
     unowned_requests_ := unowned_requests_ s; enabled_ := enabled_ s;
     params_manager_ := params_manager_ s;
     long_queued_requests_dispatch_timer_ :=
       long_queued_requests_dispatch_timer_ s |}.

Definition with_unowned_requests (s : t) (u : gset positive) : t :=
  {| store := store s; client_map_ := client_map_ s;
     unowned_requests_ := u; enabled_ := enabled_ s;
     params_manager_ := params_manager_ s;
     long_queued_requests_dispatch_timer_ :=
       long_queued_requests_dispatch_timer_ s |}.

Definition with_timer (s : t) (running : bool) : t :=
  {| store := store s; client_map_ := client_map_ s;
     unowned_requests_ := unowned_requests_ s; enabled_ := enabled_ s;
     params_manager_ := params_manager_ s;
     long_queued_requests_dispatch_timer_ := running |}.

Definition with_params_manager (s : t) (m : ResourceSchedulerParamsManager) : t :=
  {| store := store s; client_map_ := client_map_ s;
     unowned_requests_ := unowned_requests_ s; enabled_ := enabled_ s;
     params_manager_ := m;
     long_queued_requests_dispatch_timer_ :=
       long_queued_requests_dispatch_timer_ s |}.

(** The context a client method runs in. *)
Definition context (e : Env) (s : t) : Context :=
  {| env := e; enabled := enabled_ s;
     resource_scheduler_params_manager_ := params_manager_ s |}.

(** [ResourceScheduler::MakeClientId]; a [ClientId] is an [int64_t]. *)
Definition MakeClientId (child_id route_id : Z) : Z :=
  wrap_int64 (Z.lor (wrap_int64 (Z.shiftl child_id 32)) route_id).

(** [ResourceScheduler::GetQueuedRequestsDispatchPeriodicity], in
    microseconds. *)
Definition GetQueuedRequestsDispatchPeriodicity (e : Env) : Z :=
  if negb (kProactivelyThrottleLowPriorityRequests e)
  then 5 * 1000000
  else 100 * 1000.

(** [ResourceScheduler::StartLongQueuedRequestsDispatchTimerIfNeeded]. *)
Definition StartLongQueuedRequestsDispatchTimerIfNeeded (s : t) : t :=
  let pending_request_found :=
    existsb (fun kc => negb (Client.HasNoPendingRequests kc.2))
      (map_to_list (client_map_ s)) in
  if negb pending_request_found then s else with_timer s true.

(** The constructor; the task runner starts with no task posted. *)
Definition new (enabled : bool) (manager : ResourceSchedulerParamsManager) : t :=
  StartLongQueuedRequestsDispatchTimerIfNeeded
    {| store := {| requests := ∅; url_requests := ∅;
                   posted_tasks := []; resumed := [] |};
       client_map_ := ∅; unowned_requests_ := ∅; enabled_ := enabled;
       params_manager_ := manager;
       long_queued_requests_dispatch_timer_ := false |}.

(** The constructor of [ScheduledResourceRequestImpl], as
    [ScheduleRequest] calls it. *)
Definition ScheduledResourceRequestImpl_new (client_id : Z)
    (request : positive) (u : net.URLRequest)
    (priority : RequestPriorityParams) (is_async : bool)
    : ScheduledResourceRequestImpl :=
  {| client_id_ := client_id; request_ := request; ready_ := false;
     deferred_ := false; is_async_ := is_async;
     attributes_ := kAttributeNone; priority_ := priority;
     fifo_ordering_ := 0; peak_delayable_requests_in_flight_ := 0;
     host_port_pair_ := net.HostPortPair_FromURL (net.url u) |}.

Section Operations.

(** Constants of headers that are not among the sources:
    [net::LOAD_IGNORE_LIMITS] and [mojom::kBrowserProcessId]. *)
Variable LOAD_IGNORE_LIMITS : Z.
Variable kBrowserProcessId : Z.

(** What the caller and the collaborators supply during the call. *)
Variable e : Env.

(** [ResourceScheduler::ScheduleRequest]. [handle] is the address of the
    [ScheduledResourceRequestImpl] that [new] allocates; the result owns
    it. *)
Definition ScheduleRequest (s : t) (child_id route_id : Z) (is_async : bool)
    (url_request handle : positive) : option t :=
  let client_id := MakeClientId child_id route_id in
  let u := url_requests (store s) !!! url_request in
  let request :=
    ScheduledResourceRequestImpl_new client_id url_request u
      {| rp_priority := net.priority u; intra_priority := 0 |} is_async in
  let st :=
    with_url_requests
      (store_request (store s) handle request)
      (<[url_request := net.SetUserData u (Some handle)]>
         (url_requests (store s))) in
  match client_map_ s !! client_id with
  | None =>
      Some (with_store
              (with_unowned_requests s ({[handle]} ∪ unowned_requests_ s))
              (Start st handle START_SYNC))
  | Some client =>
      match Client.ScheduleRequest (context e s) client st handle with
      | None => None
      | Some (client, st) =>
          let s := with_store (with_client_map s
                                 (<[client_id := client]> (client_map_ s))) st in
          if negb (long_queued_requests_dispatch_timer_ s)
          then Some (StartLongQueuedRequestsDispatchTimerIfNeeded s)
          else Some s
      end
  end.

(** [ResourceScheduler::RemoveRequest]. *)
Definition RemoveRequest (s : t) (request : positive) : option t :=
  if bool_decide (request ∈ unowned_requests_ s)
  then Some (with_unowned_requests s (unowned_requests_ s ∖ {[request]}))
  else
    match client_map_ s !! client_id_ (deref (store s) request) with
    | None => Some s
    | Some client =>
        match Client.RemoveRequest (context e s) client (store s) request with
        | None => None
        | Some (client, st) =>
            Some (with_store
                    (with_client_map s
                       (<[client_id_ (deref (store s) request) := client]>
                          (client_map_ s)))
                    st)
        end
    end.

(** The destructor of [ScheduledResourceRequestImpl]: detaches the handle
    from its request and from the scheduler. The handle leaves the heap, and
    the tasks bound to weak pointers to it, which would do nothing, leave
    the task queue. *)
Definition DestroyRequest (s : t) (request : positive) : option t :=
  let u := request_ (deref (store s) request) in
  let st :=
    with_url_requests (store s)
      (<[u := net.SetUserData (url_requests (store s) !!! u) None]>
         (url_requests (store s))) in
  match RemoveRequest (with_store s st) request with
  | None => None
  | Some s =>
      let st := store s in
      Some (with_store s
              {| requests := delete request (requests st);
                 url_requests := url_requests st;
                 posted_tasks :=
                   filter (fun t => t ≠ StartTask request) (posted_tasks st);
                 resumed := resumed st |})
  end.

(** [ResourceScheduler::OnClientCreated]; [this] is the address of the new
    client. *)
Definition OnClientCreated (s : t) (child_id route_id : Z)
    (network_quality_estimator : bool) (this : positive) : t :=
  let client_id := MakeClientId child_id route_id in
  with_client_map s
    (<[client_id :=
         Client.new (context e s) this (child_id =? kBrowserProcessId)
           network_quality_estimator]> (client_map_ s)).

(** [ResourceScheduler::OnClientDeleted]. [None] is a failed [CHECK]. With
    the client go the tasks bound to weak pointers to it. *)
Definition OnClientDeleted (s : t) (child_id route_id : Z) : option t :=
  let client_id := MakeClientId child_id route_id in
  match client_map_ s !! client_id with
  | None => None
  | Some client =>
      match Client.StartAndRemoveAllRequests (context e s) client (store s) with
      | None => None
      | Some (_, st, client_unowned_requests) =>
          let st :=
            {| requests := requests st; url_requests := url_requests st;
               posted_tasks :=
                 filter (fun t => bound_to_client (Client.this_ client) t = false)
                   (posted_tasks st);
               resumed := resumed st |} in
          Some (with_client_map
                  (with_unowned_requests (with_store s st)
                     (client_unowned_requests ∪ unowned_requests_ s))
                  (delete client_id (client_map_ s)))
      end
  end.

(** [ResourceScheduler::ActiveSchedulerClientsCounter]. *)
Definition ActiveSchedulerClientsCounter (s : t) : Z :=
  Z.of_nat
    (length (filter (fun kc => Client.IsActiveResourceSchedulerClient kc.2 = true)
               (map_to_list (client_map_ s)))).

(** The loop of [OnLongQueuedRequestsDispatchTimerFired] over the clients. *)
Fixpoint fire_clients (s : t) (ids : list Z) : option t :=
  match ids with
  | [] => Some s
  | client_id :: ids' =>
      match client_map_ s !! client_id with
      | None => fire_clients s ids'
      | Some client =>
          match Client.OnLongQueuedRequestsDispatchTimerFired (context e s)
                  client (store s) with
          | None => None
          | Some (client, st) =>
              fire_clients
                (with_store
                   (with_client_map s (<[client_id := client]> (client_map_ s)))
                   st)
                ids'
          end
      end
  end.

(** [ResourceScheduler::OnLongQueuedRequestsDispatchTimerFired]. *)
Definition OnLongQueuedRequestsDispatchTimerFired (s : t) : option t :=
  match fire_clients (with_timer s false) (map_to_list (client_map_ s)).*1 with
  | None => None
  | Some s => Some (StartLongQueuedRequestsDispatchTimerIfNeeded s)
  end.

(** [ResourceScheduler::ReprioritizeRequest] with an intra-priority. *)
Definition ReprioritizeRequest (s : t) (request : positive)
    (new_priority : net.RequestPriority) (new_intra_priority_value : Z)
    : option t :=
  let u := url_requests (store s) !!! request in
  if negb (Z.land (net.load_flags u) LOAD_IGNORE_LIMITS =? 0) then Some s
  else
    let set_priority (st : Store) (p : net.RequestPriority) : Store :=
      with_url_requests st
        (<[request := net.SetPriority (url_requests st !!! request) p]>
           (url_requests st)) in
    match net.user_data u with
    | None => Some (with_store s (set_priority (store s) new_priority))
    | Some scheduled_resource_request =>
        let new_priority_params :=
          {| rp_priority := new_priority;
             intra_priority := new_intra_priority_value |} in
        let old_priority_params :=
          priority_ (deref (store s) scheduled_resource_request) in
        if params_eq old_priority_params new_priority_params then Some s
        else
          match client_map_ s
                !! client_id_ (deref (store s) scheduled_resource_request) with
          | None =>
              let st := set_priority (store s) (rp_priority new_priority_params) in
              Some (with_store s
                      (store_request st scheduled_resource_request
                         (set_request_priority_params
                            (deref st scheduled_resource_request)
                            new_priority_params)))
          | Some client =>
              match Client.ReprioritizeRequest (context e s) client (store s)
                      scheduled_resource_request old_priority_params
                      new_priority_params with
              | None => None
              | Some (client, st) =>
                  Some (with_store
                          (with_client_map s
                             (<[client_id_ (deref (store s)
                                              scheduled_resource_request)
                                := client]> (client_map_ s)))
                          st)
              end
          end
    end.

(** [ResourceScheduler::ReprioritizeRequest] without an intra-priority. *)
Definition ReprioritizeRequest_priority (s : t) (request : positive)
    (new_priority : net.RequestPriority) : option t :=
  let current_intra_priority :=
    match net.user_data (url_requests (store s) !!! request) with
    | Some existing_request =>
        intra_priority (priority_ (deref (store s) existing_request))
    | None => 0
    end in
  ReprioritizeRequest s request new_priority current_intra_priority.

(** [ResourceScheduler::SetResourceSchedulerParamsManagerForTests]. *)
Definition SetResourceSchedulerParamsManagerForTests (s : t)
    (manager : ResourceSchedulerParamsManager) : t :=
  let s := with_params_manager s manager in
  with_client_map s
    (Client.UpdateParamsForNetworkQuality (context e s) <$> client_map_ s).

(** [ResourceScheduler::DispatchLongQueuedRequestsForTesting]. *)
Definition DispatchLongQueuedRequestsForTesting (s : t) : option t :=
  OnLongQueuedRequestsDispatchTimerFired (with_timer s false).

(** The task runner runs the oldest posted task. A task bound to a client
    finds it by its address. *)
Definition RunTask (s : t) : option t :=
  match posted_tasks (store s) with
  | [] => Some s
  | task :: rest =>
      let st :=
        {| requests := requests (store s);
           url_requests := url_requests (store s);
           posted_tasks := rest; resumed := resumed (store s) |} in
      let s := with_store s st in
      match task with
      | StartTask request =>
          if bool_decide (request ∈ dom (requests st))
          then Some (with_store s (Start st request START_SYNC))
          else Some s
      | LoadAnyStartablePendingRequestsTask this trigger =>
          match filter (fun kc => Client.this_ kc.2 = this)
                  (map_to_list (client_map_ s)) with
          | (client_id, client) :: _ =>
              match Client.LoadAnyStartablePendingRequests (context e s)
                      client st trigger with
              | None => None
              | Some (client, st) =>
                  Some (with_store
                          (with_client_map s
                             (<[client_id := client]> (client_map_ s)))
                          st)
              end
          | [] => Some s
          end
      end
  end.

End Operations.

End ResourceScheduler.

(** ** The sub-conditions of the admission decision, by name *)

Section Conditions.

Variable cx : Context.

(** The request has been queued for at least [max_queuing_time]. *)
Definition queued_too_long (c : Client.t) (st : Store) (request : positive) : bool :=
  match max_queuing_time (Client.params_for_network_quality_ c) with
  | Some max_queuing_time =>
      TimeTicks_sub (NowTicks (env cx))
        (net.creation_time (url_request st request))
      >=? max_queuing_time
  | None => false
  end.

(** [supports_priority] in [ShouldStartRequest]. *)
Definition supports_priority (st : Store) (request : positive) : bool :=
  SupportsRequestPriority (env cx) (net.url (url_request st request))
    (net.network_isolation_key (url_request st request)).

(** None of the rules of [ShouldStartRequest] that come before the caps on
    delayable requests decides: the scheduler is enabled, the client is a
    renderer, the request is asynchronous, HTTP or HTTPS, not queued for too
    long, not exempt as a request to a priority-capable host, and marked
    delayable. *)
Definition reaches_delayable_caps (c : Client.t) (st : Store)
    (request : positive) : bool :=
  enabled cx
  && negb (Client.is_browser_client_ c)
  && is_async_ (deref st request)
  && net.SchemeIsHTTPOrHTTPS (net.url (url_request st request))
  && negb (queued_too_long c st request)
  && negb (negb (delay_requests_on_multiplexed_connections
                   (Client.params_for_network_quality_ c))
           && supports_priority st request)
  && RequestAttributesAreSet (attributes_ (deref st request)) kAttributeDelayable.

(** The global cap on delayable requests holds. *)
Definition global_delayable_cap_reached (c : Client.t) : bool :=
  wrap_size_t (Client.in_flight_delayable_count_ c
               + Client.num_non_delayable_requests_weighted c)
  >=? max_delayable_requests (Client.params_for_network_quality_ c).

(** The per-host cap holds for the host of the request. *)
Definition per_host_cap_reached (c : Client.t) (st : Store)
    (request : positive) : bool :=
  Client.ReachedMaxRequestsPerHostPerClient c st
    (host_port_pair_ (deref st request)) (supports_priority st request).

End Conditions.

(** ** Concrete inputs *)

Module Example.

Definition kBrowserProcessId : Z := 0.

(** [net::LOAD_IGNORE_LIMITS] is one bit of the load flags; which one does
    not matter below. *)
Definition LOAD_IGNORE_LIMITS : Z := 2 ^ 6.

Definition params_multiplexed_delay : ParamsForNetworkQuality :=
  {| max_delayable_requests := 10;
     non_delayable_weight := double_of_Z 0;
     delay_requests_on_multiplexed_connections := true;
     max_queuing_time := None;
     http_rtt_multiplier_for_proactive_throttling := None |}.

Definition manager (p : ParamsForNetworkQuality) : ResourceSchedulerParamsManager :=
  {| GetParamsForEffectiveConnectionType := fun _ => p;
     TimeToPauseHeavyBrowserInitiatedRequestsAfterEndOfP2PConnections := 0;
     max_wait_time_p2p_connections := None;
     CanThrottleNetworkTrafficAnnotationHash := fun _ => false |}.

(** An environment in which every host does ([true]) or does not ([false])
    support request priorities. *)
Definition environment (supports : bool) : Env :=
  {| NowTicks := 1000; TimeTicks_Now := 1000;
     SupportsRequestPriority := fun _ _ => supports;
     GetHttpRTT := None;
     GetEffectiveConnectionType := net.EFFECTIVE_CONNECTION_TYPE_UNKNOWN;
     kPauseBrowserInitiatedHeavyTrafficForP2P := false;
     kProactivelyThrottleLowPriorityRequests := false |}.

Definition context (supports : bool) (p : ParamsForNetworkQuality) : Context :=
  {| env := environment supports; enabled := true;
     resource_scheduler_params_manager_ := manager p |}.

(** A request for [http://<host>:80/] at priority [p]. *)
Definition request_to (host : string) (p : net.RequestPriority)
    (flags : Z) : net.URLRequest :=
  {| net.url := {| net.scheme := "http"; net.host := host; net.port := 80 |};
     net.priority := p; net.load_flags := flags; net.creation_time := 900;
     net.status_is_success := true; net.network_isolation_key := 0;
     net.traffic_annotation_hash := 0; net.user_data := None |}.

(** A scheduler with one renderer client (child 1, route 1, at address 1,
    no network quality estimator) and the given requests created but not
    yet scheduled. *)
Definition scheduler_with (urls : list (positive * net.URLRequest))
    : ResourceScheduler.t :=
  let s := ResourceScheduler.new true (manager Client.ParamsForNetworkQuality_default) in
  let s :=
    ResourceScheduler.with_store s
      (with_url_requests (ResourceScheduler.store s) (list_to_map urls)) in
  ResourceScheduler.OnClientCreated kBrowserProcessId (environment false) s
    1 1 false 1%positive.

(** Schedules the requests at the addresses [l], in order, as asynchronous
    requests of the client; the handle of the request at [u] is allocated
    at [u + 100]. *)
Fixpoint schedule_all (s : ResourceScheduler.t) (l : list positive)
    : option ResourceScheduler.t :=
  match l with
  | [] => Some s
  | u :: l' =>
      match ResourceScheduler.ScheduleRequest (environment false) s 1 1 true
              u (u + 100)%positive with
      | None => None
      | Some s' => schedule_all s' l'
      end
  end.

Definition the_client (s : ResourceScheduler.t) : option Client.t :=
  ResourceScheduler.client_map_ s !! ResourceScheduler.MakeClientId 1 1.

(** What the client tracks: the handles in flight and the pending queue. *)
Definition in_flight_of (s : ResourceScheduler.t) : gset positive :=
  match the_client s with
  | Some c => Client.in_flight_requests_ c
  | None => ∅
  end.

Definition pending_of (s : ResourceScheduler.t) : list positive :=
  match the_client s with
  | Some c => RequestQueue.queue_ (Client.pending_requests_ c)
  | None => []
  end.

(** Eight requests to one host, at one priority. *)
Definition eight_requests (p : net.RequestPriority)
    : list (positive * net.URLRequest) :=
  map (fun u => (u, request_to "a.test" p 0))
    [1; 2; 3; 4; 5; 6; 7; 8]%positive.

Definition eight_scheduled (p : net.RequestPriority) : option ResourceScheduler.t :=
  schedule_all (scheduler_with (eight_requests p))
    [1; 2; 3; 4; 5; 6; 7; 8]%positive.

(** A client and a store for one handle (at address 101) of one request. *)
Definition one_request_store (u : net.URLRequest) (attributes : RequestAttributes)
    (is_async : bool) : Store :=
  {| requests :=
       {[ 101%positive :=
            set_attributes
              (ResourceScheduler.ScheduledResourceRequestImpl_new
                 (ResourceScheduler.MakeClientId 1 1) 1%positive u
                 {| rp_priority := net.priority u; intra_priority := 0 |}
                 is_async)
              attributes ]};
     url_requests := {[ 1%positive := net.SetUserData u (Some 101%positive) ]};
     posted_tasks := []; resumed := [] |}.

(** A renderer client of a scheduler whose every host supports request
    priorities and whose parameters have the multiplexed-delay mode on. *)
Definition multiplexed_context : Context :=
  context true params_multiplexed_delay.

Definition multiplexed_client : Client.t :=
  Client.new multiplexed_context 1 false true.

Definition low_request_store : Store :=
  one_request_store (request_to "a.test" net.LOW 0) kAttributeNone true.

(** Eleven low-priority requests: six to one host, four to another, then
    one more to the first. *)
Definition eleven_requests : list (positive * net.URLRequest) :=
  map (fun u => (u, request_to "a.test" net.LOW 0)) [1; 2; 3; 4; 5; 6]%positive
  ++ map (fun u => (u, request_to "b.test" net.LOW 0)) [7; 8; 9; 10]%positive
  ++ [(11%positive, request_to "a.test" net.LOW 0)].

Definition eleven_scheduled : option ResourceScheduler.t :=
  schedule_all (scheduler_with eleven_requests)
    [1; 2; 3; 4; 5; 6; 7; 8; 9; 10; 11]%positive.

Definition capped_scheduler : ResourceScheduler.t :=
  default (scheduler_with []) eleven_scheduled.

Definition capped_client : Client.t :=
  default multiplexed_client (the_client capped_scheduler).

Definition default_context : Context :=
  context false Client.ParamsForNetworkQuality_default.

(** One request that carries the ignore-limits flag, at the highest
    priority, scheduled with the client. *)
Definition ignore_limits_scheduled : option ResourceScheduler.t :=
  schedule_all
    (scheduler_with [(1%positive, request_to "a.test" net.HIGHEST LOAD_IGNORE_LIMITS)])
    [1%positive].

Definition ignore_limits_scheduler : ResourceScheduler.t :=
  default (scheduler_with []) ignore_limits_scheduled.

(** A burst in which a pass runs directly between two postings: with the
    eight requests at LOWEST, request 7 is raised to LOW (a pass is posted),
    an in-flight request is removed (a pass runs at once), and request 8 is
    raised to LOW (a pass is posted again). *)
Definition two_passes_posted : option ResourceScheduler.t :=
  s ← eight_scheduled net.LOWEST;
  s ← ResourceScheduler.ReprioritizeRequest LOAD_IGNORE_LIMITS
        (environment false) s 7%positive net.LOW 0;
  s ← ResourceScheduler.RemoveRequest (environment false) s 101%positive;
  ResourceScheduler.ReprioritizeRequest LOAD_IGNORE_LIMITS
    (environment false) s 8%positive net.LOW 0.

(** The eight requests at MEDIUM, all in flight, and the first of them
    re-prioritized to LOW. *)
Definition in_flight_reprioritized : option ResourceScheduler.t :=
  s ← eight_scheduled net.MEDIUM;
  ResourceScheduler.ReprioritizeRequest LOAD_IGNORE_LIMITS
    (environment false) s 1%positive net.LOW 0.

(** The eight requests at LOWEST: six in flight, handles 107 and 108
    pending. *)
Definition lowest_scheduler : ResourceScheduler.t :=
  default (scheduler_with []) (eight_scheduled net.LOWEST).

Definition lowest_client : Client.t :=
  default multiplexed_client (the_client lowest_scheduler).

(** Twelve low-priority requests: six to one host and four to another,
    which are started, then one more to each host, in this order, which
    stay pending. *)
Definition twelve_requests : list (positive * net.URLRequest) :=
  eleven_requests ++ [(12%positive, request_to "b.test" net.LOW 0)].

Definition twelve_scheduled : option ResourceScheduler.t :=
  schedule_all (scheduler_with twelve_requests)
    [1; 2; 3; 4; 5; 6; 7; 8; 9; 10; 11; 12]%positive.

(** The client of [lowest_scheduler] once handle 101 has left the requests
    in flight, before any pass runs. *)
Definition lowest_client_after_erase : Client.t * Store :=
  Client.EraseInFlightRequest lowest_client
    (ResourceScheduler.store lowest_scheduler) 101%positive.

(** A new scheduler in which one renderer client (child 1, route 1, at
    address 1) has been registered. *)
Definition client_registered : ResourceScheduler.t :=
  ResourceScheduler.OnClientCreated kBrowserProcessId (environment false)
    (ResourceScheduler.new true (manager Client.ParamsForNetworkQuality_default))
    1 1 false 1%positive.

(** The owner of a request creates it at the address [u]. *)
Definition create_url_request (s : ResourceScheduler.t) (u : positive)
    (r : net.URLRequest) : ResourceScheduler.t :=
  ResourceScheduler.with_store s
    (with_url_requests (ResourceScheduler.store s)
       (<[u := r]> (url_requests (ResourceScheduler.store s)))).

(** Then a request at LOWEST is created and scheduled, with its handle at
    101, ... *)
Definition one_in_flight_scheduler : ResourceScheduler.t :=
  default client_registered
    (ResourceScheduler.ScheduleRequest (environment false)
       (create_url_request client_registered 1
          (request_to "a.test" net.LOWEST 0))
       1 1 true 1 101).

Definition one_in_flight_client : Client.t :=
  default multiplexed_client (the_client one_in_flight_scheduler).

(** ... and then a request at HIGHEST, with its handle at 102. Both are in
    flight, and the first one is delayable. *)
Definition two_in_flight_scheduler : ResourceScheduler.t :=
  default one_in_flight_scheduler
    (ResourceScheduler.ScheduleRequest (environment false)
       (create_url_request one_in_flight_scheduler 2
          (request_to "a.test" net.HIGHEST 0))
       1 1 true 2 102).

Definition two_in_flight_client : Client.t :=
  default multiplexed_client (the_client two_in_flight_scheduler).

(** Then the request at LOWEST is re-prioritized to MEDIUM, without an
    intra-priority. *)
Definition two_in_flight_reprioritized : ResourceScheduler.t :=
  default two_in_flight_scheduler
    (ResourceScheduler.ReprioritizeRequest_priority LOAD_IGNORE_LIMITS
       (environment false) two_in_flight_scheduler 1 net.MEDIUM).

(** What the pass after the removal of handle 101 leaves of
    [lowest_client_after_erase]. *)
Definition lowest_client_after_pass : Client.t * Store :=
  default lowest_client_after_erase
    (Client.LoadAnyStartablePendingRequests
       (context false Client.ParamsForNetworkQuality_default)
       lowest_client_after_erase.1 lowest_client_after_erase.2
       COMPLETION_POST_BODY).

(** The owner may create a request at [u] and the scheduler may allocate
    its handle at [handle]: both addresses are free, the request has no
    handle yet, and the address of the handle is a [size_t]. *)
Definition may_schedule (s : ResourceScheduler.t) (u : positive)
    (r : net.URLRequest) (handle : positive) : bool :=
  bool_decide (url_requests (ResourceScheduler.store s) !! u = None)
  && bool_decide (net.user_data r = None)
  && bool_decide (requests (ResourceScheduler.store s) !! handle = None)
  && (Z.pos handle <=? size_t_max).

(** Creates and schedules the requests of [l], in order, as asynchronous
    requests of the client of child 1 and route 1; the handle of the request
    at [u] is allocated at [u + 100]. *)
Fixpoint create_and_schedule (s : ResourceScheduler.t)
    (l : list (positive * net.URLRequest)) : option ResourceScheduler.t :=
  match l with
  | [] => Some s
  | (u, r) :: l' =>
      if may_schedule s u r (u + 100) then
        match ResourceScheduler.ScheduleRequest (environment false)
                (create_url_request s u r) 1 1 true u (u + 100)%positive with
        | None => None
        | Some s' => create_and_schedule s' l'
        end
      else None
  end.

(** Eight requests at LOWEST to one host, created and scheduled one after
    the other: six are in flight and two are pending. *)
Definition queued_scheduler : ResourceScheduler.t :=
  default client_registered
    (create_and_schedule client_registered (eight_requests net.LOWEST)).

(** Six requests at LOWEST in flight, then one at LOWEST and one at LOW,
    which are pending: the one at LOW, scheduled last, is at the head. *)
Definition mixed_requests : list (positive * net.URLRequest) :=
  take 7 (eight_requests net.LOWEST)
  ++ [(8%positive, request_to "a.test" net.LOW 0)].

Definition mixed_scheduler : ResourceScheduler.t :=
  default client_registered
    (create_and_schedule client_registered mixed_requests).

Definition mixed_client : Client.t :=
  default multiplexed_client (the_client mixed_scheduler).

(** Then the client is deleted. *)
Definition mixed_deleted : ResourceScheduler.t :=
  default mixed_scheduler
    (ResourceScheduler.OnClientDeleted (environment false) mixed_scheduler 1 1).

(** The scheduler with two requests pending, once the dispatch timer has
    fired. *)
Definition queued_fired : ResourceScheduler.t :=
  default queued_scheduler
    (ResourceScheduler.OnLongQueuedRequestsDispatchTimerFired
       (environment false) queued_scheduler).

(** A scheduler that pauses the traffic of the browser for P2P connections,
    on a 3G connection, and a client of the browser process that has counted
    one P2P connection. *)
Definition p2p_context : Context :=
  {| env :=
       {| NowTicks := 1000; TimeTicks_Now := 1000;
          SupportsRequestPriority := fun _ _ => false;
          GetHttpRTT := None;
          GetEffectiveConnectionType := net.EFFECTIVE_CONNECTION_TYPE_3G;
          kPauseBrowserInitiatedHeavyTrafficForP2P := true;
          kProactivelyThrottleLowPriorityRequests := false |};
     enabled := true;
     resource_scheduler_params_manager_ :=
       {| GetParamsForEffectiveConnectionType :=
            fun _ => Client.ParamsForNetworkQuality_default;
          TimeToPauseHeavyBrowserInitiatedRequestsAfterEndOfP2PConnections := 60;
          max_wait_time_p2p_connections := Some 100;
          CanThrottleNetworkTrafficAnnotationHash := fun _ => true |} |}.

Definition p2p_browser_client : Client.t :=
  default (Client.new p2p_context 1 true true)
    (fst <$> Client.OnPeerToPeerConnectionsCountChange p2p_context
               (Client.new p2p_context 1 true true) low_request_store 1).

(** The same in a scheduler that was created disabled. *)
Definition disabled_registered : ResourceScheduler.t :=
  ResourceScheduler.OnClientCreated kBrowserProcessId (environment false)
    (ResourceScheduler.new false (manager Client.ParamsForNetworkQuality_default))
    1 1 false 1%positive.

Definition disabled_scheduler : ResourceScheduler.t :=
  default disabled_registered
    (create_and_schedule disabled_registered (eight_requests net.LOWEST)).

Definition disabled_client : Client.t :=
  default multiplexed_client (the_client disabled_scheduler).

(** A request that has been cancelled before it is submitted. *)
Definition cancelled_request : net.URLRequest :=
  {| net.url := {| net.scheme := "http"; net.host := "a.test"; net.port := 80 |};
     net.priority := net.LOWEST; net.load_flags := 0; net.creation_time := 900;
     net.status_is_success := false; net.network_isolation_key := 0;
     net.traffic_annotation_hash := 0; net.user_data := None |}.

(** The request [r] is created at the address 1 and submitted for child 7
    and route 7, which no client is registered for; its handle is allocated
    at 101. *)
Definition submit_unowned (r : net.URLRequest) : option ResourceScheduler.t :=
  ResourceScheduler.ScheduleRequest (environment false)
    (create_url_request client_registered 1 r) 7 7 true 1 101.

Definition cancelled_unowned_scheduler : ResourceScheduler.t :=
  default client_registered (submit_unowned cancelled_request).

(** Parameters that weigh each non-delayable request in flight as 0.7 of
    a delayable one, with room for seven delayable requests. *)
Definition params_weighted : ParamsForNetworkQuality :=
  {| max_delayable_requests := 7;
     non_delayable_weight := double_div (double_of_Z 7) (double_of_Z 10);
     delay_requests_on_multiplexed_connections := false;
     max_queuing_time := None;
     http_rtt_multiplier_for_proactive_throttling := None |}.

Definition weighted_context : Context := context false params_weighted.

(** A scheduler with these parameters and one renderer client that has a
    network quality estimator, ten requests at HIGHEST to one host, which
    are in flight, and then one request at LOWEST to another host. *)
Definition weighted_registered : ResourceScheduler.t :=
  ResourceScheduler.OnClientCreated kBrowserProcessId (environment false)
    (ResourceScheduler.new true (manager params_weighted))
    1 1 true 1%positive.

Definition weighted_requests : list (positive * net.URLRequest) :=
  map (fun u => (u, request_to "a.test" net.HIGHEST 0))
    [1; 2; 3; 4; 5; 6; 7; 8; 9; 10]%positive
  ++ [(11%positive, request_to "b.test" net.LOWEST 0)].

Definition weighted_scheduler : ResourceScheduler.t :=
  default weighted_registered
    (create_and_schedule weighted_registered weighted_requests).

Definition weighted_client : Client.t :=
  default multiplexed_client (the_client weighted_scheduler).

(** The scheduler once the handle at 101 has been destroyed. *)
Definition one_destroyed_scheduler : ResourceScheduler.t :=
  default two_in_flight_scheduler
    (ResourceScheduler.DestroyRequest (environment false)
       two_in_flight_scheduler 101).

End Example.

(** ** Vocabulary of the statements *)

(** A burst of triggers: [ScheduleLoadAnyStartablePendingRequests] called
    once per trigger of the list, with nothing run in between. *)
Fixpoint schedule_triggers (c : Client.t) (st : Store)
    (triggers : list RequestStartTrigger) : Client.t * Store :=
  match triggers with
  | [] => (c, st)
  | trigger :: triggers' =>
      let '(c, st) :=
        Client.ScheduleLoadAnyStartablePendingRequests c st trigger in
      schedule_triggers c st triggers'
  end.

(** The tasks of the task runner that are bound to the client at [this]. *)
Definition tasks_of_client (this : positive) (st : Store) : list Task :=
  List.filter (bound_to_client this) (posted_tasks st).

(** The checks inside [ShouldStartRequest] pass for the client: while P2P
    connections are counted their start is recorded and the maximum wait is
    configured, and an anticipation multiplier comes with an estimator to
    ask. *)
Definition checks_pass (cx : Context) (c : Client.t) : Prop :=
  (0 < Client.p2p_connections_count_ c ->
   is_Some (Client.p2p_connections_count_active_timestamp_ c)
   /\ is_Some (max_wait_time_p2p_connections
                 (resource_scheduler_params_manager_ cx)))
  /\ (is_Some (http_rtt_multiplier_for_proactive_throttling
                 (Client.params_for_network_quality_ c)) ->
      Client.network_quality_estimator_ c = true).

(** The order of the pending queue, read through the store. *)
Definition comes_before (st : Store) (a b : positive) : bool :=
  ScheduledResourceSorter (deref st a) (deref st b).

(** The multiset keeps its elements in order: no element compares less than
    one that sits before it. *)
Definition queue_sorted (st : Store) (l : list positive) : Prop :=
  StronglySorted (fun a b => comes_before st b a = false) l.

(** [a] sits before [b] in the queue. *)
Definition precedes (a b : positive) (l : list positive) : Prop :=
  exists l1 l2 l3, l = l1 ++ a :: l2 ++ b :: l3.

(** Every ordering id handed out so far is at most [fifo_ordering_ids_],
    which has not wrapped around. *)
Definition fifo_bounded (st : Store) (q : RequestQueue.t) : Prop :=
  0 <= RequestQueue.fifo_ordering_ids_ q < 2 ^ 32
  /\ Forall
       (fun p =>
          0 <= fifo_ordering_ (deref st p) <= RequestQueue.fifo_ordering_ids_ q)
       (RequestQueue.queue_ q).

(** The members of a handle that scheduling decisions read: all but the
    ready and deferred flags and the telemetry member. *)
Definition core (r : ScheduledResourceRequestImpl) :=
  (client_id_ r, request_ r, is_async_ r, attributes_ r, priority_ r,
   fifo_ordering_ r, host_port_pair_ r).

(** The admission rules cannot tell [a] from [b], except that [a] may be
    the older request: same flags, attributes, host, URL, isolation key,
    priority and traffic annotation, and [a] created no later than [b]. *)
Definition alike (st : Store) (a b : positive) : Prop :=
  is_async_ (deref st a) = is_async_ (deref st b)
  /\ attributes_ (deref st a) = attributes_ (deref st b)
  /\ host_port_pair_ (deref st a) = host_port_pair_ (deref st b)
  /\ net.url (url_request st a) = net.url (url_request st b)
  /\ net.network_isolation_key (url_request st a)
     = net.network_isolation_key (url_request st b)
  /\ net.priority (url_request st a) = net.priority (url_request st b)
  /\ net.traffic_annotation_hash (url_request st a)
     = net.traffic_annotation_hash (url_request st b)
  /\ net.creation_time (url_request st a) <= net.creation_time (url_request st b).

(** The pending queue of the client is well formed: no handle twice, in
    order, and with ordering ids that have not wrapped around. *)
Definition queue_wf (st : Store) (c : Client.t) : Prop :=
  NoDup (RequestQueue.queue_ (Client.pending_requests_ c))
  /\ queue_sorted st (RequestQueue.queue_ (Client.pending_requests_ c))
  /\ fifo_bounded st (Client.pending_requests_ c).

(** *** Counting requests by their attributes *)

Definition has_attributes (st : Store) (attributes : RequestAttributes)
    (p : positive) : bool :=
  RequestAttributesAreSet (attributes_ (deref st p)) attributes.

Definition kAttributeInFlightDelayable : RequestAttributes :=
  Z.lor kAttributeInFlight kAttributeDelayable.

(** The number of handles of the set [X] whose attributes include
    [attributes]. *)
Definition count_with_attributes (st : Store) (attributes : RequestAttributes)
    (X : gset positive) : Z :=
  Z.of_nat (size (filter (fun p => has_attributes st attributes p = true) X)).

(** The requests a client tracks: those in flight and those pending. *)
Definition tracked (c : Client.t) : gset positive :=
  Client.in_flight_requests_ c
  ∪ list_to_set (RequestQueue.queue_ (Client.pending_requests_ c)).

(** *** The states the scheduler reaches *)

(** What holds of the client registered under [client_id]: its counters
    agree with the attributes of the handles in flight; no handle is queued
    twice or both queued and in flight; the handles it tracks are live and
    carry its id; and among the handles that carry its id, exactly those in
    flight have the InFlight attribute. *)
Definition client_invariant (client_id : Z) (c : Client.t) (st : Store) : Prop :=
  Client.in_flight_delayable_count_ c
  = wrap_size_t
      (count_with_attributes st kAttributeInFlightDelayable
         (Client.in_flight_requests_ c))
  /\ Client.total_layout_blocking_count_ c = 0
  /\ NoDup (RequestQueue.queue_ (Client.pending_requests_ c))
  /\ (forall p, p ∈ RequestQueue.queue_ (Client.pending_requests_ c) ->
        p ∉ Client.in_flight_requests_ c)
  /\ (forall p, p ∈ tracked c ->
        p ∈ dom (requests st) /\ client_id_ (deref st p) = client_id)
  /\ (forall p, p ∈ Client.in_flight_requests_ c ->
        has_attributes st kAttributeInFlight p = true)
  /\ (forall p, client_id_ (deref st p) = client_id ->
        has_attributes st kAttributeInFlight p = true ->
        p ∈ Client.in_flight_requests_ c).

(** From [st] to [st'] no handle went away or changed its client id, and
    only handles that carry [client_id] changed their attributes. *)
Definition touches_only (client_id : Z) (st st' : Store) : Prop :=
  dom (requests st) ⊆ dom (requests st')
  /\ (forall p, client_id_ (deref st' p) = client_id_ (deref st p))
  /\ (forall p, client_id_ (deref st p) <> client_id ->
        attributes_ (deref st' p) = attributes_ (deref st p)).

(** No handle is marked layout-blocking. *)
Definition no_layout_blocking (st : Store) : Prop :=
  forall p, has_attributes st kAttributeLayoutBlocking p = false.

(** The cached counters of the client are the numbers of the requests it
    tracks whose attributes include InFlight and Delayable, and
    LayoutBlocking. *)
Definition counters_agree (c : Client.t) (st : Store) : Prop :=
  Client.in_flight_delayable_count_ c
  = count_with_attributes st kAttributeInFlightDelayable (tracked c)
  /\ Client.total_layout_blocking_count_ c
     = count_with_attributes st kAttributeLayoutBlocking (tracked c).

(** What a method of the client registered under [client_id] leaves behind
    when it turns the store [st] into [st'] and the client into [c']: the
    client is as it should be, only its own handles changed, and it tracks
    handles of [T] only. *)
Definition preserved (client_id : Z) (T : gset positive) (st : Store)
    (c' : Client.t) (st' : Store) : Prop :=
  client_invariant client_id c' st'
  /\ touches_only client_id st st'
  /\ no_layout_blocking st'
  /\ tracked c' ⊆ T.

(** What holds of the scheduler as a whole: every client is as it should be;
    a handle marked in flight belongs to a registered client; the unowned
    handles are live and no client tracks them; and the handles tracked are
    addresses. *)
Definition scheduler_invariant (s : ResourceScheduler.t) : Prop :=
  (forall client_id c,
     ResourceScheduler.client_map_ s !! client_id = Some c ->
     client_invariant client_id c (ResourceScheduler.store s))
  /\ no_layout_blocking (ResourceScheduler.store s)
  /\ (forall p,
        has_attributes (ResourceScheduler.store s) kAttributeInFlight p = true ->
        is_Some (ResourceScheduler.client_map_ s
                 !! client_id_ (deref (ResourceScheduler.store s) p)))
  /\ (forall p client_id c,
        p ∈ ResourceScheduler.unowned_requests_ s ->
        ResourceScheduler.client_map_ s !! client_id = Some c ->
        p ∉ tracked c)
  /\ ResourceScheduler.unowned_requests_ s
     ⊆ dom (requests (ResourceScheduler.store s))
  /\ (forall p client_id c,
        ResourceScheduler.client_map_ s !! client_id = Some c ->
        p ∈ tracked c -> Z.pos p <= size_t_max).

(** Replaces the client registered under [client_id] and the store. *)
Definition update_client (s : ResourceScheduler.t) (client_id : Z)
    (c : Client.t) (st : Store) : ResourceScheduler.t :=
  ResourceScheduler.with_store
    (ResourceScheduler.with_client_map s
       (<[client_id := c]> (ResourceScheduler.client_map_ s)))
    st.

(** One step of the scheduler: a call of its interface by a caller that
    keeps to its contract (a request is scheduled once, with a handle at a
    fresh address, which is a [size_t]; a client id is registered once at a time), a task or a
    timer that runs, a notification of an observer, or a change the owner
    of a request makes to it. Every step that runs scheduler code may see
    another environment. *)
Inductive step (LOAD_IGNORE_LIMITS kBrowserProcessId : Z)
    (s : ResourceScheduler.t) : ResourceScheduler.t -> Prop :=
| step_url_request_created u r :
    url_requests (ResourceScheduler.store s) !! u = None ->
    net.user_data r = None ->
    step LOAD_IGNORE_LIMITS kBrowserProcessId s
      (ResourceScheduler.with_store s
         (with_url_requests (ResourceScheduler.store s)
            (<[u := r]> (url_requests (ResourceScheduler.store s)))))
| step_url_request_changed u r r' :
    url_requests (ResourceScheduler.store s) !! u = Some r ->
    net.user_data r' = net.user_data r ->
    step LOAD_IGNORE_LIMITS kBrowserProcessId s
      (ResourceScheduler.with_store s
         (with_url_requests (ResourceScheduler.store s)
            (<[u := r']> (url_requests (ResourceScheduler.store s)))))
| step_ScheduleRequest e child_id route_id is_async u r handle s' :
    url_requests (ResourceScheduler.store s) !! u = Some r ->
    net.user_data r = None ->
    requests (ResourceScheduler.store s) !! handle = None ->
    Z.pos handle <= size_t_max ->
    ResourceScheduler.ScheduleRequest e s child_id route_id is_async u handle
    = Some s' ->
    step LOAD_IGNORE_LIMITS kBrowserProcessId s s'
| step_WillStartRequest handle :
    handle ∈ dom (requests (ResourceScheduler.store s)) ->
    step LOAD_IGNORE_LIMITS kBrowserProcessId s
      (ResourceScheduler.with_store s
         (WillStartRequest (ResourceScheduler.store s) handle).1)
| step_DestroyRequest e handle s' :
    handle ∈ dom (requests (ResourceScheduler.store s)) ->
    ResourceScheduler.DestroyRequest e s handle = Some s' ->
    step LOAD_IGNORE_LIMITS kBrowserProcessId s s'
| step_OnClientCreated e child_id route_id network_quality_estimator this :
    ResourceScheduler.client_map_ s
    !! ResourceScheduler.MakeClientId child_id route_id = None ->
    (forall client_id c,
       ResourceScheduler.client_map_ s !! client_id = Some c ->
       Client.this_ c <> this) ->
    step LOAD_IGNORE_LIMITS kBrowserProcessId s
      (ResourceScheduler.OnClientCreated kBrowserProcessId e s child_id
         route_id network_quality_estimator this)
| step_OnClientDeleted e child_id route_id s' :
    ResourceScheduler.OnClientDeleted e s child_id route_id = Some s' ->
    step LOAD_IGNORE_LIMITS kBrowserProcessId s s'
| step_ReprioritizeRequest e u new_priority new_intra_priority_value s' :
    u ∈ dom (url_requests (ResourceScheduler.store s)) ->
    ResourceScheduler.ReprioritizeRequest LOAD_IGNORE_LIMITS e s u
      new_priority new_intra_priority_value = Some s' ->
    step LOAD_IGNORE_LIMITS kBrowserProcessId s s'
| step_OnLongQueuedRequestsDispatchTimerFired e s' :
    ResourceScheduler.OnLongQueuedRequestsDispatchTimerFired e s = Some s' ->
    step LOAD_IGNORE_LIMITS kBrowserProcessId s s'
| step_DispatchLongQueuedRequestsForTesting e s' :
    ResourceScheduler.DispatchLongQueuedRequestsForTesting e s = Some s' ->
    step LOAD_IGNORE_LIMITS kBrowserProcessId s s'
| step_RunTask e s' :
    ResourceScheduler.RunTask e s = Some s' ->
    step LOAD_IGNORE_LIMITS kBrowserProcessId s s'
| step_OnEffectiveConnectionTypeChanged e client_id c
    effective_connection_type c' st' :
    ResourceScheduler.client_map_ s !! client_id = Some c ->
    Client.network_quality_estimator_ c = true ->
    Client.OnEffectiveConnectionTypeChanged (ResourceScheduler.context e s) c
      (ResourceScheduler.store s) effective_connection_type = Some (c', st') ->
    step LOAD_IGNORE_LIMITS kBrowserProcessId s (update_client s client_id c' st')
| step_OnPeerToPeerConnectionsCountChange e client_id c count c' st' :
    ResourceScheduler.client_map_ s !! client_id = Some c ->
    Client.network_quality_estimator_ c = true ->
    0 <= count < 2 ^ 32 ->
    Client.OnPeerToPeerConnectionsCountChange (ResourceScheduler.context e s) c
      (ResourceScheduler.store s) count = Some (c', st') ->
    step LOAD_IGNORE_LIMITS kBrowserProcessId s (update_client s client_id c' st')
| step_OnP2PConnectionsCountEndedTimerFired e client_id c c' st' :
    ResourceScheduler.client_map_ s !! client_id = Some c ->
    Client.p2p_connections_count_ended_timer_ c = true ->
    Client.OnP2PConnectionsCountEndedTimerFired (ResourceScheduler.context e s)
      c (ResourceScheduler.store s) = Some (c', st') ->
    step LOAD_IGNORE_LIMITS kBrowserProcessId s (update_client s client_id c' st')
| step_SetResourceSchedulerParamsManagerForTests e manager :
    step LOAD_IGNORE_LIMITS kBrowserProcessId s
      (ResourceScheduler.SetResourceSchedulerParamsManagerForTests e s manager).

(** The states reached from a new scheduler. *)
Inductive reachable (LOAD_IGNORE_LIMITS kBrowserProcessId : Z)
    : ResourceScheduler.t -> Prop :=
| reachable_new enabled manager :
    reachable LOAD_IGNORE_LIMITS kBrowserProcessId
      (ResourceScheduler.new enabled manager)
| reachable_step s s' :
    reachable LOAD_IGNORE_LIMITS kBrowserProcessId s ->
    step LOAD_IGNORE_LIMITS kBrowserProcessId s s' ->
    reachable LOAD_IGNORE_LIMITS kBrowserProcessId s'.

(** *** Vocabulary of the further properties *)

(** The values of an [int]. *)
Definition is_int (x : Z) : Prop := - 2 ^ 31 <= x < 2 ^ 31.

(** The number of requests in flight to the host and port [host]. *)
Definition same_host_in_flight (c : Client.t) (st : Store)
    (host : net.HostPortPair) : Z :=
  Z.of_nat
    (size
       (filter
          (fun p =>
             net.HostPortPair_Equals host (host_port_pair_ (deref st p)) = true)
          (Client.in_flight_requests_ c))).

(** Some client has a request pending. *)
Definition has_pending (s : ResourceScheduler.t) : Prop :=
  exists client_id c,
    ResourceScheduler.client_map_ s !! client_id = Some c
    /\ RequestQueue.queue_ (Client.pending_requests_ c) <> [].

(** From [s] to [s'] no request became pending: what is pending at a client
    of [s'] was pending at the same client in [s]. *)
Definition queues_shrink (s s' : ResourceScheduler.t) : Prop :=
  forall client_id c' p,
    ResourceScheduler.client_map_ s' !! client_id = Some c' ->
    p ∈ RequestQueue.queue_ (Client.pending_requests_ c') ->
    exists c,
      ResourceScheduler.client_map_ s !! client_id = Some c
      /\ p ∈ RequestQueue.queue_ (Client.pending_requests_ c).

(** A step that queues nothing and leaves the timer and the switch of the
    scheduler alone. *)
Definition quiet (s s' : ResourceScheduler.t) : Prop :=
  queues_shrink s s'
  /\ ResourceScheduler.long_queued_requests_dispatch_timer_ s'
     = ResourceScheduler.long_queued_requests_dispatch_timer_ s
  /\ ResourceScheduler.enabled_ s' = ResourceScheduler.enabled_ s.

(** The members of a handle that place it in the pending queue. *)
Definition key (r : ScheduledResourceRequestImpl) : RequestPriorityParams * Z :=
  (priority_ r, fifo_ordering_ r).

(** The pending queue of every client is in order. *)
Definition queues_sorted (s : ResourceScheduler.t) : Prop :=
  forall client_id c,
    ResourceScheduler.client_map_ s !! client_id = Some c ->
    queue_sorted (ResourceScheduler.store s)
      (RequestQueue.queue_ (Client.pending_requests_ c)).

(** The handle has been started: it is ready, or it was deferred and the
    task that resumes it is posted. A request that has failed or was
    cancelled is left alone by [Start]. *)
Definition started (st : Store) (p : positive) : Prop :=
  net.status_is_success (url_request st p) = false
  \/ ready_ (deref st p) = true
  \/ (deferred_ (deref st p) = true /\ StartTask p ∈ posted_tasks st).

(** From [st] to [st'] no handle went away, and only handles of [T] were
    written. *)
Definition only_writes (T : gset positive) (st st' : Store) : Prop :=
  dom (requests st) ⊆ dom (requests st')
  /\ forall p, p ∉ T -> requests st' !! p = requests st !! p.

(** The live handles and the requests point at each other: the request of a
    live handle exists and its user data is the address of the handle, and
    the user data of a request is the address of a live handle of that
    request. *)
Definition linked (st : Store) : Prop :=
  (forall h, h ∈ dom (requests st) ->
     exists r, url_requests st !! request_ (deref st h) = Some r
               /\ net.user_data r = Some h)
  /\ (forall u r h,
        url_requests st !! u = Some r -> net.user_data r = Some h ->
        h ∈ dom (requests st) /\ request_ (deref st h) = u).

(** From [s] to [s'] the scheduler kept its handles: the same handles are
    live, each for the same request; every request has the same user data;
    the same handles are unowned, and every client tracks the same
    handles. *)
Definition same_handles (s s' : ResourceScheduler.t) : Prop :=
  dom (requests (ResourceScheduler.store s'))
  = dom (requests (ResourceScheduler.store s))
  /\ (forall p,
        request_ (deref (ResourceScheduler.store s') p)
        = request_ (deref (ResourceScheduler.store s) p))
  /\ (forall u,
        net.user_data <$> url_requests (ResourceScheduler.store s') !! u
        = net.user_data <$> url_requests (ResourceScheduler.store s) !! u)
  /\ ResourceScheduler.unowned_requests_ s'
     = ResourceScheduler.unowned_requests_ s
  /\ (forall k,
        tracked <$> ResourceScheduler.client_map_ s' !! k
        = tracked <$> ResourceScheduler.client_map_ s !! k).

(** Every live handle is unowned or tracked by a client. *)
Definition accounted (s : ResourceScheduler.t) : Prop :=
  forall h, h ∈ dom (requests (ResourceScheduler.store s)) ->
    h ∈ ResourceScheduler.unowned_requests_ s
    \/ exists client_id c,
         ResourceScheduler.client_map_ s !! client_id = Some c
         /\ h ∈ tracked c.

(** * Properties *)

#[local] Arguments RequestQueue.Insert : simpl never.
#[local] Arguments Client.DetermineRequestAttributes : simpl never.
#[local] Arguments Client.SetRequestAttributes : simpl never.
#[local] Arguments Client.ShouldStartRequest : simpl never.
#[local] Arguments comes_before : simpl never.
#[local] Arguments wrap_uint32 : simpl never.
#[local] Arguments wrap_size_t : simpl never.
#[local] Arguments wrap_int : simpl never.

(** ** Machine arithmetic *)

Lemma wrap_size_t_small x : 0 <= x <= size_t_max -> wrap_size_t x = x.
Proof. unfold wrap_size_t, size_t_max. intros. apply Z.mod_small. lia. Qed.

Lemma wrap_size_t_range x : 0 <= wrap_size_t x <= size_t_max.
Proof.
  unfold wrap_size_t, size_t_max.
  pose proof (Z.mod_pos_bound x (2 ^ 64) ltac:(lia)). lia.
Qed.

Lemma wrap_size_t_succ x : wrap_size_t (wrap_size_t x + 1) = wrap_size_t (x + 1).
Proof. unfold wrap_size_t. apply Zplus_mod_idemp_l. Qed.

Lemma wrap_size_t_pred x : wrap_size_t (wrap_size_t x - 1) = wrap_size_t (x - 1).
Proof. unfold wrap_size_t. apply Zminus_mod_idemp_l. Qed.

Lemma wrap_size_t_add_l x y : wrap_size_t (wrap_size_t x + y) = wrap_size_t (x + y).
Proof. unfold wrap_size_t. apply Zplus_mod_idemp_l. Qed.

Lemma wrap_size_t_idemp x : wrap_size_t (wrap_size_t x) = wrap_size_t x.
Proof. unfold wrap_size_t. apply Z.mod_mod. lia. Qed.

Lemma wrap_uint32_small x : 0 <= x < 2 ^ 32 -> wrap_uint32 x = x.
Proof. unfold wrap_uint32. intros. apply Z.mod_small. lia. Qed.

Lemma wrap_int_small x : - 2 ^ 31 <= x < 2 ^ 31 -> wrap_int x = x.
Proof. unfold wrap_int. intros H. rewrite Z.mod_small; lia. Qed.

Lemma ordinal_inj p q : net.ordinal p = net.ordinal q -> p = q.
Proof. destruct p, q; simpl; intros H; try reflexivity; discriminate H. Qed.


(** ** Request attributes *)

Lemma RequestAttributesAreSet_true a m :
  RequestAttributesAreSet a m = true <-> Z.land a m = m.
Proof. unfold RequestAttributesAreSet. apply Z.eqb_eq. Qed.

(** Reading a handle back after it was stored. *)
Lemma deref_store_request st request r :
  deref (store_request st request r) request = r.
Proof.
  unfold deref, store_request, with_requests; simpl.
  apply lookup_total_insert_eq.
Qed.

Lemma deref_store_request_ne st request r p :
  request ≠ p -> deref (store_request st request r) p = deref st p.
Proof.
  intros Hne. unfold deref, store_request, with_requests; simpl.
  by apply lookup_total_insert_ne.
Qed.

Lemma deref_with_url_requests st h p :
  deref (with_url_requests st h) p = deref st p.
Proof. reflexivity. Qed.

Lemma url_requests_store_request st request r :
  url_requests (store_request st request r) = url_requests st.
Proof. reflexivity. Qed.

(** [SetRequestAttributes] leaves the handle with the attributes given. *)
Lemma SetRequestAttributes_attributes c st request attributes :
  attributes_ (deref (Client.SetRequestAttributes c st request attributes).2 request)
  = attributes.
Proof.
  unfold Client.SetRequestAttributes.
  destruct (attributes_ (deref st request) =? attributes) eqn:E; simpl.
  - by apply Z.eqb_eq in E.
  - by rewrite deref_store_request.
Qed.

(** ** C1: when a request is delayable *)

(** C1, as stated, fails: with the multiplexed-delay mode on, a low-priority
    request to a host that supports request priorities is marked delayable,
    although the mode is not off and the host is known to support
    priorities. *)
Lemma C1_counterexample :
  RequestAttributesAreSet
    (attributes_ (deref Example.low_request_store 101%positive))
    kAttributeLayoutBlocking = false
  /\ RequestAttributesAreSet
       (Client.DetermineRequestAttributes Example.multiplexed_context
          Example.multiplexed_client Example.low_request_store 101%positive)
       kAttributeDelayable = true
  /\ delay_requests_on_multiplexed_connections
       (Client.params_for_network_quality_ Example.multiplexed_client) = true
  /\ supports_priority Example.multiplexed_context
       Example.low_request_store 101%positive = true.
Proof. vm_compute. repeat split. Qed.

(** C1 (amended): for a handle not already marked layout-blocking, the
    attributes computed on submission and on re-prioritization have
    Delayable set if and only if the priority of the request is below
    [kDelayablePriorityThreshold] and either the multiplexed-delay mode is
    ON or the host is not known to support request priorities; and
    [SetRequestAttributes] stores exactly these attributes in the handle. *)
Theorem C1_delayable_iff cx c st request :
  RequestAttributesAreSet (attributes_ (deref st request))
    kAttributeLayoutBlocking = false ->
  (RequestAttributesAreSet (Client.DetermineRequestAttributes cx c st request)
     kAttributeDelayable = true
   <-> net.ordinal (net.priority (url_request st request))
       < net.ordinal kDelayablePriorityThreshold
       /\ (delay_requests_on_multiplexed_connections
             (Client.params_for_network_quality_ c) = true
           \/ supports_priority cx st request = false))
  /\ attributes_
       (deref (Client.SetRequestAttributes c st request
                 (Client.DetermineRequestAttributes cx c st request)).2 request)
     = Client.DetermineRequestAttributes cx c st request.
Proof.
  intros Hlb. split; [| apply SetRequestAttributes_attributes].
  unfold Client.DetermineRequestAttributes, supports_priority.
  rewrite Hlb.
  destruct (net.ordinal (net.priority (url_request st request))
            <? net.ordinal kDelayablePriorityThreshold) eqn:Hprio.
  - apply Z.ltb_lt in Hprio.
    destruct (delay_requests_on_multiplexed_connections
                (Client.params_for_network_quality_ c)) eqn:Hmode.
    + split; [intros _; split; [exact Hprio | by left] |].
      intros _. by case_bool_decide.
    + destruct (SupportsRequestPriority (env cx)
                  (net.url (url_request st request))
                  (net.network_isolation_key (url_request st request))) eqn:Hs;
        simpl.
      * split.
        -- case_bool_decide; discriminate.
        -- intros [_ [H | H]]; discriminate H.
      * split; [intros _; split; [exact Hprio | by right] |].
        intros _. by case_bool_decide.
  - apply Z.ltb_ge in Hprio. split.
    + case_bool_decide; discriminate.
    + intros [H _]. lia.
Qed.

Lemma C1_delayable_iff_witness :
  RequestAttributesAreSet
    (Client.DetermineRequestAttributes Example.multiplexed_context
       Example.multiplexed_client Example.low_request_store 101%positive)
    kAttributeDelayable = true
  <-> net.ordinal
        (net.priority (url_request Example.low_request_store 101%positive))
      < net.ordinal kDelayablePriorityThreshold
      /\ (delay_requests_on_multiplexed_connections
            (Client.params_for_network_quality_ Example.multiplexed_client) = true
          \/ supports_priority Example.multiplexed_context
               Example.low_request_store 101%positive = false).
Proof.
  apply (C1_delayable_iff Example.multiplexed_context
           Example.multiplexed_client Example.low_request_store 101%positive).
  reflexivity.
Defined.

(** ** C2: the caps on delayable requests *)

(** What [ShouldStartRequest] returns once none of the earlier rules
    decides: the global cap, the per-host cap, the layout-blocking guard
    and the anticipation heuristic, in this order. *)
Lemma ShouldStartRequest_delayable cx c st request :
  reaches_delayable_caps cx c st request = true ->
  Client.ShouldStartRequest cx c st request =
    if global_delayable_cap_reached c
    then Some Client.DO_NOT_START_REQUEST_AND_STOP_SEARCHING
    else if per_host_cap_reached cx c st request
    then Some Client.DO_NOT_START_REQUEST_AND_KEEP_SEARCHING
    else if negb (Client.total_layout_blocking_count_ c =? 0)
            && ((wrap_size_t (Client.in_flight_size c
                              - Client.in_flight_delayable_count_ c)
                 >? kInFlightNonDelayableRequestCountPerClientThreshold)
                || ((Client.in_flight_size c >? 0)
                    && (Client.in_flight_delayable_count_ c
                        >=? kMaxNumDelayableWhileLayoutBlockingPerClient)))
    then Some Client.DO_NOT_START_REQUEST_AND_STOP_SEARCHING
    else
      match Client.IsNonDelayableRequestAnticipated cx c with
      | None => None
      | Some true => Some Client.DO_NOT_START_REQUEST_AND_STOP_SEARCHING
      | Some false => Some Client.START_REQUEST
      end.
Proof.
  unfold reaches_delayable_caps, queued_too_long, supports_priority,
    global_delayable_cap_reached, per_host_cap_reached, supports_priority.
  intros H.
  repeat (apply andb_prop in H; destruct H as [H ?]).
  unfold Client.ShouldStartRequest.
  repeat match goal with
         | Hb : negb _ = true |- _ => apply negb_true_iff in Hb
         end.
  rewrite H; simpl.
  repeat match goal with Hb : _ = _ |- _ => rewrite Hb; simpl end.
  destruct (delay_requests_on_multiplexed_connections
              (Client.params_for_network_quality_ c)) eqn:Hmode; simpl in *.
  - repeat match goal with Hb : _ = _ |- _ => rewrite Hb; simpl end.
    destruct (_ >=? max_delayable_requests _); [reflexivity |].
    destruct (Client.ReachedMaxRequestsPerHostPerClient _ _ _ _); [reflexivity |].
    destruct (Client.total_layout_blocking_count_ c =? 0); simpl; [reflexivity |].
    destruct (_ >? kInFlightNonDelayableRequestCountPerClientThreshold); simpl;
      [reflexivity |].
    destruct (_ && _); reflexivity.
  - repeat match goal with Hb : _ = _ |- _ => rewrite Hb; simpl end.
    destruct (_ >=? max_delayable_requests _); [reflexivity |].
    destruct (Client.ReachedMaxRequestsPerHostPerClient _ _ _ _); [reflexivity |].
    destruct (Client.total_layout_blocking_count_ c =? 0); simpl; [reflexivity |].
    destruct (_ >? kInFlightNonDelayableRequestCountPerClientThreshold); simpl;
      [reflexivity |].
    destruct (_ && _); reflexivity.
Qed.

(** The loop of [ReachedMaxRequestsPerHostPerClient] never returns true on a
    count that stays below the limit. *)
Lemma same_host_loop_spec st h l n :
  0 <= n < kMaxNumDelayableRequestsPerHostPerClient ->
  Client.same_host_loop st h l n =
    (kMaxNumDelayableRequestsPerHostPerClient
     <=? n + Z.of_nat
               (length
                  (filter
                     (fun p =>
                        net.HostPortPair_Equals h (host_port_pair_ (deref st p))
                        = true) l))).
Proof.
  revert n. induction l as [| p l IH]; intros n Hn; simpl.
  - symmetry. apply Z.leb_gt. simpl. lia.
  - rewrite filter_cons.
    destruct (net.HostPortPair_Equals h (host_port_pair_ (deref st p))) eqn:E.
    + rewrite decide_True by reflexivity.
      rewrite wrap_size_t_small
        by (unfold size_t_max, kMaxNumDelayableRequestsPerHostPerClient in *; lia).
      destruct (n + 1 >=? kMaxNumDelayableRequestsPerHostPerClient) eqn:Hge.
      * symmetry. apply Z.leb_le. apply Z.geb_le in Hge.
        simpl length. lia.
      * rewrite Z.geb_leb in Hge. apply Z.leb_gt in Hge.
        rewrite IH by lia. f_equal. simpl length. lia.
    + rewrite decide_False by discriminate. by apply IH.
Qed.

(** C2, as stated, fails: with six low-priority requests in flight to one
    host and four to another, the default cap of ten delayable requests and
    the per-host cap both hold for an eleventh request to the first host,
    and the decision is to stop the scan, not to keep scanning. *)
Lemma C2_counterexample :
  Example.eleven_scheduled = Some Example.capped_scheduler
  /\ Example.the_client Example.capped_scheduler = Some Example.capped_client
  /\ reaches_delayable_caps Example.default_context Example.capped_client
       (ResourceScheduler.store Example.capped_scheduler) 111%positive = true
  /\ per_host_cap_reached Example.default_context Example.capped_client
       (ResourceScheduler.store Example.capped_scheduler) 111%positive = true
  /\ global_delayable_cap_reached Example.capped_client = true
  /\ Client.ShouldStartRequest Example.default_context Example.capped_client
       (ResourceScheduler.store Example.capped_scheduler) 111%positive
     = Some Client.DO_NOT_START_REQUEST_AND_STOP_SEARCHING.
Proof. vm_compute. repeat split. Qed.

(** C2 (amended): for a delayable request that no earlier rule of the
    admission decision decides (the scheduler is enabled, the client is a
    renderer, the request is asynchronous, HTTP or HTTPS, not queued beyond
    the maximum queuing time and not exempt as a request to a
    priority-capable host), the global delayable cap (stop the whole scan)
    is evaluated before the per-host cap (defer this request, keep
    scanning), and the first matching rule wins: when the global cap holds
    the outcome is to stop the scan, whether or not the per-host cap holds
    too; and the outcome is defer-and-keep-scanning exactly when the global
    cap does not hold and the per-host cap does. *)
Theorem C2_global_cap_first cx c st request :
  reaches_delayable_caps cx c st request = true ->
  (global_delayable_cap_reached c = true ->
   Client.ShouldStartRequest cx c st request
   = Some Client.DO_NOT_START_REQUEST_AND_STOP_SEARCHING)
  /\ (Client.ShouldStartRequest cx c st request
      = Some Client.DO_NOT_START_REQUEST_AND_KEEP_SEARCHING
      <-> global_delayable_cap_reached c = false
          /\ per_host_cap_reached cx c st request = true).
Proof.
  intros H. rewrite (ShouldStartRequest_delayable _ _ _ _ H). split.
  - intros ->. reflexivity.
  - destruct (global_delayable_cap_reached c).
    { split; [discriminate | intros [? _]; discriminate]. }
    destruct (per_host_cap_reached cx c st request); [by split |].
    split; [| intros [_ ?]; discriminate].
    destruct (negb _ && _); [discriminate |].
    destruct (Client.IsNonDelayableRequestAnticipated cx c) as [[] |];
      discriminate.
Qed.

(** Two runs. With the weight 0.7 and the cap 7, ten non-delayable
    requests in flight count as 7 and the request at LOWEST to another host
    stops the scan. With the default parameters and six requests in flight
    to the host of the next one, below the global cap of 10, that request
    is deferred and the scan goes on. *)
Lemma C2_global_cap_first_witness :
  (Example.create_and_schedule Example.weighted_registered
     Example.weighted_requests = Some Example.weighted_scheduler
   /\ Example.the_client Example.weighted_scheduler
      = Some Example.weighted_client
   /\ reaches_delayable_caps Example.weighted_context Example.weighted_client
        (ResourceScheduler.store Example.weighted_scheduler) 111%positive
      = true
   /\ Client.in_flight_size Example.weighted_client = 10
   /\ Client.in_flight_delayable_count_ Example.weighted_client = 0
   /\ Client.num_non_delayable_requests_weighted Example.weighted_client = 7
   /\ global_delayable_cap_reached Example.weighted_client = true
   /\ Client.ShouldStartRequest Example.weighted_context
        Example.weighted_client
        (ResourceScheduler.store Example.weighted_scheduler) 111%positive
      = Some Client.DO_NOT_START_REQUEST_AND_STOP_SEARCHING)
  /\ (Example.the_client Example.lowest_scheduler = Some Example.lowest_client
      /\ reaches_delayable_caps Example.default_context Example.lowest_client
           (ResourceScheduler.store Example.lowest_scheduler) 107%positive
         = true
      /\ global_delayable_cap_reached Example.lowest_client = false
      /\ per_host_cap_reached Example.default_context Example.lowest_client
           (ResourceScheduler.store Example.lowest_scheduler) 107%positive
         = true
      /\ Client.ShouldStartRequest Example.default_context
           Example.lowest_client
           (ResourceScheduler.store Example.lowest_scheduler) 107%positive
         = Some Client.DO_NOT_START_REQUEST_AND_KEEP_SEARCHING).
Proof.
  assert (Hw : reaches_delayable_caps Example.weighted_context
                 Example.weighted_client
                 (ResourceScheduler.store Example.weighted_scheduler)
                 111%positive = true) by (vm_compute; reflexivity).
  assert (Hg : global_delayable_cap_reached Example.weighted_client = true)
    by (vm_compute; reflexivity).
  assert (Hl : reaches_delayable_caps Example.default_context
                 Example.lowest_client
                 (ResourceScheduler.store Example.lowest_scheduler)
                 107%positive = true) by (vm_compute; reflexivity).
  assert (Hg' : global_delayable_cap_reached Example.lowest_client = false)
    by (vm_compute; reflexivity).
  assert (Hh : per_host_cap_reached Example.default_context
                 Example.lowest_client
                 (ResourceScheduler.store Example.lowest_scheduler)
                 107%positive = true) by (vm_compute; reflexivity).
  split.
  - split; [vm_compute; reflexivity |]. split; [vm_compute; reflexivity |].
    split; [exact Hw |]. split; [vm_compute; reflexivity |].
    split; [vm_compute; reflexivity |]. split; [vm_compute; reflexivity |].
    split; [exact Hg |].
    exact (proj1 (C2_global_cap_first _ _ _ _ Hw) Hg).
  - split; [vm_compute; reflexivity |]. split; [exact Hl |].
    split; [exact Hg' |]. split; [exact Hh |].
    exact (proj2 (proj2 (C2_global_cap_first _ _ _ _ Hl)) (conj Hg' Hh)).
Defined.

(** ** C7: re-prioritizing a request that ignores limits *)

(** C7, as stated, fails: re-prioritizing to LOW a request that carries the
    ignore-limits flag leaves its priority at HIGHEST; the new priority is
    not applied. *)
Lemma C7_counterexample :
  Example.ignore_limits_scheduled = Some Example.ignore_limits_scheduler
  /\ (Z.land
        (net.load_flags
           (url_requests (ResourceScheduler.store Example.ignore_limits_scheduler)
            !!! 1%positive))
        Example.LOAD_IGNORE_LIMITS <> 0)
  /\ exists s',
       ResourceScheduler.ReprioritizeRequest Example.LOAD_IGNORE_LIMITS
         (Example.environment false) Example.ignore_limits_scheduler
         1%positive net.LOW 0 = Some s'
       /\ net.priority (url_requests (ResourceScheduler.store s') !!! 1%positive)
          = net.HIGHEST.
Proof.
  split; [vm_compute; reflexivity |].
  split; [vm_compute; discriminate |].
  eexists. split; vm_compute; reflexivity.
Qed.

(** C7 (amended): for every request carrying the ignore-limits load flag,
    the scheduler-level re-prioritization bypasses the per-client
    scheduling logic and changes nothing at all: the new priority is not
    applied, and the request keeps the priority it has. *)
Theorem C7_ignore_limits_unchanged LOAD_IGNORE_LIMITS e s request
    new_priority new_intra_priority_value :
  Z.land (net.load_flags (url_requests (ResourceScheduler.store s) !!! request))
    LOAD_IGNORE_LIMITS <> 0 ->
  ResourceScheduler.ReprioritizeRequest LOAD_IGNORE_LIMITS e s request
    new_priority new_intra_priority_value = Some s
  /\ ResourceScheduler.ReprioritizeRequest_priority LOAD_IGNORE_LIMITS e s
       request new_priority = Some s.
Proof.
  intros Hflag. apply Z.eqb_neq in Hflag.
  unfold ResourceScheduler.ReprioritizeRequest_priority,
    ResourceScheduler.ReprioritizeRequest.
  rewrite Hflag. split; reflexivity.
Qed.

Lemma C7_ignore_limits_unchanged_witness :
  ResourceScheduler.ReprioritizeRequest Example.LOAD_IGNORE_LIMITS
    (Example.environment false) Example.ignore_limits_scheduler
    1%positive net.LOW 0
  = Some Example.ignore_limits_scheduler.
Proof.
  apply (C7_ignore_limits_unchanged Example.LOAD_IGNORE_LIMITS
           (Example.environment false) Example.ignore_limits_scheduler
           1%positive net.LOW 0).
  vm_compute. discriminate.
Defined.

(** ** C8: a request submitted without a registered client *)

(** C8, as stated, fails for a request that has been cancelled before it is
    submitted: the submission returns and the handle is recorded as unowned,
    but [Start] returns before it marks the handle ready, so that the
    request is not started. *)
Lemma C8_counterexample :
  ResourceScheduler.client_map_
    (Example.create_url_request Example.client_registered 1
       Example.cancelled_request)
  !! ResourceScheduler.MakeClientId 7 7 = None
  /\ Example.may_schedule Example.client_registered 1
       Example.cancelled_request 101 = true
  /\ Example.submit_unowned Example.cancelled_request
     = Some Example.cancelled_unowned_scheduler
  /\ ResourceScheduler.unowned_requests_ Example.cancelled_unowned_scheduler
     = {[101%positive]}
  /\ ready_ (deref (ResourceScheduler.store
                      Example.cancelled_unowned_scheduler) 101)
     = false
  /\ resumed (ResourceScheduler.store Example.cancelled_unowned_scheduler)
     = [].
Proof. vm_compute. repeat split. Qed.

(** C8 (amended): when the ClientId of a submission has no registered
    client, the submission succeeds and the handle is recorded as unowned;
    no client is consulted or changed and no task is posted:
    [Start(START_SYNC)] is called on the handle on the spot, and it marks
    the handle ready, with nothing for it to wait for, exactly when the
    underlying request has not failed or been cancelled; otherwise the
    handle is left not ready. *)
Theorem C8_unowned_started_unless_cancelled e s child_id route_id is_async
    u handle :
  ResourceScheduler.client_map_ s
  !! ResourceScheduler.MakeClientId child_id route_id = None ->
  exists s',
    ResourceScheduler.ScheduleRequest e s child_id route_id is_async
      u handle = Some s'
    /\ handle ∈ ResourceScheduler.unowned_requests_ s'
    /\ ResourceScheduler.client_map_ s' = ResourceScheduler.client_map_ s
    /\ posted_tasks (ResourceScheduler.store s')
       = posted_tasks (ResourceScheduler.store s)
    /\ ready_ (deref (ResourceScheduler.store s') handle)
       = net.status_is_success
           (url_requests (ResourceScheduler.store s) !!! u)
    /\ deferred_ (deref (ResourceScheduler.store s') handle) = false.
Proof.
  intros Hnone. unfold ResourceScheduler.ScheduleRequest. rewrite Hnone.
  set (r := ResourceScheduler.ScheduledResourceRequestImpl_new _ _ _ _ _).
  set (st := with_url_requests _ _).
  assert (Hd : deref st handle = r).
  { unfold st. rewrite deref_with_url_requests. apply deref_store_request. }
  assert (Hu : net.status_is_success (url_request st handle)
               = net.status_is_success
                   (url_requests (ResourceScheduler.store s) !!! u)).
  { unfold url_request. rewrite Hd. unfold st, r. simpl.
    by rewrite lookup_total_insert_eq. }
  eexists. split; [reflexivity |]. simpl.
  split; [set_solver |]. split; [reflexivity |].
  unfold Start. rewrite Hu, Hd.
  destruct (net.status_is_success
              (url_requests (ResourceScheduler.store s) !!! u)); simpl.
  - split; [reflexivity |].
    rewrite deref_store_request. simpl. by split.
  - split; [reflexivity |]. rewrite Hd. by split.
Qed.

(** A request that has not been cancelled, created and then submitted for
    a client that is not registered: it is unowned and ready. *)
Lemma C8_unowned_started_unless_cancelled_witness :
  ResourceScheduler.client_map_
    (Example.create_url_request Example.client_registered 1
       (Example.request_to "a.test" net.LOWEST 0))
  !! ResourceScheduler.MakeClientId 7 7 = None
  /\ Example.may_schedule Example.client_registered 1
       (Example.request_to "a.test" net.LOWEST 0) 101 = true
  /\ exists s',
       Example.submit_unowned (Example.request_to "a.test" net.LOWEST 0)
       = Some s'
       /\ 101%positive ∈ ResourceScheduler.unowned_requests_ s'
       /\ posted_tasks (ResourceScheduler.store s') = []
       /\ ready_ (deref (ResourceScheduler.store s') 101) = true
       /\ deferred_ (deref (ResourceScheduler.store s') 101) = false.
Proof.
  assert (Hnone : ResourceScheduler.client_map_
                    (Example.create_url_request Example.client_registered 1
                       (Example.request_to "a.test" net.LOWEST 0))
                  !! ResourceScheduler.MakeClientId 7 7 = None)
    by (vm_compute; reflexivity).
  split; [exact Hnone |]. split; [vm_compute; reflexivity |].
  destruct (C8_unowned_started_unless_cancelled (Example.environment false)
              _ 7 7 true 1%positive 101%positive Hnone)
    as (s' & H1 & H2 & _ & H4 & H5 & H6).
  exists s'. split; [exact H1 |]. split; [exact H2 |].
  split; [rewrite H4; vm_compute; reflexivity |].
  split; [rewrite H5; vm_compute; reflexivity | exact H6].
Defined.

(** ** C3: eight requests to one host *)

(** C3, as stated, fails: a MEDIUM-priority request is not below
    [kDelayablePriorityThreshold], so it is not delayable, and all eight
    requests are started at once; none stays pending. *)
Lemma C3_counterexample :
  exists s,
    Example.eight_scheduled net.MEDIUM = Some s
    /\ Example.in_flight_of s
       = list_to_set [101; 102; 103; 104; 105; 106; 107; 108]%positive
    /\ Example.pending_of s = [].
Proof. eexists. split; [vm_compute; reflexivity |]. split; reflexivity. Qed.

(** C3 (amended): for a renderer client with default parameters and nothing
    in flight, submitting 8 requests of one priority BELOW MEDIUM (LOW, for
    one) to one non-multiplexing host results in exactly the first 6 being
    started at once and requests 7 and 8 remaining pending, in this order;
    after any one in-flight request is removed, exactly one pending request,
    the earlier-submitted request 7, becomes in-flight, and request 8 stays
    pending. *)
Theorem C3_eight_requests_one_host (p : net.RequestPriority) :
  net.ordinal p < net.ordinal kDelayablePriorityThreshold ->
  exists s,
    Example.eight_scheduled p = Some s
    /\ Example.in_flight_of s
       = list_to_set [101; 102; 103; 104; 105; 106]%positive
    /\ Example.pending_of s = [107; 108]%positive
    /\ forall removed,
         removed ∈ Example.in_flight_of s ->
         exists s',
           ResourceScheduler.RemoveRequest (Example.environment false) s removed
           = Some s'
           /\ Example.in_flight_of s'
              = {[107%positive]} ∪ (Example.in_flight_of s ∖ {[removed]})
           /\ Example.pending_of s' = [108%positive].
Proof.
  intros Hp.
  destruct p; try (vm_compute in Hp; discriminate Hp);
    (eexists; split; [vm_compute; reflexivity |];
     match goal with
     | |- ?A = ?B /\ _ =>
         assert (H2 : A = B) by (vm_compute; reflexivity)
     end;
     split; [exact H2 |]; split; [vm_compute; reflexivity |];
     intros removed Hin; rewrite H2 in Hin;
     apply elem_of_list_to_set in Hin;
     repeat (apply elem_of_cons in Hin; destruct Hin as [-> | Hin]);
     [..| by apply elem_of_nil in Hin];
     (eexists; split; [vm_compute; reflexivity |];
      split; vm_compute; reflexivity)).
Qed.

Lemma C3_eight_requests_one_host_witness :
  exists s,
    Example.eight_scheduled net.LOW = Some s
    /\ Example.in_flight_of s
       = list_to_set [101; 102; 103; 104; 105; 106]%positive
    /\ Example.pending_of s = [107; 108]%positive.
Proof.
  destruct (C3_eight_requests_one_host net.LOW) as (s & H1 & H2 & H3 & _).
  - vm_compute. reflexivity.
  - exists s. repeat split; assumption.
Defined.

(** ** The admission pass *)

Lemma LoadLoop_nil cx n trigger c st :
  Client.LoadLoop cx n trigger c st [] = Some (c, st).
Proof. destruct n; reflexivity. Qed.

Lemma LoadLoop_cons cx n trigger c st request next :
  Client.LoadLoop cx n trigger c st (request :: next) =
    match Client.ShouldStartRequest cx c st request with
    | None => None
    | Some Client.START_REQUEST =>
        match RequestQueue.Erase (Client.pending_requests_ c) request with
        | None => None
        | Some q =>
            let '(c1, st1) :=
              Client.StartRequest cx (Client.with_pending_requests c q) st
                request START_ASYNC trigger in
            match RequestQueue.queue_ (Client.pending_requests_ c1) with
            | [] => Some (c1, st1)
            | _ :: _ =>
                match n with
                | O => None
                | S n' =>
                    Client.LoadLoop cx n' trigger c1 st1
                      (RequestQueue.queue_ (Client.pending_requests_ c1))
                end
            end
        end
    | Some Client.DO_NOT_START_REQUEST_AND_KEEP_SEARCHING =>
        Client.LoadLoop cx n trigger c st next
    | Some Client.DO_NOT_START_REQUEST_AND_STOP_SEARCHING => Some (c, st)
    end.
Proof. destruct n; reflexivity. Qed.

(** Invariants of the pass: a property of the client and the store that
    every start of the pass preserves holds when the pass ends. The start
    may use that the request started is in the queue, that every request
    before it in the queue was just skipped, and that it was itself found
    startable. *)
Lemma LoadLoop_invariant cx trigger (P : Client.t -> Store -> Prop) :
  (forall c st pre request next q,
      P c st ->
      RequestQueue.queue_ (Client.pending_requests_ c) = pre ++ request :: next ->
      Forall
        (fun x =>
           Client.ShouldStartRequest cx c st x
           = Some Client.DO_NOT_START_REQUEST_AND_KEEP_SEARCHING) pre ->
      Client.ShouldStartRequest cx c st request = Some Client.START_REQUEST ->
      RequestQueue.Erase (Client.pending_requests_ c) request = Some q ->
      P (Client.StartRequest cx (Client.with_pending_requests c q) st request
           START_ASYNC trigger).1
        (Client.StartRequest cx (Client.with_pending_requests c q) st request
           START_ASYNC trigger).2) ->
  forall n c st c' st',
    P c st ->
    Client.LoadLoop cx n trigger c st
      (RequestQueue.queue_ (Client.pending_requests_ c)) = Some (c', st') ->
    P c' st'.
Proof.
  intros Hstep n.
  induction n as [| n IHn]; intros c st c' st' HP.
  - assert (Hwalk : forall pre iter,
               RequestQueue.queue_ (Client.pending_requests_ c) = pre ++ iter ->
               Forall
                 (fun x =>
                    Client.ShouldStartRequest cx c st x
                    = Some Client.DO_NOT_START_REQUEST_AND_KEEP_SEARCHING) pre ->
               Client.LoadLoop cx 0 trigger c st iter = Some (c', st') ->
               P c' st').
    { intros pre iter. revert pre.
      induction iter as [| request next IH]; intros pre Hq Hpre.
      - rewrite LoadLoop_nil. by intros [= <- <-].
      - rewrite LoadLoop_cons.
        destruct (Client.ShouldStartRequest cx c st request) as [[| |] |] eqn:Hs;
          try discriminate.
        + by intros [= <- <-].
        + apply (IH (pre ++ [request])).
          * by rewrite <- app_assoc.
          * apply Forall_app. split; [exact Hpre | by constructor].
        + destruct (RequestQueue.Erase (Client.pending_requests_ c) request)
            as [q |] eqn:Hq'; [| discriminate].
          specialize (Hstep c st pre request next q HP Hq Hpre Hs Hq').
          destruct (Client.StartRequest cx (Client.with_pending_requests c q)
                      st request START_ASYNC trigger) as [c1 st1].
          destruct (RequestQueue.queue_ (Client.pending_requests_ c1));
            [| discriminate].
          by intros [= <- <-]. }
    apply (Hwalk []); [reflexivity | constructor].
  - assert (Hwalk : forall pre iter,
               RequestQueue.queue_ (Client.pending_requests_ c) = pre ++ iter ->
               Forall
                 (fun x =>
                    Client.ShouldStartRequest cx c st x
                    = Some Client.DO_NOT_START_REQUEST_AND_KEEP_SEARCHING) pre ->
               Client.LoadLoop cx (S n) trigger c st iter = Some (c', st') ->
               P c' st').
    { intros pre iter. revert pre.
      induction iter as [| request next IH]; intros pre Hq Hpre.
      - rewrite LoadLoop_nil. by intros [= <- <-].
      - rewrite LoadLoop_cons.
        destruct (Client.ShouldStartRequest cx c st request) as [[| |] |] eqn:Hs;
          try discriminate.
        + by intros [= <- <-].
        + apply (IH (pre ++ [request])).
          * by rewrite <- app_assoc.
          * apply Forall_app. split; [exact Hpre | by constructor].
        + destruct (RequestQueue.Erase (Client.pending_requests_ c) request)
            as [q |] eqn:Hq'; [| discriminate].
          specialize (Hstep c st pre request next q HP Hq Hpre Hs Hq').
          destruct (Client.StartRequest cx (Client.with_pending_requests c q)
                      st request START_ASYNC trigger) as [c1 st1].
          simpl in Hstep.
          destruct (RequestQueue.queue_ (Client.pending_requests_ c1)) eqn:Hq1.
          * by intros [= <- <-].
          * rewrite <- Hq1. by apply IHn. }
    apply (Hwalk []); [reflexivity | constructor].
Qed.

(** ** What the operations change in the client *)

Lemma with_counts_same c :
  Client.with_counts c (Client.in_flight_delayable_count_ c)
    (Client.total_layout_blocking_count_ c) = c.
Proof. by destruct c. Qed.

Lemma SetRequestAttributes_client c st request attributes :
  exists d l,
    (Client.SetRequestAttributes c st request attributes).1
    = Client.with_counts c d l.
Proof.
  unfold Client.SetRequestAttributes.
  destruct (attributes_ (deref st request) =? attributes); simpl.
  - eexists _, _. symmetry. apply with_counts_same.
  - eexists _, _. reflexivity.
Qed.

Lemma InsertInFlightRequest_client cx c st request :
  exists d l,
    (Client.InsertInFlightRequest cx c st request).1
    = Client.with_counts
        (Client.with_in_flight_requests c
           ({[request]} ∪ Client.in_flight_requests_ c)) d l.
Proof.
  unfold Client.InsertInFlightRequest.
  destruct (SetRequestAttributes_client
              (Client.with_in_flight_requests c
                 ({[request]} ∪ Client.in_flight_requests_ c)) st request
              (Client.DetermineRequestAttributes cx
                 (Client.with_in_flight_requests c
                    ({[request]} ∪ Client.in_flight_requests_ c)) st request))
    as (d & l & E).
  destruct (Client.SetRequestAttributes _ _ _ _) as [c1 st1]. simpl in *.
  subst c1. eexists _, _. reflexivity.
Qed.

Lemma StartRequest_client cx c st request start_mode trigger :
  exists d l start,
    (Client.StartRequest cx c st request start_mode trigger).1
    = Client.with_counts
        (Client.with_in_flight_requests
           (Client.with_last_non_delayable c start
              (Client.last_non_delayable_request_end_ c))
           ({[request]} ∪ Client.in_flight_requests_ c)) d l.
Proof.
  unfold Client.StartRequest.
  match goal with
  | |- context [Client.InsertInFlightRequest cx ?c0 st request] =>
      destruct (InsertInFlightRequest_client cx c0 st request) as (d & l & E);
      destruct (Client.InsertInFlightRequest cx c0 st request) as [c1 st1]
  end.
  simpl in *. subst c1.
  destruct (negb _);
    [exists d, l, (Some (NowTicks (env cx)))
    | exists d, l, (Client.last_non_delayable_request_start_ c)];
    [reflexivity | by destruct c].
Qed.

(** A pass, however it ends, leaves the count of skipped scans at zero. *)
Lemma LoadAnyStartablePendingRequests_resets cx c st trigger c' st' :
  Client.LoadAnyStartablePendingRequests cx c st trigger = Some (c', st') ->
  Client.num_skipped_scans_due_to_scheduled_start_ c' = 0.
Proof.
  unfold Client.LoadAnyStartablePendingRequests.
  apply (LoadLoop_invariant cx trigger
           (fun c _ => Client.num_skipped_scans_due_to_scheduled_start_ c = 0)).
  - intros c0 st0 pre request next q H0 _ _ _ _.
    destruct (StartRequest_client cx (Client.with_pending_requests c0 q) st0
                request START_ASYNC trigger) as (d & l & start & ->).
    exact H0.
  - reflexivity.
Qed.

(** ** C9: coalescing of the posted passes *)

Lemma schedule_triggers_cons c st trigger triggers :
  schedule_triggers c st (trigger :: triggers)
  = schedule_triggers
      (Client.ScheduleLoadAnyStartablePendingRequests c st trigger).1
      (Client.ScheduleLoadAnyStartablePendingRequests c st trigger).2
      triggers.
Proof. reflexivity. Qed.

(** Triggers that find the count of skipped scans positive post nothing and
    count themselves. *)
Lemma schedule_triggers_skipped triggers : forall c st,
  0 < Client.num_skipped_scans_due_to_scheduled_start_ c ->
  Client.num_skipped_scans_due_to_scheduled_start_ c
  + Z.of_nat (length triggers) < 2 ^ 31 ->
  posted_tasks (schedule_triggers c st triggers).2 = posted_tasks st
  /\ Client.num_skipped_scans_due_to_scheduled_start_
       (schedule_triggers c st triggers).1
     = Client.num_skipped_scans_due_to_scheduled_start_ c
       + Z.of_nat (length triggers)
  /\ Client.this_ (schedule_triggers c st triggers).1 = Client.this_ c.
Proof.
  induction triggers as [| trigger triggers IH]; intros c st Hpos Hbound.
  - simpl. repeat split. lia.
  - rewrite schedule_triggers_cons.
    unfold Client.ScheduleLoadAnyStartablePendingRequests.
    assert ((Client.num_skipped_scans_due_to_scheduled_start_ c =? 0) = false) as ->
      by (apply Z.eqb_neq; lia).
    simpl in *.
    rewrite wrap_int_small by lia.
    match goal with
    | |- context [schedule_triggers ?c1 st triggers] =>
        destruct (IH c1 st) as (H1 & H2 & H3); simpl; [lia | lia |]
    end.
    rewrite H1, H2, H3. simpl. repeat split. lia.
Qed.

(** C9, as stated, fails in its conclusion: a pass that runs directly (here
    from the removal of an in-flight request) resets the count of skipped
    scans while the pass posted before it is still waiting in the task
    queue, so the next trigger posts a second one: two tasks bound to the
    same client are outstanding at once. *)
Lemma C9_counterexample :
  exists s,
    Example.two_passes_posted = Some s
    /\ tasks_of_client 1%positive (ResourceScheduler.store s)
       = [LoadAnyStartablePendingRequestsTask 1%positive REQUEST_REPRIORITIZED;
          LoadAnyStartablePendingRequestsTask 1%positive REQUEST_REPRIORITIZED]
    /\ option_map Client.this_ (Example.the_client s) = Some 1%positive.
Proof. eexists. split; [vm_compute; reflexivity |]. split; reflexivity. Qed.

(** C9 (amended): for a burst of N triggers, 1 <= N < 2^31, that starts with
    the count of skipped scans at zero and has no run of the pass in
    between, exactly one task to run the pass is posted: the first trigger
    posts it and every later trigger only increments the count, which ends
    at N; a trigger that finds the count positive posts nothing; and every
    run of the pass, posted or direct, resets the count to zero. (So at most
    one task is posted between two runs of the pass; a direct run does not
    withdraw a task already posted.) *)
Theorem C9_burst_posts_one_task c st trigger triggers :
  Client.num_skipped_scans_due_to_scheduled_start_ c = 0 ->
  Z.of_nat (length (trigger :: triggers)) < 2 ^ 31 ->
  posted_tasks (schedule_triggers c st (trigger :: triggers)).2
  = posted_tasks st
    ++ [LoadAnyStartablePendingRequestsTask (Client.this_ c) trigger]
  /\ Client.num_skipped_scans_due_to_scheduled_start_
       (schedule_triggers c st (trigger :: triggers)).1
     = Z.of_nat (length (trigger :: triggers))
  /\ (forall c1 st1 trigger1,
        0 < Client.num_skipped_scans_due_to_scheduled_start_ c1 < 2 ^ 31 - 1 ->
        posted_tasks
          (Client.ScheduleLoadAnyStartablePendingRequests c1 st1 trigger1).2
        = posted_tasks st1
        /\ Client.num_skipped_scans_due_to_scheduled_start_
             (Client.ScheduleLoadAnyStartablePendingRequests c1 st1 trigger1).1
           = Client.num_skipped_scans_due_to_scheduled_start_ c1 + 1)
  /\ (forall cx c1 st1 trigger1 c2 st2,
        Client.LoadAnyStartablePendingRequests cx c1 st1 trigger1
        = Some (c2, st2) ->
        Client.num_skipped_scans_due_to_scheduled_start_ c2 = 0).
Proof.
  intros Hzero Hbound. simpl length in Hbound.
  rewrite schedule_triggers_cons.
  unfold Client.ScheduleLoadAnyStartablePendingRequests at 1 2 3 4.
  rewrite Hzero. simpl.
  rewrite wrap_int_small by lia.
  match goal with
  | |- context [schedule_triggers ?c1 ?st1 triggers] =>
      destruct (schedule_triggers_skipped triggers c1 st1) as (H1 & H2 & H3);
      simpl; [lia | lia |]
  end.
  rewrite H1, H2. simpl. split; [reflexivity |]. split; [lia |]. split.
  - intros c1 st1 trigger1 Hc1.
    unfold Client.ScheduleLoadAnyStartablePendingRequests.
    assert ((Client.num_skipped_scans_due_to_scheduled_start_ c1 =? 0) = false)
      as -> by (apply Z.eqb_neq; lia).
    simpl. split; [reflexivity |]. apply wrap_int_small. lia.
  - intros cx c1 st1 trigger1 c2 st2.
    apply LoadAnyStartablePendingRequests_resets.
Qed.

Lemma C9_burst_posts_one_task_witness :
  posted_tasks
    (schedule_triggers Example.capped_client
       (ResourceScheduler.store Example.capped_scheduler)
       [REQUEST_REPRIORITIZED; REQUEST_REPRIORITIZED; REQUEST_REPRIORITIZED]).2
  = posted_tasks (ResourceScheduler.store Example.capped_scheduler)
    ++ [LoadAnyStartablePendingRequestsTask
          (Client.this_ Example.capped_client) REQUEST_REPRIORITIZED].
Proof.
  refine (proj1 (C9_burst_posts_one_task Example.capped_client
                   (ResourceScheduler.store Example.capped_scheduler)
                   REQUEST_REPRIORITIZED
                   [REQUEST_REPRIORITIZED; REQUEST_REPRIORITIZED] _ _));
    vm_compute; reflexivity.
Defined.

(** ** The order of the pending queue *)

Lemma params_eq_true a b : params_eq a b = true <-> a = b.
Proof.
  unfold params_eq. destruct a as [pa ia], b as [pb ib]; simpl.
  rewrite andb_true_iff, bool_decide_eq_true, Z.eqb_eq.
  split; [intros [-> ->]; reflexivity | intros [= -> ->]; by split].
Qed.

(** The sorter compares lexicographically: priority descending, then
    intra-priority descending, then fifo ordering ascending. *)
Lemma ScheduledResourceSorter_spec a b :
  ScheduledResourceSorter a b = true <->
  net.ordinal (rp_priority (priority_ b)) < net.ordinal (rp_priority (priority_ a))
  \/ (rp_priority (priority_ a) = rp_priority (priority_ b)
      /\ (intra_priority (priority_ b) < intra_priority (priority_ a)
          \/ (intra_priority (priority_ a) = intra_priority (priority_ b)
              /\ fifo_ordering_ a < fifo_ordering_ b))).
Proof.
  unfold ScheduledResourceSorter, GreaterThan.
  destruct (params_eq (priority_ a) (priority_ b)) eqn:E; simpl.
  - apply params_eq_true in E. rewrite E, Z.ltb_lt. split.
    + intros H. right. split; [reflexivity |]. right. by split.
    + intros [H | [_ [H | [_ H]]]]; [lia | lia | exact H].
  - assert (Hne : priority_ a <> priority_ b).
    { intros H. apply params_eq_true in H. congruence. }
    case_bool_decide as Hp; simpl.
    + rewrite Z.ltb_lt. split.
      * intros H. right. split; [exact Hp |]. by left.
      * intros [H | [_ [H | [Hi _]]]]; [rewrite Hp in H; lia | exact H |].
        destruct (priority_ a), (priority_ b); simpl in *; congruence.
    + rewrite Z.ltb_lt. split.
      * intros H. by left.
      * intros [H | [H _]]; [exact H | contradiction].
Qed.

Lemma ScheduledResourceSorter_false a b :
  ScheduledResourceSorter a b = false ->
  net.ordinal (rp_priority (priority_ a)) <= net.ordinal (rp_priority (priority_ b))
  /\ (rp_priority (priority_ a) = rp_priority (priority_ b) ->
      intra_priority (priority_ a) <= intra_priority (priority_ b)
      /\ (intra_priority (priority_ a) = intra_priority (priority_ b) ->
          fifo_ordering_ b <= fifo_ordering_ a)).
Proof.
  intros H.
  assert (Hn : ~ (ScheduledResourceSorter a b = true)) by (rewrite H; discriminate).
  rewrite ScheduledResourceSorter_spec in Hn.
  split; [lia |]. intros Hp. split; [| intros Hi]; apply Z.nlt_ge; intros Hlt;
    apply Hn; right; (split; [exact Hp |]); [by left | right; by split].
Qed.

Lemma ScheduledResourceSorter_irrefl a : ScheduledResourceSorter a a = false.
Proof.
  apply not_true_is_false. rewrite ScheduledResourceSorter_spec. lia.
Qed.

Lemma ScheduledResourceSorter_trans a b c :
  ScheduledResourceSorter a b = true ->
  ScheduledResourceSorter b c = true ->
  ScheduledResourceSorter a c = true.
Proof.
  rewrite !ScheduledResourceSorter_spec.
  intros [H1 | [E1 H1]] [H2 | [E2 H2]].
  - left. lia.
  - left. rewrite <- E2. exact H1.
  - left. rewrite E1. exact H2.
  - right. split; [congruence |]. lia.
Qed.

Lemma ScheduledResourceSorter_asym a b :
  ScheduledResourceSorter a b = true -> ScheduledResourceSorter b a = false.
Proof.
  intros H. apply not_true_is_false. intros H'.
  pose proof (ScheduledResourceSorter_trans _ _ _ H H') as Haa.
  by rewrite ScheduledResourceSorter_irrefl in Haa.
Qed.

(** Two handles whose keys differ are ordered one way or the other. *)
Lemma ScheduledResourceSorter_total a b :
  (priority_ a, fifo_ordering_ a) <> (priority_ b, fifo_ordering_ b) ->
  ScheduledResourceSorter a b = true \/ ScheduledResourceSorter b a = true.
Proof.
  intros Hne. rewrite !ScheduledResourceSorter_spec.
  destruct (Z.lt_trichotomy (net.ordinal (rp_priority (priority_ a)))
              (net.ordinal (rp_priority (priority_ b)))) as [H | [H | H]];
    [right; by left | | left; by left].
  apply ordinal_inj in H.
  destruct (Z.lt_trichotomy (intra_priority (priority_ a))
              (intra_priority (priority_ b))) as [Hi | [Hi | Hi]];
    [right; right; split; [done | by left] |
    | left; right; split; [done | by left]].
  destruct (Z.lt_trichotomy (fifo_ordering_ a) (fifo_ordering_ b))
    as [Hf | [Hf | Hf]];
    [left; right; split; [done | right; by split] |
    | right; right; split; [done | right; by split]].
  exfalso. apply Hne. f_equal; [| exact Hf].
  destruct (priority_ a), (priority_ b); simpl in *; congruence.
Qed.

(** Not being less is transitive too: the order is a strict weak order. *)
Lemma ScheduledResourceSorter_false_trans a b c :
  ScheduledResourceSorter a b = false ->
  ScheduledResourceSorter b c = false ->
  ScheduledResourceSorter a c = false.
Proof.
  intros H1 H2. apply not_true_is_false.
  apply ScheduledResourceSorter_false in H1, H2.
  rewrite ScheduledResourceSorter_spec.
  destruct H1 as [H1 H1'], H2 as [H2 H2'].
  intros [H | [E [H | [Ei H]]]]; [lia | |].
  - assert (Eab : rp_priority (priority_ a) = rp_priority (priority_ b))
      by (apply ordinal_inj; rewrite <- E in H2; lia).
    destruct (H1' Eab) as [Ha _].
    destruct (H2' ltac:(congruence)) as [Hb _]. lia.
  - assert (Eab : rp_priority (priority_ a) = rp_priority (priority_ b))
      by (apply ordinal_inj; rewrite <- E in H2; lia).
    destruct (H1' Eab) as [Ha Ha'].
    destruct (H2' ltac:(congruence)) as [Hb Hb'].
    assert (intra_priority (priority_ a) = intra_priority (priority_ b)) as Eiab
      by lia.
    specialize (Ha' Eiab). specialize (Hb' ltac:(lia)). lia.
Qed.

(** *** Insertion and removal *)

Lemma multiset_insert_split comp x l :
  exists l1 l2,
    l = l1 ++ l2
    /\ multiset_insert comp x l = l1 ++ x :: l2
    /\ Forall (fun y => comp x y = false) l1
    /\ match l2 with [] => True | y :: _ => comp x y = true end.
Proof.
  induction l as [| y l IH]; simpl.
  - exists [], []. repeat split. constructor.
  - destruct (comp x y) eqn:E.
    + exists [], (y :: l). repeat split; [constructor | exact E].
    + destruct IH as (l1 & l2 & -> & -> & H1 & H2).
      exists (y :: l1), l2. repeat split; [by constructor | exact H2].
Qed.

Lemma multiset_insert_elem_of comp x l p :
  p ∈ multiset_insert comp x l <-> p = x \/ p ∈ l.
Proof.
  destruct (multiset_insert_split comp x l) as (l1 & l2 & -> & -> & _).
  rewrite elem_of_app, elem_of_cons, elem_of_app. tauto.
Qed.

Lemma multiset_insert_NoDup comp x l :
  x ∉ l -> NoDup l -> NoDup (multiset_insert comp x l).
Proof.
  destruct (multiset_insert_split comp x l) as (l1 & l2 & -> & -> & _).
  intros Hx Hnd. apply NoDup_app in Hnd as (H1 & H12 & H2).
  apply NoDup_app. split; [exact H1 |]. split.
  - intros y Hy. rewrite elem_of_cons. intros [-> | Hy2].
    + apply Hx. apply elem_of_app. by left.
    + by apply (H12 y).
  - apply NoDup_cons. split; [| exact H2].
    intros Hx2. apply Hx. apply elem_of_app. by right.
Qed.

Lemma multiset_insert_length comp x l :
  length (multiset_insert comp x l) = S (length l).
Proof.
  destruct (multiset_insert_split comp x l) as (l1 & l2 & -> & -> & _).
  rewrite !length_app. simpl. lia.
Qed.

Lemma erase_node_filter x l :
  NoDup l -> erase_node x l = filter (fun y => y <> x) l.
Proof.
  induction l as [| y l IH]; intros Hnd; simpl; [reflexivity |].
  apply NoDup_cons in Hnd as [Hy Hnd].
  rewrite filter_cons. destruct (decide (x = y)) as [-> | Hne].
  - rewrite decide_False by tauto.
    symmetry. clear IH Hnd. induction l as [| z l IH]; [reflexivity |].
    rewrite filter_cons. apply not_elem_of_cons in Hy as [Hz Hy].
    rewrite decide_True by congruence. f_equal. by apply IH.
  - rewrite decide_True by congruence. f_equal. by apply IH.
Qed.

Lemma erase_node_elem_of x l p :
  NoDup l -> p ∈ erase_node x l <-> p <> x /\ p ∈ l.
Proof.
  intros Hnd. rewrite erase_node_filter by exact Hnd.
  rewrite list_elem_of_filter. tauto.
Qed.

Lemma erase_node_NoDup x l : NoDup l -> NoDup (erase_node x l).
Proof.
  intros Hnd. rewrite erase_node_filter by exact Hnd. by apply NoDup_filter.
Qed.

Lemma erase_node_length x l :
  x ∈ l -> length (erase_node x l) = pred (length l).
Proof.
  induction l as [| y l IH]; intros Hx; [by apply elem_of_nil in Hx |].
  simpl. destruct (decide (x = y)) as [-> | Hne]; [reflexivity |].
  apply elem_of_cons in Hx as [-> | Hx]; [contradiction |].
  simpl. rewrite IH by exact Hx.
  destruct l; [by apply elem_of_nil in Hx | reflexivity].
Qed.

Lemma comes_before_ext st st' a b :
  priority_ (deref st' a) = priority_ (deref st a) ->
  fifo_ordering_ (deref st' a) = fifo_ordering_ (deref st a) ->
  priority_ (deref st' b) = priority_ (deref st b) ->
  fifo_ordering_ (deref st' b) = fifo_ordering_ (deref st b) ->
  comes_before st' a b = comes_before st a b.
Proof.
  unfold comes_before, ScheduledResourceSorter. by intros -> -> -> ->.
Qed.

Lemma queue_sorted_ext st st' l :
  (forall p, p ∈ l ->
     priority_ (deref st' p) = priority_ (deref st p)
     /\ fifo_ordering_ (deref st' p) = fifo_ordering_ (deref st p)) ->
  queue_sorted st l -> queue_sorted st' l.
Proof.
  unfold queue_sorted. intros Hext Hs.
  induction Hs as [| a l Hs IH Ha]; constructor.
  - apply IH. intros p Hp. apply Hext. by right.
  - rewrite Forall_forall in *. intros b Hb.
    destruct (Hext a) as [? ?]; [by left |].
    destruct (Hext b) as [? ?]; [by right |].
    rewrite (comes_before_ext st st') by assumption. by apply Ha.
Qed.

Lemma queue_sorted_filter st (P : positive -> Prop) `{forall x, Decision (P x)} l :
  queue_sorted st l -> queue_sorted st (filter P l).
Proof.
  unfold queue_sorted. intros Hs.
  induction Hs as [| a l Hs IH Ha]; [constructor |].
  rewrite filter_cons. destruct (decide (P a)); [| exact IH].
  constructor; [exact IH |].
  rewrite Forall_forall in *. intros b Hb.
  apply list_elem_of_filter in Hb as [_ Hb]. by apply Ha.
Qed.

(** Insertion keeps the queue in order. *)
Lemma queue_sorted_insert st x l :
  queue_sorted st l ->
  queue_sorted st (multiset_insert (comes_before st) x l).
Proof.
  unfold queue_sorted. intros Hs.
  induction Hs as [| a l Hs IH Ha]; simpl.
  - repeat constructor.
  - destruct (comes_before st x a) eqn:E.
    + constructor; [by constructor |].
      constructor; [by apply ScheduledResourceSorter_asym |].
      rewrite Forall_forall in *. intros b Hb.
      apply not_true_is_false. intros Hbx.
      pose proof (ScheduledResourceSorter_trans _ _ _ Hbx E) as Hba.
      unfold comes_before in Ha. by rewrite (Ha b Hb) in Hba.
    + constructor; [exact IH |].
      rewrite Forall_forall in *. intros b Hb.
      apply multiset_insert_elem_of in Hb as [-> | Hb]; [exact E | by apply Ha].
Qed.

(** In an ordered queue an element that compares less sits before. *)
Lemma queue_sorted_precedes st l a b :
  queue_sorted st l -> a ∈ l -> b ∈ l ->
  comes_before st a b = true -> precedes a b l.
Proof.
  unfold queue_sorted. intros Hs Ha Hb Hab.
  apply list_elem_of_split in Ha as (l1 & l2 & ->).
  apply elem_of_app in Hb as [Hb | Hb].
  - exfalso.
    assert (Hba : comes_before st a b = false).
    { apply (StronglySorted_app_1_elem_of _ _ _ b a Hs Hb). by left. }
    congruence.
  - apply elem_of_cons in Hb as [-> | Hb].
    + unfold comes_before in Hab.
      by rewrite ScheduledResourceSorter_irrefl in Hab.
    + apply list_elem_of_split in Hb as (l3 & l4 & ->).
      by exists l1, l3, l4.
Qed.

Lemma precedes_filter (P : positive -> Prop) `{forall x, Decision (P x)} a b l :
  P a -> P b -> precedes a b l -> precedes a b (filter P l).
Proof.
  intros Ha Hb (l1 & l2 & l3 & ->).
  exists (filter P l1), (filter P l2), (filter P l3).
  rewrite filter_app, filter_cons, decide_True by exact Ha.
  rewrite filter_app, filter_cons, decide_True by exact Hb.
  reflexivity.
Qed.

Lemma precedes_elem_of a b l : precedes a b l -> a ∈ l /\ b ∈ l.
Proof.
  intros (l1 & l2 & l3 & ->). split.
  - apply elem_of_app. right. by left.
  - apply elem_of_app. right. right. apply elem_of_app. right. by left.
Qed.

(** With no element twice, what precedes [b] lies in the part before it. *)
Lemma precedes_in_prefix a b l pre next :
  NoDup l -> l = pre ++ b :: next -> precedes a b l -> a ∈ pre.
Proof.
  intros Hnd Hl (l1 & l2 & l3 & Hl'). subst l.
  assert (Hb : (b ∉ pre) /\ (b ∉ next)).
  { apply NoDup_app in Hnd as (_ & Hd & Hn). apply NoDup_cons in Hn as [Hn _].
    split; [| exact Hn]. intros Hb. apply (Hd b Hb). by left. }
  destruct Hb as [Hb1 Hb2].
  assert (Hsplit : pre = l1 ++ a :: l2 /\ next = l3).
  { assert (E : (l1 ++ a :: l2) ++ b :: l3 = pre ++ b :: next)
      by (by rewrite <- app_assoc).
    clear Hl'. revert E. generalize (l1 ++ a :: l2) as l0. intros l0.
    revert pre Hnd Hb1. induction l0 as [| z l0 IH]; intros pre Hnd Hb1 E.
    - destruct pre as [| y pre]; simpl in E.
      + by injection E as <-.
      + injection E as <- E. exfalso. apply Hb1. by left.
    - destruct pre as [| y pre]; simpl in E.
      + injection E as -> E. exfalso. apply Hb2. rewrite <- E.
        apply elem_of_app. right. by left.
      + injection E as -> E.
        simpl in Hnd. apply NoDup_cons in Hnd as [_ Hnd].
        apply not_elem_of_cons in Hb1 as [_ Hb1].
        destruct (IH pre Hnd Hb1 E) as [-> ->]. by split. }
  destruct Hsplit as [-> _]. apply elem_of_app. right. by left.
Qed.

(** *** What [SetRequestAttributes] and [Insert] change in the store *)

Lemma set_attributes_same r : set_attributes r (attributes_ r) = r.
Proof. by destruct r. Qed.

Lemma SetRequestAttributes_deref c st request attributes p :
  deref (Client.SetRequestAttributes c st request attributes).2 p
  = if decide (p = request)
    then set_attributes (deref st request) attributes
    else deref st p.
Proof.
  unfold Client.SetRequestAttributes.
  destruct (attributes_ (deref st request) =? attributes) eqn:E; simpl.
  - apply Z.eqb_eq in E. destruct (decide (p = request)) as [-> |]; [| done].
    by rewrite <- E, set_attributes_same.
  - destruct (decide (p = request)) as [-> |].
    + apply deref_store_request.
    + by apply deref_store_request_ne.
Qed.

Lemma SetRequestAttributes_store c st request attributes :
  url_requests (Client.SetRequestAttributes c st request attributes).2
  = url_requests st
  /\ posted_tasks (Client.SetRequestAttributes c st request attributes).2
     = posted_tasks st
  /\ resumed (Client.SetRequestAttributes c st request attributes).2
     = resumed st.
Proof.
  unfold Client.SetRequestAttributes.
  destruct (attributes_ (deref st request) =? attributes); by simpl.
Qed.

Lemma Insert_queue q st request :
  RequestQueue.Insert q st request
  = ({| RequestQueue.fifo_ordering_ids_ :=
          wrap_uint32 (RequestQueue.fifo_ordering_ids_ q + 1);
        RequestQueue.queue_ :=
          multiset_insert
            (comes_before
               (store_request st request
                  (set_fifo_ordering (deref st request)
                     (wrap_uint32 (RequestQueue.fifo_ordering_ids_ q + 1)))))
            request (RequestQueue.queue_ q) |},
     store_request st request
       (set_fifo_ordering (deref st request)
          (wrap_uint32 (RequestQueue.fifo_ordering_ids_ q + 1)))).
Proof. reflexivity. Qed.

Lemma Erase_Some q request q' :
  RequestQueue.Erase q request = Some q' ->
  request ∈ RequestQueue.queue_ q
  /\ q' = {| RequestQueue.fifo_ordering_ids_ := RequestQueue.fifo_ordering_ids_ q;
             RequestQueue.queue_ := erase_node request (RequestQueue.queue_ q) |}.
Proof.
  unfold RequestQueue.Erase, RequestQueue.IsQueued.
  case_bool_decide; [| discriminate]. by intros [= <-].
Qed.

Lemma Erase_queued q request :
  RequestQueue.IsQueued q request = true ->
  RequestQueue.Erase q request
  = Some {| RequestQueue.fifo_ordering_ids_ := RequestQueue.fifo_ordering_ids_ q;
            RequestQueue.queue_ := erase_node request (RequestQueue.queue_ q) |}.
Proof. unfold RequestQueue.Erase. by intros ->. Qed.

(** ** C6: re-prioritizing a handle *)

(** The attributes determined for a handle do not change when they are
    determined again from the handle that carries them. *)
Lemma DetermineRequestAttributes_stable cx c st request c' st' :
  Client.in_flight_requests_ c' = Client.in_flight_requests_ c ->
  Client.params_for_network_quality_ c' = Client.params_for_network_quality_ c ->
  url_requests st' = url_requests st ->
  request_ (deref st' request) = request_ (deref st request) ->
  attributes_ (deref st' request)
  = Client.DetermineRequestAttributes cx c st request ->
  Client.DetermineRequestAttributes cx c' st' request
  = Client.DetermineRequestAttributes cx c st request.
Proof.
  intros Hf Hp Hu Hr Ha.
  assert (Hurl : url_request st' request = url_request st request)
    by (unfold url_request; by rewrite Hu, Hr).
  unfold Client.DetermineRequestAttributes in *.
  rewrite Hf, Hp, Hurl, Ha.
  destruct (RequestAttributesAreSet (attributes_ (deref st request))
              kAttributeLayoutBlocking) eqn:Hlb.
  - by case_bool_decide.
  - destruct (_ <? _); [| by case_bool_decide].
    destruct (delay_requests_on_multiplexed_connections _);
      [by case_bool_decide |].
    destruct (negb _); by case_bool_decide.
Qed.

(** C6, as stated, fails for a handle in flight: re-prioritizing the first
    of eight MEDIUM requests in flight to LOW does more than update its
    priority key; its attributes are determined anew, the handle becomes
    delayable, and the client's count of delayable requests in flight goes
    from 0 to 1. *)
Lemma C6_counterexample :
  exists s s',
    Example.eight_scheduled net.MEDIUM = Some s
    /\ Example.in_flight_reprioritized = Some s'
    /\ 101%positive ∈ Example.in_flight_of s
    /\ attributes_ (deref (ResourceScheduler.store s) 101%positive)
       = kAttributeInFlight
    /\ attributes_ (deref (ResourceScheduler.store s') 101%positive)
       = Z.lor kAttributeInFlight kAttributeDelayable
    /\ option_map Client.in_flight_delayable_count_ (Example.the_client s)
       = Some 0
    /\ option_map Client.in_flight_delayable_count_ (Example.the_client s')
       = Some 1.
Proof.
  eexists _, _. split; [vm_compute; reflexivity |].
  split; [vm_compute; reflexivity |]. split; [vm_compute; set_solver |].
  repeat split; vm_compute; reflexivity.
Qed.

(** [ReprioritizeRequest], step by step. *)
Lemma ReprioritizeRequest_unfold cx c st request old_priority_params
    new_priority_params :
  let st2 :=
    store_request
      (with_url_requests st
         (<[request_ (deref st request) :=
              net.SetPriority (url_request st request)
                (rp_priority new_priority_params)]> (url_requests st)))
      request
      (set_request_priority_params (deref st request) new_priority_params) in
  let cs3 :=
    Client.SetRequestAttributes c st2 request
      (Client.DetermineRequestAttributes cx c st2 request) in
  let qs :=
    RequestQueue.Insert
      {| RequestQueue.fifo_ordering_ids_ :=
           RequestQueue.fifo_ordering_ids_ (Client.pending_requests_ c);
         RequestQueue.queue_ :=
           erase_node request
             (RequestQueue.queue_ (Client.pending_requests_ c)) |}
      cs3.2 request in
  Client.ReprioritizeRequest cx c st request old_priority_params
    new_priority_params
  = if negb (RequestQueue.IsQueued (Client.pending_requests_ c) request)
    then Some cs3
    else if net.ordinal (rp_priority old_priority_params)
            <? net.ordinal (rp_priority new_priority_params)
    then Some (Client.ScheduleLoadAnyStartablePendingRequests
                 (Client.with_pending_requests cs3.1 qs.1) qs.2
                 REQUEST_REPRIORITIZED)
    else Some (Client.with_pending_requests cs3.1 qs.1, qs.2).
Proof.
  intros st2 cs3 qs. unfold Client.ReprioritizeRequest.
  rewrite deref_with_url_requests. fold st2. fold cs3.
  destruct (SetRequestAttributes_client c st2 request
              (Client.DetermineRequestAttributes cx c st2 request))
    as (d & l & Hc3).
  fold cs3 in Hc3.
  assert (Hq : Client.pending_requests_ cs3.1 = Client.pending_requests_ c)
    by (by rewrite Hc3).
  subst qs. destruct cs3 as [c3 st3]. simpl in *. rewrite Hq.
  destruct (RequestQueue.IsQueued (Client.pending_requests_ c) request) eqn:E;
    simpl; [| reflexivity].
  rewrite (Erase_queued _ _ E). reflexivity.
Qed.

(** After insertion into a well-formed queue whose ordering ids do not wrap,
    the inserted handle carries the largest ordering id and sits behind
    every other handle of the same priority and intra-priority. *)
Lemma multiset_insert_last st request l :
  NoDup l -> request ∉ l -> queue_sorted st l ->
  (forall p, p ∈ l ->
     fifo_ordering_ (deref st p) < fifo_ordering_ (deref st request)) ->
  forall p, p ∈ l ->
    priority_ (deref st p) = priority_ (deref st request) ->
    precedes p request (multiset_insert (comes_before st) request l).
Proof.
  intros Hnd Hnotin Hs Hfifo p Hp Hprio.
  destruct (multiset_insert_split (comes_before st) request l)
    as (l1 & l2 & -> & -> & Hl1 & Hl2).
  apply elem_of_app in Hp as [Hp | Hp].
  - apply list_elem_of_split in Hp as (l3 & l4 & ->).
    exists l3, l4, l2. by rewrite <- app_assoc.
  - exfalso. destruct l2 as [| y l2]; [by apply elem_of_nil in Hp |].
    assert (Hpy : comes_before st request p = false).
    { apply not_true_is_false. unfold comes_before.
      rewrite ScheduledResourceSorter_spec. rewrite Hprio.
      assert (fifo_ordering_ (deref st p) < fifo_ordering_ (deref st request))
        by (apply Hfifo; apply elem_of_app; by right).
      lia. }
    apply elem_of_cons in Hp as [-> | Hp]; [congruence |].
    assert (Hyp : comes_before st p y = false).
    { apply StronglySorted_app_1_r in Hs.
      apply StronglySorted_inv in Hs as [_ Hall].
      rewrite Forall_forall in Hall. by apply Hall. }
    assert (Hy : fifo_ordering_ (deref st y) < fifo_ordering_ (deref st request)).
    { apply Hfifo. apply elem_of_app. right. by left. }
    unfold comes_before in *.
    apply ScheduledResourceSorter_false in Hyp.
    rewrite ScheduledResourceSorter_spec in Hl2.
    rewrite Hprio in Hyp. destruct Hyp as [Ho Hrest].
    destruct Hl2 as [H | [E [H | [Ei H]]]]; [lia | | lia].
    destruct (Hrest E) as [Hi _]. lia.
Qed.

(** C6 (amended): re-prioritizing a handle always updates its priority key
    and the priority of its request, and determines its attributes anew
    (with the client's counters following). For a handle in flight nothing
    else changes: the queue, its ordering id, the posted tasks and the count
    of skipped scans stay as they are. A pending handle is erased and
    inserted again with the next ordering id; as long as the 32-bit counter
    does not wrap, that id is larger than the id of every other pending
    handle, and the handle sits behind every pending handle of the same
    priority and intra-priority. A coalesced re-evaluation pass is scheduled
    if and only if the handle is pending and the new priority is strictly
    higher than the old one. *)
Theorem C6_reprioritize cx c st request old_priority_params
    new_priority_params c' st' :
  Client.ReprioritizeRequest cx c st request old_priority_params
    new_priority_params = Some (c', st') ->
  priority_ (deref st' request) = new_priority_params
  /\ net.priority (url_request st' request) = rp_priority new_priority_params
  /\ attributes_ (deref st' request)
     = Client.DetermineRequestAttributes cx c' st' request
  /\ Client.in_flight_requests_ c' = Client.in_flight_requests_ c
  /\ (RequestQueue.IsQueued (Client.pending_requests_ c) request = false ->
      Client.pending_requests_ c' = Client.pending_requests_ c
      /\ fifo_ordering_ (deref st' request) = fifo_ordering_ (deref st request)
      /\ posted_tasks st' = posted_tasks st
      /\ Client.num_skipped_scans_due_to_scheduled_start_ c'
         = Client.num_skipped_scans_due_to_scheduled_start_ c)
  /\ (RequestQueue.IsQueued (Client.pending_requests_ c) request = true ->
      request ∈ RequestQueue.queue_ (Client.pending_requests_ c')
      /\ fifo_ordering_ (deref st' request)
         = wrap_uint32
             (RequestQueue.fifo_ordering_ids_ (Client.pending_requests_ c) + 1)
      /\ RequestQueue.fifo_ordering_ids_ (Client.pending_requests_ c')
         = fifo_ordering_ (deref st' request)
      /\ (queue_wf st c ->
          RequestQueue.fifo_ordering_ids_ (Client.pending_requests_ c) + 1
          < 2 ^ 32 ->
          forall p,
            p ∈ RequestQueue.queue_ (Client.pending_requests_ c') ->
            p <> request ->
            fifo_ordering_ (deref st' p) < fifo_ordering_ (deref st' request)
            /\ (priority_ (deref st' p) = new_priority_params ->
                precedes p request
                  (RequestQueue.queue_ (Client.pending_requests_ c'))))
      /\ Client.num_skipped_scans_due_to_scheduled_start_ c'
         = (if net.ordinal (rp_priority old_priority_params)
               <? net.ordinal (rp_priority new_priority_params)
            then wrap_int
                   (Client.num_skipped_scans_due_to_scheduled_start_ c + 1)
            else Client.num_skipped_scans_due_to_scheduled_start_ c)
      /\ posted_tasks st'
         = (if (net.ordinal (rp_priority old_priority_params)
                <? net.ordinal (rp_priority new_priority_params))
               && (Client.num_skipped_scans_due_to_scheduled_start_ c =? 0)
            then posted_tasks st
                 ++ [LoadAnyStartablePendingRequestsTask (Client.this_ c)
                       REQUEST_REPRIORITIZED]
            else posted_tasks st)).
Proof.
  rewrite ReprioritizeRequest_unfold.
  set (u := request_ (deref st request)).
  set (st1 := with_url_requests st _).
  set (st2 := store_request st1 request _).
  set (a := Client.DetermineRequestAttributes cx c st2 request).
  destruct (SetRequestAttributes_client c st2 request a) as (d & l & Hc3).
  pose proof (SetRequestAttributes_deref c st2 request a) as Hderef.
  destruct (SetRequestAttributes_store c st2 request a) as (Hurls & Htasks & _).
  destruct (Client.SetRequestAttributes c st2 request a) as [c3 st3].
  cbn [fst snd] in *.
  assert (Htasks3 : posted_tasks st3 = posted_tasks st) by exact Htasks.
  assert (Hd2 : deref st2 request
                = set_request_priority_params (deref st request)
                    new_priority_params)
    by apply deref_store_request.
  assert (Hd3 : deref st3 request = set_attributes (deref st2 request) a)
    by (rewrite Hderef; by rewrite decide_True).
  assert (Hother3 : forall p, p <> request -> deref st3 p = deref st p).
  { intros p Hp. rewrite Hderef, decide_False by exact Hp.
    unfold st2. by rewrite deref_store_request_ne. }
  assert (Hu3 : net.priority (url_requests st3 !!! u)
                = rp_priority new_priority_params).
  { rewrite Hurls. unfold st2, st1. simpl. by rewrite lookup_total_insert_eq. }
  assert (Ha3 : Client.DetermineRequestAttributes cx c3 st3 request = a).
  { apply DetermineRequestAttributes_stable.
    - by rewrite Hc3.
    - by rewrite Hc3.
    - exact Hurls.
    - by rewrite Hd3.
    - by rewrite Hd3. }
  destruct (RequestQueue.IsQueued (Client.pending_requests_ c) request) eqn:Hq;
    cbn [negb].
  - (* pending *)
    rewrite Insert_queue. cbn [fst snd RequestQueue.fifo_ordering_ids_ RequestQueue.queue_].
    set (id := wrap_uint32
                 (RequestQueue.fifo_ordering_ids_ (Client.pending_requests_ c) + 1)).
    set (st4 := store_request st3 request (set_fifo_ordering (deref st3 request) id)).
    set (q4 := {| RequestQueue.fifo_ordering_ids_ := id;
                  RequestQueue.queue_ := multiset_insert (comes_before st4) request
                    (erase_node request
                       (RequestQueue.queue_ (Client.pending_requests_ c))) |}).
    assert (Hd4 : deref st4 request = set_fifo_ordering (deref st3 request) id)
      by apply deref_store_request.
    assert (Hother4 : forall p, p <> request -> deref st4 p = deref st p).
    { intros p Hp. unfold st4. rewrite deref_store_request_ne by congruence.
      by apply Hother3. }
    assert (Hmain :
      let c4 := Client.with_pending_requests c3 q4 in
      priority_ (deref st4 request) = new_priority_params
      /\ net.priority (url_request st4 request) = rp_priority new_priority_params
      /\ attributes_ (deref st4 request)
         = Client.DetermineRequestAttributes cx c4 st4 request
      /\ request ∈ RequestQueue.queue_ q4
      /\ fifo_ordering_ (deref st4 request) = id
      /\ (queue_wf st c ->
          RequestQueue.fifo_ordering_ids_ (Client.pending_requests_ c) + 1
          < 2 ^ 32 ->
          forall p,
            p ∈ RequestQueue.queue_ q4 -> p <> request ->
            fifo_ordering_ (deref st4 p) < fifo_ordering_ (deref st4 request)
            /\ (priority_ (deref st4 p) = new_priority_params ->
                precedes p request (RequestQueue.queue_ q4)))).
    { intros c4. split; [by rewrite Hd4, Hd3, Hd2 |].
      split.
      { unfold url_request. rewrite Hd4, Hd3, Hd2. simpl. exact Hu3. }
      split.
      { rewrite Hd4. simpl. rewrite Hd3. simpl. symmetry.
        rewrite <- Ha3.
        apply DetermineRequestAttributes_stable; try reflexivity.
        - by rewrite Hd4.
        - rewrite Hd4. simpl. rewrite Hd3. simpl. by rewrite Ha3. }
      split; [apply multiset_insert_elem_of; by left |].
      split; [by rewrite Hd4 |].
      intros (Hnd & Hsorted & Hbound & Hfifo) Hnowrap p Hp Hne.
      apply multiset_insert_elem_of in Hp as [-> | Hp]; [contradiction |].
      assert (Hid : id = RequestQueue.fifo_ordering_ids_
                           (Client.pending_requests_ c) + 1)
        by (apply wrap_uint32_small; lia).
      assert (Hlt : forall p0,
                 p0 ∈ erase_node request
                        (RequestQueue.queue_ (Client.pending_requests_ c)) ->
                 fifo_ordering_ (deref st4 p0)
                 < fifo_ordering_ (deref st4 request)).
      { intros p0 Hp0. apply erase_node_elem_of in Hp0 as [Hne0 Hp0]; [| done].
        rewrite Hother4 by exact Hne0. rewrite Hd4. simpl.
        rewrite Forall_forall in Hfifo. specialize (Hfifo p0 Hp0). lia. }
      split; [by apply Hlt |].
      intros Hprio. apply multiset_insert_last.
      - by apply erase_node_NoDup.
      - rewrite erase_node_elem_of by exact Hnd. tauto.
      - rewrite erase_node_filter by exact Hnd.
        apply (queue_sorted_ext st); [| by apply queue_sorted_filter].
        intros p0 Hp0. apply list_elem_of_filter in Hp0 as [Hne0 _].
        by rewrite Hother4.
      - exact Hlt.
      - exact Hp.
      - rewrite Hprio. by rewrite Hd4, Hd3, Hd2. }
    destruct Hmain as (M1 & M2 & M3 & M4 & M5 & M6).
    assert (Htasks4 : posted_tasks st4 = posted_tasks st) by exact Htasks.
    assert (Hf3 : Client.in_flight_requests_ c3 = Client.in_flight_requests_ c)
      by (by rewrite Hc3).
    assert (Hn3 : Client.num_skipped_scans_due_to_scheduled_start_ c3
                  = Client.num_skipped_scans_due_to_scheduled_start_ c)
      by (by rewrite Hc3).
    assert (Ht3 : Client.this_ c3 = Client.this_ c) by (by rewrite Hc3).
    destruct (net.ordinal (rp_priority old_priority_params)
              <? net.ordinal (rp_priority new_priority_params)); simpl.
    + unfold Client.ScheduleLoadAnyStartablePendingRequests. simpl.
      rewrite Hn3, Ht3.
      destruct (Client.num_skipped_scans_due_to_scheduled_start_ c =? 0);
        intros [= <- <-]; simpl;
        (split; [exact M1 |]); (split; [exact M2 |]); (split; [exact M3 |]);
        (split; [exact Hf3 |]); (split; [discriminate |]); intros _;
        (split; [exact M4 |]); (split; [exact M5 |]);
        (split; [symmetry; exact M5 |]); (split; [exact M6 |]);
        (split; [reflexivity |]); by rewrite <- Htasks4.
    + intros [= <- <-]. simpl.
      (split; [exact M1 |]); (split; [exact M2 |]); (split; [exact M3 |]);
        (split; [exact Hf3 |]); (split; [discriminate |]); intros _;
        (split; [exact M4 |]); (split; [exact M5 |]);
        (split; [symmetry; exact M5 |]); (split; [exact M6 |]);
        (split; [exact Hn3 |]); exact Htasks4.
  - (* in flight *)
    intros [= <- <-].
    split; [by rewrite Hd3, Hd2 |].
    split; [unfold url_request; rewrite Hd3, Hd2; exact Hu3 |].
    split; [rewrite Ha3; by rewrite Hd3 |].
    split; [by rewrite Hc3 |].
    split; [| discriminate]. intros _.
    split; [by rewrite Hc3 |].
    split; [by rewrite Hd3, Hd2 |].
    split; [exact Htasks3 |]. by rewrite Hc3.
Qed.

Lemma C6_reprioritize_witness :
  exists c' st',
    Client.ReprioritizeRequest Example.default_context Example.lowest_client
      (ResourceScheduler.store Example.lowest_scheduler) 107%positive
      {| rp_priority := net.LOWEST; intra_priority := 0 |}
      {| rp_priority := net.LOW; intra_priority := 0 |} = Some (c', st')
    /\ priority_ (deref st' 107%positive)
       = {| rp_priority := net.LOW; intra_priority := 0 |}.
Proof.
  destruct (Client.ReprioritizeRequest Example.default_context
              Example.lowest_client
              (ResourceScheduler.store Example.lowest_scheduler) 107%positive
              {| rp_priority := net.LOWEST; intra_priority := 0 |}
              {| rp_priority := net.LOW; intra_priority := 0 |})
    as [[c' st'] |] eqn:E; [| vm_compute in E; discriminate E].
  exists c', st'. split; [reflexivity |].
  exact (proj1 (C6_reprioritize _ _ _ _ _ _ _ _ E)).
Defined.

(** ** C5: the order of the queue and first in, first out *)

Lemma core_fields r r' :
  core r = core r' ->
  client_id_ r = client_id_ r' /\ request_ r = request_ r'
  /\ is_async_ r = is_async_ r' /\ attributes_ r = attributes_ r'
  /\ priority_ r = priority_ r' /\ fifo_ordering_ r = fifo_ordering_ r'
  /\ host_port_pair_ r = host_port_pair_ r'.
Proof. unfold core. intros [= -> -> -> -> -> -> ->]. repeat split. Qed.

Lemma core_UpdateDelayableRequestsInFlight r n :
  core (UpdateDelayableRequestsInFlight r n) = core r.
Proof. reflexivity. Qed.

(** The notifications of [InsertInFlightRequest] touch the telemetry member
    only. *)
Lemma notify_in_flight_core n l : forall st p,
  core
    (deref
       (foldr
          (fun q st =>
             store_request st q (UpdateDelayableRequestsInFlight (deref st q) n))
          st l) p)
  = core (deref st p)
  /\ url_requests
       (foldr
          (fun q st =>
             store_request st q (UpdateDelayableRequestsInFlight (deref st q) n))
          st l)
     = url_requests st
  /\ posted_tasks
       (foldr
          (fun q st =>
             store_request st q (UpdateDelayableRequestsInFlight (deref st q) n))
          st l)
     = posted_tasks st.
Proof.
  induction l as [| q l IH]; intros st p; simpl; [done |].
  destruct (IH st p) as (H1 & H2 & H3).
  split; [| by split].
  destruct (decide (q = p)) as [-> | Hne].
  - rewrite deref_store_request. exact H1.
  - rewrite deref_store_request_ne by exact Hne. exact H1.
Qed.

Lemma Start_core st request start_mode p :
  core (deref (Start st request start_mode) p) = core (deref st p)
  /\ url_requests (Start st request start_mode) = url_requests st.
Proof.
  unfold Start.
  destruct (negb (net.status_is_success (url_request st request))); [done |].
  destruct (deferred_ (deref st request)).
  - destruct start_mode; [| done]. split; [| reflexivity].
    destruct (decide (request = p)) as [-> | Hne].
    + rewrite deref_store_request. simpl.
      change (deref (with_resumed ?s _) ?q) with (deref s q).
      by rewrite deref_store_request.
    + rewrite deref_store_request_ne by exact Hne.
      change (deref (with_resumed ?s _) ?q) with (deref s q).
      by rewrite deref_store_request_ne.
  - split; [| reflexivity].
    destruct (decide (request = p)) as [-> | Hne].
    + by rewrite deref_store_request.
    + by rewrite deref_store_request_ne.
Qed.

(** What [InsertInFlightRequest] leaves in the store: the attributes of the
    request are the ones determined for it as a request in flight; nothing
    else that scheduling reads changes. *)
Lemma InsertInFlightRequest_store cx c st request p :
  core (deref (Client.InsertInFlightRequest cx c st request).2 p)
  = (if decide (p = request)
     then core
            (set_attributes (deref st request)
               (Client.DetermineRequestAttributes cx
                  (Client.with_in_flight_requests c
                     ({[request]} ∪ Client.in_flight_requests_ c))
                  st request))
     else core (deref st p))
  /\ url_requests (Client.InsertInFlightRequest cx c st request).2
     = url_requests st.
Proof.
  unfold Client.InsertInFlightRequest.
  set (c1 := Client.with_in_flight_requests c _).
  set (a := Client.DetermineRequestAttributes cx c1 st request).
  pose proof (SetRequestAttributes_deref c1 st request a) as Hd.
  destruct (SetRequestAttributes_store c1 st request a) as (Hu & _ & _).
  destruct (Client.SetRequestAttributes c1 st request a) as [c2 st2].
  cbn [fst snd] in *.
  match goal with
  | |- context [if ?b then foldr ?f st2 ?l else st2] =>
      set (st3 := if b then foldr f st2 l else st2)
  end.
  assert (H3 : forall q, core (deref st3 q) = core (deref st2 q)
                         /\ url_requests st3 = url_requests st2).
  { intros q. unfold st3.
    destruct (RequestAttributesAreSet _ kAttributeDelayable); [| done].
    destruct (notify_in_flight_core (Client.in_flight_delayable_count_ c2)
                (elements (Client.in_flight_requests_ c2)) st2 q)
      as (H1 & H2 & _).
    by split. }
  match goal with
  | |- context [if ?b then store_request st3 request ?r else st3] =>
      set (st4 := if b then store_request st3 request r else st3)
  end.
  assert (H4 : forall q, core (deref st4 q) = core (deref st3 q)
                         /\ url_requests st4 = url_requests st3).
  { intros q. unfold st4. destruct (_ || _); [| done].
    split; [| reflexivity].
    destruct (decide (request = q)) as [-> | Hne].
    - by rewrite deref_store_request.
    - by rewrite deref_store_request_ne. }
  destruct (H4 p) as [-> ->]. destruct (H3 p) as [-> ->].
  split; [| exact Hu]. rewrite Hd.
  by destruct (decide (p = request)).
Qed.

Lemma StartRequest_store cx c st request start_mode trigger p :
  core (deref (Client.StartRequest cx c st request start_mode trigger).2 p)
  = (if decide (p = request)
     then core
            (set_attributes (deref st request)
               (Client.DetermineRequestAttributes cx
                  (Client.with_in_flight_requests c
                     ({[request]} ∪ Client.in_flight_requests_ c))
                  st request))
     else core (deref st p))
  /\ url_requests (Client.StartRequest cx c st request start_mode trigger).2
     = url_requests st.
Proof.
  unfold Client.StartRequest.
  match goal with
  | |- context [Client.InsertInFlightRequest cx ?c0 st request] =>
      pose proof (InsertInFlightRequest_store cx c0 st request p) as [H1 H2];
      assert (Hdet :
        Client.DetermineRequestAttributes cx
          (Client.with_in_flight_requests c0
             ({[request]} ∪ Client.in_flight_requests_ c0)) st request
        = Client.DetermineRequestAttributes cx
            (Client.with_in_flight_requests c
               ({[request]} ∪ Client.in_flight_requests_ c)) st request)
        by (by destruct (negb _));
      rewrite Hdet in H1;
      destruct (Client.InsertInFlightRequest cx c0 st request) as [c1 st1]
  end.
  cbn [fst snd] in *.
  destruct (Start_core st1 request start_mode p) as [-> ->].
  by split.
Qed.

(** Of two handles [alike], the older is started whenever the other is. *)
Lemma alike_start cx c st a b :
  alike st a b ->
  Client.ShouldStartRequest cx c st b = Some Client.START_REQUEST ->
  Client.ShouldStartRequest cx c st a = Some Client.START_REQUEST.
Proof.
  intros (H1 & H2 & H3 & H4 & H5 & H6 & H7 & H8).
  unfold Client.ShouldStartRequest,
    Client.ShouldThrottleBrowserInitiatedRequestDueToP2PConnections,
    Client.ReachedMaxRequestsPerHostPerClient.
  rewrite H1, H2, H3, H4, H5, H6, H7.
  destruct (negb (enabled cx)); [done |].
  destruct (Client.is_browser_client_ c); [done |].
  destruct (negb (is_async_ (deref st b))); [done |].
  destruct (negb (net.SchemeIsHTTPOrHTTPS (net.url (url_request st b))));
    [done |].
  destruct (max_queuing_time (Client.params_for_network_quality_ c))
    as [max_queuing_time |]; [| done].
  destruct (TimeTicks_sub (NowTicks (env cx))
              (net.creation_time (url_request st a)) >=? max_queuing_time)
    eqn:Ea; [done |].
  destruct (TimeTicks_sub (NowTicks (env cx))
              (net.creation_time (url_request st b)) >=? max_queuing_time)
    eqn:Eb; [| done].
  exfalso. rewrite Z.geb_leb in Ea, Eb.
  apply Z.leb_gt in Ea. apply Z.leb_le in Eb.
  unfold TimeTicks_sub, saturate_int64 in *. lia.
Qed.

Lemma alike_core st st' a b :
  core (deref st' a) = core (deref st a) ->
  core (deref st' b) = core (deref st b) ->
  url_requests st' = url_requests st ->
  alike st a b -> alike st' a b.
Proof.
  intros Ha Hb Hu.
  apply core_fields in Ha as (_ & Ha2 & Ha3 & Ha4 & _ & _ & Ha7).
  apply core_fields in Hb as (_ & Hb2 & Hb3 & Hb4 & _ & _ & Hb7).
  unfold alike, url_request.
  by rewrite Hu, Ha2, Ha3, Ha4, Ha7, Hb2, Hb3, Hb4, Hb7.
Qed.

(** First in, first out within a pass: of two pending handles that are
    alike, the one that sits first in the queue has left the queue whenever
    the other has. *)
Lemma LoadAnyStartablePendingRequests_fifo cx c st trigger c' st' a b :
  NoDup (RequestQueue.queue_ (Client.pending_requests_ c)) ->
  precedes a b (RequestQueue.queue_ (Client.pending_requests_ c)) ->
  alike st a b ->
  Client.LoadAnyStartablePendingRequests cx c st trigger = Some (c', st') ->
  b ∉ RequestQueue.queue_ (Client.pending_requests_ c') ->
  a ∉ RequestQueue.queue_ (Client.pending_requests_ c').
Proof.
  intros Hnd Hprec Halike Hrun.
  set (P := fun (c : Client.t) (st : Store) =>
              NoDup (RequestQueue.queue_ (Client.pending_requests_ c))
              /\ (a ∈ RequestQueue.queue_ (Client.pending_requests_ c) ->
                  precedes a b (RequestQueue.queue_ (Client.pending_requests_ c))
                  /\ alike st a b)).
  assert (HP : P c' st').
  { unfold Client.LoadAnyStartablePendingRequests in Hrun.
    refine (LoadLoop_invariant cx trigger P _ _ _ _ _ _ _ Hrun);
      [| by split].
    clear. intros c st pre request next q [Hnd HP] Hq Hpre Hstart Herase.
    apply Erase_Some in Herase as [Hin ->].
    destruct (StartRequest_client cx
                (Client.with_pending_requests c
                   {| RequestQueue.fifo_ordering_ids_ :=
                        RequestQueue.fifo_ordering_ids_ (Client.pending_requests_ c);
                      RequestQueue.queue_ :=
                        erase_node request
                          (RequestQueue.queue_ (Client.pending_requests_ c)) |})
                st request START_ASYNC trigger) as (d & l & start & Hc1).
    pose proof (StartRequest_store cx
                  (Client.with_pending_requests c
                     {| RequestQueue.fifo_ordering_ids_ :=
                          RequestQueue.fifo_ordering_ids_ (Client.pending_requests_ c);
                        RequestQueue.queue_ :=
                          erase_node request
                            (RequestQueue.queue_ (Client.pending_requests_ c)) |})
                  st request START_ASYNC trigger) as Hst.
    destruct (Client.StartRequest _ _ _ _ _ _) as [c1 st1].
    cbn [fst snd] in *. subst c1. unfold P. simpl.
    split; [by apply erase_node_NoDup |].
    intros Ha. apply erase_node_elem_of in Ha as [Hne Ha]; [| exact Hnd].
    destruct (HP Ha) as [Hprec Halike].
    destruct (decide (request = b)) as [-> | Hnb].
    - exfalso.
      pose proof (precedes_in_prefix a b _ pre next Hnd Hq Hprec) as Hapre.
      rewrite Forall_forall in Hpre. specialize (Hpre a Hapre).
      rewrite (alike_start cx c st a b Halike Hstart) in Hpre. discriminate.
    - split.
      + rewrite erase_node_filter by exact Hnd.
        apply precedes_filter; [exact Hne | congruence | exact Hprec].
      + destruct (Hst a) as [Hca Hu]. destruct (Hst b) as [Hcb _].
        rewrite decide_False in Hca by exact Hne.
        rewrite decide_False in Hcb by congruence.
        by apply (alike_core st). }
  destruct HP as [_ HP]. intros Hb Ha.
  destruct (HP Ha) as [Hp _]. apply precedes_elem_of in Hp as [_ Hb'].
  contradiction.
Qed.

(** C5, as stated, fails: with the global cap of ten delayable requests
    reached by six requests to one host and four to another, two more
    requests of the same priority stay pending, the first to the first host;
    when a request to the second host leaves, there is capacity for one
    admission, and it goes to the request submitted later, because the
    earlier one is held back by the per-host cap. *)
Lemma C5_counterexample :
  exists s s',
    Example.twelve_scheduled = Some s
    /\ Example.pending_of s = [111; 112]%positive
    /\ priority_ (deref (ResourceScheduler.store s) 111%positive)
       = priority_ (deref (ResourceScheduler.store s) 112%positive)
    /\ fifo_ordering_ (deref (ResourceScheduler.store s) 111%positive)
       < fifo_ordering_ (deref (ResourceScheduler.store s) 112%positive)
    /\ ResourceScheduler.RemoveRequest (Example.environment false) s
         107%positive = Some s'
    /\ Example.pending_of s' = [111%positive]
    /\ 112%positive ∈ Example.in_flight_of s'.
Proof.
  eexists _, _. split; [vm_compute; reflexivity |].
  split; [vm_compute; reflexivity |]. split; [vm_compute; reflexivity |].
  split; [vm_compute; reflexivity |]. split; [vm_compute; reflexivity |].
  split; [vm_compute; reflexivity |]. vm_compute. set_solver.
Qed.

(** C5 (amended): the sorter of the pending queue is the strict total order
    that compares priority descending, then intra-priority descending, then
    fifo ordering ascending, and insertion keeps the queue in this order.
    Consequently, of two pending handles with identical priority and
    intra-priority that the admission rules treat alike (same host, URL,
    flags, attributes and annotation, the earlier-queued one created no
    later), the one with the smaller fifo ordering is never left pending by
    a pass that admits the other: they are admitted in queue order. *)
Theorem C5_queue_order_and_fifo :
  (forall a b,
     ScheduledResourceSorter a b = true <->
     net.ordinal (rp_priority (priority_ b))
     < net.ordinal (rp_priority (priority_ a))
     \/ (rp_priority (priority_ a) = rp_priority (priority_ b)
         /\ (intra_priority (priority_ b) < intra_priority (priority_ a)
             \/ (intra_priority (priority_ a) = intra_priority (priority_ b)
                 /\ fifo_ordering_ a < fifo_ordering_ b))))
  /\ (forall a, ScheduledResourceSorter a a = false)
  /\ (forall a b c,
        ScheduledResourceSorter a b = true ->
        ScheduledResourceSorter b c = true ->
        ScheduledResourceSorter a c = true)
  /\ (forall a b,
        (priority_ a, fifo_ordering_ a) <> (priority_ b, fifo_ordering_ b) ->
        ScheduledResourceSorter a b = true \/ ScheduledResourceSorter b a = true)
  /\ (forall q st request,
        request ∉ RequestQueue.queue_ q ->
        queue_sorted st (RequestQueue.queue_ q) ->
        queue_sorted (RequestQueue.Insert q st request).2
          (RequestQueue.queue_ (RequestQueue.Insert q st request).1))
  /\ (forall cx c st trigger c' st' a b,
        NoDup (RequestQueue.queue_ (Client.pending_requests_ c)) ->
        queue_sorted st (RequestQueue.queue_ (Client.pending_requests_ c)) ->
        a ∈ RequestQueue.queue_ (Client.pending_requests_ c) ->
        b ∈ RequestQueue.queue_ (Client.pending_requests_ c) ->
        priority_ (deref st a) = priority_ (deref st b) ->
        fifo_ordering_ (deref st a) < fifo_ordering_ (deref st b) ->
        alike st a b ->
        Client.LoadAnyStartablePendingRequests cx c st trigger = Some (c', st') ->
        b ∉ RequestQueue.queue_ (Client.pending_requests_ c') ->
        a ∉ RequestQueue.queue_ (Client.pending_requests_ c')).
Proof.
  split; [exact ScheduledResourceSorter_spec |].
  split; [exact ScheduledResourceSorter_irrefl |].
  split; [exact ScheduledResourceSorter_trans |].
  split; [exact ScheduledResourceSorter_total |].
  split.
  - intros q st request Hnotin Hs. rewrite Insert_queue. cbn [fst snd].
    cbn [RequestQueue.queue_].
    apply queue_sorted_insert.
    apply (queue_sorted_ext st); [| exact Hs].
    intros p Hp. rewrite deref_store_request_ne; [done |].
    intros ->. contradiction.
  - intros cx c st trigger c' st' a b Hnd Hs Ha Hb Hprio Hfifo Halike Hrun.
    apply (LoadAnyStartablePendingRequests_fifo cx c st trigger c' st' a b);
      try assumption.
    apply (queue_sorted_precedes st); try assumption.
    unfold comes_before. apply ScheduledResourceSorter_spec.
    right. rewrite Hprio. split; [reflexivity |]. right. by split.
Qed.

Lemma C5_queue_order_and_fifo_witness :
  exists c' st',
    Client.LoadAnyStartablePendingRequests Example.default_context
      Example.lowest_client_after_erase.1 Example.lowest_client_after_erase.2
      COMPLETION_POST_BODY = Some (c', st')
    /\ (108%positive ∉ RequestQueue.queue_ (Client.pending_requests_ c') ->
        107%positive ∉ RequestQueue.queue_ (Client.pending_requests_ c')).
Proof.
  destruct (Client.LoadAnyStartablePendingRequests Example.default_context
              Example.lowest_client_after_erase.1
              Example.lowest_client_after_erase.2 COMPLETION_POST_BODY)
    as [[c' st'] |] eqn:E; [| vm_compute in E; discriminate E].
  exists c', st'. split; [reflexivity |].
  assert (Hq : RequestQueue.queue_
                 (Client.pending_requests_ Example.lowest_client_after_erase.1)
               = [107; 108]%positive) by (vm_compute; reflexivity).
  refine (proj2 (proj2 (proj2 (proj2 (proj2 C5_queue_order_and_fifo))))
            Example.default_context Example.lowest_client_after_erase.1
            Example.lowest_client_after_erase.2 COMPLETION_POST_BODY c' st'
            107%positive 108%positive _ _ _ _ _ _ _ E).
  - rewrite Hq. apply (bool_decide_unpack _). vm_compute. exact I.
  - rewrite Hq. unfold queue_sorted. repeat constructor.
  - rewrite Hq. by left.
  - rewrite Hq. right. by left.
  - vm_compute. reflexivity.
  - vm_compute. reflexivity.
  - unfold alike. vm_compute. repeat split; discriminate.
Defined.

(** ** C10: the counters of a client *)

(** *** Attribute bits *)

Lemma in_flight_delayable_in_flight a :
  RequestAttributesAreSet a kAttributeInFlightDelayable = true ->
  RequestAttributesAreSet a kAttributeInFlight = true.
Proof.
  rewrite !RequestAttributesAreSet_true. intros H.
  change kAttributeInFlight with (Z.land kAttributeInFlightDelayable kAttributeInFlight).
  by rewrite Z.land_assoc, H.
Qed.

Lemma none_has_no_attributes m :
  m <> 0 -> RequestAttributesAreSet kAttributeNone m = false.
Proof.
  intros Hm. unfold RequestAttributesAreSet, kAttributeNone.
  rewrite Z.land_0_l. apply Z.eqb_neq. congruence.
Qed.

(** The attributes determined for a request: InFlight exactly when it is in
    flight, LayoutBlocking exactly when it was already so marked. *)
Lemma DetermineRequestAttributes_bits cx c st request :
  (RequestAttributesAreSet (Client.DetermineRequestAttributes cx c st request)
     kAttributeInFlight = true
   <-> request ∈ Client.in_flight_requests_ c)
  /\ RequestAttributesAreSet (Client.DetermineRequestAttributes cx c st request)
       kAttributeLayoutBlocking
     = RequestAttributesAreSet (attributes_ (deref st request))
         kAttributeLayoutBlocking.
Proof.
  unfold Client.DetermineRequestAttributes.
  destruct (RequestAttributesAreSet (attributes_ (deref st request))
              kAttributeLayoutBlocking) eqn:Hlb.
  - case_bool_decide; split; try reflexivity; split; try done.
  - destruct (_ <? _).
    + destruct (delay_requests_on_multiplexed_connections _).
      * case_bool_decide; split; try reflexivity; split; try done.
      * destruct (negb _); case_bool_decide; split; try reflexivity;
          split; try done.
    + case_bool_decide; split; try reflexivity; split; try done.
Qed.

(** *** Counting *)

Lemma count_with_attributes_ext st st' a (X : gset positive) :
  (forall p, p ∈ X -> has_attributes st' a p = has_attributes st a p) ->
  count_with_attributes st' a X = count_with_attributes st a X.
Proof.
  intros Hext. unfold count_with_attributes. do 2 f_equal.
  apply set_eq. intros p. rewrite !elem_of_filter.
  split; intros [Hp Hin]; (split; [| exact Hin]);
    [rewrite <- Hext | rewrite Hext]; done.
Qed.

Lemma count_with_attributes_union st a r (X : gset positive) :
  r ∉ X ->
  count_with_attributes st a ({[r]} ∪ X)
  = count_with_attributes st a X + Z.b2z (has_attributes st a r).
Proof.
  intros Hr. unfold count_with_attributes.
  rewrite filter_union_L by apply _. rewrite size_union.
  - destruct (has_attributes st a r) eqn:E.
    + assert (filter (fun p => has_attributes st a p = true) ({[r]} : gset positive)
              = {[r]}) as -> by (apply filter_singleton_True_L; first [exact E | apply _]).
      rewrite size_singleton. simpl. lia.
    + assert (filter (fun p => has_attributes st a p = true) ({[r]} : gset positive)
              = ∅) as ->
        by (apply filter_singleton_False_L;
            first [rewrite E; discriminate | apply _]).
      rewrite size_empty. simpl. lia.
  - intros p Hp1 Hp2. apply elem_of_filter in Hp1 as [_ Hp1].
    apply elem_of_filter in Hp2 as [_ Hp2].
    apply elem_of_singleton in Hp1 as ->. contradiction.
Qed.

Lemma count_with_attributes_difference st a r (X : gset positive) :
  r ∈ X ->
  count_with_attributes st a (X ∖ {[r]})
  = count_with_attributes st a X - Z.b2z (has_attributes st a r).
Proof.
  intros Hr.
  rewrite (union_difference_singleton_L r X Hr) at 2.
  rewrite count_with_attributes_union
    by (rewrite elem_of_difference, elem_of_singleton; tauto).
  lia.
Qed.

Lemma count_with_attributes_none st a (X Y : gset positive) :
  (forall p, p ∈ Y -> p ∉ X -> has_attributes st a p = false) ->
  count_with_attributes st a (X ∪ Y) = count_with_attributes st a X.
Proof.
  intros Hnone. unfold count_with_attributes. do 2 f_equal.
  apply set_eq. intros p. rewrite !elem_of_filter, elem_of_union.
  split; [| tauto]. intros [Hp [Hin | Hin]]; [by split |].
  destruct (decide (p ∈ X)) as [HX | HX]; [by split |].
  rewrite (Hnone p Hin HX) in Hp. discriminate.
Qed.

Lemma count_with_attributes_zero st a (X : gset positive) :
  (forall p, p ∈ X -> has_attributes st a p = false) ->
  count_with_attributes st a X = 0.
Proof.
  intros Hnone. unfold count_with_attributes.
  assert (filter (fun p => has_attributes st a p = true) X = ∅) as ->.
  { apply set_eq. intros p. rewrite elem_of_filter. split; [| set_solver].
    intros [Hp Hin]. rewrite (Hnone p Hin) in Hp. discriminate. }
  by rewrite size_empty.
Qed.

Lemma count_with_attributes_bound st a (X : gset positive) :
  0 <= count_with_attributes st a X <= Z.of_nat (size X).
Proof.
  unfold count_with_attributes. split; [lia |].
  apply inj_le. apply subseteq_size. intros p Hp.
  by apply elem_of_filter in Hp as [_ Hp].
Qed.

(** The counting loop of the code counts the same, modulo the width of
    [size_t]. *)
Lemma count_matching_spec st a l : forall n,
  wrap_size_t (Client.count_matching st a l n)
  = wrap_size_t
      (n + Z.of_nat
             (length (filter (fun p => has_attributes st a p = true) l))).
Proof.
  unfold Client.count_matching.
  induction l as [| p l IH]; intros n; simpl.
  - f_equal. lia.
  - rewrite filter_cons.
    change (RequestAttributesAreSet (attributes_ (deref st p)) a)
      with (has_attributes st a p).
    destruct (decide (has_attributes st a p = true)) as [E | E].
    + rewrite E, IH, wrap_size_t_add_l. f_equal. simpl length. lia.
    + apply not_true_is_false in E. rewrite E. apply IH.
Qed.

Lemma count_matching_range st a l : forall n,
  0 <= n <= size_t_max ->
  0 <= Client.count_matching st a l n <= size_t_max.
Proof.
  unfold Client.count_matching.
  induction l as [| p l IH]; intros n Hn; simpl; [exact Hn |].
  destruct (RequestAttributesAreSet _ _); apply IH;
    [apply wrap_size_t_range | exact Hn].
Qed.

Lemma count_matching_elements st a (X : gset positive) :
  Client.count_matching st a (elements X) 0
  = wrap_size_t (count_with_attributes st a X).
Proof.
  rewrite <- (wrap_size_t_small (Client.count_matching st a (elements X) 0))
    by (apply count_matching_range; unfold size_t_max; lia).
  rewrite count_matching_spec. f_equal.
  unfold count_with_attributes, size, set_size. rewrite Z.add_0_l.
  cbn [compose]. f_equal.
  apply Permutation_length. apply NoDup_Permutation.
  - apply NoDup_filter, NoDup_elements.
  - apply NoDup_elements.
  - intros p. rewrite list_elem_of_filter, !elem_of_elements, elem_of_filter.
    tauto.
Qed.

(** *** The invariant of a client under changes of the store *)

Lemma touches_only_refl k st : touches_only k st st.
Proof. by repeat split. Qed.

Lemma touches_only_trans k st1 st2 st3 :
  touches_only k st1 st2 -> touches_only k st2 st3 -> touches_only k st1 st3.
Proof.
  intros (D1 & I1 & A1) (D2 & I2 & A2). repeat split.
  - by transitivity (dom (requests st2)).
  - intros p. by rewrite I2, I1.
  - intros p Hp. rewrite A2, A1; [done | done |]. by rewrite I1.
Qed.

(** A change of the store that leaves the core of every handle as it is
    touches nothing. *)
Lemma touches_only_core k st st' :
  dom (requests st) ⊆ dom (requests st') ->
  (forall p, core (deref st' p) = core (deref st p)) ->
  touches_only k st st'.
Proof.
  intros Hdom Hcore. repeat split; [exact Hdom | |]; intros p;
    destruct (core_fields _ _ (Hcore p)) as (H1 & _ & _ & H4 & _); done.
Qed.

Lemma has_attributes_eq st st' a p :
  attributes_ (deref st' p) = attributes_ (deref st p) ->
  has_attributes st' a p = has_attributes st a p.
Proof. unfold has_attributes. by intros ->. Qed.

(** The invariant reads the store through the handles the client tracks and
    through the handles that carry its id and the InFlight attribute. *)
Lemma client_invariant_frame k c st st' :
  client_invariant k c st ->
  (forall p, p ∈ tracked c ->
     p ∈ dom (requests st')
     /\ client_id_ (deref st' p) = client_id_ (deref st p)
     /\ attributes_ (deref st' p) = attributes_ (deref st p)) ->
  (forall p,
     client_id_ (deref st' p) = k ->
     has_attributes st' kAttributeInFlight p = true ->
     client_id_ (deref st p) = k
     /\ has_attributes st kAttributeInFlight p = true) ->
  client_invariant k c st'.
Proof.
  intros (Ha & Hb & Hc & Hc' & Hd & Hf & Hg) Htracked Hback.
  assert (Hfl : forall p, p ∈ Client.in_flight_requests_ c -> p ∈ tracked c)
    by (intros p Hp; apply elem_of_union; by left).
  repeat split; try assumption.
  - rewrite Ha. f_equal. symmetry. apply count_with_attributes_ext.
    intros p Hp. apply has_attributes_eq. by apply Htracked, Hfl.
  - by apply Htracked.
  - destruct (Htracked p H) as (_ & -> & _). by apply Hd.
  - intros p Hp. rewrite (has_attributes_eq st st').
    + by apply Hf.
    + by apply Htracked, Hfl.
  - intros p Hid Hif. destruct (Hback p Hid Hif) as [Hid' Hif'].
    by apply Hg.
Qed.

Lemma client_invariant_other k k' c st st' :
  k' <> k ->
  client_invariant k' c st -> touches_only k st st' ->
  client_invariant k' c st'.
Proof.
  intros Hne Hinv (Hdom & Hid & Hattr).
  apply (client_invariant_frame k' c st st' Hinv).
  - intros p Hp. destruct Hinv as (_ & _ & _ & _ & Hd & _).
    destruct (Hd p Hp) as [Hin Hk].
    split; [by apply Hdom |]. split; [by apply Hid |].
    apply Hattr. congruence.
  - intros p Hk Hif. rewrite Hid in Hk. split; [exact Hk |].
    rewrite <- Hif. symmetry. apply has_attributes_eq. apply Hattr. congruence.
Qed.

(** The invariant reads four members of the client only. *)
Lemma client_invariant_members k c c' st :
  Client.pending_requests_ c' = Client.pending_requests_ c ->
  Client.in_flight_requests_ c' = Client.in_flight_requests_ c ->
  Client.in_flight_delayable_count_ c' = Client.in_flight_delayable_count_ c ->
  Client.total_layout_blocking_count_ c' = Client.total_layout_blocking_count_ c ->
  client_invariant k c st -> client_invariant k c' st.
Proof.
  unfold client_invariant, tracked. by intros -> -> -> ->.
Qed.

Lemma no_layout_blocking_touches st st' :
  (forall p,
     attributes_ (deref st' p) = attributes_ (deref st p)
     \/ RequestAttributesAreSet (attributes_ (deref st' p))
          kAttributeLayoutBlocking = false) ->
  no_layout_blocking st -> no_layout_blocking st'.
Proof.
  intros H Hno p. destruct (H p) as [E | E].
  - unfold has_attributes. rewrite E. apply Hno.
  - exact E.
Qed.

(** A pending handle does not have the InFlight attribute. *)
Lemma client_invariant_pending k c st p :
  client_invariant k c st ->
  p ∈ RequestQueue.queue_ (Client.pending_requests_ c) ->
  has_attributes st kAttributeInFlight p = false.
Proof.
  intros (_ & _ & _ & Hc' & Hd & _ & Hg) Hp.
  apply not_true_is_false. intros Hif.
  apply (Hc' p Hp). apply Hg; [| exact Hif].
  apply Hd. apply elem_of_union. right. by apply elem_of_list_to_set.
Qed.

(** *** [SetRequestAttributes] *)

Lemma SetRequestAttributes_counts c st request a x :
  Client.in_flight_delayable_count_ c = wrap_size_t x ->
  Client.total_layout_blocking_count_ c = 0 ->
  RequestAttributesAreSet (attributes_ (deref st request))
    kAttributeLayoutBlocking = false ->
  RequestAttributesAreSet a kAttributeLayoutBlocking = false ->
  Client.in_flight_delayable_count_ (Client.SetRequestAttributes c st request a).1
  = wrap_size_t
      (x - Z.b2z (has_attributes st kAttributeInFlightDelayable request)
       + Z.b2z (RequestAttributesAreSet a kAttributeInFlightDelayable))
  /\ Client.total_layout_blocking_count_
       (Client.SetRequestAttributes c st request a).1 = 0
  /\ Client.pending_requests_ (Client.SetRequestAttributes c st request a).1
     = Client.pending_requests_ c
  /\ Client.in_flight_requests_ (Client.SetRequestAttributes c st request a).1
     = Client.in_flight_requests_ c.
Proof.
  intros Hd Hl Hold Hnew. unfold Client.SetRequestAttributes, has_attributes.
  destruct (attributes_ (deref st request) =? a) eqn:E; cbn [fst].
  - apply Z.eqb_eq in E. rewrite E. repeat split; try assumption.
    rewrite Hd. f_equal. lia.
  - rewrite Hold, Hnew. cbn [Client.in_flight_delayable_count_
      Client.total_layout_blocking_count_ Client.pending_requests_
      Client.in_flight_requests_ Client.with_counts].
    change (Z.lor kAttributeInFlight kAttributeDelayable)
      with kAttributeInFlightDelayable.
    repeat split; try assumption. rewrite Hd.
    destruct (RequestAttributesAreSet (attributes_ (deref st request))
                kAttributeInFlightDelayable),
      (RequestAttributesAreSet a kAttributeInFlightDelayable);
      cbn [Z.b2z]; rewrite ?wrap_size_t_pred, ?wrap_size_t_succ;
      f_equal; lia.
Qed.

Lemma SetRequestAttributes_dom c st request a :
  request ∈ dom (requests st) ->
  dom (requests (Client.SetRequestAttributes c st request a).2)
  = dom (requests st).
Proof.
  intros Hin. unfold Client.SetRequestAttributes.
  destruct (_ =? _); cbn [snd]; [reflexivity |].
  unfold store_request, with_requests. cbn [requests].
  rewrite dom_insert_L. apply leibniz_equiv. rewrite <- subseteq_union.
  by apply singleton_subseteq_l.
Qed.

Lemma count_with_attributes_split st a r (X : gset positive) :
  count_with_attributes st a X
  = count_with_attributes st a (X ∖ {[r]})
    + (if decide (r ∈ X) then Z.b2z (has_attributes st a r) else 0).
Proof.
  destruct (decide (r ∈ X)) as [Hr | Hr].
  - rewrite count_with_attributes_difference by exact Hr. lia.
  - assert (X ∖ {[r]} = X) as ->; [| lia].
    apply set_eq. intros p. rewrite elem_of_difference, elem_of_singleton.
    split; [tauto |]. intros Hp. split; [exact Hp |]. congruence.
Qed.

(** The attributes of one handle of the client are set, and the set of
    requests in flight is changed for this handle at the same time so that
    it holds the handle exactly when the new attributes include InFlight:
    this covers [SetRequestAttributes] on its own, [InsertInFlightRequest]
    and [EraseInFlightRequest]. *)
Lemma SetRequestAttributes_invariant k c st request a (F' : gset positive) :
  client_invariant k c st ->
  no_layout_blocking st ->
  request ∈ dom (requests st) ->
  client_id_ (deref st request) = k ->
  RequestAttributesAreSet a kAttributeLayoutBlocking = false ->
  F' ∖ {[request]} = Client.in_flight_requests_ c ∖ {[request]} ->
  (RequestAttributesAreSet a kAttributeInFlight = true <-> request ∈ F') ->
  (request ∈ F' ->
   request ∉ RequestQueue.queue_ (Client.pending_requests_ c)) ->
  client_invariant k
    (Client.SetRequestAttributes (Client.with_in_flight_requests c F') st
       request a).1
    (Client.SetRequestAttributes (Client.with_in_flight_requests c F') st
       request a).2
  /\ touches_only k st
       (Client.SetRequestAttributes (Client.with_in_flight_requests c F') st
          request a).2
  /\ no_layout_blocking
       (Client.SetRequestAttributes (Client.with_in_flight_requests c F') st
          request a).2.
Proof.
  intros Hinv Hno Hdom Hid Halb HF Hif Hq.
  pose proof Hinv as (Ha & Hb & Hc & Hc' & Hd & Hf & Hg).
  set (c1 := Client.with_in_flight_requests c F').
  destruct (SetRequestAttributes_counts c1 st request a
              (count_with_attributes st kAttributeInFlightDelayable
                 (Client.in_flight_requests_ c)) Ha Hb (Hno request) Halb)
    as (Hd' & Hl' & Hp' & Hf').
  pose proof (SetRequestAttributes_deref c1 st request a) as Hderef.
  pose proof (SetRequestAttributes_dom c1 st request a Hdom) as Hdom'.
  destruct (Client.SetRequestAttributes c1 st request a) as [c' st'].
  cbn [fst snd] in *.
  assert (Hattr : forall p,
             attributes_ (deref st' p)
             = if decide (p = request) then a else attributes_ (deref st p)).
  { intros p. rewrite Hderef. by destruct (decide (p = request)). }
  assert (Hself : forall m, has_attributes st' m request
                            = RequestAttributesAreSet a m).
  { intros m. unfold has_attributes. rewrite Hattr.
    by destruct (decide (request = request)). }
  assert (Hcid : forall p, client_id_ (deref st' p) = client_id_ (deref st p)).
  { intros p. rewrite Hderef. by destruct (decide (p = request)) as [-> |]. }
  assert (Hother : forall p, p <> request ->
             forall m, has_attributes st' m p = has_attributes st m p).
  { intros p Hp m. apply has_attributes_eq. rewrite Hattr.
    by rewrite decide_False. }
  assert (Hmem : forall p, p <> request ->
             p ∈ F' <-> p ∈ Client.in_flight_requests_ c).
  { intros p Hp.
    assert (p ∈ F' ∖ {[request]} <-> p ∈ Client.in_flight_requests_ c ∖ {[request]})
      as Hiff by (by rewrite HF).
    rewrite !elem_of_difference, !elem_of_singleton in Hiff. tauto. }
  split; [| split].
  - unfold client_invariant. rewrite Hd', Hl', Hp', Hf'.
    split; [| split; [reflexivity | split; [exact Hc | split; [| split; [| split]]]]].
    + f_equal.
      rewrite (count_with_attributes_split st' _ request F').
      rewrite (count_with_attributes_split st _ request
                 (Client.in_flight_requests_ c)).
      rewrite HF.
      rewrite (count_with_attributes_ext st st')
        by (intros p Hp; apply Hother;
            apply elem_of_difference in Hp as [_ Hp];
            by rewrite elem_of_singleton in Hp).
      assert (E1 : (if decide (request ∈ Client.in_flight_requests_ c)
                    then Z.b2z (has_attributes st
                                  kAttributeInFlightDelayable request)
                    else 0)
                   = Z.b2z (has_attributes st kAttributeInFlightDelayable request)).
      { destruct (decide (request ∈ Client.in_flight_requests_ c)) as [| Hn];
          [reflexivity |].
        destruct (has_attributes st kAttributeInFlightDelayable request) eqn:E;
          [| reflexivity].
        exfalso. apply Hn. apply Hg; [exact Hid |].
        by apply in_flight_delayable_in_flight. }
      assert (E2 : (if decide (request ∈ F')
                    then Z.b2z (has_attributes st'
                                  kAttributeInFlightDelayable request)
                    else 0)
                   = Z.b2z (RequestAttributesAreSet a
                              kAttributeInFlightDelayable)).
      { rewrite Hself.
        destruct (decide (request ∈ F')) as [| Hn]; [reflexivity |].
        destruct (RequestAttributesAreSet a kAttributeInFlightDelayable) eqn:E;
          [| reflexivity].
        exfalso. apply Hn. apply Hif. by apply in_flight_delayable_in_flight. }
      rewrite E1, E2. lia.
    + intros p Hp HpF. destruct (decide (p = request)) as [-> | Hne].
      * by apply Hq.
      * apply (Hc' p Hp). by apply Hmem.
    + intros p Hp. unfold tracked in Hp. rewrite Hp', Hf' in Hp.
      rewrite Hdom', Hcid.
      destruct (decide (p = request)) as [-> | Hne]; [by split |].
      apply Hd. unfold tracked. rewrite elem_of_union in *.
      destruct Hp as [Hp | Hp]; [left; by apply Hmem | by right].
    + intros p Hp. destruct (decide (p = request)) as [-> | Hne].
      * rewrite Hself. by apply Hif.
      * rewrite Hother by exact Hne. apply Hf. by apply Hmem.
    + intros p Hk Hp. destruct (decide (p = request)) as [-> | Hne].
      * apply Hif. by rewrite <- Hself.
      * apply Hmem; [exact Hne |]. apply Hg; [by rewrite <- Hcid |].
        by rewrite <- Hother.
  - split; [by rewrite Hdom' |]. split; [exact Hcid |].
    intros p Hp. rewrite Hattr. rewrite decide_False; [reflexivity |].
    intros ->. contradiction.
  - intros p. unfold has_attributes. rewrite Hattr.
    destruct (decide (p = request)); [exact Halb | apply Hno].
Qed.

(** *** Starting a request *)

Lemma store_request_dom st p r :
  dom (requests st) ⊆ dom (requests (store_request st p r)).
Proof.
  unfold store_request, with_requests. cbn [requests].
  rewrite dom_insert. apply union_subseteq_r.
Qed.

Lemma notify_in_flight_dom n l : forall st,
  dom (requests st)
  ⊆ dom (requests
           (foldr
              (fun q st =>
                 store_request st q
                   (UpdateDelayableRequestsInFlight (deref st q) n))
              st l)).
Proof.
  induction l as [| q l IH]; intros st; simpl; [done |].
  etransitivity; [apply IH | apply store_request_dom].
Qed.

Lemma Start_dom st request start_mode :
  dom (requests st) ⊆ dom (requests (Start st request start_mode)).
Proof.
  unfold Start.
  destruct (negb _); [done |]. destruct (deferred_ _).
  - destruct start_mode; [| done].
    etransitivity; [| apply store_request_dom].
    change (requests (with_resumed ?s _)) with (requests s).
    apply store_request_dom.
  - apply store_request_dom.
Qed.

Lemma InsertInFlightRequest_split cx c st request :
  (Client.InsertInFlightRequest cx c st request).1
  = (Client.SetRequestAttributes
       (Client.with_in_flight_requests c
          ({[request]} ∪ Client.in_flight_requests_ c)) st request
       (Client.DetermineRequestAttributes cx
          (Client.with_in_flight_requests c
             ({[request]} ∪ Client.in_flight_requests_ c)) st request)).1
  /\ (forall p,
        core (deref (Client.InsertInFlightRequest cx c st request).2 p)
        = core
            (deref
               (Client.SetRequestAttributes
                  (Client.with_in_flight_requests c
                     ({[request]} ∪ Client.in_flight_requests_ c)) st request
                  (Client.DetermineRequestAttributes cx
                     (Client.with_in_flight_requests c
                        ({[request]} ∪ Client.in_flight_requests_ c)) st
                     request)).2 p))
  /\ dom (requests
            (Client.SetRequestAttributes
               (Client.with_in_flight_requests c
                  ({[request]} ∪ Client.in_flight_requests_ c)) st request
               (Client.DetermineRequestAttributes cx
                  (Client.with_in_flight_requests c
                     ({[request]} ∪ Client.in_flight_requests_ c)) st
                  request)).2)
     ⊆ dom (requests (Client.InsertInFlightRequest cx c st request).2).
Proof.
  unfold Client.InsertInFlightRequest.
  set (c1 := Client.with_in_flight_requests c _).
  set (a := Client.DetermineRequestAttributes cx c1 st request).
  destruct (Client.SetRequestAttributes c1 st request a) as [c2 st2].
  cbn [fst snd].
  match goal with
  | |- context [if ?b then foldr ?f st2 ?l else st2] =>
      set (st3 := if b then foldr f st2 l else st2)
  end.
  assert (H3 : (forall q, core (deref st3 q) = core (deref st2 q))
               /\ dom (requests st2) ⊆ dom (requests st3)).
  { unfold st3.
    destruct (RequestAttributesAreSet _ kAttributeDelayable); [| done].
    split; [| apply notify_in_flight_dom].
    intros q.
    by destruct (notify_in_flight_core (Client.in_flight_delayable_count_ c2)
                   (elements (Client.in_flight_requests_ c2)) st2 q)
      as (H1 & _ & _). }
  destruct H3 as [H3 H3d].
  match goal with
  | |- context [if ?b then store_request st3 request ?r else st3] =>
      set (st4 := if b then store_request st3 request r else st3)
  end.
  assert (H4 : (forall q, core (deref st4 q) = core (deref st3 q))
               /\ dom (requests st3) ⊆ dom (requests st4)).
  { unfold st4. destruct (_ || _); [| done].
    split; [| apply store_request_dom].
    intros q. destruct (decide (request = q)) as [-> | Hne].
    - by rewrite deref_store_request.
    - by rewrite deref_store_request_ne. }
  destruct H4 as [H4 H4d].
  split; [reflexivity |]. split.
  - intros p. by rewrite H4, H3.
  - by transitivity (dom (requests st3)).
Qed.

Lemma InsertInFlightRequest_invariant cx k c st request :
  client_invariant k c st ->
  no_layout_blocking st ->
  request ∈ dom (requests st) ->
  client_id_ (deref st request) = k ->
  request ∉ RequestQueue.queue_ (Client.pending_requests_ c) ->
  client_invariant k (Client.InsertInFlightRequest cx c st request).1
    (Client.InsertInFlightRequest cx c st request).2
  /\ touches_only k st (Client.InsertInFlightRequest cx c st request).2
  /\ no_layout_blocking (Client.InsertInFlightRequest cx c st request).2
  /\ Client.pending_requests_ (Client.InsertInFlightRequest cx c st request).1
     = Client.pending_requests_ c
  /\ Client.in_flight_requests_ (Client.InsertInFlightRequest cx c st request).1
     = {[request]} ∪ Client.in_flight_requests_ c.
Proof.
  intros Hinv Hno Hdom Hid Hq.
  destruct (InsertInFlightRequest_split cx c st request) as (H1 & Hcore & Hd).
  set (F' := {[request]} ∪ Client.in_flight_requests_ c) in *.
  set (a := Client.DetermineRequestAttributes cx
              (Client.with_in_flight_requests c F') st request) in *.
  destruct (DetermineRequestAttributes_bits cx
              (Client.with_in_flight_requests c F') st request)
    as [Hbit Hlb].
  fold a in Hbit, Hlb.
  destruct (SetRequestAttributes_invariant k c st request a F' Hinv Hno Hdom Hid)
    as (Hinv2 & Htouch & Hno2).
  - rewrite Hlb. apply Hno.
  - apply set_eq. intros p. unfold F'.
    rewrite !elem_of_difference, elem_of_union, !elem_of_singleton. tauto.
  - exact Hbit.
  - intros _. exact Hq.
  - destruct (SetRequestAttributes_counts
                (Client.with_in_flight_requests c F') st request a
                (count_with_attributes st kAttributeInFlightDelayable
                   (Client.in_flight_requests_ c)))
      as (_ & _ & Hp2 & Hf2).
    + by destruct Hinv.
    + by destruct Hinv as (_ & ? & _).
    + apply Hno.
    + rewrite Hlb. apply Hno.
    + rewrite H1.
      set (cs := Client.SetRequestAttributes _ st request a) in *.
      assert (Hfields : forall p,
                 client_id_ (deref (Client.InsertInFlightRequest cx c st request).2 p)
                 = client_id_ (deref cs.2 p)
                 /\ attributes_
                      (deref (Client.InsertInFlightRequest cx c st request).2 p)
                    = attributes_ (deref cs.2 p)).
      { intros p. destruct (core_fields _ _ (Hcore p)) as (? & _ & _ & ? & _).
        by split. }
      split; [| split; [| split; [| split]]].
      * apply (client_invariant_frame k cs.1 cs.2); [exact Hinv2 | |].
        -- intros p Hp. destruct Hinv2 as (_ & _ & _ & _ & Hd2 & _).
           split; [apply Hd; by apply Hd2 | apply Hfields].
        -- intros p Hk Hif. destruct (Hfields p) as [E1 E2].
           split; [by rewrite <- E1 |].
           rewrite <- Hif. symmetry. by apply has_attributes_eq.
      * apply (touches_only_trans k st cs.2); [exact Htouch |].
        by apply touches_only_core.
      * apply (no_layout_blocking_touches cs.2); [| exact Hno2].
        intros p. left. apply Hfields.
      * exact Hp2.
      * exact Hf2.
Qed.

Lemma preserved_same k T st c' st1 st2 :
  preserved k T st c' st1 ->
  dom (requests st1) ⊆ dom (requests st2) ->
  (forall p,
     client_id_ (deref st2 p) = client_id_ (deref st1 p)
     /\ attributes_ (deref st2 p) = attributes_ (deref st1 p)) ->
  preserved k T st c' st2.
Proof.
  intros (Hinv & Htouch & Hno & HT) Hd Hsame.
  split; [| split; [| split]].
  - apply (client_invariant_frame k c' st1); [exact Hinv | |].
    + intros p Hp. destruct Hinv as (_ & _ & _ & _ & Hd1 & _).
      destruct (Hsame p) as [E1 E2].
      split; [apply Hd; by apply Hd1 | by split].
    + intros p Hk Hif. destruct (Hsame p) as [E1 E2].
      split; [by rewrite <- E1 |].
      rewrite <- Hif. symmetry. by apply has_attributes_eq.
  - apply (touches_only_trans k st st1); [exact Htouch |].
    split; [exact Hd |]. split; intros p; [apply Hsame |].
    intros _. apply Hsame.
  - apply (no_layout_blocking_touches st1); [| exact Hno].
    intros p. left. apply Hsame.
  - exact HT.
Qed.

Lemma preserved_core k T st c' st1 st2 :
  preserved k T st c' st1 ->
  dom (requests st1) ⊆ dom (requests st2) ->
  (forall p, core (deref st2 p) = core (deref st1 p)) ->
  preserved k T st c' st2.
Proof.
  intros H Hd Hcore. apply (preserved_same k T st c' st1); [exact H | exact Hd |].
  intros p. destruct (core_fields _ _ (Hcore p)) as (? & _ & _ & ? & _).
  by split.
Qed.

Lemma preserved_members k T st c c' st' :
  Client.pending_requests_ c' = Client.pending_requests_ c ->
  Client.in_flight_requests_ c' = Client.in_flight_requests_ c ->
  Client.in_flight_delayable_count_ c' = Client.in_flight_delayable_count_ c ->
  Client.total_layout_blocking_count_ c' = Client.total_layout_blocking_count_ c ->
  preserved k T st c st' -> preserved k T st c' st'.
Proof.
  intros E1 E2 E3 E4 (Hinv & Htouch & Hno & HT).
  split; [by apply (client_invariant_members k c) |].
  split; [exact Htouch |]. split; [exact Hno |].
  unfold tracked in *. by rewrite E1, E2.
Qed.

Lemma preserved_trans k T T' st c1 st1 c2 st2 :
  preserved k T st c1 st1 -> preserved k T' st1 c2 st2 ->
  preserved k T' st c2 st2.
Proof.
  intros (_ & Htouch & _ & _) (Hinv & Htouch' & Hno & HT).
  split; [exact Hinv |].
  split; [by apply (touches_only_trans k st st1) |]. by split.
Qed.

Lemma preserved_start k c st :
  client_invariant k c st -> no_layout_blocking st ->
  preserved k (tracked c) st c st.
Proof.
  intros Hinv Hno. split; [exact Hinv |].
  split; [apply touches_only_refl |]. by split.
Qed.

Lemma StartRequest_invariant cx k c st request start_mode trigger :
  client_invariant k c st ->
  no_layout_blocking st ->
  request ∈ dom (requests st) ->
  client_id_ (deref st request) = k ->
  request ∉ RequestQueue.queue_ (Client.pending_requests_ c) ->
  preserved k ({[request]} ∪ tracked c) st
    (Client.StartRequest cx c st request start_mode trigger).1
    (Client.StartRequest cx c st request start_mode trigger).2
  /\ Client.pending_requests_
       (Client.StartRequest cx c st request start_mode trigger).1
     = Client.pending_requests_ c
  /\ Client.in_flight_requests_
       (Client.StartRequest cx c st request start_mode trigger).1
     = {[request]} ∪ Client.in_flight_requests_ c.
Proof.
  intros Hinv Hno Hdom Hid Hq. unfold Client.StartRequest.
  match goal with
  | |- context [Client.InsertInFlightRequest cx ?c0 st request] =>
      set (c1 := c0)
  end.
  assert (Hc1 : Client.pending_requests_ c1 = Client.pending_requests_ c
                /\ Client.in_flight_requests_ c1 = Client.in_flight_requests_ c
                /\ client_invariant k c1 st).
  { unfold c1. destruct (negb _).
    - split; [reflexivity |]. split; [reflexivity |].
      by apply (client_invariant_members k c).
    - split; [reflexivity |]. split; [reflexivity | exact Hinv]. }
  destruct Hc1 as (Ep & Ef & Hinv1).
  destruct (InsertInFlightRequest_invariant cx k c1 st request Hinv1 Hno Hdom Hid)
    as (Hinv2 & Htouch & Hno2 & Hp2 & Hf2); [by rewrite Ep |].
  destruct (Client.InsertInFlightRequest cx c1 st request) as [c2 st2].
  cbn [fst snd] in *.
  split; [| split; [by rewrite Hp2 | by rewrite Hf2, Ef]].
  apply (preserved_core k _ st c2 st2).
  - split; [exact Hinv2 |]. split; [exact Htouch |]. split; [exact Hno2 |].
    unfold tracked. rewrite Hp2, Hf2, Ep, Ef.
    by rewrite (assoc_L (∪)).
  - apply Start_dom.
  - intros p. apply Start_core.
Qed.

Lemma Erase_invariant k c st request q :
  client_invariant k c st ->
  RequestQueue.Erase (Client.pending_requests_ c) request = Some q ->
  client_invariant k (Client.with_pending_requests c q) st
  /\ request ∈ RequestQueue.queue_ (Client.pending_requests_ c)
  /\ RequestQueue.queue_ q
     = erase_node request (RequestQueue.queue_ (Client.pending_requests_ c))
  /\ (request ∉ RequestQueue.queue_ q)
  /\ (request ∉ Client.in_flight_requests_ c)
  /\ request ∈ dom (requests st)
  /\ client_id_ (deref st request) = k
  /\ tracked (Client.with_pending_requests c q) ⊆ tracked c.
Proof.
  intros Hinv Herase.
  destruct (Erase_Some _ _ _ Herase) as [Hin ->].
  pose proof Hinv as (Ha & Hb & Hc & Hc' & Hd & Hf & Hg).
  assert (Hsub : forall p,
             p ∈ erase_node request
                   (RequestQueue.queue_ (Client.pending_requests_ c)) ->
             p ∈ RequestQueue.queue_ (Client.pending_requests_ c)).
  { intros p Hp. by apply (erase_node_elem_of request _ p Hc) in Hp as [_ Hp]. }
  assert (Htr : request ∈ tracked c).
  { unfold tracked. apply elem_of_union_r. by apply elem_of_list_to_set. }
  assert (HT : tracked
                 (Client.with_pending_requests c
                    {| RequestQueue.fifo_ordering_ids_ :=
                         RequestQueue.fifo_ordering_ids_
                           (Client.pending_requests_ c);
                       RequestQueue.queue_ :=
                         erase_node request
                           (RequestQueue.queue_ (Client.pending_requests_ c)) |})
               ⊆ tracked c).
  { intros p. unfold tracked. cbn [Client.with_pending_requests
      Client.pending_requests_ Client.in_flight_requests_ RequestQueue.queue_].
    rewrite !elem_of_union, !elem_of_list_to_set.
    intros [Hp | Hp]; [by left | right; by apply Hsub]. }
  split; [| split; [exact Hin | split; [reflexivity | split; [| split;
    [by apply Hc' | split; [by apply Hd | split; [by apply Hd | exact HT]]]]]]].
  - split; [exact Ha |]. split; [exact Hb |].
    split; [by apply erase_node_NoDup |].
    split; [intros p Hp; apply Hc'; by apply Hsub |].
    split; [intros p Hp; apply Hd; by apply HT |].
    split; [exact Hf | exact Hg].
  - cbn [RequestQueue.queue_]. rewrite (erase_node_elem_of request _ request Hc).
    by intros [? _].
Qed.

Lemma Insert_invariant k c st request :
  client_invariant k c st ->
  no_layout_blocking st ->
  request ∈ dom (requests st) ->
  client_id_ (deref st request) = k ->
  request ∉ tracked c ->
  preserved k ({[request]} ∪ tracked c) st
    (Client.with_pending_requests c
       (RequestQueue.Insert (Client.pending_requests_ c) st request).1)
    (RequestQueue.Insert (Client.pending_requests_ c) st request).2.
Proof.
  intros Hinv Hno Hdom Hid Hnt. rewrite Insert_queue. cbn [fst snd].
  set (st' := store_request st request _).
  pose proof Hinv as (Ha & Hb & Hc & Hc' & Hd & Hf & Hg).
  assert (Hsame : forall p,
             client_id_ (deref st' p) = client_id_ (deref st p)
             /\ attributes_ (deref st' p) = attributes_ (deref st p)).
  { intros p. unfold st'. destruct (decide (request = p)) as [-> | Hne].
    - by rewrite deref_store_request.
    - by rewrite deref_store_request_ne. }
  assert (Hnq : request ∉ RequestQueue.queue_ (Client.pending_requests_ c)).
  { intros Hin. apply Hnt. unfold tracked. apply elem_of_union_r.
    by apply elem_of_list_to_set. }
  assert (Hnf : request ∉ Client.in_flight_requests_ c).
  { intros Hin. apply Hnt. unfold tracked. by apply elem_of_union_l. }
  set (c' := Client.with_pending_requests c _).
  assert (HT : forall p, p ∈ tracked c' <-> p = request \/ p ∈ tracked c).
  { intros p. unfold tracked, c'. cbn [Client.with_pending_requests
      Client.pending_requests_ Client.in_flight_requests_ RequestQueue.queue_].
    rewrite !elem_of_union, !elem_of_list_to_set, multiset_insert_elem_of.
    tauto. }
  apply (preserved_same k _ st c' st).
  - split; [| split; [apply touches_only_refl | split; [exact Hno |]]].
    + split; [exact Ha |]. split; [exact Hb |].
      split; [by apply multiset_insert_NoDup |].
      split.
      { intros p Hp. unfold c' in Hp.
        cbn [Client.with_pending_requests Client.pending_requests_
             RequestQueue.queue_] in Hp.
        apply multiset_insert_elem_of in Hp as [-> | Hp];
          [exact Hnf | by apply Hc']. }
      split.
      { intros p Hp. apply HT in Hp as [-> | Hp]; [by split | by apply Hd]. }
      split; [exact Hf | exact Hg].
    + intros p Hp. apply HT in Hp. rewrite elem_of_union, elem_of_singleton.
      exact Hp.
  - apply store_request_dom.
  - exact Hsame.
Qed.

Lemma LoadAnyStartablePendingRequests_invariant cx k c st trigger c' st' :
  client_invariant k c st ->
  no_layout_blocking st ->
  Client.LoadAnyStartablePendingRequests cx c st trigger = Some (c', st') ->
  preserved k (tracked c) st c' st'.
Proof.
  intros Hinv Hno. unfold Client.LoadAnyStartablePendingRequests.
  set (c0 := Client.with_num_skipped_scans c 0).
  change (RequestQueue.queue_ (Client.pending_requests_ c0))
    with (RequestQueue.queue_ (Client.pending_requests_ c)).
  change (RequestQueue.queue_ (Client.pending_requests_ c))
    with (RequestQueue.queue_ (Client.pending_requests_ c0)) at 2.
  apply (LoadLoop_invariant cx trigger
           (fun c1 st1 => preserved k (tracked c) st c1 st1)).
  - intros c1 st1 pre request next q (Hinv1 & Htouch1 & Hno1 & HT1) Hqueue
      _ _ Herase.
    destruct (Erase_invariant k c1 st1 request q Hinv1 Herase)
      as (Hinv2 & Hin & Hq & Hnq & Hnf & Hdom & Hid & HT2).
    destruct (StartRequest_invariant cx k (Client.with_pending_requests c1 q)
                st1 request START_ASYNC trigger Hinv2 Hno1 Hdom Hid Hnq)
      as ((Hinv3 & Htouch3 & Hno3 & HT3) & _ & _).
    split; [exact Hinv3 |].
    split; [by apply (touches_only_trans k st st1) |].
    split; [exact Hno3 |].
    etransitivity; [exact HT3 |].
    apply union_subseteq. split.
    + apply singleton_subseteq_l. apply HT1. unfold tracked.
      apply elem_of_union_r. by apply elem_of_list_to_set.
    + by transitivity (tracked c1).
  - apply (preserved_members k _ st c); try reflexivity.
    by apply preserved_start.
Qed.

Lemma with_in_flight_requests_same c :
  Client.with_in_flight_requests c (Client.in_flight_requests_ c) = c.
Proof. by destruct c. Qed.

Lemma SetRequestAttributes_Determine_invariant cx k c st request :
  client_invariant k c st ->
  no_layout_blocking st ->
  request ∈ dom (requests st) ->
  client_id_ (deref st request) = k ->
  preserved k (tracked c) st
    (Client.SetRequestAttributes c st request
       (Client.DetermineRequestAttributes cx c st request)).1
    (Client.SetRequestAttributes c st request
       (Client.DetermineRequestAttributes cx c st request)).2
  /\ Client.pending_requests_
       (Client.SetRequestAttributes c st request
          (Client.DetermineRequestAttributes cx c st request)).1
     = Client.pending_requests_ c
  /\ Client.in_flight_requests_
       (Client.SetRequestAttributes c st request
          (Client.DetermineRequestAttributes cx c st request)).1
     = Client.in_flight_requests_ c.
Proof.
  intros Hinv Hno Hdom Hid.
  set (a := Client.DetermineRequestAttributes cx c st request).
  destruct (DetermineRequestAttributes_bits cx c st request) as [Hbit Hlb].
  fold a in Hbit, Hlb.
  pose proof Hinv as (Ha & Hb & Hc & Hc' & Hd & Hf & Hg).
  destruct (SetRequestAttributes_invariant k c st request a
              (Client.in_flight_requests_ c) Hinv Hno Hdom Hid)
    as (Hinv2 & Htouch & Hno2).
  - rewrite Hlb. apply Hno.
  - reflexivity.
  - exact Hbit.
  - intros Hin Hq. by apply (Hc' request).
  - rewrite with_in_flight_requests_same in Hinv2, Htouch, Hno2.
    destruct (SetRequestAttributes_counts c st request a
                (count_with_attributes st kAttributeInFlightDelayable
                   (Client.in_flight_requests_ c)) Ha Hb (Hno request))
      as (_ & _ & Hp2 & Hf2); [rewrite Hlb; apply Hno |].
    split; [| by split].
    split; [exact Hinv2 |]. split; [exact Htouch |]. split; [exact Hno2 |].
    unfold tracked. by rewrite Hp2, Hf2.
Qed.

(** *** The methods of [Client] keep the client's invariant *)

Lemma Client_ScheduleRequest_invariant cx k c st request c' st' :
  client_invariant k c st ->
  no_layout_blocking st ->
  request ∈ dom (requests st) ->
  client_id_ (deref st request) = k ->
  request ∉ tracked c ->
  Client.ScheduleRequest cx c st request = Some (c', st') ->
  preserved k ({[request]} ∪ tracked c) st c' st'.
Proof.
  intros Hinv Hno Hdom Hid Hnt. unfold Client.ScheduleRequest.
  destruct (SetRequestAttributes_Determine_invariant cx k c st request
              Hinv Hno Hdom Hid) as (Hpres & Hp1 & Hf1).
  destruct (Client.SetRequestAttributes c st request _) as [c1 st1].
  cbn [fst snd] in *.
  pose proof Hpres as (Hinv1 & Htouch1 & Hno1 & HT1).
  assert (Hdom1 : request ∈ dom (requests st1)) by (by apply Htouch1).
  assert (Hid1 : client_id_ (deref st1 request) = k).
  { destruct Htouch1 as (_ & Hcid & _). by rewrite Hcid. }
  assert (Htr : tracked c1 = tracked c).
  { unfold tracked. by rewrite Hp1, Hf1. }
  assert (Hnt1 : request ∉ tracked c1) by (by rewrite Htr).
  destruct (Client.ShouldStartRequest cx c1 st1 request) as [[| |] |];
    [| | | discriminate].
  - pose proof (Insert_invariant k c1 st1 request Hinv1 Hno1 Hdom1 Hid1 Hnt1)
      as Hpres2.
    destruct (RequestQueue.Insert (Client.pending_requests_ c1) st1 request)
      as [q st2].
    intros [= <- <-]. cbn [fst snd] in Hpres2.
    rewrite Htr in Hpres2. by apply (preserved_trans k (tracked c) _ st c1 st1).
  - pose proof (Insert_invariant k c1 st1 request Hinv1 Hno1 Hdom1 Hid1 Hnt1)
      as Hpres2.
    destruct (RequestQueue.Insert (Client.pending_requests_ c1) st1 request)
      as [q st2].
    intros [= <- <-]. cbn [fst snd] in Hpres2.
    rewrite Htr in Hpres2. by apply (preserved_trans k (tracked c) _ st c1 st1).
  - destruct (StartRequest_invariant cx k c1 st1 request START_SYNC NONE
                Hinv1 Hno1 Hdom1 Hid1) as (Hpres2 & _ & _).
    { intros Hin. apply Hnt1. unfold tracked. apply elem_of_union_r.
      by apply elem_of_list_to_set. }
    destruct (Client.StartRequest cx c1 st1 request START_SYNC NONE)
      as [c2 st2].
    intros [= <- <-]. cbn [fst snd] in Hpres2.
    rewrite Htr in Hpres2. by apply (preserved_trans k (tracked c) _ st c1 st1).
Qed.

Lemma Client_RemoveRequest_invariant cx k c st request c' st' :
  client_invariant k c st ->
  no_layout_blocking st ->
  request ∈ dom (requests st) ->
  client_id_ (deref st request) = k ->
  Client.RemoveRequest cx c st request = Some (c', st') ->
  preserved k (tracked c ∖ {[request]}) st c' st'.
Proof.
  intros Hinv Hno Hdom Hid. unfold Client.RemoveRequest.
  pose proof Hinv as (Ha & Hb & Hc & Hc' & Hd & Hf & Hg).
  destruct (RequestQueue.IsQueued (Client.pending_requests_ c) request) eqn:Eq.
  - destruct (RequestQueue.Erase (Client.pending_requests_ c) request)
      as [q |] eqn:Herase; [| discriminate].
    intros [= <- <-].
    destruct (Erase_invariant k c st request q Hinv Herase)
      as (Hinv2 & Hin & Hq & Hnq & Hnf & _ & _ & HT2).
    split; [exact Hinv2 |]. split; [apply touches_only_refl |].
    split; [exact Hno |].
    intros p Hp. apply elem_of_difference. split; [by apply HT2 |].
    rewrite elem_of_singleton. intros ->.
    unfold tracked in Hp. apply elem_of_union in Hp as [Hp | Hp].
    + by apply Hnf.
    + apply Hnq. by apply elem_of_list_to_set in Hp.
  - match goal with
    | |- context [Client.EraseInFlightRequest ?c0 st request] => set (c1 := c0)
    end.
    assert (Hc1 : Client.pending_requests_ c1 = Client.pending_requests_ c
                  /\ Client.in_flight_requests_ c1 = Client.in_flight_requests_ c
                  /\ client_invariant k c1 st).
    { unfold c1. destruct (negb _).
      - split; [reflexivity |]. split; [reflexivity |].
        by apply (client_invariant_members k c).
      - split; [reflexivity |]. split; [reflexivity | exact Hinv]. }
    destruct Hc1 as (Ep & Ef & Hinv1).
    unfold Client.EraseInFlightRequest.
    destruct (SetRequestAttributes_invariant k c1 st request kAttributeNone
                (Client.in_flight_requests_ c1 ∖ {[request]}) Hinv1 Hno Hdom Hid)
      as (Hinv2 & Htouch2 & Hno2).
    + reflexivity.
    + apply set_eq. intros p.
      rewrite !elem_of_difference, !elem_of_singleton. tauto.
    + split; [discriminate |].
      rewrite elem_of_difference, elem_of_singleton. by intros [_ ?].
    + rewrite elem_of_difference, elem_of_singleton. by intros [_ ?].
    + destruct (SetRequestAttributes_counts
                  (Client.with_in_flight_requests c1
                     (Client.in_flight_requests_ c1 ∖ {[request]}))
                  st request kAttributeNone
                  (count_with_attributes st kAttributeInFlightDelayable
                     (Client.in_flight_requests_ c1))
                  (proj1 Hinv1) (proj1 (proj2 Hinv1)) (Hno request))
        as (_ & _ & Hp2 & Hf2); [reflexivity |].
      destruct (Client.SetRequestAttributes _ st request kAttributeNone)
        as [c2 st2].
      cbn [fst snd] in *.
      change (Client.pending_requests_ c2 = Client.pending_requests_ c1) in Hp2.
      change (Client.in_flight_requests_ c2
              = Client.in_flight_requests_ c1 ∖ {[request]}) in Hf2.
      intros Hload.
      assert (HT2 : tracked c2 ⊆ tracked c ∖ {[request]}).
      { intros p. unfold tracked. rewrite Hp2, Hf2, Ep, Ef.
        rewrite elem_of_difference, !elem_of_union, elem_of_difference,
          elem_of_singleton, elem_of_list_to_set.
        intros [[Hp Hne] | Hp]; [by split; [left |] |].
        split; [by right |]. intros ->.
        apply bool_decide_eq_false in Eq. by apply Eq. }
      pose proof (LoadAnyStartablePendingRequests_invariant cx k c2 st2 _ c' st'
                    Hinv2 Hno2 Hload) as (Hinv3 & Htouch3 & Hno3 & HT3).
      split; [exact Hinv3 |].
      split; [by apply (touches_only_trans k st st2) |].
      split; [exact Hno3 |]. by transitivity (tracked c2).
Qed.

Lemma preserved_weaken k (T T' : gset positive) st c' st' :
  T ⊆ T' -> preserved k T st c' st' -> preserved k T' st c' st'.
Proof.
  intros Hsub (Hinv & Htouch & Hno & HT).
  split; [exact Hinv |]. split; [exact Htouch |]. split; [exact Hno |].
  by transitivity T.
Qed.

Lemma ScheduleLoadAnyStartablePendingRequests_invariant k T st c st1 trigger :
  preserved k T st c st1 ->
  preserved k T st
    (Client.ScheduleLoadAnyStartablePendingRequests c st1 trigger).1
    (Client.ScheduleLoadAnyStartablePendingRequests c st1 trigger).2.
Proof.
  intros Hpres. unfold Client.ScheduleLoadAnyStartablePendingRequests.
  cbn [fst snd].
  apply (preserved_members k T st c); try reflexivity.
  apply (preserved_same k T st c st1); [exact Hpres | |].
  - by destruct (_ =? 0).
  - intros p. by destruct (_ =? 0).
Qed.

Lemma Client_ReprioritizeRequest_invariant cx k c st request
    old_priority_params new_priority_params c' st' :
  client_invariant k c st ->
  no_layout_blocking st ->
  client_id_ (deref st request) = k ->
  Client.ReprioritizeRequest cx c st request old_priority_params
    new_priority_params = Some (c', st') ->
  preserved k (tracked c) st c' st'.
Proof.
  intros Hinv Hno Hid. unfold Client.ReprioritizeRequest.
  set (st0 := with_url_requests st _).
  set (st1 := store_request st0 request _).
  assert (Hpres1 : preserved k (tracked c) st c st1).
  { apply (preserved_same k _ st c st); [by apply preserved_start | |].
    - apply (store_request_dom st0).
    - intros p. unfold st1. destruct (decide (request = p)) as [-> | Hne].
      + rewrite deref_store_request. by split.
      + rewrite deref_store_request_ne by done. by split. }
  pose proof Hpres1 as (Hinv1 & Htouch1 & Hno1 & HT1).
  assert (Hdom1 : request ∈ dom (requests st1)).
  { unfold st1, store_request, with_requests. cbn [requests].
    rewrite dom_insert. apply elem_of_union_l. by apply elem_of_singleton. }
  assert (Hid1 : client_id_ (deref st1 request) = k).
  { unfold st1. rewrite deref_store_request. exact Hid. }
  destruct (SetRequestAttributes_Determine_invariant cx k c st1 request
              Hinv1 Hno1 Hdom1 Hid1) as (Hpres2 & Hp2 & Hf2).
  destruct (Client.SetRequestAttributes c st1 request _) as [c2 st2].
  cbn [fst snd] in *.
  pose proof Hpres2 as (Hinv2 & Htouch2 & Hno2 & HT2).
  assert (Hpres02 : preserved k (tracked c) st c2 st2)
    by (by apply (preserved_trans k (tracked c) _ st c st1)).
  destruct (RequestQueue.IsQueued (Client.pending_requests_ c2) request);
    cbn [negb]; [| by intros [= <- <-]].
  destruct (RequestQueue.Erase (Client.pending_requests_ c2) request)
    as [q |] eqn:Herase; [| discriminate].
  destruct (Erase_invariant k c2 st2 request q Hinv2 Herase)
    as (Hinv3 & Hin & Hq & Hnq & Hnf & Hdom2 & Hid2 & HT3).
  assert (Hnt3 : request ∉ tracked (Client.with_pending_requests c2 q)).
  { unfold tracked. cbn [Client.with_pending_requests
      Client.pending_requests_ Client.in_flight_requests_].
    rewrite elem_of_union, elem_of_list_to_set. tauto. }
  pose proof (Insert_invariant k (Client.with_pending_requests c2 q) st2
                request Hinv3 Hno2 Hdom2 Hid2 Hnt3) as Hpres3.
  change (Client.pending_requests_ (Client.with_pending_requests c2 q))
    with q in Hpres3.
  destruct (RequestQueue.Insert q st2 request) as [q' st3].
  cbn [fst snd] in Hpres3.
  change (Client.with_pending_requests (Client.with_pending_requests c2 q) q')
    with (Client.with_pending_requests c2 q') in Hpres3.
  assert (Hpres03 : preserved k (tracked c) st
                      (Client.with_pending_requests c2 q') st3).
  { apply (preserved_trans k (tracked c) _ st c2 st2); [exact Hpres02 |].
    revert Hpres3. apply preserved_weaken.
    apply union_subseteq. split.
    - apply singleton_subseteq_l. apply HT2. unfold tracked.
      apply elem_of_union_r. by apply elem_of_list_to_set.
    - by transitivity (tracked c2). }
  destruct (_ <? _).
  - destruct (Client.ScheduleLoadAnyStartablePendingRequests _ st3 _)
      as [c4 st4] eqn:E4.
    intros [= <- <-].
    pose proof (ScheduleLoadAnyStartablePendingRequests_invariant k _ st _ st3
                  REQUEST_REPRIORITIZED Hpres03) as H4.
    by rewrite E4 in H4.
  - by intros [= <- <-].
Qed.

Lemma StartAllPending_invariant cx k n : forall c st c' st',
  client_invariant k c st ->
  no_layout_blocking st ->
  Client.StartAllPending cx n c st = Some (c', st') ->
  preserved k (tracked c) st c' st'
  /\ RequestQueue.queue_ (Client.pending_requests_ c') = [].
Proof.
  induction n as [| n IH]; intros c st c' st' Hinv Hno; simpl;
    destruct (RequestQueue.queue_ (Client.pending_requests_ c))
      as [| request l] eqn:Hqueue;
    try discriminate;
    try (intros [= <- <-]; split; [by apply preserved_start | exact Hqueue]).
  destruct (RequestQueue.Erase (Client.pending_requests_ c) request)
    as [q |] eqn:Herase; [| discriminate].
  destruct (Erase_invariant k c st request q Hinv Herase)
    as (Hinv2 & Hin & Hq & Hnq & Hnf & Hdom & Hid & HT2).
  destruct (StartRequest_invariant cx k (Client.with_pending_requests c q) st
              request START_ASYNC CLIENT_KILL Hinv2 Hno Hdom Hid Hnq)
    as (Hpres3 & _ & _).
  destruct (Client.StartRequest cx (Client.with_pending_requests c q) st
              request START_ASYNC CLIENT_KILL) as [c1 st1].
  cbn [fst snd] in Hpres3. intros Hrest.
  pose proof Hpres3 as (Hinv3 & Htouch3 & Hno3 & HT3).
  destruct (IH c1 st1 c' st' Hinv3 Hno3 Hrest) as [Hpres4 Hempty].
  split; [| exact Hempty].
  eapply preserved_trans; [exact Hpres3 |].
  revert Hpres4. apply preserved_weaken.
  etransitivity; [exact HT3 |].
  apply union_subseteq. split; [| exact HT2].
  apply singleton_subseteq_l. unfold tracked.
  apply elem_of_union_r. by apply elem_of_list_to_set.
Qed.

Lemma clear_attributes_deref l : forall st p,
  client_id_
    (deref
       (foldr
          (fun q st =>
             store_request st q (set_attributes (deref st q) kAttributeNone))
          st l) p)
  = client_id_ (deref st p)
  /\ attributes_
       (deref
          (foldr
             (fun q st =>
                store_request st q (set_attributes (deref st q) kAttributeNone))
             st l) p)
     = (if decide (p ∈ l) then kAttributeNone else attributes_ (deref st p))
  /\ dom (requests st)
     ⊆ dom (requests
              (foldr
                 (fun q st =>
                    store_request st q
                      (set_attributes (deref st q) kAttributeNone))
                 st l)).
Proof.
  induction l as [| q l IH]; intros st p; cbn [foldr].
  - split; [reflexivity |]. split; [| done].
    destruct (decide (p ∈ [])) as [Hin |]; [| reflexivity].
    by apply elem_of_nil in Hin.
  - destruct (IH st p) as (E1 & E2 & E3).
    split; [| split].
    + destruct (decide (q = p)) as [-> | Hne].
      * rewrite deref_store_request. exact E1.
      * rewrite deref_store_request_ne by done. exact E1.
    + destruct (decide (q = p)) as [-> | Hne].
      * rewrite deref_store_request. cbn [set_attributes attributes_].
        rewrite decide_True; [reflexivity |].
        apply elem_of_cons. by left.
      * rewrite deref_store_request_ne by done. rewrite E2.
        destruct (decide (p ∈ l)) as [Hin | Hnin].
        -- rewrite decide_True; [reflexivity |].
           apply elem_of_cons. by right.
        -- rewrite decide_False; [reflexivity |].
           rewrite elem_of_cons. intros [-> | ?]; contradiction.
    + etransitivity; [exact E3 | apply store_request_dom].
Qed.

Lemma StartAndRemoveAllRequests_invariant cx k c st c' st' U :
  client_invariant k c st ->
  no_layout_blocking st ->
  Client.StartAndRemoveAllRequests cx c st = Some (c', st', U) ->
  touches_only k st st'
  /\ no_layout_blocking st'
  /\ (forall p, client_id_ (deref st' p) = k ->
        has_attributes st' kAttributeInFlight p = false)
  /\ (forall p, p ∈ U ->
        p ∈ dom (requests st') /\ client_id_ (deref st' p) = k).
Proof.
  intros Hinv Hno. unfold Client.StartAndRemoveAllRequests.
  destruct (Client.StartAllPending cx _ c st) as [[c1 st1] |] eqn:Hstart;
    [| discriminate].
  destruct (StartAllPending_invariant cx k _ c st c1 st1 Hinv Hno Hstart)
    as [(Hinv1 & Htouch1 & Hno1 & HT1) _].
  intros [= <- <- <-].
  set (st2 := foldr _ st1 _).
  pose proof (fun p => clear_attributes_deref
                         (elements (Client.in_flight_requests_ c1)) st1 p)
    as Hclear.
  fold st2 in Hclear.
  pose proof Hinv1 as (_ & _ & _ & _ & Hd & Hf & Hg).
  split; [| split; [| split]].
  - apply (touches_only_trans k st st1); [exact Htouch1 |].
    split; [apply (Hclear 1%positive) |].
    split; [intros p; apply Hclear |].
    intros p Hp. destruct (Hclear p) as (_ & E2 & _). rewrite E2.
    rewrite decide_False; [reflexivity |].
    rewrite elem_of_elements. intros Hin. apply Hp. apply Hd.
    unfold tracked. by apply elem_of_union_l.
  - intros p. unfold has_attributes. destruct (Hclear p) as (_ & E2 & _).
    rewrite E2. destruct (decide _); [reflexivity | apply Hno1].
  - intros p Hk. unfold has_attributes. destruct (Hclear p) as (E1 & E2 & _).
    rewrite E2. destruct (decide _) as [| Hnin]; [reflexivity |].
    destruct (RequestAttributesAreSet _ _) eqn:E; [| reflexivity].
    exfalso. apply Hnin. rewrite elem_of_elements.
    apply Hg; [by rewrite <- E1 | exact E].
  - intros p Hp. destruct (Hclear p) as (E1 & _ & E3).
    assert (Htr : p ∈ tracked c1) by (unfold tracked; by apply elem_of_union_l).
    destruct (Hd p Htr) as [Hdom Hid].
    split; [by apply E3 | by rewrite E1].
Qed.

(** *** The operations of the scheduler keep its invariant *)

Lemma scheduler_invariant_ext s s' :
  ResourceScheduler.store s' = ResourceScheduler.store s ->
  ResourceScheduler.client_map_ s' = ResourceScheduler.client_map_ s ->
  ResourceScheduler.unowned_requests_ s' = ResourceScheduler.unowned_requests_ s ->
  scheduler_invariant s -> scheduler_invariant s'.
Proof. unfold scheduler_invariant. by intros -> -> ->. Qed.

Lemma scheduler_invariant_timer s :
  scheduler_invariant s ->
  scheduler_invariant
    (ResourceScheduler.StartLongQueuedRequestsDispatchTimerIfNeeded s).
Proof.
  unfold ResourceScheduler.StartLongQueuedRequestsDispatchTimerIfNeeded.
  by destruct (negb _).
Qed.

Lemma scheduler_invariant_store s st' :
  scheduler_invariant s ->
  dom (requests (ResourceScheduler.store s)) ⊆ dom (requests st') ->
  (forall p,
     client_id_ (deref st' p) = client_id_ (deref (ResourceScheduler.store s) p)
     /\ attributes_ (deref st' p)
        = attributes_ (deref (ResourceScheduler.store s) p)) ->
  scheduler_invariant (ResourceScheduler.with_store s st').
Proof.
  intros (G1 & G2 & G3 & G4 & G5 & G6) Hd Hsame.
  split; [| split; [| split; [| split; [| split]]]];
    cbn [ResourceScheduler.with_store ResourceScheduler.store
         ResourceScheduler.client_map_ ResourceScheduler.unowned_requests_].
  - intros k c Hk.
    by apply (preserved_same k (tracked c) (ResourceScheduler.store s) c
                (ResourceScheduler.store s) st'
                (preserved_start k c _ (G1 k c Hk) G2)).
  - apply (no_layout_blocking_touches (ResourceScheduler.store s)); [| exact G2].
    intros p. left. apply Hsame.
  - intros p Hp. destruct (Hsame p) as [E1 E2]. rewrite E1. apply G3.
    rewrite <- Hp. symmetry. by apply has_attributes_eq.
  - exact G4.
  - by transitivity (dom (requests (ResourceScheduler.store s))).
  - exact G6.
Qed.

Lemma scheduler_invariant_update s k c T c' st' :
  scheduler_invariant s ->
  ResourceScheduler.client_map_ s !! k = Some c ->
  preserved k T (ResourceScheduler.store s) c' st' ->
  (forall p, p ∈ T ->
     (p ∉ ResourceScheduler.unowned_requests_ s) /\ Z.pos p <= size_t_max) ->
  scheduler_invariant (update_client s k c' st').
Proof.
  intros (G1 & G2 & G3 & G4 & G5 & G6) Hk (Hinv & Htouch & Hno & HT) HU.
  split; [| split; [| split; [| split; [| split]]]];
    cbn [update_client ResourceScheduler.with_store
         ResourceScheduler.with_client_map ResourceScheduler.store
         ResourceScheduler.client_map_ ResourceScheduler.unowned_requests_].
  - intros k' c'' Hk'. destruct (decide (k' = k)) as [-> | Hne].
    + rewrite lookup_insert_eq in Hk'. by injection Hk' as <-.
    + rewrite lookup_insert_ne in Hk' by done.
      apply (client_invariant_other k k' c'' (ResourceScheduler.store s));
        [exact Hne | by apply G1 | exact Htouch].
  - exact Hno.
  - intros p Hp. destruct Htouch as (_ & Hcid & Hattr).
    destruct (decide (client_id_ (deref st' p) = k)) as [E | Hne].
    + rewrite E, lookup_insert_eq. by eexists.
    + rewrite lookup_insert_ne by (intros E; by apply Hne).
      rewrite Hcid. apply G3.
      rewrite <- Hp. symmetry. apply has_attributes_eq.
      apply Hattr. by rewrite <- Hcid.
  - intros p k' c'' Hp Hk'. destruct (decide (k' = k)) as [-> | Hne].
    + rewrite lookup_insert_eq in Hk'. injection Hk' as <-.
      intros Hin. by apply (proj1 (HU p (HT p Hin))).
    + rewrite lookup_insert_ne in Hk' by done. by apply (G4 p k' c'').
  - transitivity (dom (requests (ResourceScheduler.store s))); [exact G5 |].
    apply Htouch.
  - intros p k' c'' Hk' Hp. destruct (decide (k' = k)) as [-> | Hne].
    + rewrite lookup_insert_eq in Hk'. injection Hk' as <-.
      by apply (proj2 (HU p (HT p Hp))).
    + rewrite lookup_insert_ne in Hk' by done. by apply (G6 p k' c'').
Qed.

Lemma deref_unallocated st p :
  requests st !! p = None -> deref st p = inhabitant.
Proof. intros H. unfold deref. by rewrite lookup_total_alt, H. Qed.

Lemma scheduler_invariant_new enabled manager :
  scheduler_invariant (ResourceScheduler.new enabled manager).
Proof.
  apply scheduler_invariant_timer.
  assert (Hdefault : forall p,
             deref {| requests := ∅; url_requests := ∅; posted_tasks := [];
                      resumed := [] |} p = inhabitant).
  { intros p. apply deref_unallocated. apply lookup_empty. }
  split; [| split; [| split; [| split; [| split]]]];
    cbn [ResourceScheduler.store ResourceScheduler.client_map_
         ResourceScheduler.unowned_requests_].
  - intros k c Hk. by rewrite lookup_empty in Hk.
  - intros p. unfold has_attributes. by rewrite Hdefault.
  - intros p. unfold has_attributes. by rewrite Hdefault.
  - intros p k c Hp. by apply not_elem_of_empty in Hp.
  - apply empty_subseteq.
  - intros p k c Hk. by rewrite lookup_empty in Hk.
Qed.

Lemma untracked_unallocated s handle :
  scheduler_invariant s ->
  requests (ResourceScheduler.store s) !! handle = None ->
  (handle ∉ ResourceScheduler.unowned_requests_ s)
  /\ (forall k c, ResourceScheduler.client_map_ s !! k = Some c ->
        handle ∉ tracked c).
Proof.
  intros (G1 & G2 & G3 & G4 & G5 & G6) Hfresh.
  apply not_elem_of_dom in Hfresh. split.
  - intros Hin. apply Hfresh. by apply G5.
  - intros k c Hk Hin. apply Hfresh.
    destruct (G1 k c Hk) as (_ & _ & _ & _ & Hd & _). by apply Hd.
Qed.

Lemma scheduler_invariant_alloc s handle r :
  scheduler_invariant s ->
  requests (ResourceScheduler.store s) !! handle = None ->
  attributes_ r = kAttributeNone ->
  scheduler_invariant
    (ResourceScheduler.with_store s
       (store_request (ResourceScheduler.store s) handle r)).
Proof.
  intros Hs Hfresh Hr.
  destruct (untracked_unallocated s handle Hs Hfresh) as [Hnu Hnt].
  destruct Hs as (G1 & G2 & G3 & G4 & G5 & G6).
  set (st' := store_request (ResourceScheduler.store s) handle r).
  assert (Hnew : forall m, m <> 0 -> has_attributes st' m handle = false).
  { intros m Hm. unfold has_attributes, st'.
    rewrite deref_store_request, Hr. by apply none_has_no_attributes. }
  assert (Hold : forall p, p <> handle ->
             deref st' p = deref (ResourceScheduler.store s) p).
  { intros p Hp. unfold st'. by rewrite deref_store_request_ne. }
  split; [| split; [| split; [| split; [| split]]]];
    cbn [ResourceScheduler.with_store ResourceScheduler.store
         ResourceScheduler.client_map_ ResourceScheduler.unowned_requests_];
    fold st'.
  - intros k c Hk.
    apply (client_invariant_frame k c (ResourceScheduler.store s));
      [by apply G1 | |].
    + intros p Hp.
      assert (p <> handle) as Hne by (intros ->; by apply (Hnt k c Hk)).
      rewrite (Hold p Hne). split; [| by split].
      apply (store_request_dom (ResourceScheduler.store s)).
      destruct (G1 k c Hk) as (_ & _ & _ & _ & Hd & _). by apply Hd.
    + intros p Hid Hif. destruct (decide (p = handle)) as [-> | Hne].
      * by rewrite Hnew in Hif.
      * unfold has_attributes in *. rewrite (Hold p Hne) in Hid, Hif.
        by split.
  - intros p. destruct (decide (p = handle)) as [-> | Hne].
    + by apply Hnew.
    + unfold has_attributes. rewrite (Hold p Hne). apply G2.
  - intros p Hif. destruct (decide (p = handle)) as [-> | Hne].
    + by rewrite Hnew in Hif.
    + unfold has_attributes in Hif. rewrite (Hold p Hne) in *. by apply G3.
  - exact G4.
  - etransitivity; [exact G5 | apply store_request_dom].
  - exact G6.
Qed.

Lemma scheduler_invariant_unowned_insert s handle :
  scheduler_invariant s ->
  handle ∈ dom (requests (ResourceScheduler.store s)) ->
  (forall k c, ResourceScheduler.client_map_ s !! k = Some c ->
     handle ∉ tracked c) ->
  scheduler_invariant
    (ResourceScheduler.with_unowned_requests s
       ({[handle]} ∪ ResourceScheduler.unowned_requests_ s)).
Proof.
  intros (G1 & G2 & G3 & G4 & G5 & G6) Hdom Hnt.
  split; [exact G1 |]. split; [exact G2 |]. split; [exact G3 |].
  cbn [ResourceScheduler.with_unowned_requests ResourceScheduler.store
       ResourceScheduler.client_map_ ResourceScheduler.unowned_requests_].
  split; [| split; [| exact G6]].
  - intros p k c Hp Hk. apply elem_of_union in Hp as [Hp | Hp].
    + apply elem_of_singleton in Hp as ->. by apply (Hnt k c).
    + by apply (G4 p k c).
  - apply union_subseteq. split; [by apply singleton_subseteq_l | exact G5].
Qed.

Lemma ScheduleRequest_invariant e s child_id route_id is_async u handle s' :
  scheduler_invariant s ->
  requests (ResourceScheduler.store s) !! handle = None ->
  Z.pos handle <= size_t_max ->
  ResourceScheduler.ScheduleRequest e s child_id route_id is_async u handle
  = Some s' ->
  scheduler_invariant s'.
Proof.
  intros Hs Hfresh Hbound. unfold ResourceScheduler.ScheduleRequest.
  set (k := ResourceScheduler.MakeClientId child_id route_id).
  set (r := ResourceScheduler.ScheduledResourceRequestImpl_new k u _ _
              is_async).
  set (st := with_url_requests _ _).
  destruct (untracked_unallocated s handle Hs Hfresh) as [Hnu Hnt].
  pose proof (scheduler_invariant_alloc s handle r Hs Hfresh eq_refl) as Hs1.
  assert (Hs2 : scheduler_invariant (ResourceScheduler.with_store s st))
    by exact Hs1.
  assert (Hdom : handle ∈ dom (requests st)).
  { unfold st, store_request, with_requests. cbn [requests with_url_requests].
    rewrite dom_insert. apply elem_of_union_l. by apply elem_of_singleton. }
  destruct (ResourceScheduler.client_map_ s !! k) as [c |] eqn:Hk.
  - destruct (Client.ScheduleRequest (ResourceScheduler.context e s) c st handle)
      as [[c' st'] |] eqn:Hsched; [| discriminate].
    assert (Hs3 : scheduler_invariant
                    (update_client (ResourceScheduler.with_store s st) k c' st')).
    { pose proof Hs2 as (G1 & G2 & G3 & G4 & G5 & G6).
      apply (scheduler_invariant_update _ k c ({[handle]} ∪ tracked c) c' st');
        [exact Hs2 | exact Hk | |].
      - apply (Client_ScheduleRequest_invariant (ResourceScheduler.context e s)
                 k c st handle c' st'); [by apply G1 | exact G2 | exact Hdom | |
                 by apply (Hnt k c) | exact Hsched].
        unfold st. rewrite deref_with_url_requests, deref_store_request.
        reflexivity.
      - intros p Hp. apply elem_of_union in Hp as [Hp | Hp].
        + by apply elem_of_singleton in Hp as ->.
        + split; [| by apply (G6 p k c)]. intros Hin. by apply (G4 p k c). }
    destruct (negb _); intros [= <-]; [apply scheduler_invariant_timer |];
      exact Hs3.
  - intros [= <-].
    assert (Hs3 : scheduler_invariant
                    (ResourceScheduler.with_store
                       (ResourceScheduler.with_store s st)
                       (Start st handle START_SYNC))).
    { apply scheduler_invariant_store; [exact Hs2 | apply Start_dom |].
      intros p. destruct (Start_core st handle START_SYNC p) as [Hcore _].
      destruct (core_fields _ _ Hcore) as (? & _ & _ & ? & _). by split. }
    apply (scheduler_invariant_unowned_insert _ handle) in Hs3.
    + exact Hs3.
    + apply Start_dom. exact Hdom.
    + exact Hnt.
Qed.

Lemma RemoveRequest_invariant e s request s' :
  scheduler_invariant s ->
  request ∈ dom (requests (ResourceScheduler.store s)) ->
  ResourceScheduler.RemoveRequest e s request = Some s' ->
  scheduler_invariant s'
  /\ (request ∉ ResourceScheduler.unowned_requests_ s')
  /\ (forall k c, ResourceScheduler.client_map_ s' !! k = Some c ->
        request ∉ tracked c)
  /\ dom (requests (ResourceScheduler.store s))
     ⊆ dom (requests (ResourceScheduler.store s')).
Proof.
  intros Hs Hdom. pose proof Hs as (G1 & G2 & G3 & G4 & G5 & G6).
  unfold ResourceScheduler.RemoveRequest.
  destruct (bool_decide (request ∈ ResourceScheduler.unowned_requests_ s))
    eqn:Hu.
  - apply bool_decide_eq_true in Hu. intros [= <-].
    cbn [ResourceScheduler.with_unowned_requests ResourceScheduler.store
         ResourceScheduler.client_map_ ResourceScheduler.unowned_requests_].
    split; [| split; [| split; [| done]]].
    + split; [exact G1 |]. split; [exact G2 |]. split; [exact G3 |].
      cbn [ResourceScheduler.with_unowned_requests ResourceScheduler.store
           ResourceScheduler.client_map_ ResourceScheduler.unowned_requests_].
      split; [| split; [| exact G6]].
      * intros p k c Hp. apply elem_of_difference in Hp as [Hp _].
        by apply G4.
      * intros p Hp. apply elem_of_difference in Hp as [Hp _]. by apply G5.
    + rewrite elem_of_difference, elem_of_singleton. by intros [_ ?].
    + intros k c. by apply G4.
  - apply bool_decide_eq_false in Hu.
    set (k := client_id_ (deref (ResourceScheduler.store s) request)).
    destruct (ResourceScheduler.client_map_ s !! k) as [c |] eqn:Hk.
    + destruct (Client.RemoveRequest (ResourceScheduler.context e s) c
                  (ResourceScheduler.store s) request)
        as [[c' st'] |] eqn:Hremove; [| discriminate].
      intros [= <-].
      pose proof (Client_RemoveRequest_invariant _ k c _ request c' st'
                    (G1 k c Hk) G2 Hdom eq_refl Hremove) as Hpres.
      split; [| split; [exact Hu | split]].
      * apply (scheduler_invariant_update s k c _ c' st' Hs Hk Hpres).
        intros p Hp. apply elem_of_difference in Hp as [Hp _].
        split; [| by apply (G6 p k c)]. intros Hin. by apply (G4 p k c).
      * cbn [ResourceScheduler.with_store ResourceScheduler.with_client_map
             ResourceScheduler.client_map_].
        destruct Hpres as (Hinv & Htouch & Hno & HT).
        intros k' c'' Hk' Hin. destruct (decide (k' = k)) as [-> | Hne].
        -- rewrite lookup_insert_eq in Hk'. injection Hk' as <-.
           apply HT in Hin. apply elem_of_difference in Hin as [_ Hin].
           apply Hin. by apply elem_of_singleton.
        -- rewrite lookup_insert_ne in Hk' by done.
           destruct (G1 k' c'' Hk') as (_ & _ & _ & _ & Hd & _).
           destruct (Hd request Hin) as [_ Hid]. by apply Hne.
      * apply Hpres.
    + intros [= <-]. split; [exact Hs |]. split; [exact Hu |].
      split; [| done].
      intros k' c'' Hk' Hin.
      destruct (G1 k' c'' Hk') as (_ & _ & _ & _ & Hd & _).
      destruct (Hd request Hin) as [_ Hid]. fold k in Hid. subst k'.
      by rewrite Hk in Hk'.
Qed.

Lemma scheduler_invariant_free s request tasks :
  scheduler_invariant s ->
  request ∉ ResourceScheduler.unowned_requests_ s ->
  (forall k c, ResourceScheduler.client_map_ s !! k = Some c ->
     request ∉ tracked c) ->
  scheduler_invariant
    (ResourceScheduler.with_store s
       {| requests := delete request (requests (ResourceScheduler.store s));
          url_requests := url_requests (ResourceScheduler.store s);
          posted_tasks := tasks;
          resumed := resumed (ResourceScheduler.store s) |}).
Proof.
  intros (G1 & G2 & G3 & G4 & G5 & G6) Hnu Hnt.
  set (st' := {| requests := _ |}).
  assert (Hgone : forall m, m <> 0 -> has_attributes st' m request = false).
  { intros m Hm. unfold has_attributes, st', deref. cbn [requests].
    rewrite lookup_total_delete_eq. by apply none_has_no_attributes. }
  assert (Hold : forall p, p <> request ->
             deref st' p = deref (ResourceScheduler.store s) p).
  { intros p Hp. unfold st', deref. cbn [requests].
    by rewrite lookup_total_delete_ne. }
  assert (Hdom : forall p, p <> request ->
             p ∈ dom (requests (ResourceScheduler.store s)) ->
             p ∈ dom (requests st')).
  { intros p Hp Hin. unfold st'. cbn [requests].
    rewrite dom_delete, elem_of_difference, elem_of_singleton. by split. }
  split; [| split; [| split; [| split; [| split]]]];
    cbn [ResourceScheduler.with_store ResourceScheduler.store
         ResourceScheduler.client_map_ ResourceScheduler.unowned_requests_];
    fold st'.
  - intros k c Hk.
    apply (client_invariant_frame k c (ResourceScheduler.store s));
      [by apply G1 | |].
    + intros p Hp.
      assert (p <> request) as Hne by (intros ->; by apply (Hnt k c Hk)).
      rewrite (Hold p Hne). split; [| by split].
      apply (Hdom p Hne).
      destruct (G1 k c Hk) as (_ & _ & _ & _ & Hd & _). by apply Hd.
    + intros p Hid Hif. destruct (decide (p = request)) as [-> | Hne].
      * by rewrite Hgone in Hif.
      * unfold has_attributes in *. rewrite (Hold p Hne) in Hid, Hif.
        by split.
  - intros p. destruct (decide (p = request)) as [-> | Hne].
    + by apply Hgone.
    + unfold has_attributes. rewrite (Hold p Hne). apply G2.
  - intros p Hif. destruct (decide (p = request)) as [-> | Hne].
    + by rewrite Hgone in Hif.
    + unfold has_attributes in Hif. rewrite (Hold p Hne) in *. by apply G3.
  - exact G4.
  - intros p Hp. apply Hdom; [| by apply G5]. intros ->. contradiction.
  - exact G6.
Qed.

Lemma DestroyRequest_invariant e s request s' :
  scheduler_invariant s ->
  request ∈ dom (requests (ResourceScheduler.store s)) ->
  ResourceScheduler.DestroyRequest e s request = Some s' ->
  scheduler_invariant s'.
Proof.
  intros Hs Hdom. unfold ResourceScheduler.DestroyRequest.
  set (st := with_url_requests _ _).
  assert (Hs1 : scheduler_invariant (ResourceScheduler.with_store s st))
    by (by apply scheduler_invariant_store).
  destruct (ResourceScheduler.RemoveRequest e
              (ResourceScheduler.with_store s st) request)
    as [s1 |] eqn:Hremove; [| discriminate].
  intros [= <-].
  destruct (RemoveRequest_invariant e _ request s1 Hs1 Hdom Hremove)
    as (Hs2 & Hnu & Hnt & _).
  by apply scheduler_invariant_free.
Qed.

Lemma Client_new_members cx this is_browser_client network_quality_estimator :
  Client.pending_requests_
    (Client.new cx this is_browser_client network_quality_estimator)
  = RequestQueue.empty
  /\ Client.in_flight_requests_
       (Client.new cx this is_browser_client network_quality_estimator) = ∅
  /\ Client.in_flight_delayable_count_
       (Client.new cx this is_browser_client network_quality_estimator) = 0
  /\ Client.total_layout_blocking_count_
       (Client.new cx this is_browser_client network_quality_estimator) = 0.
Proof. unfold Client.new. by destruct network_quality_estimator. Qed.

Lemma OnClientCreated_invariant kBrowserProcessId e s child_id route_id
    network_quality_estimator this :
  scheduler_invariant s ->
  ResourceScheduler.client_map_ s
  !! ResourceScheduler.MakeClientId child_id route_id = None ->
  scheduler_invariant
    (ResourceScheduler.OnClientCreated kBrowserProcessId e s child_id route_id
       network_quality_estimator this).
Proof.
  intros (G1 & G2 & G3 & G4 & G5 & G6) Hfree.
  unfold ResourceScheduler.OnClientCreated.
  set (k := ResourceScheduler.MakeClientId child_id route_id) in *.
  set (c0 := Client.new _ this _ network_quality_estimator).
  destruct (Client_new_members (ResourceScheduler.context e s) this
              (child_id =? kBrowserProcessId) network_quality_estimator)
    as (Ep & Ef & Ed & El).
  fold c0 in Ep, Ef, Ed, El.
  assert (Htr : forall p, p ∉ tracked c0).
  { intros p. unfold tracked. rewrite Ep, Ef.
    rewrite elem_of_union, elem_of_list_to_set.
    intros [Hp | Hp]; [by apply not_elem_of_empty in Hp |].
    by apply elem_of_nil in Hp. }
  split; [| split; [| split; [| split; [| split]]]];
    cbn [ResourceScheduler.with_client_map ResourceScheduler.store
         ResourceScheduler.client_map_ ResourceScheduler.unowned_requests_].
  - intros k' c Hk'. destruct (decide (k' = k)) as [-> | Hne].
    + rewrite lookup_insert_eq in Hk'. injection Hk' as <-.
      split; [| split; [exact El | split; [| split; [| split; [| split]]]]].
      * rewrite Ed, Ef. rewrite count_with_attributes_zero; [reflexivity |].
        intros p Hp. by apply not_elem_of_empty in Hp.
      * rewrite Ep. apply NoDup_nil_2.
      * rewrite Ep. intros p Hp. by apply elem_of_nil in Hp.
      * intros p Hp. by apply Htr in Hp.
      * intros p Hp. exfalso. apply (Htr p). unfold tracked.
        by apply elem_of_union_l.
      * intros p Hid Hif. apply G3 in Hif. rewrite Hid, Hfree in Hif.
        by destruct Hif.
    + rewrite lookup_insert_ne in Hk' by done. by apply G1.
  - exact G2.
  - intros p Hif. apply G3 in Hif.
    destruct (decide (k = client_id_ (deref (ResourceScheduler.store s) p)))
      as [<- | Hne].
    + rewrite lookup_insert_eq. by eexists.
    + by rewrite lookup_insert_ne.
  - intros p k' c Hp Hk'. destruct (decide (k' = k)) as [-> | Hne].
    + rewrite lookup_insert_eq in Hk'. injection Hk' as <-. apply Htr.
    + rewrite lookup_insert_ne in Hk' by done. by apply (G4 p k' c).
  - exact G5.
  - intros p k' c Hk' Hp. destruct (decide (k' = k)) as [-> | Hne].
    + rewrite lookup_insert_eq in Hk'. injection Hk' as <-.
      by apply Htr in Hp.
    + rewrite lookup_insert_ne in Hk' by done. by apply (G6 p k' c).
Qed.

Lemma OnClientDeleted_invariant e s child_id route_id s' :
  scheduler_invariant s ->
  ResourceScheduler.OnClientDeleted e s child_id route_id = Some s' ->
  scheduler_invariant s'.
Proof.
  intros (G1 & G2 & G3 & G4 & G5 & G6).
  unfold ResourceScheduler.OnClientDeleted.
  set (k := ResourceScheduler.MakeClientId child_id route_id).
  destruct (ResourceScheduler.client_map_ s !! k) as [c |] eqn:Hk;
    [| discriminate].
  destruct (Client.StartAndRemoveAllRequests (ResourceScheduler.context e s) c
              (ResourceScheduler.store s))
    as [[[c' st'] U] |] eqn:Hall; [| discriminate].
  intros [= <-].
  destruct (StartAndRemoveAllRequests_invariant _ k c _ c' st' U
              (G1 k c Hk) G2 Hall) as (Htouch & Hno & Hclear & HU).
  set (st2 := {| requests := requests st' |}).
  assert (Hother : forall k' c'',
             delete k (ResourceScheduler.client_map_ s) !! k' = Some c'' ->
             k' <> k /\ client_invariant k' c'' st').
  { intros k' c'' Hk'. destruct (decide (k' = k)) as [-> | Hne].
    - by rewrite lookup_delete_eq in Hk'.
    - split; [exact Hne |]. rewrite lookup_delete_ne in Hk' by done.
      by apply (client_invariant_other k k' c'' (ResourceScheduler.store s));
        [| apply G1 |]. }
  split; [| split; [| split; [| split; [| split]]]];
    cbn [ResourceScheduler.with_client_map ResourceScheduler.with_store
         ResourceScheduler.with_unowned_requests ResourceScheduler.store
         ResourceScheduler.client_map_ ResourceScheduler.unowned_requests_];
    fold st2.
  - intros k' c'' Hk'. destruct (Hother k' c'' Hk') as [_ Hinv]. exact Hinv.
  - exact Hno.
  - intros p Hif. change (has_attributes st' kAttributeInFlight p = true) in Hif.
    change (deref st2 p) with (deref st' p).
    destruct (decide (client_id_ (deref st' p) = k)) as [E | Hne].
    + by rewrite (Hclear p E) in Hif.
    + rewrite lookup_delete_ne by (intros E; by apply Hne).
      destruct Htouch as (_ & Hcid & Hattr). rewrite Hcid. apply G3.
      rewrite <- Hif. symmetry. apply has_attributes_eq.
      apply Hattr. by rewrite <- Hcid.
  - intros p k' c'' Hp Hk'. destruct (Hother k' c'' Hk') as [Hne Hinv].
    apply elem_of_union in Hp as [Hp | Hp].
    + intros Hin. destruct Hinv as (_ & _ & _ & _ & Hd & _).
      destruct (Hd p Hin) as [_ Hid]. destruct (HU p Hp) as [_ Hid'].
      apply Hne. by rewrite <- Hid, <- Hid'.
    + rewrite lookup_delete_ne in Hk' by done. by apply (G4 p k' c'').
  - apply union_subseteq. split.
    + intros p Hp. by apply HU.
    + transitivity (dom (requests (ResourceScheduler.store s))); [exact G5 |].
      apply Htouch.
  - intros p k' c'' Hk' Hp. destruct (Hother k' c'' Hk') as [Hne _].
    rewrite lookup_delete_ne in Hk' by done. by apply (G6 p k' c'').
Qed.

Lemma ReprioritizeRequest_invariant LOAD_IGNORE_LIMITS e s u new_priority
    new_intra_priority_value s' :
  scheduler_invariant s ->
  ResourceScheduler.ReprioritizeRequest LOAD_IGNORE_LIMITS e s u new_priority
    new_intra_priority_value = Some s' ->
  scheduler_invariant s'.
Proof.
  intros Hs. pose proof Hs as (G1 & G2 & G3 & G4 & G5 & G6).
  unfold ResourceScheduler.ReprioritizeRequest. cbv zeta.
  destruct (negb _); [by intros [= <-] |].
  destruct (net.user_data _) as [h |].
  - destruct (params_eq _ _); [by intros [= <-] |].
    set (k := client_id_ (deref (ResourceScheduler.store s) h)).
    destruct (ResourceScheduler.client_map_ s !! k) as [c |] eqn:Hk.
    + destruct (Client.ReprioritizeRequest _ c _ h _ _)
        as [[c' st'] |] eqn:Hrep; [| discriminate].
      intros [= <-].
      apply (scheduler_invariant_update s k c (tracked c) c' st' Hs Hk).
      * by apply (Client_ReprioritizeRequest_invariant _ k c _ h _ _ c' st'
                    (G1 k c Hk) G2 eq_refl Hrep).
      * intros p Hp. split; [| by apply (G6 p k c)].
        intros Hin. by apply (G4 p k c).
    + intros [= <-]. apply scheduler_invariant_store; [exact Hs | |].
      * match goal with
        | |- _ ⊆ dom (requests (store_request ?st0 _ _)) =>
            apply (store_request_dom st0)
        end.
      * intros p. destruct (decide (h = p)) as [-> | Hne].
        -- rewrite deref_store_request. by split.
        -- rewrite deref_store_request_ne by done. by split.
  - intros [= <-]. by apply scheduler_invariant_store.
Qed.

Lemma scheduler_invariant_LoadAny cx s k c c1 trigger c' st' :
  scheduler_invariant s ->
  ResourceScheduler.client_map_ s !! k = Some c ->
  Client.pending_requests_ c1 = Client.pending_requests_ c ->
  Client.in_flight_requests_ c1 = Client.in_flight_requests_ c ->
  Client.in_flight_delayable_count_ c1 = Client.in_flight_delayable_count_ c ->
  Client.total_layout_blocking_count_ c1 = Client.total_layout_blocking_count_ c ->
  Client.LoadAnyStartablePendingRequests cx c1 (ResourceScheduler.store s)
    trigger = Some (c', st') ->
  scheduler_invariant (update_client s k c' st').
Proof.
  intros Hs Hk E1 E2 E3 E4 Hload.
  pose proof Hs as (G1 & G2 & G3 & G4 & G5 & G6).
  apply (scheduler_invariant_update s k c (tracked c1) c' st' Hs Hk).
  - apply (LoadAnyStartablePendingRequests_invariant cx k c1 _ trigger c' st');
      [| exact G2 | exact Hload].
    by apply (client_invariant_members k c); [| | | | apply G1].
  - intros p Hp.
    assert (Hc : p ∈ tracked c)
      by (unfold tracked in *; by rewrite <- E1, <- E2).
    split; [| by apply (G6 p k c)]. intros Hin. by apply (G4 p k c).
Qed.

Lemma fire_clients_invariant e ids : forall s s',
  scheduler_invariant s ->
  ResourceScheduler.fire_clients e s ids = Some s' ->
  scheduler_invariant s'.
Proof.
  induction ids as [| k ids IH]; intros s s' Hs; simpl.
  - by intros [= <-].
  - destruct (ResourceScheduler.client_map_ s !! k) as [c |] eqn:Hk;
      [| by apply IH].
    unfold Client.OnLongQueuedRequestsDispatchTimerFired.
    destruct (Client.LoadAnyStartablePendingRequests _ c _ _)
      as [[c' st'] |] eqn:Hload; [| discriminate].
    apply IH.
    refine (scheduler_invariant_LoadAny _ s k c _ _ c' st' Hs Hk _ _ _ _ Hload);
      reflexivity.
Qed.

Lemma OnLongQueuedRequestsDispatchTimerFired_invariant e s s' :
  scheduler_invariant s ->
  ResourceScheduler.OnLongQueuedRequestsDispatchTimerFired e s = Some s' ->
  scheduler_invariant s'.
Proof.
  intros Hs. unfold ResourceScheduler.OnLongQueuedRequestsDispatchTimerFired.
  destruct (ResourceScheduler.fire_clients e _ _) as [s1 |] eqn:Hfire;
    [| discriminate].
  intros [= <-]. apply scheduler_invariant_timer.
  apply (fire_clients_invariant e _ _ s1) in Hfire; [exact Hfire |].
  exact Hs.
Qed.

Lemma RunTask_invariant e s s' :
  scheduler_invariant s ->
  ResourceScheduler.RunTask e s = Some s' ->
  scheduler_invariant s'.
Proof.
  intros Hs. unfold ResourceScheduler.RunTask.
  destruct (posted_tasks (ResourceScheduler.store s)) as [| task rest];
    [by intros [= <-] |].
  set (st := {| requests := requests (ResourceScheduler.store s) |}).
  assert (Hs1 : scheduler_invariant (ResourceScheduler.with_store s st))
    by (by apply scheduler_invariant_store).
  destruct task as [request | this trigger].
  - destruct (bool_decide _); intros [= <-]; [| exact Hs1].
    apply (scheduler_invariant_store (ResourceScheduler.with_store s st));
      [exact Hs1 | apply Start_dom |].
    intros p. destruct (Start_core st request START_SYNC p) as [Hcore _].
    destruct (core_fields _ _ Hcore) as (? & _ & _ & ? & _). by split.
  - destruct (filter _ _) as [| [k c] l] eqn:Hfilter; [by intros [= <-] |].
    assert (Hk : ResourceScheduler.client_map_ s !! k = Some c).
    { apply elem_of_map_to_list.
      assert (Hin : (k, c) ∈ (k, c) :: l) by (apply elem_of_cons; by left).
      rewrite <- Hfilter in Hin.
      by apply list_elem_of_filter in Hin as [_ Hin]. }
    destruct (Client.LoadAnyStartablePendingRequests _ c st trigger)
      as [[c' st'] |] eqn:Hload; [| discriminate].
    intros [= <-].
    refine (scheduler_invariant_LoadAny _ (ResourceScheduler.with_store s st)
              k c _ _ c' st' Hs1 Hk _ _ _ _ Hload); reflexivity.
Qed.

Lemma SetResourceSchedulerParamsManagerForTests_invariant e s manager :
  scheduler_invariant s ->
  scheduler_invariant
    (ResourceScheduler.SetResourceSchedulerParamsManagerForTests e s manager).
Proof.
  intros (G1 & G2 & G3 & G4 & G5 & G6).
  unfold ResourceScheduler.SetResourceSchedulerParamsManagerForTests.
  split; [| split; [| split; [| split; [| split]]]];
    cbn [ResourceScheduler.with_client_map ResourceScheduler.with_params_manager
         ResourceScheduler.store ResourceScheduler.client_map_
         ResourceScheduler.unowned_requests_].
  - intros k c' Hk. rewrite lookup_fmap in Hk.
    destruct (ResourceScheduler.client_map_ s !! k) as [c |] eqn:Hk0;
      [| discriminate].
    injection Hk as <-.
    by apply (client_invariant_members k c); [| | | | apply G1].
  - exact G2.
  - intros p Hif. rewrite lookup_fmap. apply fmap_is_Some. by apply G3.
  - intros p k c' Hp Hk. rewrite lookup_fmap in Hk.
    destruct (ResourceScheduler.client_map_ s !! k) as [c |] eqn:Hk0;
      [| discriminate].
    injection Hk as <-. by apply (G4 p k c).
  - exact G5.
  - intros p k c' Hk Hp. rewrite lookup_fmap in Hk.
    destruct (ResourceScheduler.client_map_ s !! k) as [c |] eqn:Hk0;
      [| discriminate].
    injection Hk as <-. by apply (G6 p k c).
Qed.

(** Every step keeps the invariant, so that it holds of every state the
    scheduler reaches. *)
Lemma step_invariant LOAD_IGNORE_LIMITS kBrowserProcessId s s' :
  scheduler_invariant s ->
  step LOAD_IGNORE_LIMITS kBrowserProcessId s s' ->
  scheduler_invariant s'.
Proof.
  intros Hs Hstep.
  destruct Hstep as
    [u r Hu Hr | u r r' Hu Hr | e child_id route_id is_async u r handle s' Hu Hr
       Hfresh Hbound Hsched | handle Hdom | e handle s' Hdom Hdestroy
     | e child_id route_id nqe this Hfree Hthis | e child_id route_id s' Hdel
     | e u new_priority new_intra s' Hu Hrep | e s' Hfire | e s' Hdispatch
     | e s' Hrun
     | e k c ect c' st' Hk Hnqe Hcall | e k c count c' st' Hk Hnqe Hcount Hcall
     | e k c c' st' Hk Htimer Hcall | e manager].
  - by apply scheduler_invariant_store.
  - by apply scheduler_invariant_store.
  - by apply (ScheduleRequest_invariant e s child_id route_id is_async u handle).
  - apply scheduler_invariant_store; [exact Hs | apply store_request_dom |].
    intros p. unfold WillStartRequest. cbn [fst].
    destruct (decide (handle = p)) as [-> | Hne].
    + rewrite deref_store_request. by split.
    + rewrite deref_store_request_ne by done. by split.
  - by apply (DestroyRequest_invariant e s handle).
  - by apply OnClientCreated_invariant.
  - by apply (OnClientDeleted_invariant e s child_id route_id).
  - by apply (ReprioritizeRequest_invariant LOAD_IGNORE_LIMITS e s u
                new_priority new_intra).
  - by apply (OnLongQueuedRequestsDispatchTimerFired_invariant e s).
  - by apply (OnLongQueuedRequestsDispatchTimerFired_invariant e
                (ResourceScheduler.with_timer s false)).
  - by apply (RunTask_invariant e s).
  - unfold Client.OnEffectiveConnectionTypeChanged in Hcall.
    destruct (bool_decide _).
    + injection Hcall as <- <-. pose proof Hs as (G1 & G2 & G3 & G4 & G5 & G6).
      apply (scheduler_invariant_update s k c (tracked c) c _);
        [exact Hs | exact Hk | by apply preserved_start; [apply G1 |] |].
      intros p Hp. split; [| by apply (G6 p k c)].
      intros Hin. by apply (G4 p k c).
    + refine (scheduler_invariant_LoadAny _ s k c _ _ c' st' Hs Hk _ _ _ _
                Hcall); reflexivity.
  - unfold Client.OnPeerToPeerConnectionsCountChange in Hcall.
    destruct (_ =? count).
    + injection Hcall as <- <-. pose proof Hs as (G1 & G2 & G3 & G4 & G5 & G6).
      apply (scheduler_invariant_update s k c (tracked c) c _);
        [exact Hs | exact Hk | by apply preserved_start; [apply G1 |] |].
      intros p Hp. split; [| by apply (G6 p k c)].
      intros Hin. by apply (G4 p k c).
    + refine (scheduler_invariant_LoadAny _ s k c _ _ c' st' Hs Hk _ _ _ _
                Hcall); reflexivity.
  - unfold Client.OnP2PConnectionsCountEndedTimerFired in Hcall.
    refine (scheduler_invariant_LoadAny _ s k c _ _ c' st' Hs Hk _ _ _ _
              Hcall); reflexivity.
  - by apply SetResourceSchedulerParamsManagerForTests_invariant.
Qed.

Lemma reachable_invariant LOAD_IGNORE_LIMITS kBrowserProcessId s :
  reachable LOAD_IGNORE_LIMITS kBrowserProcessId s -> scheduler_invariant s.
Proof.
  induction 1 as [enabled manager | s s' _ IH Hstep].
  - apply scheduler_invariant_new.
  - by apply (step_invariant LOAD_IGNORE_LIMITS kBrowserProcessId s s').
Qed.

(** *** The counters *)

(** A set of [n] or fewer addresses has [n] or fewer elements. *)
Lemma size_bounded (n : nat) : forall X : gset positive,
  (forall p, p ∈ X -> (Pos.to_nat p <= n)%nat) -> (size X <= n)%nat.
Proof.
  induction n as [| n IH]; intros X HX.
  - destruct (set_choose_or_empty X) as [[p Hp] | Hempty].
    + specialize (HX p Hp). lia.
    + apply size_empty_iff in Hempty. lia.
  - set (q := Pos.of_nat (S n)).
    assert (Hsub : X ⊆ X ∖ {[q]} ∪ {[q]}).
    { intros p Hp. rewrite elem_of_union, elem_of_difference, elem_of_singleton.
      destruct (decide (p = q)); [by right | by left]. }
    apply subseteq_size in Hsub.
    rewrite size_union, size_singleton in Hsub.
    + assert (size (X ∖ {[q]}) <= n)%nat; [| lia].
      apply IH. intros p Hp.
      apply elem_of_difference in Hp as [Hp Hne].
      rewrite elem_of_singleton in Hne. specialize (HX p Hp).
      assert (Pos.to_nat p <> S n); [| lia].
      intros E. apply Hne. unfold q. rewrite <- E. by rewrite Pos2Nat.id.
    + intros p Hp Hq. apply elem_of_difference in Hp as [_ Hp]. contradiction.
Qed.

Lemma size_addresses (X : gset positive) :
  (forall p, p ∈ X -> Z.pos p <= size_t_max) ->
  Z.of_nat (size X) <= size_t_max.
Proof.
  intros HX.
  assert (0 <= size_t_max) by (unfold size_t_max; lia).
  assert (size X <= Z.to_nat size_t_max)%nat; [| lia].
  apply size_bounded. intros p Hp. specialize (HX p Hp). lia.
Qed.

Lemma count_matching_none st a l : forall n,
  (forall p, p ∈ l -> has_attributes st a p = false) ->
  Client.count_matching st a l n = n.
Proof.
  unfold Client.count_matching.
  induction l as [| p l IH]; intros n Hl; simpl; [reflexivity |].
  assert (Hp : RequestAttributesAreSet (attributes_ (deref st p)) a = false).
  { apply (Hl p). apply elem_of_cons. by left. }
  rewrite Hp. apply IH. intros q Hq. apply Hl. apply elem_of_cons. by right.
Qed.

Lemma counters_agree_intro k c st :
  client_invariant k c st ->
  no_layout_blocking st ->
  (forall p, p ∈ tracked c -> Z.pos p <= size_t_max) ->
  counters_agree c st
  /\ Client.in_flight_delayable_count_ c
     = Client.CountRequestsWithAttributes c st kAttributeInFlightDelayable None
  /\ Client.total_layout_blocking_count_ c
     = Client.CountRequestsWithAttributes c st kAttributeLayoutBlocking None.
Proof.
  intros Hinv Hno Hbound.
  pose proof Hinv as (Ha & Hb & Hc & Hc' & Hd & Hf & Hg).
  assert (Htracked :
            count_with_attributes st kAttributeInFlightDelayable (tracked c)
            = count_with_attributes st kAttributeInFlightDelayable
                (Client.in_flight_requests_ c)).
  { unfold tracked. apply count_with_attributes_none.
    intros p Hp _. apply elem_of_list_to_set in Hp.
    pose proof (client_invariant_pending k c st p Hinv Hp) as Hnif.
    destruct (has_attributes st kAttributeInFlightDelayable p) eqn:E;
      [| reflexivity].
    apply in_flight_delayable_in_flight in E.
    unfold has_attributes in Hnif. by rewrite E in Hnif. }
  split; [split |]; [| | split].
  - rewrite Htracked, Ha. apply wrap_size_t_small.
    rewrite <- Htracked.
    pose proof (count_with_attributes_bound st kAttributeInFlightDelayable
                  (tracked c)) as [Hlo Hhi].
    pose proof (size_addresses (tracked c) Hbound). lia.
  - rewrite Hb. symmetry. apply count_with_attributes_zero.
    intros p _. apply Hno.
  - unfold Client.CountRequestsWithAttributes.
    change (negb (RequestAttributesAreSet kAttributeInFlightDelayable
                    kAttributeInFlight)) with false.
    cbv iota. rewrite count_matching_elements. exact Ha.
  - unfold Client.CountRequestsWithAttributes.
    change (negb (RequestAttributesAreSet kAttributeLayoutBlocking
                    kAttributeInFlight)) with true.
    cbv iota.
    rewrite !count_matching_none; [exact Hb | |];
      intros p _; apply Hno.
Qed.

Lemma preserved_counters k T st c' st' :
  preserved k T st c' st' ->
  (forall p, p ∈ T -> Z.pos p <= size_t_max) ->
  counters_agree c' st'.
Proof.
  intros (Hinv & _ & Hno & HT) Hbound.
  apply (counters_agree_intro k c' st' Hinv Hno).
  intros p Hp. apply Hbound. by apply HT.
Qed.

Lemma client_invariant_requests k c st st' :
  requests st' = requests st ->
  client_invariant k c st /\ no_layout_blocking st ->
  client_invariant k c st' /\ no_layout_blocking st'.
Proof.
  intros E [Hinv Hno].
  assert (Hderef : forall p, deref st' p = deref st p).
  { intros p. unfold deref. by rewrite E. }
  split.
  - apply (client_invariant_frame k c st); [exact Hinv | |].
    + intros p Hp. rewrite E, Hderef. split; [| by split].
      destruct Hinv as (_ & _ & _ & _ & Hd & _). by apply Hd.
    + intros p. unfold has_attributes. by rewrite Hderef.
  - intros p. unfold has_attributes. rewrite Hderef. apply Hno.
Qed.

Lemma client_invariant_alloc k c st st' handle r :
  client_invariant k c st ->
  no_layout_blocking st ->
  requests st !! handle = None ->
  requests st' = <[handle := r]> (requests st) ->
  attributes_ r = kAttributeNone ->
  client_invariant k c st'
  /\ no_layout_blocking st'
  /\ handle ∈ dom (requests st')
  /\ deref st' handle = r
  /\ handle ∉ tracked c.
Proof.
  intros Hinv Hno Hfresh E Hr.
  pose proof Hinv as (_ & _ & _ & _ & Hd & _).
  assert (Hnt : handle ∉ tracked c).
  { intros Hin. apply not_elem_of_dom in Hfresh. apply Hfresh. by apply Hd. }
  assert (Hnew : deref st' handle = r).
  { unfold deref. by rewrite E, lookup_total_insert_eq. }
  assert (Hold : forall p, p <> handle -> deref st' p = deref st p).
  { intros p Hp. unfold deref. by rewrite E, lookup_total_insert_ne. }
  assert (Hnone : forall m, m <> 0 -> has_attributes st' m handle = false).
  { intros m Hm. unfold has_attributes.
    rewrite Hnew, Hr. by apply none_has_no_attributes. }
  split; [| split; [| split; [| by split]]].
  - apply (client_invariant_frame k c st); [exact Hinv | |].
    + intros p Hp.
      assert (p <> handle) as Hne by (intros ->; contradiction).
      rewrite (Hold p Hne). split; [| by split].
      rewrite E, dom_insert. apply elem_of_union_r. by apply Hd.
    + intros p Hid Hif. destruct (decide (p = handle)) as [-> | Hne].
      * by rewrite Hnone in Hif.
      * unfold has_attributes in *. rewrite (Hold p Hne) in Hid, Hif.
        by split.
  - intros p. destruct (decide (p = handle)) as [-> | Hne].
    + by apply Hnone.
    + unfold has_attributes. rewrite (Hold p Hne). apply Hno.
  - rewrite E, dom_insert. apply elem_of_union_l. by apply elem_of_singleton.
Qed.

Lemma StartAndRemoveAllRequests_counters cx k c st c' st' unowned_requests :
  client_invariant k c st ->
  no_layout_blocking st ->
  Client.StartAndRemoveAllRequests cx c st = Some (c', st', unowned_requests) ->
  counters_agree c' st' /\ tracked c' = ∅.
Proof.
  intros Hinv Hno. unfold Client.StartAndRemoveAllRequests.
  destruct (Client.StartAllPending cx _ c st) as [[c1 st1] |] eqn:Hstart;
    [| discriminate].
  destruct (StartAllPending_invariant cx k _ c st c1 st1 Hinv Hno Hstart)
    as [_ Hempty].
  intros [= <- <- <-].
  assert (Htr : tracked (Client.ClearInFlightRequests c1) = ∅).
  { unfold tracked, Client.ClearInFlightRequests.
    cbn [Client.with_counts Client.with_in_flight_requests
         Client.pending_requests_ Client.in_flight_requests_].
    rewrite Hempty. cbn [list_to_set foldr]. by rewrite (left_id_L ∅ (∪)). }
  split; [| exact Htr]. unfold counters_agree. rewrite Htr.
  rewrite !count_with_attributes_zero;
    [by split | |]; intros p Hp; by apply not_elem_of_empty in Hp.
Qed.

(** The example scheduler is reached: the client is registered, and the two
    requests are created and scheduled one after the other. *)
Lemma two_in_flight_reachable :
  reachable Example.LOAD_IGNORE_LIMITS Example.kBrowserProcessId
    Example.two_in_flight_scheduler.
Proof.
  apply (reachable_step _ _
           (Example.create_url_request Example.one_in_flight_scheduler 2
              (Example.request_to "a.test" net.HIGHEST 0))).
  - apply reachable_step with (s := Example.one_in_flight_scheduler).
    + apply (reachable_step _ _
               (Example.create_url_request Example.client_registered 1
                  (Example.request_to "a.test" net.LOWEST 0))).
      * apply reachable_step with (s := Example.client_registered).
        -- apply reachable_step
             with (s := ResourceScheduler.new true
                          (Example.manager
                             Client.ParamsForNetworkQuality_default)).
           ++ apply reachable_new.
           ++ apply step_OnClientCreated; [vm_compute; reflexivity |].
              intros k c H. vm_compute in H. discriminate.
        -- apply step_url_request_created; vm_compute; reflexivity.
      * apply (step_ScheduleRequest _ _ _ (Example.environment false) 1 1
                 true 1 (Example.request_to "a.test" net.LOWEST 0) 101);
          vm_compute; first [reflexivity | discriminate].
    + apply step_url_request_created; vm_compute; reflexivity.
  - apply (step_ScheduleRequest _ _ _ (Example.environment false) 1 1
             true 2 (Example.request_to "a.test" net.HIGHEST 0) 102);
      vm_compute; first [reflexivity | discriminate].
Defined.

(** C10. In every state the scheduler reaches from a new scheduler, the
    cached counter [in_flight_delayable_count_] of every registered client
    is the number of the requests the client tracks (in flight or pending)
    whose attributes include both InFlight and Delayable, and its cached
    counter [total_layout_blocking_count_] is the number of tracked requests
    whose attributes include LayoutBlocking; both are what
    [CountRequestsWithAttributes] counts. The same holds of the client that
    each method of the client leaves behind: [ScheduleRequest] on a handle
    that has just been allocated, [RemoveRequest] and [ReprioritizeRequest]
    on a handle that carries the client's id, the admission pass
    [LoadAnyStartablePendingRequests], and the teardown
    [StartAndRemoveAllRequests]; there the store [st] has the handles of
    the scheduler's store and may differ in everything else. *)
Theorem C10_counters_agree LOAD_IGNORE_LIMITS kBrowserProcessId s client_id c :
  reachable LOAD_IGNORE_LIMITS kBrowserProcessId s ->
  ResourceScheduler.client_map_ s !! client_id = Some c ->
  (counters_agree c (ResourceScheduler.store s)
   /\ Client.in_flight_delayable_count_ c
      = Client.CountRequestsWithAttributes c (ResourceScheduler.store s)
          kAttributeInFlightDelayable None
   /\ Client.total_layout_blocking_count_ c
      = Client.CountRequestsWithAttributes c (ResourceScheduler.store s)
          kAttributeLayoutBlocking None)
  /\ (forall cx st handle r c' st',
        requests (ResourceScheduler.store s) !! handle = None ->
        Z.pos handle <= size_t_max ->
        requests st = <[handle := r]> (requests (ResourceScheduler.store s)) ->
        client_id_ r = client_id ->
        attributes_ r = kAttributeNone ->
        Client.ScheduleRequest cx c st handle = Some (c', st') ->
        counters_agree c' st')
  /\ (forall cx st request c' st',
        requests st = requests (ResourceScheduler.store s) ->
        request ∈ dom (requests st) ->
        client_id_ (deref st request) = client_id ->
        Client.RemoveRequest cx c st request = Some (c', st') ->
        counters_agree c' st')
  /\ (forall cx st request old_priority_params new_priority_params c' st',
        requests st = requests (ResourceScheduler.store s) ->
        client_id_ (deref st request) = client_id ->
        Client.ReprioritizeRequest cx c st request old_priority_params
          new_priority_params = Some (c', st') ->
        counters_agree c' st')
  /\ (forall cx st trigger c' st',
        requests st = requests (ResourceScheduler.store s) ->
        Client.LoadAnyStartablePendingRequests cx c st trigger
        = Some (c', st') ->
        counters_agree c' st')
  /\ (forall cx st c' st' unowned_requests,
        requests st = requests (ResourceScheduler.store s) ->
        Client.StartAndRemoveAllRequests cx c st
        = Some (c', st', unowned_requests) ->
        counters_agree c' st').
Proof.
  intros Hreach Hk.
  destruct (reachable_invariant _ _ s Hreach) as (G1 & G2 & _ & _ & _ & G6).
  pose proof (G1 client_id c Hk) as Hinv.
  assert (Hbound : forall p, p ∈ tracked c -> Z.pos p <= size_t_max)
    by (intros p; by apply (G6 p client_id c)).
  assert (Hst : forall st,
             requests st = requests (ResourceScheduler.store s) ->
             client_invariant client_id c st /\ no_layout_blocking st).
  { intros st E.
    by apply (client_invariant_requests client_id c (ResourceScheduler.store s)). }
  split; [by apply (counters_agree_intro client_id) |].
  split; [| split; [| split; [| split]]].
  - intros cx st handle r c' st' Hfresh Hhandle E Hid Hr Hcall.
    destruct (client_invariant_alloc client_id c (ResourceScheduler.store s) st
                handle r Hinv G2 Hfresh E Hr)
      as (Hinv1 & Hno1 & Hdom & Hderef & Hnt).
    apply (preserved_counters client_id ({[handle]} ∪ tracked c) st c' st').
    + apply (Client_ScheduleRequest_invariant cx client_id c st handle c' st');
        [exact Hinv1 | exact Hno1 | exact Hdom | by rewrite Hderef | exact Hnt
        | exact Hcall].
    + intros p Hp. apply elem_of_union in Hp as [Hp | Hp].
      * by apply elem_of_singleton in Hp as ->.
      * by apply Hbound.
  - intros cx st request c' st' E Hdom Hid Hcall.
    destruct (Hst st E) as [Hinv1 Hno1].
    apply (preserved_counters client_id (tracked c ∖ {[request]}) st c' st').
    + by apply (Client_RemoveRequest_invariant cx client_id c st request).
    + intros p Hp. apply elem_of_difference in Hp as [Hp _]. by apply Hbound.
  - intros cx st request old_priority_params new_priority_params c' st' E Hid
      Hcall.
    destruct (Hst st E) as [Hinv1 Hno1].
    apply (preserved_counters client_id (tracked c) st c' st');
      [| exact Hbound].
    by apply (Client_ReprioritizeRequest_invariant cx client_id c st request
                old_priority_params new_priority_params).
  - intros cx st trigger c' st' E Hcall.
    destruct (Hst st E) as [Hinv1 Hno1].
    apply (preserved_counters client_id (tracked c) st c' st');
      [| exact Hbound].
    by apply (LoadAnyStartablePendingRequests_invariant cx client_id c st
                trigger).
  - intros cx st c' st' unowned_requests E Hcall.
    destruct (Hst st E) as [Hinv1 Hno1].
    by destruct (StartAndRemoveAllRequests_counters cx client_id c st c' st'
                   unowned_requests Hinv1 Hno1 Hcall).
Qed.

Lemma C10_counters_agree_witness :
  reachable Example.LOAD_IGNORE_LIMITS Example.kBrowserProcessId
    Example.two_in_flight_scheduler
  /\ ResourceScheduler.client_map_ Example.two_in_flight_scheduler
     !! ResourceScheduler.MakeClientId 1 1
     = Some Example.two_in_flight_client
  /\ Client.in_flight_requests_ Example.two_in_flight_client
     = {[101%positive; 102%positive]}
  /\ Client.in_flight_delayable_count_ Example.two_in_flight_client = 1
  /\ counters_agree Example.two_in_flight_client
       (ResourceScheduler.store Example.two_in_flight_scheduler).
Proof.
  assert (Hk : ResourceScheduler.client_map_ Example.two_in_flight_scheduler
               !! ResourceScheduler.MakeClientId 1 1
               = Some Example.two_in_flight_client)
    by (vm_compute; reflexivity).
  split; [exact two_in_flight_reachable |]. split; [exact Hk |].
  split; [vm_compute; reflexivity |]. split; [vm_compute; reflexivity |].
  exact (proj1 (proj1 (C10_counters_agree _ _ _ _ _ two_in_flight_reachable
                         Hk))).
Defined.

(** ** C4: the layout-blocking phase *)



(** ** The passes return *)

Lemma ShouldThrottleBrowserInitiatedRequestDueToP2PConnections_total cx c st
    request :
  checks_pass cx c ->
  is_Some
    (Client.ShouldThrottleBrowserInitiatedRequestDueToP2PConnections cx c st
       request).
Proof.
  intros [Hp2p _].
  unfold Client.ShouldThrottleBrowserInitiatedRequestDueToP2PConnections.
  cbv zeta.
  destruct (negb _); [by eexists |].
  destruct (if Client.p2p_connections_count_ c =? 0 then _ else _);
    [by eexists |].
  destruct (_ || _); [by eexists |].
  destruct (bool_decide _); [by eexists |].
  assert (Hannotation :
            is_Some
              (if negb
                    (CanThrottleNetworkTrafficAnnotationHash
                       (resource_scheduler_params_manager_ cx)
                       (net.traffic_annotation_hash (url_request st request)))
               then Some false else Some true))
    by (destruct (negb _); by eexists).
  destruct (Client.p2p_connections_count_ c >? 0) eqn:Hcount;
    [| exact Hannotation].
  destruct Hp2p as [[active ->] [max_wait ->]]; [lia |].
  destruct (_ >? max_wait); [by eexists | exact Hannotation].
Qed.

Lemma IsNonDelayableRequestAnticipated_total cx c :
  checks_pass cx c -> is_Some (Client.IsNonDelayableRequestAnticipated cx c).
Proof.
  intros [_ Hestimator]. unfold Client.IsNonDelayableRequestAnticipated.
  destruct (http_rtt_multiplier_for_proactive_throttling _) as [m |];
    [| by eexists].
  rewrite Hestimator by (by eexists). cbn [negb].
  destruct (double_le _ _); [by eexists |].
  destruct (Client.last_non_delayable_request_start_ c); [| by eexists].
  destruct (GetHttpRTT _); [| by eexists].
  cbv zeta. destruct (_ >=? _); by eexists.
Qed.

Lemma ShouldStartRequest_total cx c st request :
  checks_pass cx c -> is_Some (Client.ShouldStartRequest cx c st request).
Proof.
  intros Hchecks. unfold Client.ShouldStartRequest. cbv zeta.
  destruct (negb (enabled cx)); [by eexists |].
  destruct (Client.is_browser_client_ c).
  { destruct (ShouldThrottleBrowserInitiatedRequestDueToP2PConnections_total
                cx c st request Hchecks) as [[|] ->]; by eexists. }
  destruct (negb (is_async_ _)); [by eexists |].
  destruct (negb (net.SchemeIsHTTPOrHTTPS _)); [by eexists |].
  destruct (match max_queuing_time _ with Some _ => _ | None => _ end);
    [by eexists |].
  destruct (if negb _ then _ else false); [by eexists |].
  destruct (negb (RequestAttributesAreSet _ _)); [by eexists |].
  destruct (_ >=? max_delayable_requests _); [by eexists |].
  destruct (Client.ReachedMaxRequestsPerHostPerClient _ _ _ _); [by eexists |].
  destruct (IsNonDelayableRequestAnticipated_total cx c Hchecks) as [b ->].
  destruct (negb (_ =? 0)).
  - destruct (_ >? kInFlightNonDelayableRequestCountPerClientThreshold);
      [by eexists |].
    destruct (_ && _); [by eexists |]. destruct b; by eexists.
  - destruct b; by eexists.
Qed.

Lemma checks_pass_StartRequest cx c st request start_mode trigger q :
  checks_pass cx c ->
  checks_pass cx
    (Client.StartRequest cx (Client.with_pending_requests c q) st request
       start_mode trigger).1
  /\ Client.pending_requests_
       (Client.StartRequest cx (Client.with_pending_requests c q) st request
          start_mode trigger).1 = q.
Proof.
  intros Hchecks.
  destruct (StartRequest_client cx (Client.with_pending_requests c q) st
              request start_mode trigger) as (d & l & start & ->).
  by split.
Qed.

(** The restarts of the pass are never exhausted: the pass returns unless a
    check inside [ShouldStartRequest] fails. *)
Lemma LoadLoop_total cx trigger n : forall c st,
  checks_pass cx c ->
  (length (RequestQueue.queue_ (Client.pending_requests_ c)) <= n)%nat ->
  forall request_iter,
    request_iter ⊆ RequestQueue.queue_ (Client.pending_requests_ c) ->
    is_Some (Client.LoadLoop cx n trigger c st request_iter).
Proof.
  induction n as [| n IHn]; intros c st Hchecks Hlen request_iter;
    induction request_iter as [| request next IH]; intros Hsub;
    try (rewrite LoadLoop_nil; by eexists).
  - exfalso.
    destruct (RequestQueue.queue_ (Client.pending_requests_ c)) as [| x l];
      [| simpl in Hlen; lia].
    apply (not_elem_of_nil request). apply Hsub. apply elem_of_cons. by left.
  - rewrite LoadLoop_cons.
    assert (Hin : request ∈ RequestQueue.queue_ (Client.pending_requests_ c))
      by (apply Hsub; apply elem_of_cons; by left).
    destruct (ShouldStartRequest_total cx c st request Hchecks) as [[| |] ->].
    + by eexists.
    + apply IH. intros x Hx. apply Hsub. apply elem_of_cons. by right.
    + rewrite Erase_queued by (by apply bool_decide_eq_true).
      destruct (checks_pass_StartRequest cx c st request START_ASYNC trigger
                  {| RequestQueue.fifo_ordering_ids_ :=
                       RequestQueue.fifo_ordering_ids_
                         (Client.pending_requests_ c);
                     RequestQueue.queue_ :=
                       erase_node request
                         (RequestQueue.queue_ (Client.pending_requests_ c)) |}
                  Hchecks) as [Hchecks1 Hpending1].
      destruct (Client.StartRequest cx _ st request START_ASYNC trigger)
        as [c1 st1].
      cbn [fst] in Hchecks1, Hpending1.
      destruct (RequestQueue.queue_ (Client.pending_requests_ c1)) eqn:Hq1;
        [by eexists |].
      rewrite <- Hq1. apply IHn; [exact Hchecks1 | | done].
      rewrite Hpending1. cbn [RequestQueue.queue_].
      rewrite erase_node_length by exact Hin. lia.
Qed.

Lemma LoadAnyStartablePendingRequests_total cx c st trigger :
  checks_pass cx c ->
  is_Some (Client.LoadAnyStartablePendingRequests cx c st trigger).
Proof.
  intros Hchecks. unfold Client.LoadAnyStartablePendingRequests.
  by apply LoadLoop_total.
Qed.

(** The teardown returns: its rounds are never exhausted. *)
Lemma StartAllPending_total cx n : forall c st,
  (length (RequestQueue.queue_ (Client.pending_requests_ c)) <= n)%nat ->
  is_Some (Client.StartAllPending cx n c st).
Proof.
  induction n as [| n IHn]; intros c st Hlen; simpl;
    destruct (RequestQueue.queue_ (Client.pending_requests_ c))
      as [| request l] eqn:Hqueue;
    try (by eexists); try (simpl in Hlen; lia).
  rewrite Erase_queued
    by (apply bool_decide_eq_true; rewrite Hqueue; apply elem_of_cons; by left).
  destruct (StartRequest_client cx
              (Client.with_pending_requests c
                 {| RequestQueue.fifo_ordering_ids_ :=
                      RequestQueue.fifo_ordering_ids_
                        (Client.pending_requests_ c);
                    RequestQueue.queue_ :=
                      erase_node request
                        (RequestQueue.queue_ (Client.pending_requests_ c)) |})
              st request START_ASYNC CLIENT_KILL) as (d & l' & start & E).
  destruct (Client.StartRequest cx _ st request START_ASYNC CLIENT_KILL)
    as [c1 st1].
  cbn [fst] in E. apply IHn. rewrite E.
  cbn [Client.with_counts Client.with_in_flight_requests
       Client.with_last_non_delayable Client.with_pending_requests
       Client.pending_requests_ RequestQueue.queue_].
  rewrite erase_node_length
    by (rewrite Hqueue; apply elem_of_cons; by left).
  rewrite Hqueue. simpl in *. lia.
Qed.

Lemma StartAndRemoveAllRequests_total cx c st :
  is_Some (Client.StartAndRemoveAllRequests cx c st).
Proof.
  unfold Client.StartAndRemoveAllRequests.
  destruct (StartAllPending_total cx _ c st (le_n _)) as [[c1 st1] ->].
  by eexists.
Qed.

Lemma StartAllPending_empty cx n : forall c st c' st',
  Client.StartAllPending cx n c st = Some (c', st') ->
  RequestQueue.queue_ (Client.pending_requests_ c') = [].
Proof.
  induction n as [| n IHn]; intros c st c' st'; simpl;
    destruct (RequestQueue.queue_ (Client.pending_requests_ c))
      as [| request l] eqn:Hqueue;
    try discriminate; try (by intros [= <- <-]).
  destruct (RequestQueue.Erase _ request) as [q |]; [| discriminate].
  destruct (Client.StartRequest cx _ st request START_ASYNC CLIENT_KILL)
    as [c1 st1].
  apply IHn.
Qed.

(** * Further properties *)

(** X1. No code of this revision sets the LayoutBlocking attribute: in every
    state the scheduler reaches, no handle is marked layout-blocking and the
    layout-blocking counter of every registered client is 0, so that the
    layout-blocking guard of [ShouldStartRequest] is never the rule that
    decides. *)
Theorem X1_layout_blocking_never_set LOAD_IGNORE_LIMITS kBrowserProcessId s :
  reachable LOAD_IGNORE_LIMITS kBrowserProcessId s ->
  no_layout_blocking (ResourceScheduler.store s)
  /\ (forall client_id c,
        ResourceScheduler.client_map_ s !! client_id = Some c ->
        Client.total_layout_blocking_count_ c = 0).
Proof.
  intros Hreach.
  destruct (reachable_invariant _ _ s Hreach) as (G1 & G2 & _).
  split; [exact G2 |]. intros client_id c Hk.
  by destruct (G1 client_id c Hk) as (_ & Hb & _).
Qed.

Lemma X1_layout_blocking_never_set_witness :
  reachable Example.LOAD_IGNORE_LIMITS Example.kBrowserProcessId
    Example.two_in_flight_scheduler
  /\ has_attributes (ResourceScheduler.store Example.two_in_flight_scheduler)
       kAttributeLayoutBlocking 101 = false
  /\ Client.total_layout_blocking_count_ Example.two_in_flight_client = 0.
Proof.
  split; [exact two_in_flight_reachable |].
  destruct (X1_layout_blocking_never_set _ _ _ two_in_flight_reachable)
    as [Hno Hcount].
  split; [apply Hno |].
  apply (Hcount (ResourceScheduler.MakeClientId 1 1)).
  vm_compute. reflexivity.
Defined.

(** X2. The admission pass returns: when the checks inside
    [ShouldStartRequest] pass for the client (while P2P connections are
    counted their start is recorded and the maximum wait is configured, and
    an anticipation multiplier comes with an estimator to ask),
    [LoadAnyStartablePendingRequests] ends with a result, after at most as
    many starts as requests are pending. *)
Theorem X2_admission_pass_returns cx c st trigger :
  checks_pass cx c ->
  is_Some (Client.LoadAnyStartablePendingRequests cx c st trigger).
Proof.
  intros Hchecks. unfold Client.LoadAnyStartablePendingRequests.
  by apply LoadLoop_total.
Qed.

Lemma X2_admission_pass_returns_witness :
  checks_pass (Example.context false Client.ParamsForNetworkQuality_default)
    Example.lowest_client
  /\ is_Some
       (Client.LoadAnyStartablePendingRequests
          (Example.context false Client.ParamsForNetworkQuality_default)
          Example.lowest_client
          (ResourceScheduler.store Example.lowest_scheduler)
          COMPLETION_POST_BODY).
Proof.
  assert (Hchecks : checks_pass
                      (Example.context false
                         Client.ParamsForNetworkQuality_default)
                      Example.lowest_client).
  { split.
    - intros H. vm_compute in H. discriminate.
    - intros [m Hm]. vm_compute in Hm. discriminate. }
  split; [exact Hchecks |].
  exact (X2_admission_pass_returns _ _ _ _ Hchecks).
Defined.

(** ** Client ids *)

Lemma wrap_int64_small x : - 2 ^ 63 <= x < 2 ^ 63 -> wrap_int64 x = x.
Proof. intros H. unfold wrap_int64. rewrite Z.mod_small by lia. lia. Qed.

Lemma lor_route_nonneg child_id route_id :
  0 <= route_id < 2 ^ 31 ->
  Z.lor (child_id * 2 ^ 32) route_id = child_id * 2 ^ 32 + route_id.
Proof.
  intros H.
  assert (Hland : Z.land (child_id * 2 ^ 32) route_id = 0).
  { apply Z.bits_inj'. intros n Hn. rewrite Z.land_spec, Z.bits_0.
    destruct (Z.lt_ge_cases n 32) as [Hlt | Hge].
    - rewrite <- Z.shiftl_mul_pow2 by lia.
      rewrite Z.shiftl_spec_low by lia. reflexivity.
    - rewrite (Z.bits_above_log2 route_id n); [apply andb_false_r | lia |].
      destruct (Z.eq_dec route_id 0) as [-> | Hne]; [simpl; lia |].
      apply Z.lt_le_trans with 31; [| lia].
      apply Z.log2_lt_pow2; lia. }
  rewrite <- Z.lxor_lor by exact Hland.
  symmetry. apply Z.add_nocarry_lxor. exact Hland.
Qed.

Lemma lor_route_neg child_id route_id :
  - 2 ^ 31 <= route_id < 0 ->
  Z.lor (child_id * 2 ^ 32) route_id = route_id.
Proof.
  intros H. apply Z.bits_inj'. intros n Hn. rewrite Z.lor_spec.
  destruct (Z.lt_ge_cases n 32) as [Hlt | Hge].
  - rewrite <- Z.shiftl_mul_pow2 by lia.
    rewrite Z.shiftl_spec_low by lia. reflexivity.
  - rewrite (Z.bits_above_log2_neg route_id n); [apply orb_true_r | lia |].
    destruct (Z.eq_dec (Z.pred (- route_id)) 0) as [-> | Hne]; [simpl; lia |].
    apply Z.lt_le_trans with 31; [| lia].
    apply Z.log2_lt_pow2; lia.
Qed.

Lemma MakeClientId_nonneg child_id route_id :
  is_int child_id -> 0 <= route_id < 2 ^ 31 ->
  ResourceScheduler.MakeClientId child_id route_id
  = child_id * 2 ^ 32 + route_id.
Proof.
  unfold is_int. intros Hc Hr. unfold ResourceScheduler.MakeClientId.
  rewrite Z.shiftl_mul_pow2 by lia.
  rewrite (wrap_int64_small (child_id * 2 ^ 32)) by lia.
  rewrite lor_route_nonneg by exact Hr.
  apply wrap_int64_small. lia.
Qed.

(** X4. [MakeClientId] tells apart the clients whose route id is not
    negative: two pairs of a child id and a route id from 0 on that get
    the same [ClientId] are the same pair. *)
Theorem X4_MakeClientId_injective child_id route_id child_id' route_id' :
  is_int child_id -> is_int child_id' ->
  0 <= route_id < 2 ^ 31 -> 0 <= route_id' < 2 ^ 31 ->
  ResourceScheduler.MakeClientId child_id route_id
  = ResourceScheduler.MakeClientId child_id' route_id' ->
  child_id = child_id' /\ route_id = route_id'.
Proof.
  intros Hc Hc' Hr Hr'.
  rewrite !MakeClientId_nonneg by assumption.
  unfold is_int in *. lia.
Qed.

Lemma X4_MakeClientId_injective_witness :
  is_int 7 /\ is_int 7 /\ 0 <= 3 < 2 ^ 31
  /\ ResourceScheduler.MakeClientId 7 3 = ResourceScheduler.MakeClientId 7 3
  /\ ResourceScheduler.MakeClientId 7 3 = 7 * 2 ^ 32 + 3
  /\ (7 = 7 /\ 3 = 3).
Proof.
  assert (Hc : is_int 7) by (unfold is_int; lia).
  assert (Hr : 0 <= 3 < 2 ^ 31) by lia.
  split; [exact Hc |]. split; [exact Hc |]. split; [exact Hr |].
  split; [reflexivity |]. split; [vm_compute; reflexivity |].
  exact (X4_MakeClientId_injective 7 3 7 3 Hc Hc Hr Hr eq_refl).
Defined.

(** X5. A negative route id swallows the child id: the route id is
    sign-extended to 64 bits before the or, so that the [ClientId] of a
    negative route id is the route id itself, whatever the child is. All
    children share one client under such a route id. *)
Theorem X5_MakeClientId_negative_route child_id route_id :
  is_int child_id -> - 2 ^ 31 <= route_id < 0 ->
  ResourceScheduler.MakeClientId child_id route_id = route_id.
Proof.
  unfold is_int. intros Hc Hr. unfold ResourceScheduler.MakeClientId.
  rewrite Z.shiftl_mul_pow2 by lia.
  rewrite (wrap_int64_small (child_id * 2 ^ 32)) by lia.
  rewrite lor_route_neg by exact Hr.
  apply wrap_int64_small. lia.
Qed.

Lemma X5_MakeClientId_negative_route_witness :
  is_int 7 /\ - 2 ^ 31 <= -2 < 0
  /\ ResourceScheduler.MakeClientId 7 (-2) = -2
  /\ ResourceScheduler.MakeClientId 7 (-2)
     = ResourceScheduler.MakeClientId 8 (-2).
Proof.
  assert (Hc : is_int 7) by (unfold is_int; lia).
  assert (Hc' : is_int 8) by (unfold is_int; lia).
  assert (Hr : - 2 ^ 31 <= -2 < 0) by lia.
  split; [exact Hc |]. split; [exact Hr |].
  split; [exact (X5_MakeClientId_negative_route 7 (-2) Hc Hr) |].
  vm_compute. reflexivity.
Defined.

(** ** The cap per host *)

(** X6. [ReachedMaxRequestsPerHostPerClient] counts: it answers yes exactly
    when six or more of the requests in flight go to the host and port
    asked about, except that it always answers no for a host that supports
    priorities while requests on multiplexed connections are delayed. The
    loop leaves at the sixth match, which does not change the answer. *)
Theorem X6_per_host_cap_counts c st host supports_priority :
  Client.ReachedMaxRequestsPerHostPerClient c st host supports_priority
  = negb (supports_priority
          && delay_requests_on_multiplexed_connections
               (Client.params_for_network_quality_ c))
    && (kMaxNumDelayableRequestsPerHostPerClient
        <=? same_host_in_flight c st host).
Proof.
  unfold Client.ReachedMaxRequestsPerHostPerClient.
  destruct (supports_priority && _); [reflexivity |]. cbn [negb andb].
  rewrite same_host_loop_spec
    by (unfold kMaxNumDelayableRequestsPerHostPerClient; lia).
  rewrite Z.add_0_l. unfold same_host_in_flight, size, set_size.
  cbn [compose]. do 2 f_equal.
  apply Permutation_length. apply NoDup_Permutation.
  - apply NoDup_filter, NoDup_elements.
  - apply NoDup_elements.
  - intros p. rewrite list_elem_of_filter, !elem_of_elements, elem_of_filter.
    tauto.
Qed.

(** ** Who tracks a request *)

(** X7. In every state the scheduler reaches, no handle is queued twice or
    both queued and in flight; every handle a client tracks is live, carries
    the id under which the client is registered and is not among the unowned
    requests, so that no handle is tracked by two clients; and the unowned
    requests are live. *)
Theorem X7_single_owner LOAD_IGNORE_LIMITS kBrowserProcessId s :
  reachable LOAD_IGNORE_LIMITS kBrowserProcessId s ->
  (forall client_id c,
     ResourceScheduler.client_map_ s !! client_id = Some c ->
     NoDup (RequestQueue.queue_ (Client.pending_requests_ c))
     /\ (forall p, p ∈ RequestQueue.queue_ (Client.pending_requests_ c) ->
           p ∉ Client.in_flight_requests_ c)
     /\ (forall p, p ∈ tracked c ->
           p ∈ dom (requests (ResourceScheduler.store s))
           /\ client_id_ (deref (ResourceScheduler.store s) p) = client_id
           /\ (p ∉ ResourceScheduler.unowned_requests_ s)))
  /\ (forall client_id client_id' c c' p,
        ResourceScheduler.client_map_ s !! client_id = Some c ->
        ResourceScheduler.client_map_ s !! client_id' = Some c' ->
        p ∈ tracked c -> p ∈ tracked c' -> client_id = client_id')
  /\ ResourceScheduler.unowned_requests_ s
     ⊆ dom (requests (ResourceScheduler.store s)).
Proof.
  intros Hreach.
  destruct (reachable_invariant _ _ s Hreach) as (G1 & G2 & G3 & G4 & G5 & G6).
  split; [| split; [| exact G5]].
  - intros k c Hk. destruct (G1 k c Hk) as (_ & _ & Hc & Hc' & Hd & _).
    split; [exact Hc |]. split; [exact Hc' |].
    intros p Hp. destruct (Hd p Hp) as [Hdom Hid].
    split; [exact Hdom |]. split; [exact Hid |].
    intros Hu. by apply (G4 p k c).
  - intros k k' c c' p Hk Hk' Hp Hp'.
    destruct (G1 k c Hk) as (_ & _ & _ & _ & Hd & _).
    destruct (G1 k' c' Hk') as (_ & _ & _ & _ & Hd' & _).
    destruct (Hd p Hp) as [_ <-]. by destruct (Hd' p Hp') as [_ <-].
Qed.

Lemma X7_single_owner_witness :
  reachable Example.LOAD_IGNORE_LIMITS Example.kBrowserProcessId
    Example.two_in_flight_scheduler
  /\ 101%positive
     ∈ dom (requests (ResourceScheduler.store Example.two_in_flight_scheduler))
  /\ client_id_
       (deref (ResourceScheduler.store Example.two_in_flight_scheduler) 101)
     = ResourceScheduler.MakeClientId 1 1
  /\ (101%positive
      ∉ ResourceScheduler.unowned_requests_ Example.two_in_flight_scheduler).
Proof.
  split; [exact two_in_flight_reachable |].
  destruct (X7_single_owner _ _ _ two_in_flight_reachable) as [Hclients _].
  destruct (Hclients (ResourceScheduler.MakeClientId 1 1)
              Example.two_in_flight_client) as (_ & _ & Htracked);
    [vm_compute; reflexivity |].
  apply (Htracked 101%positive).
  unfold tracked. apply elem_of_union_l.
  replace (Client.in_flight_requests_ Example.two_in_flight_client)
    with ({[101%positive; 102%positive]} : gset positive)
    by (vm_compute; reflexivity).
  apply elem_of_union_l. by apply elem_of_singleton.
Defined.

(** X8. In every state the scheduler reaches, the InFlight attribute of a
    handle says where the handle is: it is set exactly on the handles that
    are in [in_flight_requests_] of the client registered under the handle's
    id, and it is not set on any pending handle. *)
Theorem X8_in_flight_attribute LOAD_IGNORE_LIMITS kBrowserProcessId s :
  reachable LOAD_IGNORE_LIMITS kBrowserProcessId s ->
  (forall p,
     has_attributes (ResourceScheduler.store s) kAttributeInFlight p = true
     <-> exists c,
           ResourceScheduler.client_map_ s
           !! client_id_ (deref (ResourceScheduler.store s) p) = Some c
           /\ p ∈ Client.in_flight_requests_ c)
  /\ (forall client_id c p,
        ResourceScheduler.client_map_ s !! client_id = Some c ->
        p ∈ RequestQueue.queue_ (Client.pending_requests_ c) ->
        has_attributes (ResourceScheduler.store s) kAttributeInFlight p
        = false).
Proof.
  intros Hreach.
  destruct (reachable_invariant _ _ s Hreach) as (G1 & G2 & G3 & _).
  split.
  - intros p. split.
    + intros Hif. destruct (G3 p Hif) as [c Hk]. exists c.
      split; [exact Hk |].
      destruct (G1 _ c Hk) as (_ & _ & _ & _ & _ & _ & Hg). by apply Hg.
    + intros (c & Hk & Hp).
      destruct (G1 _ c Hk) as (_ & _ & _ & _ & _ & Hf & _). by apply Hf.
  - intros k c p Hk Hp.
    by apply (client_invariant_pending k c (ResourceScheduler.store s) p);
      [apply G1 |].
Qed.

Lemma X8_in_flight_attribute_witness :
  reachable Example.LOAD_IGNORE_LIMITS Example.kBrowserProcessId
    Example.two_in_flight_scheduler
  /\ has_attributes (ResourceScheduler.store Example.two_in_flight_scheduler)
       kAttributeInFlight 102 = true
  /\ exists c,
       ResourceScheduler.client_map_ Example.two_in_flight_scheduler
       !! client_id_
            (deref (ResourceScheduler.store Example.two_in_flight_scheduler)
               102) = Some c
       /\ 102%positive ∈ Client.in_flight_requests_ c.
Proof.
  split; [exact two_in_flight_reachable |].
  assert (Hif : has_attributes
                  (ResourceScheduler.store Example.two_in_flight_scheduler)
                  kAttributeInFlight 102 = true) by (vm_compute; reflexivity).
  split; [exact Hif |].
  exact (proj1 (proj1 (X8_in_flight_attribute _ _ _ two_in_flight_reachable)
                  102%positive) Hif).
Defined.

(** ** The destructor of a handle *)

Lemma LoadAnyStartablePendingRequests_url_requests cx c st trigger c' st' :
  Client.LoadAnyStartablePendingRequests cx c st trigger = Some (c', st') ->
  url_requests st' = url_requests st.
Proof.
  unfold Client.LoadAnyStartablePendingRequests.
  set (c0 := Client.with_num_skipped_scans c 0).
  change (RequestQueue.queue_ (Client.pending_requests_ c0))
    with (RequestQueue.queue_ (Client.pending_requests_ c)).
  change (RequestQueue.queue_ (Client.pending_requests_ c))
    with (RequestQueue.queue_ (Client.pending_requests_ c0)) at 2.
  apply (LoadLoop_invariant cx trigger
           (fun _ st1 => url_requests st1 = url_requests st));
    [| reflexivity].
  intros c1 st1 pre request next q Hst1 _ _ _ _.
  rewrite <- Hst1.
  apply (StartRequest_store cx (Client.with_pending_requests c1 q) st1 request
           START_ASYNC trigger request).
Qed.

Lemma Client_RemoveRequest_url_requests cx c st request c' st' :
  Client.RemoveRequest cx c st request = Some (c', st') ->
  url_requests st' = url_requests st.
Proof.
  unfold Client.RemoveRequest.
  destruct (RequestQueue.IsQueued _ request).
  - destruct (RequestQueue.Erase _ request); [| discriminate].
    by intros [= <- <-].
  - unfold Client.EraseInFlightRequest.
    match goal with
    | |- context [Client.SetRequestAttributes ?c1 st request kAttributeNone] =>
        pose proof (SetRequestAttributes_store c1 st request kAttributeNone)
          as (Hurl & _ & _);
        destruct (Client.SetRequestAttributes c1 st request kAttributeNone)
          as [c2 st2]
    end.
    cbn [snd] in Hurl. intros Hload.
    apply LoadAnyStartablePendingRequests_url_requests in Hload.
    by rewrite Hload.
Qed.

Lemma RemoveRequest_url_requests e s request s' :
  ResourceScheduler.RemoveRequest e s request = Some s' ->
  url_requests (ResourceScheduler.store s')
  = url_requests (ResourceScheduler.store s).
Proof.
  unfold ResourceScheduler.RemoveRequest.
  destruct (bool_decide _); [by intros [= <-] |].
  destruct (ResourceScheduler.client_map_ s !! _) as [c |];
    [| by intros [= <-]].
  destruct (Client.RemoveRequest _ c _ request) as [[c' st'] |] eqn:Hremove;
    [| discriminate].
  intros [= <-]. by apply Client_RemoveRequest_url_requests in Hremove.
Qed.

(** X9. The scheduler forgets a handle that is destroyed: when the
    destructor returns in a state the scheduler has reached, the handle is
    gone from the heap, it is not among the unowned requests, no client
    tracks it in flight or pending, no task to start it is left posted, and
    its request no longer points to it. *)
Theorem X9_destroyed_handle_forgotten LOAD_IGNORE_LIMITS kBrowserProcessId
    e s handle s' :
  reachable LOAD_IGNORE_LIMITS kBrowserProcessId s ->
  handle ∈ dom (requests (ResourceScheduler.store s)) ->
  ResourceScheduler.DestroyRequest e s handle = Some s' ->
  (handle ∉ dom (requests (ResourceScheduler.store s')))
  /\ (handle ∉ ResourceScheduler.unowned_requests_ s')
  /\ (forall client_id c,
        ResourceScheduler.client_map_ s' !! client_id = Some c ->
        handle ∉ tracked c)
  /\ (StartTask handle ∉ posted_tasks (ResourceScheduler.store s'))
  /\ net.user_data
       (url_requests (ResourceScheduler.store s')
        !!! request_ (deref (ResourceScheduler.store s) handle)) = None.
Proof.
  intros Hreach Hdom. pose proof (reachable_invariant _ _ s Hreach) as Hs.
  unfold ResourceScheduler.DestroyRequest.
  set (st := with_url_requests _ _).
  assert (Hs1 : scheduler_invariant (ResourceScheduler.with_store s st))
    by (by apply scheduler_invariant_store).
  destruct (ResourceScheduler.RemoveRequest e
              (ResourceScheduler.with_store s st) handle)
    as [s1 |] eqn:Hremove; [| discriminate].
  intros [= <-].
  destruct (RemoveRequest_invariant e _ handle s1 Hs1 Hdom Hremove)
    as (_ & Hnu & Hnt & _).
  apply RemoveRequest_url_requests in Hremove.
  cbn [ResourceScheduler.with_store ResourceScheduler.store
       ResourceScheduler.client_map_ ResourceScheduler.unowned_requests_
       requests url_requests posted_tasks].
  split; [| split; [exact Hnu | split; [exact Hnt | split]]].
  - rewrite dom_delete, elem_of_difference, elem_of_singleton. by intros [_ ?].
  - rewrite list_elem_of_filter. by intros [? _].
  - rewrite Hremove. unfold st.
    cbn [ResourceScheduler.with_store ResourceScheduler.store
         with_url_requests url_requests].
    by rewrite lookup_total_insert_eq.
Qed.

Lemma X9_destroyed_handle_forgotten_witness :
  reachable Example.LOAD_IGNORE_LIMITS Example.kBrowserProcessId
    Example.two_in_flight_scheduler
  /\ 101%positive
     ∈ dom (requests (ResourceScheduler.store Example.two_in_flight_scheduler))
  /\ ResourceScheduler.DestroyRequest (Example.environment false)
       Example.two_in_flight_scheduler 101
     = Some Example.one_destroyed_scheduler
  /\ (101%positive
      ∉ dom (requests
               (ResourceScheduler.store Example.one_destroyed_scheduler)))
  /\ (forall client_id c,
        ResourceScheduler.client_map_ Example.one_destroyed_scheduler
        !! client_id = Some c ->
        101%positive ∉ tracked c).
Proof.
  assert (Hdom : 101%positive
                 ∈ dom (requests
                          (ResourceScheduler.store
                             Example.two_in_flight_scheduler))).
  { apply elem_of_dom. vm_compute. by eexists. }
  assert (Hdestroy : ResourceScheduler.DestroyRequest
                       (Example.environment false)
                       Example.two_in_flight_scheduler 101
                     = Some Example.one_destroyed_scheduler)
    by (vm_compute; reflexivity).
  split; [exact two_in_flight_reachable |]. split; [exact Hdom |].
  split; [exact Hdestroy |].
  destruct (X9_destroyed_handle_forgotten _ _ _ _ _ _ two_in_flight_reachable
              Hdom Hdestroy) as (H1 & _ & H3 & _).
  by split.
Defined.

(** ** What a pass leaves behind *)

Lemma LoadLoop_skip cx n trigger c st pre : forall request_iter,
  Forall
    (fun x =>
       Client.ShouldStartRequest cx c st x
       = Some Client.DO_NOT_START_REQUEST_AND_KEEP_SEARCHING) pre ->
  Client.LoadLoop cx n trigger c st (pre ++ request_iter)
  = Client.LoadLoop cx n trigger c st request_iter.
Proof.
  intros request_iter. induction pre as [| x pre IH]; intros Hpre;
    [reflexivity |].
  apply Forall_cons in Hpre as [Hx Hpre].
  rewrite <- app_comm_cons, LoadLoop_cons, Hx. by apply IH.
Qed.

Lemma LoadLoop_settled cx trigger trigger' n : forall c st c' st' pre request_iter,
  RequestQueue.queue_ (Client.pending_requests_ c) = pre ++ request_iter ->
  Forall
    (fun x =>
       Client.ShouldStartRequest cx c st x
       = Some Client.DO_NOT_START_REQUEST_AND_KEEP_SEARCHING) pre ->
  Client.LoadLoop cx n trigger c st request_iter = Some (c', st') ->
  forall m,
    Client.LoadLoop cx m trigger' c' st'
      (RequestQueue.queue_ (Client.pending_requests_ c'))
    = Some (c', st').
Proof.
  induction n as [n IHn] using lt_wf_ind.
  intros c st c' st' pre request_iter. revert pre.
  induction request_iter as [| request next IH]; intros pre Hqueue Hpre.
  - rewrite LoadLoop_nil. intros [= <- <-] m.
    rewrite Hqueue, LoadLoop_skip by exact Hpre. apply LoadLoop_nil.
  - rewrite LoadLoop_cons.
    destruct (Client.ShouldStartRequest cx c st request) as [[| |] |] eqn:Hs;
      try discriminate.
    + intros [= <- <-] m.
      rewrite Hqueue, LoadLoop_skip by exact Hpre.
      by rewrite LoadLoop_cons, Hs.
    + apply (IH (pre ++ [request])).
      * by rewrite <- app_assoc.
      * apply Forall_app. split; [exact Hpre | by constructor].
    + destruct (RequestQueue.Erase (Client.pending_requests_ c) request)
        as [q |]; [| discriminate].
      destruct (Client.StartRequest cx (Client.with_pending_requests c q) st
                  request START_ASYNC trigger) as [c1 st1].
      destruct (RequestQueue.queue_ (Client.pending_requests_ c1)) eqn:Hq1.
      * intros [= <- <-] m. rewrite Hq1. apply LoadLoop_nil.
      * destruct n as [| n']; [discriminate |].
        rewrite <- Hq1. apply (IHn n' (Nat.lt_succ_diag_r n') c1 st1 c' st' []);
          [reflexivity | constructor].
Qed.

Lemma with_num_skipped_scans_same c :
  Client.num_skipped_scans_due_to_scheduled_start_ c = 0 ->
  Client.with_num_skipped_scans c 0 = c.
Proof. destruct c. simpl. by intros ->. Qed.

(** X10. A pass leaves nothing it could start: when
    [LoadAnyStartablePendingRequests] has returned, running it again at
    once, under the same clock and parameters and for whatever trigger,
    starts no request and changes neither the client nor the store. *)
Theorem X10_pass_settles cx c st trigger c' st' trigger' :
  Client.LoadAnyStartablePendingRequests cx c st trigger = Some (c', st') ->
  Client.LoadAnyStartablePendingRequests cx c' st' trigger' = Some (c', st').
Proof.
  intros Hpass.
  pose proof (LoadAnyStartablePendingRequests_resets cx c st trigger c' st'
                Hpass) as Hzero.
  unfold Client.LoadAnyStartablePendingRequests in *.
  rewrite (with_num_skipped_scans_same c' Hzero).
  apply (LoadLoop_settled cx trigger trigger' _ _ st c' st' [] _ eq_refl
           (Forall_nil_2 _) Hpass).
Qed.

Lemma X10_pass_settles_witness :
  Client.LoadAnyStartablePendingRequests
    (Example.context false Client.ParamsForNetworkQuality_default)
    Example.lowest_client_after_erase.1 Example.lowest_client_after_erase.2
    COMPLETION_POST_BODY
  = Some (Example.lowest_client_after_pass.1,
          Example.lowest_client_after_pass.2)
  /\ RequestQueue.queue_
       (Client.pending_requests_ Example.lowest_client_after_pass.1)
     = [108%positive]
  /\ Client.LoadAnyStartablePendingRequests
       (Example.context false Client.ParamsForNetworkQuality_default)
       Example.lowest_client_after_pass.1 Example.lowest_client_after_pass.2
       LONG_QUEUED_REQUESTS_TIMER_FIRED
     = Some (Example.lowest_client_after_pass.1,
             Example.lowest_client_after_pass.2).
Proof.
  assert (Hpass :
            Client.LoadAnyStartablePendingRequests
              (Example.context false Client.ParamsForNetworkQuality_default)
              Example.lowest_client_after_erase.1
              Example.lowest_client_after_erase.2 COMPLETION_POST_BODY
            = Some (Example.lowest_client_after_pass.1,
                    Example.lowest_client_after_pass.2))
    by (vm_compute; reflexivity).
  split; [exact Hpass |]. split; [vm_compute; reflexivity |].
  exact (X10_pass_settles _ _ _ _ _ _ LONG_QUEUED_REQUESTS_TIMER_FIRED Hpass).
Defined.

(** ** What the operations leave untouched in a handle *)

(** A member of the handle, or any function of its members, that neither
    [set_attributes] nor the telemetry update changes is the same after
    [InsertInFlightRequest], for every handle. *)
Lemma notify_in_flight_frame {A} (f : ScheduledResourceRequestImpl -> A) n l :
  (forall r m, f (UpdateDelayableRequestsInFlight r m) = f r) ->
  forall st p,
    f (deref
         (foldr
            (fun q st =>
               store_request st q
                 (UpdateDelayableRequestsInFlight (deref st q) n))
            st l) p)
    = f (deref st p).
Proof.
  intros Hf. induction l as [| q l IH]; intros st p; simpl; [done |].
  destruct (decide (q = p)) as [-> | Hne].
  - rewrite deref_store_request, Hf. apply IH.
  - rewrite deref_store_request_ne by exact Hne. apply IH.
Qed.

Lemma SetRequestAttributes_frame {A} (f : ScheduledResourceRequestImpl -> A)
    c st request a p :
  (forall r m, f (set_attributes r m) = f r) ->
  f (deref (Client.SetRequestAttributes c st request a).2 p) = f (deref st p).
Proof.
  intros Hf. rewrite SetRequestAttributes_deref.
  destruct (decide (p = request)) as [-> |]; [apply Hf | reflexivity].
Qed.

Lemma InsertInFlightRequest_frame {A} (f : ScheduledResourceRequestImpl -> A)
    cx c st request p :
  (forall r m, f (set_attributes r m) = f r) ->
  (forall r m, f (UpdateDelayableRequestsInFlight r m) = f r) ->
  f (deref (Client.InsertInFlightRequest cx c st request).2 p)
  = f (deref st p).
Proof.
  intros Ha Hu. unfold Client.InsertInFlightRequest.
  set (c1 := Client.with_in_flight_requests c _).
  set (a := Client.DetermineRequestAttributes cx c1 st request).
  pose proof (fun q => SetRequestAttributes_frame f c1 st request a q Ha) as Hd.
  destruct (Client.SetRequestAttributes c1 st request a) as [c2 st2].
  cbn [fst snd] in *.
  match goal with
  | |- context [if ?b then foldr ?g st2 ?l else st2] =>
      set (st3 := if b then foldr g st2 l else st2)
  end.
  assert (H3 : forall q, f (deref st3 q) = f (deref st2 q)).
  { intros q. unfold st3.
    destruct (RequestAttributesAreSet _ kAttributeDelayable); [| done].
    by apply notify_in_flight_frame. }
  match goal with
  | |- context [if ?b then store_request st3 request ?r else st3] =>
      set (st4 := if b then store_request st3 request r else st3)
  end.
  assert (H4 : forall q, f (deref st4 q) = f (deref st3 q)).
  { intros q. unfold st4. destruct (_ || _); [| done].
    destruct (decide (request = q)) as [-> | Hne].
    - by rewrite deref_store_request, Hu.
    - by rewrite deref_store_request_ne. }
  by rewrite H4, H3, Hd.
Qed.

Lemma Start_frame {A} (f : ScheduledResourceRequestImpl -> A)
    st request start_mode p :
  (forall r rd df, f (set_ready_deferred r rd df) = f r) ->
  f (deref (Start st request start_mode) p) = f (deref st p).
Proof.
  intros Hf. unfold Start.
  destruct (negb (net.status_is_success (url_request st request))); [done |].
  destruct (deferred_ (deref st request)).
  - destruct start_mode; [| done].
    destruct (decide (request = p)) as [-> | Hne].
    + rewrite deref_store_request, Hf.
      change (deref (with_resumed ?s _) ?q) with (deref s q).
      by rewrite deref_store_request, Hf.
    + rewrite deref_store_request_ne by exact Hne.
      change (deref (with_resumed ?s _) ?q) with (deref s q).
      by rewrite deref_store_request_ne.
  - destruct (decide (request = p)) as [-> | Hne].
    + by rewrite deref_store_request, Hf.
    + by rewrite deref_store_request_ne.
Qed.

Lemma StartRequest_frame {A} (f : ScheduledResourceRequestImpl -> A)
    cx c st request start_mode trigger p :
  (forall r m, f (set_attributes r m) = f r) ->
  (forall r m, f (UpdateDelayableRequestsInFlight r m) = f r) ->
  (forall r rd df, f (set_ready_deferred r rd df) = f r) ->
  f (deref (Client.StartRequest cx c st request start_mode trigger).2 p)
  = f (deref st p).
Proof.
  intros Ha Hu Hr. unfold Client.StartRequest.
  match goal with
  | |- context [Client.InsertInFlightRequest cx ?c0 st request] =>
      pose proof (InsertInFlightRequest_frame f cx c0 st request p Ha Hu) as Hi;
      destruct (Client.InsertInFlightRequest cx c0 st request) as [c1 st1]
  end.
  cbn [fst snd] in *. by rewrite Start_frame.
Qed.

Lemma StartLongQueuedRequestsDispatchTimerIfNeeded_same s :
  ResourceScheduler.store
    (ResourceScheduler.StartLongQueuedRequestsDispatchTimerIfNeeded s)
  = ResourceScheduler.store s
  /\ ResourceScheduler.client_map_
       (ResourceScheduler.StartLongQueuedRequestsDispatchTimerIfNeeded s)
     = ResourceScheduler.client_map_ s
  /\ ResourceScheduler.unowned_requests_
       (ResourceScheduler.StartLongQueuedRequestsDispatchTimerIfNeeded s)
     = ResourceScheduler.unowned_requests_ s
  /\ ResourceScheduler.enabled_
       (ResourceScheduler.StartLongQueuedRequestsDispatchTimerIfNeeded s)
     = ResourceScheduler.enabled_ s.
Proof.
  unfold ResourceScheduler.StartLongQueuedRequestsDispatchTimerIfNeeded.
  by destruct (negb _).
Qed.

(** ** Requests that are never queued *)

Lemma DetermineRequestAttributes_not_delayable cx c st request :
  net.ordinal kDelayablePriorityThreshold
  <= net.ordinal (net.priority (url_request st request)) ->
  RequestAttributesAreSet (Client.DetermineRequestAttributes cx c st request)
    kAttributeDelayable = false.
Proof.
  intros Hprio. unfold Client.DetermineRequestAttributes.
  apply Z.ltb_ge in Hprio. rewrite Hprio.
  destruct (RequestAttributesAreSet _ kAttributeLayoutBlocking);
    by case_bool_decide.
Qed.

(** X11. Three kinds of requests are never queued. When the scheduler is
    disabled, or the client is a renderer and the request is synchronous,
    or not for HTTP or HTTPS, or of priority MEDIUM or higher,
    [ScheduleRequest] puts the new handle among the requests in flight of
    its client at once, leaves the pending queue as it was, and, unless the
    request was already cancelled, marks the handle ready, whatever else is
    in flight. *)
Theorem X11_admitted_at_once e s child_id route_id is_async u handle c :
  ResourceScheduler.client_map_ s
  !! ResourceScheduler.MakeClientId child_id route_id = Some c ->
  ResourceScheduler.enabled_ s = false
  \/ (Client.is_browser_client_ c = false
      /\ (is_async = false
          \/ net.SchemeIsHTTPOrHTTPS
               (net.url (url_requests (ResourceScheduler.store s) !!! u))
             = false
          \/ net.ordinal kDelayablePriorityThreshold
             <= net.ordinal
                  (net.priority
                     (url_requests (ResourceScheduler.store s) !!! u)))) ->
  exists s' c',
    ResourceScheduler.ScheduleRequest e s child_id route_id is_async u handle
    = Some s'
    /\ ResourceScheduler.client_map_ s'
       !! ResourceScheduler.MakeClientId child_id route_id = Some c'
    /\ Client.in_flight_requests_ c'
       = {[handle]} ∪ Client.in_flight_requests_ c
    /\ Client.pending_requests_ c' = Client.pending_requests_ c
    /\ (net.status_is_success
          (url_requests (ResourceScheduler.store s) !!! u) = true ->
        ready_ (deref (ResourceScheduler.store s') handle) = true).
Proof.
  intros Hk Hcase. unfold ResourceScheduler.ScheduleRequest.
  set (k := ResourceScheduler.MakeClientId child_id route_id) in *.
  set (r0 := url_requests (ResourceScheduler.store s) !!! u) in *.
  set (rec := ResourceScheduler.ScheduledResourceRequestImpl_new k u r0 _
                is_async).
  set (st := with_url_requests _ _).
  rewrite Hk. unfold Client.ScheduleRequest.
  set (cx := ResourceScheduler.context e s).
  assert (Hd : deref st handle = rec).
  { unfold st. rewrite deref_with_url_requests. apply deref_store_request. }
  assert (Hurl : url_requests st !!! u = net.SetUserData r0 (Some handle)).
  { unfold st. cbn [with_url_requests url_requests].
    by rewrite lookup_total_insert_eq. }
  set (a := Client.DetermineRequestAttributes cx c st handle).
  assert (Ha : net.ordinal kDelayablePriorityThreshold
               <= net.ordinal (net.priority r0) ->
               RequestAttributesAreSet a kAttributeDelayable = false).
  { intros Hprio. apply DetermineRequestAttributes_not_delayable.
    unfold url_request. rewrite Hd. cbn [rec request_
      ResourceScheduler.ScheduledResourceRequestImpl_new]. by rewrite Hurl. }
  pose proof (SetRequestAttributes_deref c st handle a handle) as Hd1.
  rewrite decide_True in Hd1 by reflexivity. rewrite Hd in Hd1.
  destruct (SetRequestAttributes_store c st handle a) as (Hurl1 & _ & _).
  destruct (SetRequestAttributes_client c st handle a) as (d & l & Hc1).
  destruct (Client.SetRequestAttributes c st handle a) as [c1 st1].
  cbn [fst snd] in *. subst c1.
  assert (Hur1 : url_request st1 handle = net.SetUserData r0 (Some handle)).
  { unfold url_request. rewrite Hd1, Hurl1. cbn [set_attributes request_ rec
      ResourceScheduler.ScheduledResourceRequestImpl_new]. exact Hurl. }
  assert (Hshould : Client.ShouldStartRequest cx (Client.with_counts c d l) st1
                      handle = Some Client.START_REQUEST).
  { unfold Client.ShouldStartRequest. cbv zeta.
    destruct Hcase as [Hoff | [Hrenderer Hcase]].
    - change (enabled cx) with (ResourceScheduler.enabled_ s).
      by rewrite Hoff.
    - destruct (negb (enabled cx)); [reflexivity |].
      change (Client.is_browser_client_ (Client.with_counts c d l))
        with (Client.is_browser_client_ c).
      rewrite Hrenderer, Hd1, Hur1.
      cbn [set_attributes is_async_ attributes_ rec net.SetUserData net.url
           ResourceScheduler.ScheduledResourceRequestImpl_new].
      destruct Hcase as [-> | [Hscheme | Hprio]]; [reflexivity | |].
      + destruct (negb is_async); [reflexivity |].
        fold r0. by rewrite Hscheme.
      + rewrite (Ha Hprio). cbn [negb].
        repeat match goal with
               | |- (if ?b then Some Client.START_REQUEST else _) = _ =>
                   destruct b; [reflexivity |]
               end.
        reflexivity. }
  rewrite Hshould.
  set (c1 := Client.with_counts c d l) in *.
  destruct (StartRequest_client cx c1 st1 handle START_SYNC NONE)
    as (d' & l' & start & Hc2).
  pose proof (StartRequest_frame (fun r => (ready_ r, deferred_ r, request_ r))
                cx c1 st1 handle START_SYNC NONE handle
                (fun _ _ => eq_refl) (fun _ _ => eq_refl)) as Hflags.
  unfold Client.StartRequest in *.
  match goal with
  | |- context [Client.InsertInFlightRequest cx ?c0 st1 handle] =>
      pose proof (InsertInFlightRequest_frame
                    (fun r => (ready_ r, deferred_ r, request_ r))
                    cx c0 st1 handle handle
                    (fun _ _ => eq_refl) (fun _ _ => eq_refl)) as Hiif;
      destruct (InsertInFlightRequest_store cx c0 st1 handle handle)
        as [_ Hurl2];
      destruct (Client.InsertInFlightRequest cx c0 st1 handle) as [c2 st2]
  end.
  cbn [fst snd] in *. clear Hflags.
  rewrite Hd1 in Hiif.
  cbn [set_attributes ready_ deferred_ request_ rec
       ResourceScheduler.ScheduledResourceRequestImpl_new] in Hiif.
  injection Hiif as Hready Hdeferred Hrequest.
  assert (Hstarted : net.status_is_success r0 = true ->
                     ready_ (deref (Start st2 handle START_SYNC) handle) = true).
  { intros Hok. unfold Start, url_request.
    rewrite Hrequest, Hurl2, Hurl1, Hurl, Hdeferred.
    cbn [net.SetUserData net.status_is_success]. rewrite Hok. cbn [negb].
    by rewrite deref_store_request. }
  assert (Hin : Client.in_flight_requests_ c2
                = {[handle]} ∪ Client.in_flight_requests_ c) by (by subst c2).
  assert (Hp : Client.pending_requests_ c2 = Client.pending_requests_ c)
    by (by subst c2).
  set (s2 := ResourceScheduler.with_store _ _).
  assert (Hk2 : ResourceScheduler.client_map_ s2 !! k = Some c2)
    by apply lookup_insert_eq.
  destruct (negb (ResourceScheduler.long_queued_requests_dispatch_timer_ s2)).
  - destruct (StartLongQueuedRequestsDispatchTimerIfNeeded_same s2)
      as (Est & Ecm & _).
    eexists _, c2. split; [reflexivity |].
    rewrite Ecm, Est. by repeat split.
  - eexists _, c2. split; [reflexivity |]. by repeat split.
Qed.

Lemma X11_admitted_at_once_witness :
  ResourceScheduler.client_map_
    (Example.create_url_request Example.one_in_flight_scheduler 2
       (Example.request_to "a.test" net.HIGHEST 0))
  !! ResourceScheduler.MakeClientId 1 1 = Some Example.one_in_flight_client
  /\ Client.is_browser_client_ Example.one_in_flight_client = false
  /\ net.ordinal kDelayablePriorityThreshold
     <= net.ordinal
          (net.priority
             (url_requests
                (ResourceScheduler.store
                   (Example.create_url_request Example.one_in_flight_scheduler
                      2 (Example.request_to "a.test" net.HIGHEST 0)))
              !!! 2%positive))
  /\ exists s' c',
       ResourceScheduler.ScheduleRequest (Example.environment false)
         (Example.create_url_request Example.one_in_flight_scheduler 2
            (Example.request_to "a.test" net.HIGHEST 0))
         1 1 true 2 102 = Some s'
       /\ ResourceScheduler.client_map_ s'
          !! ResourceScheduler.MakeClientId 1 1 = Some c'
       /\ Client.in_flight_requests_ c'
          = {[102%positive]}
            ∪ Client.in_flight_requests_ Example.one_in_flight_client
       /\ Client.pending_requests_ c'
          = Client.pending_requests_ Example.one_in_flight_client
       /\ (net.status_is_success
             (url_requests
                (ResourceScheduler.store
                   (Example.create_url_request Example.one_in_flight_scheduler
                      2 (Example.request_to "a.test" net.HIGHEST 0)))
              !!! 2%positive) = true ->
           ready_ (deref (ResourceScheduler.store s') 102) = true).
Proof.
  assert (Hk : ResourceScheduler.client_map_
                 (Example.create_url_request Example.one_in_flight_scheduler 2
                    (Example.request_to "a.test" net.HIGHEST 0))
               !! ResourceScheduler.MakeClientId 1 1
               = Some Example.one_in_flight_client)
    by (vm_compute; reflexivity).
  assert (Hr : Client.is_browser_client_ Example.one_in_flight_client = false)
    by (vm_compute; reflexivity).
  assert (Hp : net.ordinal kDelayablePriorityThreshold
               <= net.ordinal
                    (net.priority
                       (url_requests
                          (ResourceScheduler.store
                             (Example.create_url_request
                                Example.one_in_flight_scheduler 2
                                (Example.request_to "a.test" net.HIGHEST 0)))
                        !!! 2%positive)))
    by (vm_compute; discriminate).
  split; [exact Hk |]. split; [exact Hr |]. split; [exact Hp |].
  exact (X11_admitted_at_once (Example.environment false) _ 1 1 true 2 102 _
           Hk (or_intror (conj Hr (or_intror (or_intror Hp))))).
Defined.

(** ** What can become pending *)

Lemma erase_node_subseteq x l p : p ∈ erase_node x l -> p ∈ l.
Proof.
  induction l as [| y l IH]; simpl; [done |].
  destruct (decide (x = y)).
  - intros Hp. apply elem_of_cons. by right.
  - rewrite !elem_of_cons. intros [-> | Hp]; [by left | right; by apply IH].
Qed.

Lemma StartRequest_pending cx c st request start_mode trigger q :
  Client.pending_requests_
    (Client.StartRequest cx (Client.with_pending_requests c q) st request
       start_mode trigger).1 = q.
Proof.
  by destruct (StartRequest_client cx (Client.with_pending_requests c q) st
                 request start_mode trigger) as (d & l & start & ->).
Qed.

Lemma LoadAnyStartablePendingRequests_queue cx c st trigger c' st' p :
  Client.LoadAnyStartablePendingRequests cx c st trigger = Some (c', st') ->
  p ∈ RequestQueue.queue_ (Client.pending_requests_ c') ->
  p ∈ RequestQueue.queue_ (Client.pending_requests_ c).
Proof.
  unfold Client.LoadAnyStartablePendingRequests.
  set (c0 := Client.with_num_skipped_scans c 0).
  change (RequestQueue.queue_ (Client.pending_requests_ c0))
    with (RequestQueue.queue_ (Client.pending_requests_ c)).
  change (RequestQueue.queue_ (Client.pending_requests_ c))
    with (RequestQueue.queue_ (Client.pending_requests_ c0)) at 2.
  intros Hload. revert p.
  refine (LoadLoop_invariant cx trigger
            (fun c1 _ =>
               forall p,
                 p ∈ RequestQueue.queue_ (Client.pending_requests_ c1) ->
                 p ∈ RequestQueue.queue_ (Client.pending_requests_ c))
            _ _ c0 st c' st' _ Hload); [| done].
  intros c1 st1 pre request next q Hsub _ _ _ Herase p.
  rewrite StartRequest_pending.
  apply Erase_Some in Herase as [_ ->]. cbn [RequestQueue.queue_].
  intros Hp. apply Hsub. by apply erase_node_subseteq in Hp.
Qed.

Lemma SetRequestAttributes_pending c st request a :
  Client.pending_requests_ (Client.SetRequestAttributes c st request a).1
  = Client.pending_requests_ c.
Proof.
  by destruct (SetRequestAttributes_client c st request a) as (d & l & ->).
Qed.

Lemma Client_RemoveRequest_queue cx c st request c' st' p :
  Client.RemoveRequest cx c st request = Some (c', st') ->
  p ∈ RequestQueue.queue_ (Client.pending_requests_ c') ->
  p ∈ RequestQueue.queue_ (Client.pending_requests_ c).
Proof.
  unfold Client.RemoveRequest.
  destruct (RequestQueue.IsQueued _ request).
  - destruct (RequestQueue.Erase _ request) as [q |] eqn:Herase;
      [| discriminate].
    intros [= <- <-]. apply Erase_Some in Herase as [_ ->].
    apply erase_node_subseteq.
  - unfold Client.EraseInFlightRequest.
    match goal with
    | |- context [Client.SetRequestAttributes ?c1 st request kAttributeNone] =>
        pose proof (SetRequestAttributes_pending c1 st request kAttributeNone)
          as Hp1;
        destruct (Client.SetRequestAttributes c1 st request kAttributeNone)
          as [c2 st2]
    end.
    cbn [fst] in Hp1. intros Hload Hp.
    apply (LoadAnyStartablePendingRequests_queue _ _ _ _ _ _ p Hload) in Hp.
    rewrite Hp1 in Hp. by destruct (negb _).
Qed.

Lemma Client_ReprioritizeRequest_queue cx c st request old_priority_params
    new_priority_params c' st' p :
  Client.ReprioritizeRequest cx c st request old_priority_params
    new_priority_params = Some (c', st') ->
  p ∈ RequestQueue.queue_ (Client.pending_requests_ c') ->
  p ∈ RequestQueue.queue_ (Client.pending_requests_ c).
Proof.
  unfold Client.ReprioritizeRequest.
  match goal with
  | |- context [Client.SetRequestAttributes c ?st1 request ?a] =>
      pose proof (SetRequestAttributes_pending c st1 request a) as Hp1;
      destruct (Client.SetRequestAttributes c st1 request a) as [c1 st2]
  end.
  cbn [fst] in Hp1.
  destruct (RequestQueue.IsQueued _ request); cbn [negb];
    [| intros [= <- <-]; by rewrite Hp1].
  destruct (RequestQueue.Erase _ request) as [q |] eqn:Herase;
    [| discriminate].
  apply Erase_Some in Herase as [Hin ->]. rewrite Insert_queue.
  assert (Hq : p ∈ multiset_insert
                     (comes_before
                        (store_request st2 request
                           (set_fifo_ordering (deref st2 request)
                              (wrap_uint32
                                 (RequestQueue.fifo_ordering_ids_
                                    (Client.pending_requests_ c1) + 1)))))
                     request
                     (erase_node request
                        (RequestQueue.queue_ (Client.pending_requests_ c1))) ->
               p ∈ RequestQueue.queue_ (Client.pending_requests_ c)).
  { rewrite multiset_insert_elem_of, <- Hp1.
    intros [-> | Hp]; [exact Hin | by apply erase_node_subseteq in Hp]. }
  destruct (_ <? _); intros [= <- <-]; exact Hq.
Qed.

Lemma Client_ScheduleRequest_queue cx c st request c' st' :
  Client.ScheduleRequest cx c st request = Some (c', st') ->
  (forall p,
     p ∈ RequestQueue.queue_ (Client.pending_requests_ c') ->
     p = request \/ p ∈ RequestQueue.queue_ (Client.pending_requests_ c))
  /\ (enabled cx = false ->
      Client.pending_requests_ c' = Client.pending_requests_ c).
Proof.
  unfold Client.ScheduleRequest.
  match goal with
  | |- context [Client.SetRequestAttributes c st request ?a] =>
      pose proof (SetRequestAttributes_pending c st request a) as Hp1;
      destruct (Client.SetRequestAttributes c st request a) as [c1 st1]
  end.
  cbn [fst] in Hp1.
  assert (Hinsert :
            forall c2 st2,
              (let '(q, st) :=
                 RequestQueue.Insert (Client.pending_requests_ c1) st1 request
               in Some (Client.with_pending_requests c1 q, st))
              = Some (c2, st2) ->
              forall p,
                p ∈ RequestQueue.queue_ (Client.pending_requests_ c2) ->
                p = request
                \/ p ∈ RequestQueue.queue_ (Client.pending_requests_ c)).
  { intros c2 st2. rewrite Insert_queue. intros [= <- <-] p.
    cbn [Client.with_pending_requests Client.pending_requests_
         RequestQueue.queue_].
    by rewrite multiset_insert_elem_of, Hp1. }
  destruct (Client.ShouldStartRequest cx c1 st1 request) as [[| |] |] eqn:Hs;
    [| | | discriminate].
  - intros H. split; [exact (Hinsert c' st' H) |].
    intros Hoff. unfold Client.ShouldStartRequest in Hs.
    by rewrite Hoff in Hs.
  - intros H. split; [exact (Hinsert c' st' H) |].
    intros Hoff. unfold Client.ShouldStartRequest in Hs.
    by rewrite Hoff in Hs.
  - destruct (StartRequest_client cx c1 st1 request START_SYNC NONE)
      as (d & l & start & Hc2).
    destruct (Client.StartRequest cx c1 st1 request START_SYNC NONE)
      as [c2 st2].
    cbn [fst] in Hc2. intros [= <- <-]. subst c2.
    cbn [Client.with_counts Client.with_in_flight_requests
         Client.with_last_non_delayable Client.pending_requests_].
    rewrite Hp1. split; [intros p Hp; by right | done].
Qed.

(** *** Steps that queue nothing *)

Lemma quiet_refl s : quiet s s.
Proof.
  split; [| by split]. intros k c' p Hk Hp. by exists c'.
Qed.

Lemma quiet_trans s1 s2 s3 : quiet s1 s2 -> quiet s2 s3 -> quiet s1 s3.
Proof.
  intros (Hq & Ht & He) (Hq' & Ht' & He').
  split; [| split; congruence].
  intros k c' p Hk Hp. destruct (Hq' k c' p Hk Hp) as (c & Hk2 & Hp2).
  by apply (Hq k c p).
Qed.

Lemma quiet_same s s' :
  ResourceScheduler.client_map_ s' = ResourceScheduler.client_map_ s ->
  ResourceScheduler.long_queued_requests_dispatch_timer_ s'
  = ResourceScheduler.long_queued_requests_dispatch_timer_ s ->
  ResourceScheduler.enabled_ s' = ResourceScheduler.enabled_ s ->
  quiet s s'.
Proof.
  intros Hm Ht He. split; [| by split].
  intros k c' p Hk Hp. rewrite Hm in Hk. by exists c'.
Qed.

Lemma quiet_update s k c c' st' :
  ResourceScheduler.client_map_ s !! k = Some c ->
  (forall p,
     p ∈ RequestQueue.queue_ (Client.pending_requests_ c') ->
     p ∈ RequestQueue.queue_ (Client.pending_requests_ c)) ->
  quiet s (update_client s k c' st').
Proof.
  intros Hk Hsub. split; [| by split].
  intros k' c'' p Hk' Hp.
  cbn [update_client ResourceScheduler.with_store
       ResourceScheduler.with_client_map ResourceScheduler.client_map_] in Hk'.
  destruct (decide (k' = k)) as [-> | Hne].
  - rewrite lookup_insert_eq in Hk'. injection Hk' as <-.
    exists c. split; [exact Hk | by apply Hsub].
  - rewrite lookup_insert_ne in Hk' by done. by exists c''.
Qed.

Lemma RemoveRequest_quiet e s request s' :
  ResourceScheduler.RemoveRequest e s request = Some s' -> quiet s s'.
Proof.
  unfold ResourceScheduler.RemoveRequest.
  destruct (bool_decide _); [intros [= <-]; by apply quiet_same |].
  destruct (ResourceScheduler.client_map_ s !! _) as [c |] eqn:Hk;
    [| intros [= <-]; apply quiet_refl].
  destruct (Client.RemoveRequest _ c _ request) as [[c' st'] |] eqn:Hremove;
    [| discriminate].
  intros [= <-]. apply (quiet_update s _ c c' st' Hk).
  intros p. by apply (Client_RemoveRequest_queue _ _ _ _ _ _ p Hremove).
Qed.

Lemma DestroyRequest_quiet e s request s' :
  ResourceScheduler.DestroyRequest e s request = Some s' -> quiet s s'.
Proof.
  unfold ResourceScheduler.DestroyRequest.
  destruct (ResourceScheduler.RemoveRequest e _ request) as [s1 |] eqn:Hremove;
    [| discriminate].
  intros [= <-]. apply RemoveRequest_quiet in Hremove.
  apply (quiet_trans _ _ _ Hremove). by apply quiet_same.
Qed.

Lemma OnClientCreated_quiet kBrowserProcessId e s child_id route_id
    network_quality_estimator this :
  quiet s
    (ResourceScheduler.OnClientCreated kBrowserProcessId e s child_id route_id
       network_quality_estimator this).
Proof.
  split; [| by split]. intros k c' p Hk Hp.
  cbn [ResourceScheduler.OnClientCreated ResourceScheduler.with_client_map
       ResourceScheduler.client_map_] in Hk.
  destruct (decide (k = ResourceScheduler.MakeClientId child_id route_id))
    as [-> | Hne].
  - rewrite lookup_insert_eq in Hk. injection Hk as <-.
    destruct (Client_new_members (ResourceScheduler.context e s) this
                (child_id =? kBrowserProcessId) network_quality_estimator)
      as (Ep & _).
    rewrite Ep in Hp. by apply elem_of_nil in Hp.
  - rewrite lookup_insert_ne in Hk by done. by exists c'.
Qed.

Lemma OnClientDeleted_quiet e s child_id route_id s' :
  ResourceScheduler.OnClientDeleted e s child_id route_id = Some s' ->
  quiet s s'.
Proof.
  unfold ResourceScheduler.OnClientDeleted.
  destruct (ResourceScheduler.client_map_ s !! _) as [c |]; [| discriminate].
  destruct (Client.StartAndRemoveAllRequests _ c _) as [[[c' st'] U] |];
    [| discriminate].
  intros [= <-]. split; [| by split]. intros k c'' p Hk Hp.
  cbn [ResourceScheduler.with_client_map ResourceScheduler.client_map_] in Hk.
  apply lookup_delete_Some in Hk as [_ Hk]. by exists c''.
Qed.

Lemma ReprioritizeRequest_quiet LOAD_IGNORE_LIMITS e s u new_priority
    new_intra_priority_value s' :
  ResourceScheduler.ReprioritizeRequest LOAD_IGNORE_LIMITS e s u new_priority
    new_intra_priority_value = Some s' ->
  quiet s s'.
Proof.
  unfold ResourceScheduler.ReprioritizeRequest. cbv zeta.
  destruct (negb _); [intros [= <-]; apply quiet_refl |].
  destruct (net.user_data _) as [h |];
    [| intros [= <-]; by apply quiet_same].
  destruct (params_eq _ _); [intros [= <-]; apply quiet_refl |].
  destruct (ResourceScheduler.client_map_ s !! _) as [c |] eqn:Hk;
    [| intros [= <-]; by apply quiet_same].
  destruct (Client.ReprioritizeRequest _ c _ h _ _) as [[c' st'] |] eqn:Hrep;
    [| discriminate].
  intros [= <-]. apply (quiet_update s _ c c' st' Hk).
  intros p. by apply (Client_ReprioritizeRequest_queue _ _ _ _ _ _ _ _ p Hrep).
Qed.

Lemma fire_clients_quiet e ids : forall s s',
  ResourceScheduler.fire_clients e s ids = Some s' -> quiet s s'.
Proof.
  induction ids as [| k ids IH]; intros s s'; simpl.
  - intros [= <-]. apply quiet_refl.
  - destruct (ResourceScheduler.client_map_ s !! k) as [c |] eqn:Hk;
      [| apply IH].
    unfold Client.OnLongQueuedRequestsDispatchTimerFired.
    destruct (Client.LoadAnyStartablePendingRequests _ c _ _)
      as [[c' st'] |] eqn:Hload; [| discriminate].
    intros Hrest. apply IH in Hrest.
    refine (quiet_trans _ _ _ _ Hrest).
    apply (quiet_update s k c c' st' Hk).
    intros p. by apply (LoadAnyStartablePendingRequests_queue _ _ _ _ _ _ p Hload).
Qed.

Lemma RunTask_quiet e s s' :
  ResourceScheduler.RunTask e s = Some s' -> quiet s s'.
Proof.
  unfold ResourceScheduler.RunTask.
  destruct (posted_tasks (ResourceScheduler.store s)) as [| task rest];
    [intros [= <-]; apply quiet_refl |].
  destruct task as [request | this trigger].
  - destruct (bool_decide _); intros [= <-]; by apply quiet_same.
  - destruct (filter _ _) as [| [k c] l] eqn:Hfilter;
      [intros [= <-]; by apply quiet_same |].
    assert (Hk : ResourceScheduler.client_map_ s !! k = Some c).
    { apply elem_of_map_to_list.
      assert (Hin : (k, c) ∈ (k, c) :: l) by (apply elem_of_cons; by left).
      rewrite <- Hfilter in Hin.
      by apply list_elem_of_filter in Hin as [_ Hin]. }
    destruct (Client.LoadAnyStartablePendingRequests _ c _ trigger)
      as [[c' st'] |] eqn:Hload; [| discriminate].
    intros [= <-].
    match goal with
    | |- quiet s (ResourceScheduler.with_store
                    (ResourceScheduler.with_client_map ?s0 _) _) =>
        apply (quiet_trans s s0); [by apply quiet_same |];
        apply (quiet_update s0 k c c' st' Hk)
    end.
    intros p. by apply (LoadAnyStartablePendingRequests_queue _ _ _ _ _ _ p Hload).
Qed.

Lemma SetResourceSchedulerParamsManagerForTests_quiet e s manager :
  quiet s
    (ResourceScheduler.SetResourceSchedulerParamsManagerForTests e s manager).
Proof.
  split; [| by split]. intros k c' p Hk Hp.
  cbn [ResourceScheduler.SetResourceSchedulerParamsManagerForTests
       ResourceScheduler.with_client_map ResourceScheduler.client_map_
       ResourceScheduler.with_params_manager] in Hk.
  rewrite lookup_fmap in Hk.
  destruct (ResourceScheduler.client_map_ s !! k) as [c |] eqn:Hk0;
    [| discriminate].
  injection Hk as <-. by exists c.
Qed.

(** Every step but the scheduling of a request and the firing of the
    dispatch timer is quiet. *)
Lemma step_classify LOAD_IGNORE_LIMITS kBrowserProcessId s s' :
  step LOAD_IGNORE_LIMITS kBrowserProcessId s s' ->
  quiet s s'
  \/ (exists e child_id route_id is_async u handle,
        ResourceScheduler.ScheduleRequest e s child_id route_id is_async u
          handle = Some s')
  \/ (exists e,
        ResourceScheduler.OnLongQueuedRequestsDispatchTimerFired e s = Some s')
  \/ (exists e,
        ResourceScheduler.DispatchLongQueuedRequestsForTesting e s = Some s').
Proof.
  intros Hstep.
  destruct Hstep as
    [u r Hu Hr | u r r' Hu Hr | e child_id route_id is_async u r handle s' Hu Hr
       Hfresh Hbound Hsched | handle Hdom | e handle s' Hdom Hdestroy
     | e child_id route_id nqe this Hfree Hthis | e child_id route_id s' Hdel
     | e u new_priority new_intra s' Hu Hrep | e s' Hfire | e s' Hdispatch
     | e s' Hrun
     | e k c ect c' st' Hk Hnqe Hcall | e k c count c' st' Hk Hnqe Hcount Hcall
     | e k c c' st' Hk Htimer Hcall | e manager].
  - left. by apply quiet_same.
  - left. by apply quiet_same.
  - right. left. by exists e, child_id, route_id, is_async, u, handle.
  - left. by apply quiet_same.
  - left. by apply (DestroyRequest_quiet e s handle).
  - left. apply OnClientCreated_quiet.
  - left. by apply (OnClientDeleted_quiet e s child_id route_id).
  - left. by apply (ReprioritizeRequest_quiet LOAD_IGNORE_LIMITS e s u
                      new_priority new_intra).
  - right. right. left. by exists e.
  - right. right. right. by exists e.
  - left. by apply (RunTask_quiet e s).
  - left. apply (quiet_update s k c c' st' Hk). intros p.
    unfold Client.OnEffectiveConnectionTypeChanged in Hcall.
    destruct (bool_decide _); [by injection Hcall as <- <- |].
    by apply (LoadAnyStartablePendingRequests_queue _ _ _ _ _ _ p Hcall).
  - left. apply (quiet_update s k c c' st' Hk). intros p.
    unfold Client.OnPeerToPeerConnectionsCountChange in Hcall.
    destruct (_ =? count); [by injection Hcall as <- <- |].
    by apply (LoadAnyStartablePendingRequests_queue _ _ _ _ _ _ p Hcall).
  - left. apply (quiet_update s k c c' st' Hk). intros p.
    unfold Client.OnP2PConnectionsCountEndedTimerFired in Hcall.
    by apply (LoadAnyStartablePendingRequests_queue _ _ _ _ _ _ p Hcall).
  - left. apply SetResourceSchedulerParamsManagerForTests_quiet.
Qed.

(** ** The dispatch timer and the switch of the scheduler *)

Lemma StartLongQueuedRequestsDispatchTimerIfNeeded_running s :
  has_pending s ->
  ResourceScheduler.long_queued_requests_dispatch_timer_
    (ResourceScheduler.StartLongQueuedRequestsDispatchTimerIfNeeded s) = true.
Proof.
  intros (k & c & Hk & Hq).
  unfold ResourceScheduler.StartLongQueuedRequestsDispatchTimerIfNeeded.
  assert (Hfound : existsb (fun kc => negb (Client.HasNoPendingRequests kc.2))
                     (map_to_list (ResourceScheduler.client_map_ s)) = true).
  { apply existsb_exists. exists (k, c). split.
    - apply list_elem_of_In. by apply elem_of_map_to_list.
    - cbn [snd]. unfold Client.HasNoPendingRequests, RequestQueue.IsEmpty.
      by destruct (RequestQueue.queue_ (Client.pending_requests_ c)). }
  by rewrite Hfound.
Qed.

Lemma has_pending_shrink s s' :
  queues_shrink s s' -> has_pending s' -> has_pending s.
Proof.
  intros Hq (k & c' & Hk & Hne).
  destruct (RequestQueue.queue_ (Client.pending_requests_ c')) as [| p l] eqn:E;
    [done |].
  destruct (Hq k c' p Hk) as (c & Hk0 & Hp).
  { rewrite E. apply elem_of_cons. by left. }
  exists k, c. split; [exact Hk0 |]. intros Hnil. rewrite Hnil in Hp.
  by apply elem_of_nil in Hp.
Qed.

Lemma has_pending_ext s s' :
  ResourceScheduler.client_map_ s' = ResourceScheduler.client_map_ s ->
  has_pending s' -> has_pending s.
Proof. unfold has_pending. by intros ->. Qed.

(** What scheduling a request does to the timer, the switch and the
    queues. *)
Lemma ScheduleRequest_timer e s child_id route_id is_async u handle s' :
  ResourceScheduler.ScheduleRequest e s child_id route_id is_async u handle
  = Some s' ->
  ResourceScheduler.enabled_ s' = ResourceScheduler.enabled_ s
  /\ (ResourceScheduler.enabled_ s = false -> queues_shrink s s')
  /\ ((has_pending s ->
       ResourceScheduler.long_queued_requests_dispatch_timer_ s = true) ->
      has_pending s' ->
      ResourceScheduler.long_queued_requests_dispatch_timer_ s' = true).
Proof.
  unfold ResourceScheduler.ScheduleRequest.
  set (k := ResourceScheduler.MakeClientId child_id route_id).
  set (st := with_url_requests _ _).
  destruct (ResourceScheduler.client_map_ s !! k) as [c |] eqn:Hk.
  - destruct (Client.ScheduleRequest (ResourceScheduler.context e s) c st handle)
      as [[c' st'] |] eqn:Hsched; [| discriminate].
    destruct (Client_ScheduleRequest_queue _ _ _ _ _ _ Hsched) as [_ Hoff].
    set (s2 := ResourceScheduler.with_store _ _).
    assert (Hshrink : ResourceScheduler.enabled_ s = false ->
                      queues_shrink s s2).
    { intros He. apply (quiet_update s k c c' st' Hk).
      rewrite (Hoff He). done. }
    destruct (ResourceScheduler.long_queued_requests_dispatch_timer_ s2)
      eqn:Htimer; cbn [negb]; intros [= <-].
    + split; [reflexivity |]. split; [exact Hshrink |]. by intros _ _.
    + destruct (StartLongQueuedRequestsDispatchTimerIfNeeded_same s2)
        as (_ & Ecm & _ & Een).
      split; [by rewrite Een |]. split.
      * intros He k' c'' p Hk' Hp. rewrite Ecm in Hk'.
        by apply (Hshrink He k' c'' p).
      * intros _ Hpending.
        apply StartLongQueuedRequestsDispatchTimerIfNeeded_running.
        by apply (has_pending_ext s2) in Hpending.
  - intros [= <-]. split; [reflexivity |]. split.
    + intros _ k' c'' p Hk' Hp. by exists c''.
    + intros Hinv Hpending. by apply Hinv.
Qed.

Lemma OnLongQueuedRequestsDispatchTimerFired_timer e s s' :
  ResourceScheduler.OnLongQueuedRequestsDispatchTimerFired e s = Some s' ->
  ResourceScheduler.enabled_ s' = ResourceScheduler.enabled_ s
  /\ queues_shrink s s'
  /\ (has_pending s' ->
      ResourceScheduler.long_queued_requests_dispatch_timer_ s' = true).
Proof.
  unfold ResourceScheduler.OnLongQueuedRequestsDispatchTimerFired.
  destruct (ResourceScheduler.fire_clients e _ _) as [s1 |] eqn:Hfire;
    [| discriminate].
  intros [= <-]. apply fire_clients_quiet in Hfire as (Hq & _ & He).
  destruct (StartLongQueuedRequestsDispatchTimerIfNeeded_same s1)
    as (_ & Ecm & _ & Een).
  split; [by rewrite Een, He |]. split.
  - intros k c' p Hk Hp. rewrite Ecm in Hk. by apply (Hq k c' p).
  - intros Hpending.
    apply StartLongQueuedRequestsDispatchTimerIfNeeded_running.
    by apply (has_pending_ext s1) in Hpending.
Qed.

Lemma new_client_map enabled manager :
  ResourceScheduler.client_map_ (ResourceScheduler.new enabled manager) = ∅.
Proof.
  unfold ResourceScheduler.new.
  by destruct (StartLongQueuedRequestsDispatchTimerIfNeeded_same
                 {| ResourceScheduler.store :=
                      {| requests := ∅; url_requests := ∅; posted_tasks := [];
                         resumed := [] |};
                    ResourceScheduler.client_map_ := ∅;
                    ResourceScheduler.unowned_requests_ := ∅;
                    ResourceScheduler.enabled_ := enabled;
                    ResourceScheduler.params_manager_ := manager;
                    ResourceScheduler.long_queued_requests_dispatch_timer_ :=
                      false |}) as (_ & -> & _).
Qed.

(** X12. A disabled scheduler never queues a request: in every state reached
    by a scheduler that was created disabled, the pending queue of every
    client is empty. *)
Theorem X12_disabled_never_queues LOAD_IGNORE_LIMITS kBrowserProcessId s :
  reachable LOAD_IGNORE_LIMITS kBrowserProcessId s ->
  ResourceScheduler.enabled_ s = false ->
  forall client_id c,
    ResourceScheduler.client_map_ s !! client_id = Some c ->
    RequestQueue.queue_ (Client.pending_requests_ c) = [].
Proof.
  induction 1 as [enabled manager | s s' _ IH Hstep].
  - intros _ k c Hk.
    rewrite new_client_map in Hk. by rewrite lookup_empty in Hk.
  - assert (Hshrink : ResourceScheduler.enabled_ s'
                      = ResourceScheduler.enabled_ s
                      /\ (ResourceScheduler.enabled_ s = false ->
                          queues_shrink s s')).
    { destruct (step_classify _ _ _ _ Hstep)
        as [(Hq & _ & He) | [(e & child_id & route_id & is_async & u & handle
                                & Hsched) | [[e Hfire] | [e Hfire]]]].
      - by split.
      - by destruct (ScheduleRequest_timer _ _ _ _ _ _ _ _ Hsched)
          as (He & Hq & _).
      - by destruct (OnLongQueuedRequestsDispatchTimerFired_timer _ _ _ Hfire)
          as (He & Hq & _).
      - by destruct (OnLongQueuedRequestsDispatchTimerFired_timer _ _ _ Hfire)
          as (He & Hq & _). }
    destruct Hshrink as [He Hq]. intros Hoff k c' Hk.
    rewrite He in Hoff.
    destruct (RequestQueue.queue_ (Client.pending_requests_ c')) as [| p l]
      eqn:E; [reflexivity |].
    destruct (Hq Hoff k c' p Hk) as (c & Hk0 & Hp).
    { rewrite E. apply elem_of_cons. by left. }
    rewrite (IH Hoff k c Hk0) in Hp. by apply elem_of_nil in Hp.
Qed.

(** X13. Whenever a request is pending at some client, the timer that
    dispatches long-queued requests is running: this holds in every state
    the scheduler reaches, and is what [OnClientDeleted] asserts before it
    tears a client down. *)
Theorem X13_timer_runs_while_pending LOAD_IGNORE_LIMITS kBrowserProcessId s :
  reachable LOAD_IGNORE_LIMITS kBrowserProcessId s ->
  has_pending s ->
  ResourceScheduler.long_queued_requests_dispatch_timer_ s = true.
Proof.
  induction 1 as [enabled manager | s s' _ IH Hstep].
  - intros (k & c & Hk & _).
    rewrite new_client_map in Hk. by rewrite lookup_empty in Hk.
  - destruct (step_classify _ _ _ _ Hstep)
      as [(Hq & Ht & _) | [(e & child_id & route_id & is_async & u & handle
                              & Hsched) | [[e Hfire] | [e Hfire]]]].
    + intros Hpending. rewrite Ht. apply IH.
      by apply (has_pending_shrink s s').
    + destruct (ScheduleRequest_timer _ _ _ _ _ _ _ _ Hsched) as (_ & _ & Ht).
      by apply Ht.
    + by destruct (OnLongQueuedRequestsDispatchTimerFired_timer _ _ _ Hfire)
        as (_ & _ & Ht).
    + by destruct (OnLongQueuedRequestsDispatchTimerFired_timer _ _ _ Hfire)
        as (_ & _ & Ht).
Qed.

Lemma create_and_schedule_reachable LOAD_IGNORE_LIMITS kBrowserProcessId l :
  forall s s',
    reachable LOAD_IGNORE_LIMITS kBrowserProcessId s ->
    Example.create_and_schedule s l = Some s' ->
    reachable LOAD_IGNORE_LIMITS kBrowserProcessId s'.
Proof.
  induction l as [| [u r] l IH]; intros s s' Hs; simpl.
  - by intros [= <-].
  - destruct (Example.may_schedule s u r (u + 100)) eqn:Hmay; [| discriminate].
    unfold Example.may_schedule in Hmay.
    apply andb_true_iff in Hmay as [Hmay Hbound].
    apply andb_true_iff in Hmay as [Hmay Hhandle].
    apply andb_true_iff in Hmay as [Hu Hdata].
    apply bool_decide_eq_true in Hu, Hdata, Hhandle.
    apply Z.leb_le in Hbound.
    destruct (ResourceScheduler.ScheduleRequest _ _ 1 1 true u (u + 100))
      as [s1 |] eqn:Hsched; [| discriminate].
    apply IH.
    apply (reachable_step _ _ (Example.create_url_request s u r)).
    + apply (reachable_step _ _ s); [exact Hs |].
      by apply step_url_request_created.
    + apply (step_ScheduleRequest _ _ _ (Example.environment false) 1 1 true u
               r (u + 100)); [apply lookup_insert_eq | exact Hdata
               | exact Hhandle | exact Hbound | exact Hsched].
Qed.

Lemma client_registered_reachable enabled :
  reachable Example.LOAD_IGNORE_LIMITS Example.kBrowserProcessId
    (ResourceScheduler.OnClientCreated Example.kBrowserProcessId
       (Example.environment false)
       (ResourceScheduler.new enabled
          (Example.manager Client.ParamsForNetworkQuality_default))
       1 1 false 1%positive).
Proof.
  apply reachable_step
    with (s := ResourceScheduler.new enabled
                 (Example.manager Client.ParamsForNetworkQuality_default)).
  - apply reachable_new.
  - apply step_OnClientCreated.
    + rewrite new_client_map. apply lookup_empty.
    + intros k c H. rewrite new_client_map in H. by rewrite lookup_empty in H.
Defined.

Lemma disabled_reachable :
  reachable Example.LOAD_IGNORE_LIMITS Example.kBrowserProcessId
    Example.disabled_scheduler.
Proof.
  apply (create_and_schedule_reachable _ _ (Example.eight_requests net.LOWEST)
           Example.disabled_registered).
  - apply client_registered_reachable.
  - vm_compute. reflexivity.
Defined.

Lemma queued_reachable :
  reachable Example.LOAD_IGNORE_LIMITS Example.kBrowserProcessId
    Example.queued_scheduler.
Proof.
  apply (create_and_schedule_reachable _ _ (Example.eight_requests net.LOWEST)
           Example.client_registered).
  - apply client_registered_reachable.
  - vm_compute. reflexivity.
Defined.

Lemma X12_disabled_never_queues_witness :
  reachable Example.LOAD_IGNORE_LIMITS Example.kBrowserProcessId
    Example.disabled_scheduler
  /\ ResourceScheduler.enabled_ Example.disabled_scheduler = false
  /\ ResourceScheduler.client_map_ Example.disabled_scheduler
     !! ResourceScheduler.MakeClientId 1 1 = Some Example.disabled_client
  /\ size (Client.in_flight_requests_ Example.disabled_client) = 8%nat
  /\ RequestQueue.queue_ (Client.pending_requests_ Example.disabled_client)
     = [].
Proof.
  assert (He : ResourceScheduler.enabled_ Example.disabled_scheduler = false)
    by (vm_compute; reflexivity).
  assert (Hk : ResourceScheduler.client_map_ Example.disabled_scheduler
               !! ResourceScheduler.MakeClientId 1 1
               = Some Example.disabled_client) by (vm_compute; reflexivity).
  split; [exact disabled_reachable |]. split; [exact He |].
  split; [exact Hk |]. split; [vm_compute; reflexivity |].
  exact (X12_disabled_never_queues _ _ _ disabled_reachable He _ _ Hk).
Defined.

Lemma X13_timer_runs_while_pending_witness :
  reachable Example.LOAD_IGNORE_LIMITS Example.kBrowserProcessId
    Example.queued_scheduler
  /\ Example.pending_of Example.queued_scheduler = [107; 108]%positive
  /\ has_pending Example.queued_scheduler
  /\ ResourceScheduler.long_queued_requests_dispatch_timer_
       Example.queued_scheduler = true.
Proof.
  assert (Hq : Example.pending_of Example.queued_scheduler
               = [107; 108]%positive) by (vm_compute; reflexivity).
  assert (Hpending : has_pending Example.queued_scheduler).
  { exists (ResourceScheduler.MakeClientId 1 1).
    unfold Example.pending_of, Example.the_client in Hq.
    destruct (ResourceScheduler.client_map_ Example.queued_scheduler
              !! ResourceScheduler.MakeClientId 1 1) as [c |];
      [| discriminate].
    exists c. split; [reflexivity |]. by rewrite Hq. }
  split; [exact queued_reachable |]. split; [exact Hq |].
  split; [exact Hpending |].
  exact (X13_timer_runs_while_pending _ _ _ queued_reachable Hpending).
Defined.

(** ** What the operations of a client leave untouched in a handle *)

Section Frames.

Context {A : Type} (f : ScheduledResourceRequestImpl -> A).
Hypothesis f_attributes : forall r m, f (set_attributes r m) = f r.
Hypothesis f_telemetry :
  forall r m, f (UpdateDelayableRequestsInFlight r m) = f r.
Hypothesis f_flags : forall r rd df, f (set_ready_deferred r rd df) = f r.

Lemma LoadAnyStartablePendingRequests_frame cx c st trigger c' st' :
  Client.LoadAnyStartablePendingRequests cx c st trigger = Some (c', st') ->
  forall p, f (deref st' p) = f (deref st p).
Proof.
  unfold Client.LoadAnyStartablePendingRequests.
  set (c0 := Client.with_num_skipped_scans c 0). intros Hload.
  refine (LoadLoop_invariant cx trigger
            (fun _ st1 => forall p, f (deref st1 p) = f (deref st p))
            _ _ c0 st c' st' _ Hload); [| done].
  intros c1 st1 pre request next q HP _ _ _ _ p.
  by rewrite StartRequest_frame.
Qed.

Lemma Client_RemoveRequest_frame cx c st request c' st' :
  Client.RemoveRequest cx c st request = Some (c', st') ->
  forall p, f (deref st' p) = f (deref st p).
Proof.
  unfold Client.RemoveRequest.
  destruct (RequestQueue.IsQueued _ request).
  - destruct (RequestQueue.Erase _ request); [| discriminate].
    by intros [= <- <-].
  - unfold Client.EraseInFlightRequest.
    match goal with
    | |- context [Client.SetRequestAttributes ?c1 st request kAttributeNone] =>
        pose proof (fun p =>
                      SetRequestAttributes_frame f c1 st request kAttributeNone
                        p f_attributes) as H1;
        destruct (Client.SetRequestAttributes c1 st request kAttributeNone)
          as [c2 st2]
    end.
    cbn [snd] in H1. intros Hload p.
    rewrite (LoadAnyStartablePendingRequests_frame _ _ _ _ _ _ Hload).
    apply H1.
Qed.

Lemma StartAllPending_frame cx n : forall c st c' st',
  Client.StartAllPending cx n c st = Some (c', st') ->
  forall p, f (deref st' p) = f (deref st p).
Proof.
  induction n as [| n IH]; intros c st c' st'; simpl;
    destruct (RequestQueue.queue_ (Client.pending_requests_ c))
      as [| request l];
    try discriminate; try (by intros [= <- <-]).
  destruct (RequestQueue.Erase _ request) as [q |]; [| discriminate].
  pose proof (fun p =>
                StartRequest_frame f cx (Client.with_pending_requests c q) st
                  request START_ASYNC CLIENT_KILL p f_attributes f_telemetry
                  f_flags) as H1.
  destruct (Client.StartRequest cx _ st request START_ASYNC CLIENT_KILL)
    as [c1 st1].
  cbn [snd] in H1. intros Hrest p. rewrite (IH _ _ _ _ Hrest). apply H1.
Qed.

Lemma clear_attributes_frame l : forall st p,
  f (deref
       (foldr
          (fun q st =>
             store_request st q (set_attributes (deref st q) kAttributeNone))
          st l) p)
  = f (deref st p).
Proof.
  induction l as [| q l IH]; intros st p; simpl; [done |].
  destruct (decide (q = p)) as [-> | Hne].
  - by rewrite deref_store_request, f_attributes.
  - by rewrite deref_store_request_ne.
Qed.

Lemma StartAndRemoveAllRequests_frame cx c st c' st' U :
  Client.StartAndRemoveAllRequests cx c st = Some (c', st', U) ->
  forall p, f (deref st' p) = f (deref st p).
Proof.
  unfold Client.StartAndRemoveAllRequests.
  destruct (Client.StartAllPending cx _ c st) as [[c1 st1] |] eqn:Hall;
    [| discriminate].
  intros [= <- <- <-] p. rewrite clear_attributes_frame.
  by apply (StartAllPending_frame cx _ _ _ _ _ Hall).
Qed.

Lemma Client_ScheduleRequest_frame cx c st request c' st' p :
  Client.ScheduleRequest cx c st request = Some (c', st') ->
  p <> request \/ (forall r x, f (set_fifo_ordering r x) = f r) ->
  f (deref st' p) = f (deref st p).
Proof.
  unfold Client.ScheduleRequest.
  match goal with
  | |- context [Client.SetRequestAttributes c st request ?a] =>
      pose proof (SetRequestAttributes_frame f c st request a p f_attributes)
        as H1;
      destruct (Client.SetRequestAttributes c st request a) as [c1 st1]
  end.
  cbn [snd] in H1.
  assert (Hinsert :
            p <> request \/ (forall r x, f (set_fifo_ordering r x) = f r) ->
            forall x,
              f (deref
                   (store_request st1 request
                      (set_fifo_ordering (deref st1 request) x)) p)
              = f (deref st p)).
  { intros Hp x. rewrite <- H1.
    destruct (decide (request = p)) as [<- | Hne].
    - rewrite deref_store_request. destruct Hp as [? | Hf]; [done | apply Hf].
    - by rewrite deref_store_request_ne. }
  destruct (Client.ShouldStartRequest cx c1 st1 request) as [[| |] |];
    [| | | discriminate].
  - rewrite Insert_queue. intros [= <- <-] Hp. by apply Hinsert.
  - rewrite Insert_queue. intros [= <- <-] Hp. by apply Hinsert.
  - pose proof (StartRequest_frame f cx c1 st1 request START_SYNC NONE p
                  f_attributes f_telemetry f_flags) as H2.
    destruct (Client.StartRequest cx c1 st1 request START_SYNC NONE)
      as [c2 st2].
    cbn [snd] in H2. intros [= <- <-] _. by rewrite H2.
Qed.

Lemma Client_ReprioritizeRequest_frame cx c st request old_priority_params
    new_priority_params c' st' p :
  Client.ReprioritizeRequest cx c st request old_priority_params
    new_priority_params = Some (c', st') ->
  p <> request
  \/ ((forall r x, f (set_fifo_ordering r x) = f r)
      /\ (forall r x, f (set_request_priority_params r x) = f r)) ->
  f (deref st' p) = f (deref st p).
Proof.
  unfold Client.ReprioritizeRequest. intros Hrep Hp. revert Hrep.
  set (st0 := store_request _ request _).
  assert (H0 : f (deref st0 p) = f (deref st p)).
  { unfold st0. destruct (decide (request = p)) as [<- | Hne].
    - rewrite deref_store_request, deref_with_url_requests.
      destruct Hp as [? | [_ Hf]]; [done | apply Hf].
    - by rewrite deref_store_request_ne. }
  match goal with
  | |- context [Client.SetRequestAttributes c st0 request ?a] =>
      pose proof (SetRequestAttributes_frame f c st0 request a p f_attributes)
        as H1;
      destruct (Client.SetRequestAttributes c st0 request a) as [c1 st1]
  end.
  cbn [snd] in H1.
  destruct (negb _); [intros [= <- <-]; by rewrite H1 |].
  destruct (RequestQueue.Erase _ request) as [q |]; [| discriminate].
  rewrite Insert_queue.
  assert (H2 : forall x,
            f (deref
                 (store_request st1 request
                    (set_fifo_ordering (deref st1 request) x)) p)
            = f (deref st p)).
  { intros x. rewrite <- H0, <- H1.
    destruct (decide (request = p)) as [<- | Hne].
    - rewrite deref_store_request. destruct Hp as [? | [Hf _]]; [done | apply Hf].
    - by rewrite deref_store_request_ne. }
  destruct (_ <? _); [| intros [= <- <-]; apply H2].
  unfold Client.ScheduleLoadAnyStartablePendingRequests.
  destruct (_ =? 0); intros [= <- <-]; apply H2.
Qed.

End Frames.

(** ** The order of the pending queues *)

Lemma queue_sorted_key st st' l :
  (forall p, p ∈ l -> key (deref st' p) = key (deref st p)) ->
  queue_sorted st l -> queue_sorted st' l.
Proof.
  intros Hkey. apply queue_sorted_ext. intros p Hp.
  specialize (Hkey p Hp). unfold key in Hkey. by injection Hkey.
Qed.

Lemma queue_sorted_erase st x l :
  queue_sorted st l -> queue_sorted st (erase_node x l).
Proof.
  unfold queue_sorted. intros Hs.
  induction Hs as [| a l Hs IH Ha]; simpl; [constructor |].
  destruct (decide (x = a)); [exact Hs |].
  constructor; [exact IH |].
  rewrite Forall_forall in *. intros b Hb. apply Ha.
  by apply erase_node_subseteq in Hb.
Qed.

(** Taking a handle out of the queue and inserting it again keeps the queue
    in order, whatever happened to the key of the handle in between. *)
Lemma queue_sorted_reinsert st st' request l :
  NoDup l -> queue_sorted st l ->
  (forall p, p <> request -> key (deref st' p) = key (deref st p)) ->
  queue_sorted st'
    (multiset_insert (comes_before st') request (erase_node request l)).
Proof.
  intros Hnd Hs Hkey. apply queue_sorted_insert.
  apply (queue_sorted_key st); [| by apply queue_sorted_erase].
  intros p Hp. apply erase_node_elem_of in Hp as [Hne _]; [| exact Hnd].
  by apply Hkey.
Qed.

Lemma LoadAnyStartablePendingRequests_sorted cx c st trigger c' st' :
  queue_sorted st (RequestQueue.queue_ (Client.pending_requests_ c)) ->
  Client.LoadAnyStartablePendingRequests cx c st trigger = Some (c', st') ->
  queue_sorted st' (RequestQueue.queue_ (Client.pending_requests_ c')).
Proof.
  intros Hs Hload. apply (queue_sorted_key st).
  { intros p _.
    by apply (LoadAnyStartablePendingRequests_frame key (fun _ _ => eq_refl)
                (fun _ _ => eq_refl) (fun _ _ _ => eq_refl) _ _ _ _ _ _ Hload). }
  revert Hload. unfold Client.LoadAnyStartablePendingRequests.
  set (c0 := Client.with_num_skipped_scans c 0). intros Hload.
  refine (LoadLoop_invariant cx trigger
            (fun c1 _ =>
               queue_sorted st
                 (RequestQueue.queue_ (Client.pending_requests_ c1)))
            _ _ c0 st c' st' _ Hload); [| exact Hs].
  intros c1 st1 pre request next q HP _ _ _ Herase.
  rewrite StartRequest_pending. apply Erase_Some in Herase as [_ ->].
  by apply queue_sorted_erase.
Qed.

Lemma Client_RemoveRequest_sorted cx c st request c' st' :
  queue_sorted st (RequestQueue.queue_ (Client.pending_requests_ c)) ->
  Client.RemoveRequest cx c st request = Some (c', st') ->
  queue_sorted st' (RequestQueue.queue_ (Client.pending_requests_ c')).
Proof.
  intros Hs. unfold Client.RemoveRequest.
  destruct (RequestQueue.IsQueued _ request).
  - destruct (RequestQueue.Erase _ request) as [q |] eqn:Herase;
      [| discriminate].
    intros [= <- <-]. apply Erase_Some in Herase as [_ ->].
    by apply queue_sorted_erase.
  - unfold Client.EraseInFlightRequest.
    match goal with
    | |- context [Client.SetRequestAttributes ?c1 st request kAttributeNone] =>
        pose proof (SetRequestAttributes_pending c1 st request kAttributeNone)
          as Hp1;
        pose proof (fun p =>
                      SetRequestAttributes_frame key c1 st request
                        kAttributeNone p (fun _ _ => eq_refl)) as Hk1;
        destruct (Client.SetRequestAttributes c1 st request kAttributeNone)
          as [c2 st2]
    end.
    cbn [fst snd] in Hp1, Hk1.
    apply LoadAnyStartablePendingRequests_sorted.
    apply (queue_sorted_key st); [intros p _; apply Hk1 |].
    rewrite Hp1. by destruct (negb _).
Qed.

Lemma Client_ScheduleRequest_sorted cx c st request c' st' :
  request ∉ RequestQueue.queue_ (Client.pending_requests_ c) ->
  queue_sorted st (RequestQueue.queue_ (Client.pending_requests_ c)) ->
  Client.ScheduleRequest cx c st request = Some (c', st') ->
  queue_sorted st' (RequestQueue.queue_ (Client.pending_requests_ c')).
Proof.
  intros Hnotin Hs Hsched.
  assert (Hold : queue_sorted st'
                   (RequestQueue.queue_ (Client.pending_requests_ c))).
  { apply (queue_sorted_key st); [| exact Hs]. intros p Hp.
    apply (Client_ScheduleRequest_frame key (fun _ _ => eq_refl)
             (fun _ _ => eq_refl) (fun _ _ _ => eq_refl) _ _ _ _ _ _ p Hsched).
    left. intros ->. contradiction. }
  revert Hsched Hold. unfold Client.ScheduleRequest.
  match goal with
  | |- context [Client.SetRequestAttributes c st request ?a] =>
      pose proof (SetRequestAttributes_pending c st request a) as Hp1;
      destruct (Client.SetRequestAttributes c st request a) as [c1 st1]
  end.
  cbn [fst] in Hp1.
  destruct (Client.ShouldStartRequest cx c1 st1 request) as [[| |] |];
    [| | | discriminate].
  - rewrite Insert_queue. intros [= <- <-] Hold.
    cbn [Client.with_pending_requests Client.pending_requests_
         RequestQueue.queue_].
    rewrite Hp1 in *. by apply queue_sorted_insert.
  - rewrite Insert_queue. intros [= <- <-] Hold.
    cbn [Client.with_pending_requests Client.pending_requests_
         RequestQueue.queue_].
    rewrite Hp1 in *. by apply queue_sorted_insert.
  - destruct (StartRequest_client cx c1 st1 request START_SYNC NONE)
      as (d & l & start & Hc2).
    destruct (Client.StartRequest cx c1 st1 request START_SYNC NONE)
      as [c2 st2].
    cbn [fst] in Hc2. intros [= <- <-]. subst c2.
    cbn [Client.with_counts Client.with_in_flight_requests
         Client.with_last_non_delayable Client.pending_requests_].
    by rewrite Hp1.
Qed.

Lemma Client_ReprioritizeRequest_sorted cx c st request old_priority_params
    new_priority_params c' st' :
  NoDup (RequestQueue.queue_ (Client.pending_requests_ c)) ->
  queue_sorted st (RequestQueue.queue_ (Client.pending_requests_ c)) ->
  Client.ReprioritizeRequest cx c st request old_priority_params
    new_priority_params = Some (c', st') ->
  queue_sorted st' (RequestQueue.queue_ (Client.pending_requests_ c')).
Proof.
  intros Hnd Hs Hrep.
  assert (Hkey : forall p, p <> request ->
                   key (deref st' p) = key (deref st p)).
  { intros p Hne.
    apply (Client_ReprioritizeRequest_frame key (fun _ _ => eq_refl)
             _ _ _ _ _ _ _ _ p Hrep). by left. }
  revert Hrep Hkey. unfold Client.ReprioritizeRequest.
  match goal with
  | |- context [Client.SetRequestAttributes c ?st0 request ?a] =>
      pose proof (SetRequestAttributes_pending c st0 request a) as Hp1;
      destruct (Client.SetRequestAttributes c st0 request a) as [c1 st1]
  end.
  cbn [fst] in Hp1.
  destruct (RequestQueue.IsQueued _ request) eqn:Hq; cbn [negb].
  - destruct (RequestQueue.Erase _ request) as [q |] eqn:Herase;
      [| discriminate].
    apply Erase_Some in Herase as [_ ->]. rewrite Insert_queue.
    cbn [RequestQueue.queue_]. rewrite Hp1.
    destruct (_ <? _).
    + unfold Client.ScheduleLoadAnyStartablePendingRequests.
      destruct (_ =? 0); intros [= <- <-] Hkey;
        [| by apply (queue_sorted_reinsert st)].
      match goal with
      | |- queue_sorted (PostTask ?s ?t) ?l => change (queue_sorted s l)
      end.
      apply (queue_sorted_reinsert st); [exact Hnd | exact Hs | exact Hkey].
    + intros [= <- <-] Hkey. by apply (queue_sorted_reinsert st).
  - intros [= <- <-] Hkey. rewrite Hp1.
    apply (queue_sorted_key st); [| exact Hs].
    intros p Hp. apply Hkey. intros ->.
    unfold RequestQueue.IsQueued in Hq. apply bool_decide_eq_false in Hq.
    by rewrite Hp1 in Hq.
Qed.

Lemma queues_sorted_same s s' :
  ResourceScheduler.client_map_ s' = ResourceScheduler.client_map_ s ->
  (forall k c p,
     ResourceScheduler.client_map_ s !! k = Some c ->
     p ∈ RequestQueue.queue_ (Client.pending_requests_ c) ->
     key (deref (ResourceScheduler.store s') p)
     = key (deref (ResourceScheduler.store s) p)) ->
  queues_sorted s -> queues_sorted s'.
Proof.
  intros Hm Hkey Hs k c Hk. rewrite Hm in Hk.
  apply (queue_sorted_key (ResourceScheduler.store s));
    [intros p Hp; by apply (Hkey k c) | by apply (Hs k)].
Qed.

Lemma queues_sorted_update s k c' st' :
  queues_sorted s ->
  queue_sorted st' (RequestQueue.queue_ (Client.pending_requests_ c')) ->
  (forall k2 c2 p,
     k2 <> k ->
     ResourceScheduler.client_map_ s !! k2 = Some c2 ->
     p ∈ RequestQueue.queue_ (Client.pending_requests_ c2) ->
     key (deref st' p) = key (deref (ResourceScheduler.store s) p)) ->
  queues_sorted (update_client s k c' st').
Proof.
  intros Hs Hc Hkey k2 c2 Hk2.
  cbn [update_client ResourceScheduler.with_store
       ResourceScheduler.with_client_map ResourceScheduler.client_map_
       ResourceScheduler.store] in *.
  destruct (decide (k2 = k)) as [-> | Hne].
  - rewrite lookup_insert_eq in Hk2. injection Hk2 as <-. exact Hc.
  - rewrite lookup_insert_ne in Hk2 by done.
    apply (queue_sorted_key (ResourceScheduler.store s));
      [intros p Hp; by apply (Hkey k2 c2) | by apply (Hs k2)].
Qed.

Lemma queued_tracked c p :
  p ∈ RequestQueue.queue_ (Client.pending_requests_ c) -> p ∈ tracked c.
Proof.
  intros Hp. unfold tracked. apply elem_of_union. right.
  by apply elem_of_list_to_set.
Qed.

Lemma ScheduleRequest_sorted e s child_id route_id is_async u handle s' :
  scheduler_invariant s -> queues_sorted s ->
  requests (ResourceScheduler.store s) !! handle = None ->
  ResourceScheduler.ScheduleRequest e s child_id route_id is_async u handle
  = Some s' ->
  queues_sorted s'.
Proof.
  intros Hinv Hs Hfresh.
  destruct (untracked_unallocated s handle Hinv Hfresh) as [_ Hnt].
  assert (Hnq : forall k c,
            ResourceScheduler.client_map_ s !! k = Some c ->
            handle ∉ RequestQueue.queue_ (Client.pending_requests_ c)).
  { intros k c Hk Hin. apply (Hnt k c Hk). by apply queued_tracked. }
  unfold ResourceScheduler.ScheduleRequest.
  set (k := ResourceScheduler.MakeClientId child_id route_id).
  set (st := with_url_requests _ _).
  assert (Hst : forall p, p <> handle ->
                  deref st p = deref (ResourceScheduler.store s) p).
  { intros p Hne. unfold st. rewrite deref_with_url_requests.
    by apply deref_store_request_ne. }
  destruct (ResourceScheduler.client_map_ s !! k) as [c |] eqn:Hk.
  - destruct (Client.ScheduleRequest _ c st handle) as [[c' st'] |] eqn:Hsched;
      [| discriminate].
    set (s2 := ResourceScheduler.with_store _ _).
    assert (Hq : queues_sorted s2).
    { apply (queues_sorted_update s k c' st' Hs).
      - refine (Client_ScheduleRequest_sorted _ c st handle c' st' _ _ Hsched);
          [by apply (Hnq k) |].
        apply (queue_sorted_key (ResourceScheduler.store s));
          [| by apply (Hs k)].
        intros p Hp. rewrite Hst; [done |]. intros ->. by apply (Hnq k c Hk).
      - intros k2 c2 p Hne Hk2 Hp.
        assert (Hp2 : p <> handle) by (intros ->; by apply (Hnq k2 c2 Hk2)).
        rewrite (Client_ScheduleRequest_frame key (fun _ _ => eq_refl)
                   (fun _ _ => eq_refl) (fun _ _ _ => eq_refl) _ _ _ _ _ _ p
                   Hsched (or_introl Hp2)).
        by rewrite Hst. }
    destruct (negb _); intros [= <-]; [| exact Hq].
    destruct (StartLongQueuedRequestsDispatchTimerIfNeeded_same s2)
      as (Est & Ecm & _).
    intros k2 c2 Hk2. rewrite Ecm in Hk2. rewrite Est. by apply (Hq k2).
  - intros [= <-]. apply (queues_sorted_same s); [reflexivity | | exact Hs].
    intros k2 c2 p Hk2 Hp.
    cbn [ResourceScheduler.with_store ResourceScheduler.store].
    rewrite (Start_frame key) by (intros; reflexivity).
    rewrite Hst; [done |]. intros ->. by apply (Hnq k2 c2 Hk2).
Qed.

Lemma RemoveRequest_sorted e s request s' :
  queues_sorted s ->
  ResourceScheduler.RemoveRequest e s request = Some s' ->
  queues_sorted s'.
Proof.
  intros Hs. unfold ResourceScheduler.RemoveRequest.
  destruct (bool_decide _); [intros [= <-]; exact Hs |].
  destruct (ResourceScheduler.client_map_ s !! _) as [c |] eqn:Hk;
    [| intros [= <-]; exact Hs].
  destruct (Client.RemoveRequest _ c _ request) as [[c' st'] |] eqn:Hremove;
    [| discriminate].
  intros [= <-]. apply (queues_sorted_update s _ c' st' Hs).
  - exact (Client_RemoveRequest_sorted _ c _ request c' st' (Hs _ c Hk)
             Hremove).
  - intros k2 c2 p _ _ _.
    by apply (Client_RemoveRequest_frame key (fun _ _ => eq_refl)
                (fun _ _ => eq_refl) (fun _ _ _ => eq_refl) _ _ _ _ _ _
                Hremove).
Qed.

Lemma DestroyRequest_sorted e s request s' :
  scheduler_invariant s ->
  request ∈ dom (requests (ResourceScheduler.store s)) ->
  queues_sorted s ->
  ResourceScheduler.DestroyRequest e s request = Some s' ->
  queues_sorted s'.
Proof.
  intros Hinv Hdom Hs. unfold ResourceScheduler.DestroyRequest.
  set (st := with_url_requests _ _).
  assert (Hinv1 : scheduler_invariant (ResourceScheduler.with_store s st))
    by (by apply scheduler_invariant_store).
  destruct (ResourceScheduler.RemoveRequest e
              (ResourceScheduler.with_store s st) request)
    as [s1 |] eqn:Hremove; [| discriminate].
  intros [= <-].
  destruct (RemoveRequest_invariant e _ request s1 Hinv1 Hdom Hremove)
    as (_ & _ & Hnt & _).
  apply RemoveRequest_sorted in Hremove; [| exact Hs].
  apply (queues_sorted_same s1); [reflexivity | | exact Hremove].
  intros k c p Hk Hp.
  assert (Hne : request <> p).
  { intros ->. apply (Hnt k c Hk). by apply queued_tracked. }
  unfold deref.
  cbn [ResourceScheduler.with_store ResourceScheduler.store requests].
  by rewrite lookup_total_delete_ne.
Qed.

Lemma OnClientCreated_sorted kBrowserProcessId e s child_id route_id
    network_quality_estimator this :
  queues_sorted s ->
  queues_sorted
    (ResourceScheduler.OnClientCreated kBrowserProcessId e s child_id route_id
       network_quality_estimator this).
Proof.
  intros Hs k c Hk.
  cbn [ResourceScheduler.OnClientCreated ResourceScheduler.with_client_map
       ResourceScheduler.client_map_ ResourceScheduler.store] in *.
  destruct (decide (k = ResourceScheduler.MakeClientId child_id route_id))
    as [-> | Hne].
  - rewrite lookup_insert_eq in Hk. injection Hk as <-.
    destruct (Client_new_members (ResourceScheduler.context e s) this
                (child_id =? kBrowserProcessId) network_quality_estimator)
      as (Ep & _).
    rewrite Ep. constructor.
  - rewrite lookup_insert_ne in Hk by done. by apply (Hs k).
Qed.

Lemma OnClientDeleted_sorted e s child_id route_id s' :
  queues_sorted s ->
  ResourceScheduler.OnClientDeleted e s child_id route_id = Some s' ->
  queues_sorted s'.
Proof.
  intros Hs. unfold ResourceScheduler.OnClientDeleted.
  destruct (ResourceScheduler.client_map_ s !! _) as [c |]; [| discriminate].
  destruct (Client.StartAndRemoveAllRequests _ c _) as [[[c' st'] U] |] eqn:Hall;
    [| discriminate].
  intros [= <-] k c2 Hk.
  cbn [ResourceScheduler.with_client_map ResourceScheduler.client_map_
       ResourceScheduler.with_unowned_requests ResourceScheduler.with_store
       ResourceScheduler.store] in *.
  apply lookup_delete_Some in Hk as [_ Hk].
  apply (queue_sorted_key (ResourceScheduler.store s)); [| by apply (Hs k)].
  intros p _.
  change (key (deref st' p) = key (deref (ResourceScheduler.store s) p)).
  by apply (StartAndRemoveAllRequests_frame key (fun _ _ => eq_refl)
              (fun _ _ => eq_refl) (fun _ _ _ => eq_refl) _ _ _ _ _ _ Hall).
Qed.

Lemma ReprioritizeRequest_sorted LOAD_IGNORE_LIMITS e s u new_priority
    new_intra_priority_value s' :
  scheduler_invariant s -> queues_sorted s ->
  ResourceScheduler.ReprioritizeRequest LOAD_IGNORE_LIMITS e s u new_priority
    new_intra_priority_value = Some s' ->
  queues_sorted s'.
Proof.
  intros Hinv Hs. pose proof Hinv as (G1 & _).
  unfold ResourceScheduler.ReprioritizeRequest. cbv zeta.
  destruct (negb _); [intros [= <-]; exact Hs |].
  destruct (net.user_data _) as [h |]; [| intros [= <-]; exact Hs].
  destruct (params_eq _ _); [intros [= <-]; exact Hs |].
  set (k := client_id_ (deref (ResourceScheduler.store s) h)).
  assert (Hother : forall k2 c2,
            k2 <> k ->
            ResourceScheduler.client_map_ s !! k2 = Some c2 ->
            h ∉ RequestQueue.queue_ (Client.pending_requests_ c2)).
  { intros k2 c2 Hne Hk2 Hin.
    destruct (G1 k2 c2 Hk2) as (_ & _ & _ & _ & Hd & _).
    destruct (Hd h (queued_tracked _ _ Hin)) as [_ Hid].
    apply Hne. by rewrite <- Hid. }
  destruct (ResourceScheduler.client_map_ s !! k) as [c |] eqn:Hk.
  - destruct (Client.ReprioritizeRequest _ c _ h _ _) as [[c' st'] |] eqn:Hrep;
      [| discriminate].
    intros [= <-]. apply (queues_sorted_update s k c' st' Hs).
    + destruct (G1 k c Hk) as (_ & _ & Hnd & _).
      exact (Client_ReprioritizeRequest_sorted _ c _ h _ _ c' st' Hnd
               (Hs k c Hk) Hrep).
    + intros k2 c2 p Hne Hk2 Hp.
      apply (Client_ReprioritizeRequest_frame key (fun _ _ => eq_refl)
               _ _ _ _ _ _ _ _ p Hrep).
      left. intros ->. by apply (Hother k2 c2).
  - intros [= <-]. apply (queues_sorted_same s); [reflexivity | | exact Hs].
    intros k2 c2 p Hk2 Hp.
    assert (Hne : k2 <> k) by (intros ->; congruence).
    assert (Hp2 : h <> p) by (intros ->; by apply (Hother k2 c2)).
    cbn [ResourceScheduler.with_store ResourceScheduler.store].
    by rewrite deref_store_request_ne.
Qed.

(** A pass over the pending requests of a client, after a change to the
    client that leaves its queue alone. *)
Lemma pass_sorted s k c c0 cx trigger c' st' :
  queues_sorted s ->
  ResourceScheduler.client_map_ s !! k = Some c ->
  Client.pending_requests_ c0 = Client.pending_requests_ c ->
  Client.LoadAnyStartablePendingRequests cx c0 (ResourceScheduler.store s)
    trigger = Some (c', st') ->
  queues_sorted (update_client s k c' st').
Proof.
  intros Hs Hk Hq Hload. apply (queues_sorted_update s k c' st' Hs).
  - refine (LoadAnyStartablePendingRequests_sorted _ c0 _ _ c' st' _ Hload).
    rewrite Hq. by apply (Hs k).
  - intros k2 c2 p _ _ _.
    by apply (LoadAnyStartablePendingRequests_frame key (fun _ _ => eq_refl)
                (fun _ _ => eq_refl) (fun _ _ _ => eq_refl) _ _ _ _ _ _ Hload).
Qed.

Lemma fire_clients_sorted e ids : forall s s',
  queues_sorted s ->
  ResourceScheduler.fire_clients e s ids = Some s' ->
  queues_sorted s'.
Proof.
  induction ids as [| k ids IH]; intros s s' Hs; simpl.
  - by intros [= <-].
  - destruct (ResourceScheduler.client_map_ s !! k) as [c |] eqn:Hk;
      [| by apply IH].
    unfold Client.OnLongQueuedRequestsDispatchTimerFired.
    destruct (Client.LoadAnyStartablePendingRequests _ c _ _)
      as [[c' st'] |] eqn:Hload; [| discriminate].
    apply IH. exact (pass_sorted s k c c _ _ c' st' Hs Hk eq_refl Hload).
Qed.

Lemma OnLongQueuedRequestsDispatchTimerFired_sorted e s s' :
  queues_sorted s ->
  ResourceScheduler.OnLongQueuedRequestsDispatchTimerFired e s = Some s' ->
  queues_sorted s'.
Proof.
  intros Hs. unfold ResourceScheduler.OnLongQueuedRequestsDispatchTimerFired.
  destruct (ResourceScheduler.fire_clients e _ _) as [s1 |] eqn:Hfire;
    [| discriminate].
  intros [= <-]. apply fire_clients_sorted in Hfire; [| exact Hs].
  destruct (StartLongQueuedRequestsDispatchTimerIfNeeded_same s1)
    as (Est & Ecm & _).
  intros k c Hk. rewrite Ecm in Hk. rewrite Est. by apply (Hfire k).
Qed.

Lemma RunTask_sorted e s s' :
  queues_sorted s ->
  ResourceScheduler.RunTask e s = Some s' ->
  queues_sorted s'.
Proof.
  intros Hs. unfold ResourceScheduler.RunTask.
  destruct (posted_tasks (ResourceScheduler.store s)) as [| task rest];
    [by intros [= <-] |].
  destruct task as [request | this trigger].
  - destruct (bool_decide _); intros [= <-]; [| exact Hs].
    apply (queues_sorted_same s); [reflexivity | | exact Hs].
    intros k c p _ _.
    cbn [ResourceScheduler.with_store ResourceScheduler.store].
    by rewrite (Start_frame key) by (intros; reflexivity).
  - destruct (filter _ _) as [| [k c] l] eqn:Hfilter;
      [intros [= <-]; exact Hs |].
    assert (Hk : ResourceScheduler.client_map_ s !! k = Some c).
    { apply elem_of_map_to_list.
      assert (Hin : (k, c) ∈ (k, c) :: l) by (apply elem_of_cons; by left).
      rewrite <- Hfilter in Hin.
      by apply list_elem_of_filter in Hin as [_ Hin]. }
    destruct (Client.LoadAnyStartablePendingRequests _ c _ trigger)
      as [[c' st'] |] eqn:Hload; [| discriminate].
    intros [= <-].
    match goal with
    | |- queues_sorted (ResourceScheduler.with_store
                          (ResourceScheduler.with_client_map ?s0 _) _) =>
        exact (pass_sorted s0 k c c _ _ c' st' Hs Hk eq_refl Hload)
    end.
Qed.

Lemma step_sorted LOAD_IGNORE_LIMITS kBrowserProcessId s s' :
  scheduler_invariant s -> queues_sorted s ->
  step LOAD_IGNORE_LIMITS kBrowserProcessId s s' ->
  queues_sorted s'.
Proof.
  intros Hinv Hs Hstep.
  destruct Hstep as
    [u r Hu Hr | u r r' Hu Hr | e child_id route_id is_async u r handle s' Hu Hr
       Hfresh Hbound Hsched | handle Hdom | e handle s' Hdom Hdestroy
     | e child_id route_id nqe this Hfree Hthis | e child_id route_id s' Hdel
     | e u new_priority new_intra s' Hu Hrep | e s' Hfire | e s' Hdispatch
     | e s' Hrun
     | e k c ect c' st' Hk Hnqe Hcall | e k c count c' st' Hk Hnqe Hcount Hcall
     | e k c c' st' Hk Htimer Hcall | e manager].
  - exact Hs.
  - exact Hs.
  - by apply (ScheduleRequest_sorted e s child_id route_id is_async u handle).
  - apply (queues_sorted_same s); [reflexivity | | exact Hs].
    intros k c p _ _.
    cbn [ResourceScheduler.with_store ResourceScheduler.store].
    unfold WillStartRequest. cbn [fst].
    destruct (decide (handle = p)) as [-> | Hne].
    + by rewrite deref_store_request.
    + by rewrite deref_store_request_ne.
  - by apply (DestroyRequest_sorted e s handle).
  - by apply OnClientCreated_sorted.
  - by apply (OnClientDeleted_sorted e s child_id route_id).
  - by apply (ReprioritizeRequest_sorted LOAD_IGNORE_LIMITS e s u new_priority
                new_intra).
  - by apply (OnLongQueuedRequestsDispatchTimerFired_sorted e s).
  - by apply (OnLongQueuedRequestsDispatchTimerFired_sorted e
                (ResourceScheduler.with_timer s false)).
  - by apply (RunTask_sorted e s).
  - unfold Client.OnEffectiveConnectionTypeChanged in Hcall.
    destruct (bool_decide _).
    + injection Hcall as <- <-.
      apply (queues_sorted_update s k c _ Hs); [by apply (Hs k) | done].
    + refine (pass_sorted s k c _ _ _ c' st' Hs Hk _ Hcall). reflexivity.
  - unfold Client.OnPeerToPeerConnectionsCountChange in Hcall.
    destruct (_ =? count).
    + injection Hcall as <- <-.
      apply (queues_sorted_update s k c _ Hs); [by apply (Hs k) | done].
    + refine (pass_sorted s k c _ _ _ c' st' Hs Hk _ Hcall). reflexivity.
  - unfold Client.OnP2PConnectionsCountEndedTimerFired in Hcall.
    refine (pass_sorted s k c _ _ _ c' st' Hs Hk _ Hcall). reflexivity.
  - intros k c Hk.
    cbn [ResourceScheduler.SetResourceSchedulerParamsManagerForTests
         ResourceScheduler.with_client_map ResourceScheduler.client_map_
         ResourceScheduler.with_params_manager ResourceScheduler.store] in *.
    rewrite lookup_fmap in Hk.
    destruct (ResourceScheduler.client_map_ s !! k) as [c0 |] eqn:Hk0;
      [| discriminate].
    injection Hk as <-. exact (Hs k c0 Hk0).
Qed.

Lemma reachable_sorted LOAD_IGNORE_LIMITS kBrowserProcessId s :
  reachable LOAD_IGNORE_LIMITS kBrowserProcessId s -> queues_sorted s.
Proof.
  induction 1 as [enabled manager | s s' Hreach IH Hstep].
  - intros k c Hk. rewrite new_client_map in Hk. by rewrite lookup_empty in Hk.
  - apply (step_sorted LOAD_IGNORE_LIMITS kBrowserProcessId s s');
      [by apply (reachable_invariant LOAD_IGNORE_LIMITS kBrowserProcessId)
      | exact IH | exact Hstep].
Qed.

(** X14. The pending queue of every client stays in the order of
    [ScheduledResourceSorter] in every state the scheduler reaches, through
    insertions, removals, re-prioritizations and starts: a pending request
    never compares less than one that sits before it, so that no request
    sits behind a request of lower priority, and the head of the queue, which
    every pass examines first, has the highest priority of all pending
    requests of the client. *)
Theorem X14_queues_in_order LOAD_IGNORE_LIMITS kBrowserProcessId s client_id c :
  reachable LOAD_IGNORE_LIMITS kBrowserProcessId s ->
  ResourceScheduler.client_map_ s !! client_id = Some c ->
  queue_sorted (ResourceScheduler.store s)
    (RequestQueue.queue_ (Client.pending_requests_ c))
  /\ forall a b,
       precedes a b (RequestQueue.queue_ (Client.pending_requests_ c)) ->
       comes_before (ResourceScheduler.store s) b a = false
       /\ net.ordinal
            (rp_priority (priority_ (deref (ResourceScheduler.store s) b)))
          <= net.ordinal
               (rp_priority (priority_ (deref (ResourceScheduler.store s) a))).
Proof.
  intros Hreach Hk.
  pose proof (reachable_sorted _ _ _ Hreach client_id c Hk) as Hs.
  split; [exact Hs |]. intros a b (l1 & l2 & l3 & Hl).
  assert (Hba : comes_before (ResourceScheduler.store s) b a = false).
  { unfold queue_sorted in Hs. rewrite Hl in Hs.
    change (l1 ++ a :: l2 ++ b :: l3) with (l1 ++ [a] ++ (l2 ++ b :: l3)) in Hs.
    rewrite app_assoc in Hs.
    apply (StronglySorted_app_1_elem_of _ _ _ a b Hs).
    - apply elem_of_app. right. apply elem_of_cons. by left.
    - apply elem_of_app. right. apply elem_of_cons. by left. }
  split; [exact Hba |].
  by apply ScheduledResourceSorter_false in Hba as [Hord _].
Qed.

Lemma mixed_reachable :
  reachable Example.LOAD_IGNORE_LIMITS Example.kBrowserProcessId
    Example.mixed_scheduler.
Proof.
  apply (create_and_schedule_reachable _ _ Example.mixed_requests
           Example.client_registered).
  - apply client_registered_reachable.
  - vm_compute. reflexivity.
Defined.

Lemma X14_queues_in_order_witness :
  reachable Example.LOAD_IGNORE_LIMITS Example.kBrowserProcessId
    Example.mixed_scheduler
  /\ ResourceScheduler.client_map_ Example.mixed_scheduler
     !! ResourceScheduler.MakeClientId 1 1 = Some Example.mixed_client
  /\ RequestQueue.queue_ (Client.pending_requests_ Example.mixed_client)
     = [108; 107]%positive
  /\ queue_sorted (ResourceScheduler.store Example.mixed_scheduler)
       (RequestQueue.queue_ (Client.pending_requests_ Example.mixed_client))
  /\ forall a b,
       precedes a b
         (RequestQueue.queue_ (Client.pending_requests_ Example.mixed_client)) ->
       comes_before (ResourceScheduler.store Example.mixed_scheduler) b a
       = false
       /\ net.ordinal
            (rp_priority
               (priority_
                  (deref (ResourceScheduler.store Example.mixed_scheduler) b)))
          <= net.ordinal
               (rp_priority
                  (priority_
                     (deref (ResourceScheduler.store Example.mixed_scheduler)
                        a))).
Proof.
  assert (Hk : ResourceScheduler.client_map_ Example.mixed_scheduler
               !! ResourceScheduler.MakeClientId 1 1
               = Some Example.mixed_client) by (vm_compute; reflexivity).
  split; [exact mixed_reachable |]. split; [exact Hk |].
  split; [vm_compute; reflexivity |].
  exact (X14_queues_in_order _ _ _ _ _ mixed_reachable Hk).
Defined.

(** ** The handles an operation writes *)

(** Equations and inclusions between sets built from unions, differences,
    singletons and lists. *)
Ltac set_members :=
  first [apply set_eq; intros ? | intros ?];
  rewrite ?elem_of_union, ?elem_of_difference, ?elem_of_singleton,
    ?elem_of_list_to_set, ?elem_of_cons, ?elem_of_nil, ?elem_of_union,
    ?elem_of_empty;
  tauto.

Lemma only_writes_refl T st : only_writes T st st.
Proof. by split. Qed.

Lemma only_writes_trans T st1 st2 st3 :
  only_writes T st1 st2 -> only_writes T st2 st3 -> only_writes T st1 st3.
Proof.
  intros [Hd Hw] [Hd' Hw']. split; [by etransitivity |].
  intros p Hp. by rewrite Hw', Hw.
Qed.

Lemma only_writes_weaken T T' st st' :
  T ⊆ T' -> only_writes T st st' -> only_writes T' st st'.
Proof.
  intros HT [Hd Hw]. split; [exact Hd |]. intros p Hp. apply Hw.
  intros Hin. apply Hp. by apply HT.
Qed.

Lemma only_writes_same T st st' :
  requests st' = requests st -> only_writes T st st'.
Proof. intros E. split; [by rewrite E | intros p _; by rewrite E]. Qed.

Lemma only_writes_store_request T st p r :
  p ∈ T -> only_writes T st (store_request st p r).
Proof.
  intros Hp. split; [apply store_request_dom |]. intros q Hq.
  unfold store_request, with_requests. cbn [requests].
  apply lookup_insert_ne. by intros ->.
Qed.

(** An operation that writes live handles only allocates nothing. *)
Lemma only_writes_dom T st st' :
  only_writes T st st' -> T ⊆ dom (requests st) ->
  dom (requests st') = dom (requests st).
Proof.
  intros [Hd Hw] HT. apply set_eq. intros p. split; [| apply Hd].
  intros Hp. destruct (decide (p ∈ T)) as [Hin | Hout]; [by apply HT |].
  apply elem_of_dom. rewrite <- (Hw p Hout). by apply elem_of_dom.
Qed.

Lemma only_writes_deref T st st' p :
  only_writes T st st' -> p ∉ T -> deref st' p = deref st p.
Proof.
  intros [_ Hw] Hp. unfold deref. rewrite !lookup_total_alt.
  by rewrite (Hw p Hp).
Qed.

Lemma SetRequestAttributes_writes c st request a :
  only_writes {[request]} st (Client.SetRequestAttributes c st request a).2.
Proof.
  unfold Client.SetRequestAttributes.
  destruct (_ =? _); cbn [snd]; [apply only_writes_refl |].
  apply only_writes_store_request. by apply elem_of_singleton.
Qed.

Lemma notify_in_flight_writes n l : forall st,
  only_writes (list_to_set l) st
    (foldr
       (fun q st =>
          store_request st q (UpdateDelayableRequestsInFlight (deref st q) n))
       st l).
Proof.
  induction l as [| q l IH]; intros st; simpl; [apply only_writes_refl |].
  eapply only_writes_trans.
  - eapply only_writes_weaken; [| apply IH]. apply union_subseteq_r.
  - apply only_writes_store_request. apply elem_of_union. left.
    by apply elem_of_singleton.
Qed.

Lemma clear_attributes_writes l : forall st,
  only_writes (list_to_set l) st
    (foldr
       (fun q st =>
          store_request st q (set_attributes (deref st q) kAttributeNone))
       st l).
Proof.
  induction l as [| q l IH]; intros st; simpl; [apply only_writes_refl |].
  eapply only_writes_trans.
  - eapply only_writes_weaken; [| apply IH]. apply union_subseteq_r.
  - apply only_writes_store_request. apply elem_of_union. left.
    by apply elem_of_singleton.
Qed.

Lemma InsertInFlightRequest_writes cx c st request :
  only_writes ({[request]} ∪ Client.in_flight_requests_ c) st
    (Client.InsertInFlightRequest cx c st request).2.
Proof.
  unfold Client.InsertInFlightRequest.
  set (T := {[request]} ∪ Client.in_flight_requests_ c).
  set (c1 := Client.with_in_flight_requests c T).
  set (a := Client.DetermineRequestAttributes cx c1 st request).
  pose proof (SetRequestAttributes_writes c1 st request a) as H1.
  destruct (SetRequestAttributes_client c1 st request a) as (d & l & Hc2).
  destruct (Client.SetRequestAttributes c1 st request a) as [c2 st2].
  cbn [fst snd] in *. subst c2.
  match goal with
  | |- context [if ?b then foldr ?g st2 ?l else st2] =>
      set (st3 := if b then foldr g st2 l else st2)
  end.
  assert (H3 : only_writes T st2 st3).
  { unfold st3.
    destruct (RequestAttributesAreSet _ kAttributeDelayable);
      [| apply only_writes_refl].
    eapply only_writes_weaken; [| apply notify_in_flight_writes].
    intros p Hp. apply elem_of_list_to_set in Hp.
    by apply elem_of_elements in Hp. }
  match goal with
  | |- context [if ?b then store_request st3 request ?r else st3] =>
      set (st4 := if b then store_request st3 request r else st3)
  end.
  assert (H4 : only_writes T st3 st4).
  { unfold st4. destruct (_ || _); [| apply only_writes_refl].
    apply only_writes_store_request. apply elem_of_union. left.
    by apply elem_of_singleton. }
  eapply only_writes_trans; [| exact H4].
  eapply only_writes_trans; [| exact H3].
  eapply only_writes_weaken; [| exact H1]. apply union_subseteq_l.
Qed.

Lemma Start_writes st request start_mode :
  only_writes {[request]} st (Start st request start_mode).
Proof.
  assert (Hin : request ∈ ({[request]} : gset positive))
    by (by apply elem_of_singleton).
  unfold Start.
  destruct (negb _); [apply only_writes_refl |]. destruct (deferred_ _).
  - destruct start_mode; [| by apply only_writes_same].
    eapply only_writes_trans; [| by apply only_writes_store_request].
    eapply only_writes_trans; [by apply only_writes_store_request |].
    by apply only_writes_same.
  - by apply only_writes_store_request.
Qed.

Lemma StartRequest_writes cx c st request start_mode trigger :
  only_writes ({[request]} ∪ Client.in_flight_requests_ c) st
    (Client.StartRequest cx c st request start_mode trigger).2.
Proof.
  unfold Client.StartRequest.
  match goal with
  | |- context [Client.InsertInFlightRequest cx ?c0 st request] =>
      pose proof (InsertInFlightRequest_writes cx c0 st request) as H1;
      assert (E : Client.in_flight_requests_ c0 = Client.in_flight_requests_ c)
        by (by destruct (negb _));
      destruct (Client.InsertInFlightRequest cx c0 st request) as [c1 st1]
  end.
  cbn [snd] in *. rewrite E in H1.
  eapply only_writes_trans; [exact H1 |].
  eapply only_writes_weaken; [| apply Start_writes]. apply union_subseteq_l.
Qed.

Lemma list_to_set_erase_node x l :
  x ∈ l ->
  {[x]} ∪ list_to_set (erase_node x l) =@{gset positive} list_to_set l.
Proof.
  induction l as [| y l IH]; simpl; [by intros ?%elem_of_nil |].
  destruct (decide (x = y)) as [-> | Hne]; [done |].
  intros [? | Hin]%elem_of_cons; [done |].
  rewrite list_to_set_cons.
  rewrite <- (IH Hin). set_members.
Qed.

(** A pass moves handles from the queue to the requests in flight: the
    client tracks the same handles afterwards, and writes only those. *)
Lemma LoadAnyStartablePendingRequests_writes cx c st trigger c' st' :
  Client.LoadAnyStartablePendingRequests cx c st trigger = Some (c', st') ->
  tracked c' = tracked c /\ only_writes (tracked c) st st'.
Proof.
  unfold Client.LoadAnyStartablePendingRequests.
  set (c0 := Client.with_num_skipped_scans c 0). intros Hload.
  refine (LoadLoop_invariant cx trigger
            (fun c1 st1 =>
               tracked c1 = tracked c /\ only_writes (tracked c) st st1)
            _ _ c0 st c' st' _ Hload);
    [| split; [reflexivity | apply only_writes_refl]].
  intros c1 st1 pre request next q [Ht Hw] Hq _ _ Herase.
  apply Erase_Some in Herase as [Hin ->].
  destruct (StartRequest_client cx
              (Client.with_pending_requests c1
                 {| RequestQueue.fifo_ordering_ids_ :=
                      RequestQueue.fifo_ordering_ids_
                        (Client.pending_requests_ c1);
                    RequestQueue.queue_ :=
                      erase_node request
                        (RequestQueue.queue_ (Client.pending_requests_ c1)) |})
              st1 request START_ASYNC trigger) as (d & l & start & Hc2).
  pose proof (StartRequest_writes cx
                (Client.with_pending_requests c1
                   {| RequestQueue.fifo_ordering_ids_ :=
                        RequestQueue.fifo_ordering_ids_
                          (Client.pending_requests_ c1);
                      RequestQueue.queue_ :=
                        erase_node request
                          (RequestQueue.queue_ (Client.pending_requests_ c1)) |})
                st1 request START_ASYNC trigger) as Hw2.
  destruct (Client.StartRequest cx _ st1 request START_ASYNC trigger)
    as [c2 st2].
  cbn [fst snd] in *. subst c2.
  assert (Ht2 : {[request]} ∪ Client.in_flight_requests_ c1 ⊆ tracked c).
  { rewrite <- Ht. unfold tracked. intros p [Hp | Hp]%elem_of_union.
    - apply elem_of_singleton in Hp as ->. apply elem_of_union. right.
      by apply elem_of_list_to_set.
    - apply elem_of_union. by left. }
  split.
  - rewrite <- Ht. unfold tracked.
    cbn [Client.with_counts Client.with_in_flight_requests
         Client.with_last_non_delayable Client.with_pending_requests
         Client.in_flight_requests_ Client.pending_requests_
         RequestQueue.queue_].
    rewrite <- (list_to_set_erase_node request
                  (RequestQueue.queue_ (Client.pending_requests_ c1)) Hin).
    set_members.
  - eapply only_writes_trans; [exact Hw |].
    by eapply only_writes_weaken; [| exact Hw2].
Qed.

Lemma Client_RemoveRequest_writes cx k c st request c' st' :
  client_invariant k c st ->
  Client.RemoveRequest cx c st request = Some (c', st') ->
  tracked c' = tracked c ∖ {[request]}
  /\ only_writes ({[request]} ∪ tracked c) st st'.
Proof.
  intros (_ & _ & Hnd & Hdisj & _). unfold Client.RemoveRequest.
  destruct (RequestQueue.IsQueued _ request) eqn:Hq.
  - destruct (RequestQueue.Erase _ request) as [q |] eqn:Herase;
      [| discriminate].
    intros [= <- <-]. apply Erase_Some in Herase as [Hin ->].
    split; [| apply only_writes_refl].
    unfold tracked.
    cbn [Client.with_pending_requests Client.in_flight_requests_
         Client.pending_requests_ RequestQueue.queue_].
    apply set_eq. intros p.
    rewrite elem_of_difference, !elem_of_union, !elem_of_list_to_set,
      (erase_node_elem_of _ _ _ Hnd), elem_of_singleton.
    split; [| tauto].
    intros [Hp | [Hne Hp]]; [| tauto].
    split; [by left |]. intros ->. by apply (Hdisj request).
  - unfold RequestQueue.IsQueued in Hq. apply bool_decide_eq_false in Hq.
    unfold Client.EraseInFlightRequest.
    match goal with
    | |- context [Client.SetRequestAttributes ?c1 st request kAttributeNone] =>
        pose proof (SetRequestAttributes_writes c1 st request kAttributeNone)
          as Hw1;
        destruct (SetRequestAttributes_client c1 st request kAttributeNone)
          as (d & l & Hc2);
        assert (Et : tracked c1 = tracked c ∖ {[request]});
        [| destruct (Client.SetRequestAttributes c1 st request kAttributeNone)
             as [c2 st2]]
    end.
    { unfold tracked.
      cbn [Client.with_in_flight_requests Client.in_flight_requests_
           Client.pending_requests_].
      assert (Ep : forall c0 : Client.t,
                (if negb (RequestAttributesAreSet
                            (attributes_ (deref st request))
                            kAttributeDelayable)
                 then Client.with_last_non_delayable c0
                        (Client.last_non_delayable_request_start_ c0)
                        (Some (NowTicks (env cx)))
                 else c0) = c0
                \/ (if negb (RequestAttributesAreSet
                               (attributes_ (deref st request))
                               kAttributeDelayable)
                    then Client.with_last_non_delayable c0
                           (Client.last_non_delayable_request_start_ c0)
                           (Some (NowTicks (env cx)))
                    else c0)
                   = Client.with_last_non_delayable c0
                       (Client.last_non_delayable_request_start_ c0)
                       (Some (NowTicks (env cx))))
        by (intros c0; destruct (negb _); tauto).
      destruct (Ep c) as [-> | ->];
        cbn [Client.with_last_non_delayable Client.in_flight_requests_
             Client.pending_requests_];
        apply set_eq; intros p;
        rewrite !elem_of_difference, !elem_of_union, !elem_of_difference,
          !elem_of_list_to_set, elem_of_singleton;
        (split; [| tauto]); (intros [Hp | Hp]; [tauto |]);
        (split; [by right |]); intros ->; contradiction. }
    cbn [fst snd] in *. subst c2. intros Hload.
    apply LoadAnyStartablePendingRequests_writes in Hload as [Ht Hw].
    change (tracked (Client.with_counts ?c0 d l)) with (tracked c0) in Ht, Hw.
    rewrite Et in Ht, Hw. split; [exact Ht |].
    eapply only_writes_trans.
    + eapply only_writes_weaken; [| exact Hw1]. apply union_subseteq_l.
    + eapply only_writes_weaken; [| exact Hw]. set_members.
Qed.

Lemma Client_ScheduleRequest_writes cx c st request c' st' :
  Client.ScheduleRequest cx c st request = Some (c', st') ->
  tracked c' = {[request]} ∪ tracked c
  /\ only_writes ({[request]} ∪ tracked c) st st'
  /\ url_requests st' = url_requests st.
Proof.
  unfold Client.ScheduleRequest.
  match goal with
  | |- context [Client.SetRequestAttributes c st request ?a] =>
      pose proof (SetRequestAttributes_writes c st request a) as Hw1;
      destruct (SetRequestAttributes_store c st request a) as (Hurl1 & _ & _);
      destruct (SetRequestAttributes_client c st request a) as (d & l & Hc1);
      destruct (Client.SetRequestAttributes c st request a) as [c1 st1]
  end.
  cbn [fst snd] in *. subst c1.
  assert (Hinsert :
            forall c2 st2,
              (let '(q, st) :=
                 RequestQueue.Insert
                   (Client.pending_requests_ (Client.with_counts c d l)) st1
                   request
               in Some (Client.with_pending_requests (Client.with_counts c d l) q,
                        st))
              = Some (c2, st2) ->
              tracked c2 = {[request]} ∪ tracked c
              /\ only_writes ({[request]} ∪ tracked c) st st2
              /\ url_requests st2 = url_requests st).
  { intros c2 st2. rewrite Insert_queue. intros [= <- <-].
    split; [| split; [| exact Hurl1]].
    - unfold tracked.
      cbn [Client.with_pending_requests Client.with_counts
           Client.in_flight_requests_ Client.pending_requests_
           RequestQueue.queue_].
      apply set_eq. intros p.
      rewrite !elem_of_union, !elem_of_list_to_set, multiset_insert_elem_of,
        elem_of_singleton. tauto.
    - eapply only_writes_trans.
      + eapply only_writes_weaken; [| exact Hw1]. apply union_subseteq_l.
      + apply only_writes_store_request. apply elem_of_union. left.
        by apply elem_of_singleton. }
  destruct (Client.ShouldStartRequest cx _ st1 request) as [[| |] |];
    [exact (Hinsert c' st') | exact (Hinsert c' st') | | discriminate].
  destruct (StartRequest_client cx (Client.with_counts c d l) st1 request
              START_SYNC NONE) as (d' & l' & start & Hc2).
  pose proof (StartRequest_writes cx (Client.with_counts c d l) st1 request
                START_SYNC NONE) as Hw2.
  destruct (StartRequest_store cx (Client.with_counts c d l) st1 request
              START_SYNC NONE request) as [_ Hurl2].
  destruct (Client.StartRequest cx _ st1 request START_SYNC NONE) as [c2 st2].
  cbn [fst snd] in *. intros [= <- <-]. subst c2.
  split; [| split; [| by rewrite Hurl2]].
  - unfold tracked.
    cbn [Client.with_counts Client.with_in_flight_requests
         Client.with_last_non_delayable Client.in_flight_requests_
         Client.pending_requests_].
    set_members.
  - eapply only_writes_trans.
    + eapply only_writes_weaken; [| exact Hw1]. apply union_subseteq_l.
    + eapply only_writes_weaken; [| exact Hw2]. unfold tracked.
      cbn [Client.with_counts Client.in_flight_requests_]. set_members.
Qed.

Lemma Client_ReprioritizeRequest_writes cx c st request old_priority_params
    new_priority_params c' st' :
  Client.ReprioritizeRequest cx c st request old_priority_params
    new_priority_params = Some (c', st') ->
  tracked c' = tracked c
  /\ only_writes {[request]} st st'
  /\ url_requests st'
     = <[request_ (deref st request) :=
           net.SetPriority (url_request st request)
             (rp_priority new_priority_params)]> (url_requests st).
Proof.
  assert (Hin : request ∈ ({[request]} : gset positive))
    by (by apply elem_of_singleton).
  unfold Client.ReprioritizeRequest.
  set (st0 := store_request _ request _).
  assert (Hw0 : only_writes {[request]} st st0).
  { unfold st0. eapply only_writes_trans;
      [| by apply only_writes_store_request].
    by apply only_writes_same. }
  match goal with
  | |- context [Client.SetRequestAttributes c st0 request ?a] =>
      pose proof (SetRequestAttributes_writes c st0 request a) as Hw1;
      destruct (SetRequestAttributes_store c st0 request a) as (Hurl1 & _ & _);
      destruct (SetRequestAttributes_client c st0 request a) as (d & l & Hc1);
      destruct (Client.SetRequestAttributes c st0 request a) as [c1 st1]
  end.
  cbn [fst snd] in *. subst c1.
  change (Client.pending_requests_ (Client.with_counts c d l))
    with (Client.pending_requests_ c).
  destruct (RequestQueue.IsQueued _ request) eqn:Hq; cbn [negb].
  - destruct (RequestQueue.Erase _ request) as [q |] eqn:Herase;
      [| discriminate].
    apply Erase_Some in Herase as [Hqueued ->]. rewrite Insert_queue.
    cbn [RequestQueue.queue_ RequestQueue.fifo_ordering_ids_].
    set (st2 := store_request st1 request _).
    assert (Hw2 : only_writes {[request]} st st2).
    { eapply only_writes_trans; [exact Hw0 |].
      eapply only_writes_trans; [exact Hw1 |].
      by apply only_writes_store_request. }
    set (c2 := Client.with_pending_requests _ _).
    assert (Ht : tracked c2 = tracked c).
    { unfold tracked, c2.
      cbn [Client.with_pending_requests Client.with_counts
           Client.in_flight_requests_ Client.pending_requests_
           RequestQueue.queue_].
      rewrite <- (list_to_set_erase_node request
                    (RequestQueue.queue_ (Client.pending_requests_ c)) Hqueued).
      apply set_eq. intros p.
      rewrite !elem_of_union, !elem_of_list_to_set, multiset_insert_elem_of,
        elem_of_singleton. tauto. }
    destruct (_ <? _).
    + unfold Client.ScheduleLoadAnyStartablePendingRequests.
      destruct (_ =? 0); intros [= <- <-];
        (split; [exact Ht | split; [| exact Hurl1]]); [| exact Hw2].
      eapply only_writes_trans; [exact Hw2 |]. by apply only_writes_same.
    + intros [= <- <-]. split; [exact Ht | split; [exact Hw2 | exact Hurl1]].
  - intros [= <- <-]. split; [reflexivity |]. split; [| exact Hurl1].
    eapply only_writes_trans; [exact Hw0 | exact Hw1].
Qed.

Lemma StartAllPending_writes cx n : forall c st c' st',
  Client.StartAllPending cx n c st = Some (c', st') ->
  Client.in_flight_requests_ c' = tracked c
  /\ only_writes (tracked c) st st'
  /\ url_requests st' = url_requests st.
Proof.
  induction n as [| n IH]; intros c st c' st'; simpl;
    destruct (RequestQueue.queue_ (Client.pending_requests_ c))
      as [| request l] eqn:Hqueue;
    try discriminate;
    try (intros [= <- <-]; split;
         [unfold tracked; rewrite Hqueue; set_members
         | split; [apply only_writes_refl | reflexivity]]).
  destruct (RequestQueue.Erase _ request) as [q |] eqn:Herase;
    [| discriminate].
  apply Erase_Some in Herase as [Hin ->].
  match goal with
  | |- context [Client.StartRequest cx ?c0 st request START_ASYNC CLIENT_KILL] =>
      destruct (StartRequest_client cx c0 st request START_ASYNC CLIENT_KILL)
        as (d & l' & start & Hc1);
      pose proof (StartRequest_writes cx c0 st request START_ASYNC CLIENT_KILL)
        as Hw1;
      destruct (StartRequest_store cx c0 st request START_ASYNC CLIENT_KILL
                  request) as [_ Hurl1];
      destruct (Client.StartRequest cx c0 st request START_ASYNC CLIENT_KILL)
        as [c1 st1]
  end.
  cbn [fst snd] in *. intros Hrest.
  destruct (IH c1 st1 c' st' Hrest) as (Hf & Hw & Hurl).
  assert (Ht : tracked c1 = tracked c).
  { subst c1. unfold tracked.
    cbn [Client.with_counts Client.with_in_flight_requests
         Client.with_last_non_delayable Client.with_pending_requests
         Client.in_flight_requests_ Client.pending_requests_
         RequestQueue.queue_].
    rewrite <- (list_to_set_erase_node request
                  (RequestQueue.queue_ (Client.pending_requests_ c)) Hin).
    set_members. }
  rewrite Ht in Hf, Hw. split; [exact Hf |]. split; [| by rewrite Hurl].
  eapply only_writes_trans; [| exact Hw].
  eapply only_writes_weaken; [| exact Hw1].
  cbn [Client.with_pending_requests Client.in_flight_requests_].
  unfold tracked. intros p [Hp | Hp]%elem_of_union.
  - apply elem_of_singleton in Hp as ->. apply elem_of_union. right.
    by apply elem_of_list_to_set.
  - apply elem_of_union. by left.
Qed.

(** Tearing a client down hands back exactly the handles it tracked. *)
Lemma StartAndRemoveAllRequests_writes cx c st c' st' U :
  Client.StartAndRemoveAllRequests cx c st = Some (c', st', U) ->
  U = tracked c
  /\ only_writes (tracked c) st st'
  /\ url_requests st' = url_requests st.
Proof.
  unfold Client.StartAndRemoveAllRequests.
  destruct (Client.StartAllPending cx _ c st) as [[c1 st1] |] eqn:Hall;
    [| discriminate].
  apply StartAllPending_writes in Hall as (Hf & Hw & Hurl).
  intros [= <- <- <-]. split; [exact Hf |]. split.
  - eapply only_writes_trans; [exact Hw |].
    eapply only_writes_weaken; [| apply clear_attributes_writes].
    rewrite <- Hf. intros p Hp. apply elem_of_list_to_set in Hp.
    by apply elem_of_elements in Hp.
  - rewrite <- Hurl. clear.
    induction (elements (Client.in_flight_requests_ c1)) as [| q l IH];
      [reflexivity | exact IH].
Qed.

(** ** Steps that keep the handles of the scheduler *)

Lemma same_handles_refl s : same_handles s s.
Proof. by repeat split. Qed.

Lemma same_handles_trans s1 s2 s3 :
  same_handles s1 s2 -> same_handles s2 s3 -> same_handles s1 s3.
Proof.
  intros (Hd & Hr & Hu & Hn & Ht) (Hd' & Hr' & Hu' & Hn' & Ht').
  split; [congruence |]. split; [intros p; by rewrite Hr', Hr |].
  split; [intros u; by rewrite Hu', Hu |].
  split; [congruence |]. intros k. by rewrite Ht', Ht.
Qed.

Lemma same_handles_stores s s' :
  ResourceScheduler.client_map_ s' = ResourceScheduler.client_map_ s ->
  ResourceScheduler.unowned_requests_ s'
  = ResourceScheduler.unowned_requests_ s ->
  dom (requests (ResourceScheduler.store s'))
  = dom (requests (ResourceScheduler.store s)) ->
  (forall p,
     request_ (deref (ResourceScheduler.store s') p)
     = request_ (deref (ResourceScheduler.store s) p)) ->
  (forall u,
     net.user_data <$> url_requests (ResourceScheduler.store s') !! u
     = net.user_data <$> url_requests (ResourceScheduler.store s) !! u) ->
  same_handles s s'.
Proof.
  intros Hm Hn Hd Hr Hu. split; [exact Hd |]. split; [exact Hr |].
  split; [exact Hu |]. split; [exact Hn |]. intros k. by rewrite Hm.
Qed.

Lemma same_handles_updated s s' k c c' :
  ResourceScheduler.client_map_ s'
  = <[k := c']> (ResourceScheduler.client_map_ s) ->
  ResourceScheduler.unowned_requests_ s'
  = ResourceScheduler.unowned_requests_ s ->
  ResourceScheduler.client_map_ s !! k = Some c ->
  tracked c' = tracked c ->
  dom (requests (ResourceScheduler.store s'))
  = dom (requests (ResourceScheduler.store s)) ->
  (forall p,
     request_ (deref (ResourceScheduler.store s') p)
     = request_ (deref (ResourceScheduler.store s) p)) ->
  (forall u,
     net.user_data <$> url_requests (ResourceScheduler.store s') !! u
     = net.user_data <$> url_requests (ResourceScheduler.store s) !! u) ->
  same_handles s s'.
Proof.
  intros Hm Hn Hk Ht Hd Hr Hu. split; [exact Hd |]. split; [exact Hr |].
  split; [exact Hu |]. split; [exact Hn |]. intros k2. rewrite Hm.
  destruct (decide (k2 = k)) as [-> | Hne].
  - rewrite lookup_insert_eq, Hk. cbn. by rewrite Ht.
  - by rewrite lookup_insert_ne.
Qed.

Lemma tracked_live s k c :
  scheduler_invariant s ->
  ResourceScheduler.client_map_ s !! k = Some c ->
  tracked c ⊆ dom (requests (ResourceScheduler.store s)).
Proof.
  intros (G1 & _) Hk p Hp.
  destruct (G1 k c Hk) as (_ & _ & _ & _ & Hd & _). by apply Hd.
Qed.

Lemma user_data_insert (m : gmap positive net.URLRequest) u r r' q :
  m !! u = Some r -> net.user_data r' = net.user_data r ->
  net.user_data <$> (<[u := r']> m) !! q = net.user_data <$> m !! q.
Proof.
  intros Hu E. destruct (decide (u = q)) as [<- | Hne].
  - rewrite lookup_insert_eq, Hu. cbn. by rewrite E.
  - by rewrite lookup_insert_ne.
Qed.

(** A pass over the pending requests of a client keeps the handles. *)
Lemma pass_same_handles s s' k c c0 cx trigger c' st' :
  scheduler_invariant s ->
  ResourceScheduler.client_map_ s !! k = Some c ->
  tracked c0 = tracked c ->
  Client.LoadAnyStartablePendingRequests cx c0 (ResourceScheduler.store s)
    trigger = Some (c', st') ->
  ResourceScheduler.client_map_ s'
  = <[k := c']> (ResourceScheduler.client_map_ s) ->
  ResourceScheduler.unowned_requests_ s'
  = ResourceScheduler.unowned_requests_ s ->
  ResourceScheduler.store s' = st' ->
  same_handles s s'.
Proof.
  intros Hinv Hk Ht Hload Hm Hn Hst.
  destruct (LoadAnyStartablePendingRequests_writes _ _ _ _ _ _ Hload)
    as [Ht' Hw].
  apply (same_handles_updated s s' k c c' Hm Hn Hk); rewrite ?Hst.
  - congruence.
  - apply (only_writes_dom (tracked c0)); [exact Hw |]. rewrite Ht.
    by apply (tracked_live s k).
  - intros p.
    by apply (LoadAnyStartablePendingRequests_frame request_
                (fun _ _ => eq_refl) (fun _ _ => eq_refl)
                (fun _ _ _ => eq_refl) _ _ _ _ _ _ Hload).
  - intros u.
    by rewrite (LoadAnyStartablePendingRequests_url_requests _ _ _ _ _ _ Hload).
Qed.

Lemma ReprioritizeRequest_same_handles LOAD_IGNORE_LIMITS e s u new_priority
    new_intra_priority_value s' :
  linked (ResourceScheduler.store s) ->
  u ∈ dom (url_requests (ResourceScheduler.store s)) ->
  ResourceScheduler.ReprioritizeRequest LOAD_IGNORE_LIMITS e s u new_priority
    new_intra_priority_value = Some s' ->
  same_handles s s'.
Proof.
  intros [L1 L2] Hu. apply elem_of_dom in Hu as [r Hr].
  unfold ResourceScheduler.ReprioritizeRequest. cbv zeta.
  rewrite (lookup_total_correct _ _ _ Hr).
  destruct (negb _); [intros [= <-]; apply same_handles_refl |].
  destruct (net.user_data r) as [h |] eqn:Hud.
  2: { intros [= <-]. apply same_handles_stores; try reflexivity.
       intros q. by apply (user_data_insert _ u r). }
  destruct (params_eq _ _); [intros [= <-]; apply same_handles_refl |].
  destruct (L2 u r h Hr Hud) as [Hh Hreq].
  assert (Hsub : ({[h]} : gset positive)
                 ⊆ dom (requests (ResourceScheduler.store s))).
  { intros p Hp. by apply elem_of_singleton in Hp as ->. }
  destruct (ResourceScheduler.client_map_ s !! _) as [c |] eqn:Hk.
  - destruct (Client.ReprioritizeRequest _ c _ h _ _) as [[c' st'] |] eqn:Hrep;
      [| discriminate].
    intros [= <-].
    destruct (Client_ReprioritizeRequest_writes _ _ _ _ _ _ _ _ Hrep)
      as (Ht & Hw & Hurl).
    eapply (same_handles_updated _ _ _ c c');
      [reflexivity | reflexivity | exact Hk | exact Ht | | |];
      cbn [ResourceScheduler.with_store ResourceScheduler.store].
    + by apply (only_writes_dom {[h]}).
    + intros p.
      apply (Client_ReprioritizeRequest_frame request_ (fun _ _ => eq_refl)
               _ _ _ _ _ _ _ _ p Hrep).
      right. by split.
    + intros q. rewrite Hurl. unfold url_request.
      rewrite Hreq, (lookup_total_correct _ _ _ Hr).
      by apply (user_data_insert _ u r).
  - intros [= <-]. apply same_handles_stores; try reflexivity;
      cbn [ResourceScheduler.with_store ResourceScheduler.store].
    + apply (only_writes_dom {[h]}); [| exact Hsub].
      eapply only_writes_trans;
        [| apply only_writes_store_request; by apply elem_of_singleton].
      by apply only_writes_same.
    + intros p. destruct (decide (h = p)) as [<- | Hne].
      * by rewrite deref_store_request.
      * by rewrite deref_store_request_ne.
    + intros q. by apply (user_data_insert _ u r).
Qed.

Lemma fire_clients_same_handles e ids : forall s s',
  scheduler_invariant s ->
  ResourceScheduler.fire_clients e s ids = Some s' ->
  same_handles s s'.
Proof.
  induction ids as [| k ids IH]; intros s s' Hinv; simpl.
  - intros [= <-]. apply same_handles_refl.
  - destruct (ResourceScheduler.client_map_ s !! k) as [c |] eqn:Hk;
      [| by apply IH].
    unfold Client.OnLongQueuedRequestsDispatchTimerFired.
    destruct (Client.LoadAnyStartablePendingRequests _ c _ _)
      as [[c' st'] |] eqn:Hload; [| discriminate].
    intros Hrest.
    apply (same_handles_trans s (update_client s k c' st')).
    + by apply (pass_same_handles s _ k c c _ _ c' st' Hinv Hk eq_refl Hload).
    + apply IH; [| exact Hrest].
      refine (scheduler_invariant_LoadAny _ s k c _ _ c' st' Hinv Hk _ _ _ _
                Hload); reflexivity.
Qed.

Lemma OnLongQueuedRequestsDispatchTimerFired_same_handles e s s' :
  scheduler_invariant s ->
  ResourceScheduler.OnLongQueuedRequestsDispatchTimerFired e s = Some s' ->
  same_handles s s'.
Proof.
  intros Hinv. unfold ResourceScheduler.OnLongQueuedRequestsDispatchTimerFired.
  destruct (ResourceScheduler.fire_clients e _ _) as [s1 |] eqn:Hfire;
    [| discriminate].
  intros [= <-].
  apply fire_clients_same_handles in Hfire;
    [| by apply (scheduler_invariant_ext s)].
  destruct (StartLongQueuedRequestsDispatchTimerIfNeeded_same s1)
    as (Est & Ecm & Eun & _).
  apply (same_handles_trans _ s1).
  - destruct Hfire as (Hd & Hr & Hu & Hn & Ht). by repeat split.
  - apply same_handles_stores; by rewrite ?Est.
Qed.

Lemma RunTask_same_handles e s s' :
  scheduler_invariant s ->
  ResourceScheduler.RunTask e s = Some s' ->
  same_handles s s'.
Proof.
  intros Hinv. unfold ResourceScheduler.RunTask.
  destruct (posted_tasks (ResourceScheduler.store s)) as [| task rest];
    [intros [= <-]; apply same_handles_refl |].
  destruct task as [request | this trigger].
  - case_bool_decide as Hdom; intros [= <-];
      [| by apply same_handles_stores].
    cbn [ResourceScheduler.with_store ResourceScheduler.store requests]
      in Hdom.
    apply same_handles_stores; try reflexivity;
      cbn [ResourceScheduler.with_store ResourceScheduler.store].
    + apply (only_writes_dom {[request]}).
      * eapply only_writes_trans; [| apply Start_writes].
        by apply only_writes_same.
      * intros p Hp. by apply elem_of_singleton in Hp as ->.
    + intros p. by rewrite (Start_frame request_) by (intros; reflexivity).
    + intros u. by destruct (Start_core
                               {| requests :=
                                    requests (ResourceScheduler.store s);
                                  url_requests :=
                                    url_requests (ResourceScheduler.store s);
                                  posted_tasks := rest;
                                  resumed := resumed (ResourceScheduler.store s)
                               |} request START_SYNC request) as [_ ->].
  - destruct (filter _ _) as [| [k c] l] eqn:Hfilter;
      [intros [= <-]; by apply same_handles_stores |].
    assert (Hk : ResourceScheduler.client_map_ s !! k = Some c).
    { apply elem_of_map_to_list.
      assert (Hin : (k, c) ∈ (k, c) :: l) by (apply elem_of_cons; by left).
      rewrite <- Hfilter in Hin.
      by apply list_elem_of_filter in Hin as [_ Hin]. }
    destruct (Client.LoadAnyStartablePendingRequests _ c _ trigger)
      as [[c' st'] |] eqn:Hload; [| discriminate].
    intros [= <-].
    match type of Hload with
    | Client.LoadAnyStartablePendingRequests _ _ ?st0 _ = _ =>
        apply (same_handles_trans s (ResourceScheduler.with_store s st0));
          [by apply same_handles_stores |];
        eapply (pass_same_handles (ResourceScheduler.with_store s st0) _ k c c
                  _ _ c' st');
          [by apply scheduler_invariant_store | exact Hk | reflexivity
          | exact Hload | reflexivity | reflexivity | reflexivity]
    end.
Qed.

(** Every step but the creation of a request, the scheduling and the
    destruction of a handle, and the creation and the deletion of a client
    keeps the handles. *)
Lemma step_handles LOAD_IGNORE_LIMITS kBrowserProcessId s s' :
  scheduler_invariant s ->
  linked (ResourceScheduler.store s) ->
  step LOAD_IGNORE_LIMITS kBrowserProcessId s s' ->
  same_handles s s'
  \/ (exists u r,
        url_requests (ResourceScheduler.store s) !! u = None
        /\ net.user_data r = None
        /\ s' = ResourceScheduler.with_store s
                  (with_url_requests (ResourceScheduler.store s)
                     (<[u := r]> (url_requests (ResourceScheduler.store s)))))
  \/ (exists e child_id route_id is_async u r handle,
        url_requests (ResourceScheduler.store s) !! u = Some r
        /\ net.user_data r = None
        /\ requests (ResourceScheduler.store s) !! handle = None
        /\ ResourceScheduler.ScheduleRequest e s child_id route_id is_async u
             handle = Some s')
  \/ (exists e handle,
        handle ∈ dom (requests (ResourceScheduler.store s))
        /\ ResourceScheduler.DestroyRequest e s handle = Some s')
  \/ (exists e child_id route_id network_quality_estimator this,
        ResourceScheduler.client_map_ s
        !! ResourceScheduler.MakeClientId child_id route_id = None
        /\ s' = ResourceScheduler.OnClientCreated kBrowserProcessId e s
                  child_id route_id network_quality_estimator this)
  \/ (exists e child_id route_id,
        ResourceScheduler.OnClientDeleted e s child_id route_id = Some s').
Proof.
  intros Hinv Hlinked Hstep.
  destruct Hstep as
    [u r Hu Hr | u r r' Hu Hr | e child_id route_id is_async u r handle s' Hu Hr
       Hfresh Hbound Hsched | handle Hdom | e handle s' Hdom Hdestroy
     | e child_id route_id nqe this Hfree Hthis | e child_id route_id s' Hdel
     | e u new_priority new_intra s' Hu Hrep | e s' Hfire | e s' Hdispatch
     | e s' Hrun
     | e k c ect c' st' Hk Hnqe Hcall | e k c count c' st' Hk Hnqe Hcount Hcall
     | e k c c' st' Hk Htimer Hcall | e manager].
  - right. left. by exists u, r.
  - left. apply same_handles_stores; try reflexivity.
    intros q. by apply (user_data_insert _ u r).
  - right. right. left. by exists e, child_id, route_id, is_async, u, r, handle.
  - left. apply same_handles_stores; try reflexivity;
      cbn [ResourceScheduler.with_store ResourceScheduler.store];
      unfold WillStartRequest; cbn [fst].
    + apply (only_writes_dom {[handle]}).
      * apply only_writes_store_request. by apply elem_of_singleton.
      * intros p Hp. by apply elem_of_singleton in Hp as ->.
    + intros p. destruct (decide (handle = p)) as [<- | Hne].
      * by rewrite deref_store_request.
      * by rewrite deref_store_request_ne.
  - do 3 right. left. by exists e, handle.
  - do 4 right. left. by exists e, child_id, route_id, nqe, this.
  - do 5 right. by exists e, child_id, route_id.
  - left. by apply (ReprioritizeRequest_same_handles LOAD_IGNORE_LIMITS e s u
                      new_priority new_intra).
  - left. by apply (OnLongQueuedRequestsDispatchTimerFired_same_handles e s).
  - left.
    apply (same_handles_trans s (ResourceScheduler.with_timer s false));
      [by apply same_handles_stores |].
    apply (OnLongQueuedRequestsDispatchTimerFired_same_handles e
             (ResourceScheduler.with_timer s false));
      [by apply (scheduler_invariant_ext s) | exact Hdispatch].
  - left. by apply (RunTask_same_handles e s).
  - left. unfold Client.OnEffectiveConnectionTypeChanged in Hcall.
    destruct (bool_decide _).
    + injection Hcall as <- <-.
      by eapply (same_handles_updated _ _ k c c);
        [reflexivity | reflexivity | exact Hk | | | |].
    + eapply (pass_same_handles s _ k c _ _ _ c' st' Hinv Hk);
        [| exact Hcall | reflexivity | reflexivity | reflexivity].
      reflexivity.
  - left. unfold Client.OnPeerToPeerConnectionsCountChange in Hcall.
    destruct (_ =? count).
    + injection Hcall as <- <-.
      by eapply (same_handles_updated _ _ k c c);
        [reflexivity | reflexivity | exact Hk | | | |].
    + eapply (pass_same_handles s _ k c _ _ _ c' st' Hinv Hk);
        [| exact Hcall | reflexivity | reflexivity | reflexivity].
      reflexivity.
  - left. unfold Client.OnP2PConnectionsCountEndedTimerFired in Hcall.
    eapply (pass_same_handles s _ k c _ _ _ c' st' Hinv Hk);
      [| exact Hcall | reflexivity | reflexivity | reflexivity].
    reflexivity.
  - left. split; [reflexivity |]. split; [reflexivity |].
    split; [reflexivity |]. split; [reflexivity |]. intros k.
    cbn [ResourceScheduler.SetResourceSchedulerParamsManagerForTests
         ResourceScheduler.with_client_map ResourceScheduler.client_map_
         ResourceScheduler.with_params_manager].
    rewrite lookup_fmap.
    by destruct (ResourceScheduler.client_map_ s !! k).
Qed.

(** ** What the other steps do to the handles *)

Lemma difference_notin (X : gset positive) x : x ∉ X -> X ∖ {[x]} = X.
Proof.
  intros Hx. apply set_eq. intros p.
  rewrite elem_of_difference, elem_of_singleton. split; [tauto |].
  intros Hp. split; [exact Hp |]. by intros ->.
Qed.

(** [ScheduleRequest] allocates the handle, links it with its request, and
    hands it to the client of the request, or to the unowned requests when
    there is no such client. *)
Lemma ScheduleRequest_footprint e s child_id route_id is_async u r handle s' :
  scheduler_invariant s ->
  url_requests (ResourceScheduler.store s) !! u = Some r ->
  ResourceScheduler.ScheduleRequest e s child_id route_id is_async u handle
  = Some s' ->
  dom (requests (ResourceScheduler.store s'))
  = {[handle]} ∪ dom (requests (ResourceScheduler.store s))
  /\ (forall p, p <> handle ->
        request_ (deref (ResourceScheduler.store s') p)
        = request_ (deref (ResourceScheduler.store s) p))
  /\ request_ (deref (ResourceScheduler.store s') handle) = u
  /\ url_requests (ResourceScheduler.store s')
     = <[u := net.SetUserData r (Some handle)]>
         (url_requests (ResourceScheduler.store s))
  /\ ((ResourceScheduler.unowned_requests_ s'
       = {[handle]} ∪ ResourceScheduler.unowned_requests_ s
       /\ ResourceScheduler.client_map_ s' = ResourceScheduler.client_map_ s)
      \/ (ResourceScheduler.unowned_requests_ s'
          = ResourceScheduler.unowned_requests_ s
          /\ exists c c',
               ResourceScheduler.client_map_ s
               !! ResourceScheduler.MakeClientId child_id route_id = Some c
               /\ ResourceScheduler.client_map_ s'
                  = <[ResourceScheduler.MakeClientId child_id route_id := c']>
                      (ResourceScheduler.client_map_ s)
               /\ tracked c' = {[handle]} ∪ tracked c)).
Proof.
  intros Hinv Hu. unfold ResourceScheduler.ScheduleRequest.
  rewrite (lookup_total_correct _ _ _ Hu).
  set (k := ResourceScheduler.MakeClientId child_id route_id).
  set (st0 := with_url_requests _ _).
  assert (Hd0 : dom (requests st0)
                = {[handle]} ∪ dom (requests (ResourceScheduler.store s))).
  { unfold st0, store_request, with_requests, with_url_requests.
    cbn [requests]. by rewrite dom_insert_L. }
  assert (Hr0 : forall p, p <> handle ->
                  deref st0 p = deref (ResourceScheduler.store s) p).
  { intros p Hne. unfold st0. rewrite deref_with_url_requests.
    by apply deref_store_request_ne. }
  assert (Hh0 : request_ (deref st0 handle) = u).
  { unfold st0. by rewrite deref_with_url_requests, deref_store_request. }
  assert (Hin0 : handle ∈ dom (requests st0)).
  { rewrite Hd0. apply elem_of_union. left. by apply elem_of_singleton. }
  destruct (ResourceScheduler.client_map_ s !! k) as [c |] eqn:Hk.
  - destruct (Client.ScheduleRequest _ c st0 handle) as [[c' st'] |] eqn:Hsched;
      [| discriminate].
    destruct (Client_ScheduleRequest_writes _ _ _ _ _ _ Hsched)
      as (Ht & Hw & Hurl).
    set (s2 := ResourceScheduler.with_store _ _).
    assert (Hreq : forall p,
              request_ (deref st' p) = request_ (deref st0 p)).
    { intros p.
      apply (Client_ScheduleRequest_frame request_ (fun _ _ => eq_refl)
               (fun _ _ => eq_refl) (fun _ _ _ => eq_refl) _ _ _ _ _ _ p
               Hsched).
      by right. }
    assert (Hfoot :
              dom (requests (ResourceScheduler.store s2))
              = {[handle]} ∪ dom (requests (ResourceScheduler.store s))
              /\ (forall p, p <> handle ->
                    request_ (deref (ResourceScheduler.store s2) p)
                    = request_ (deref (ResourceScheduler.store s) p))
              /\ request_ (deref (ResourceScheduler.store s2) handle) = u
              /\ url_requests (ResourceScheduler.store s2)
                 = <[u := net.SetUserData r (Some handle)]>
                     (url_requests (ResourceScheduler.store s))).
    { cbn [s2 ResourceScheduler.with_store ResourceScheduler.store].
      split; [| split; [| split]].
      - rewrite <- Hd0. apply (only_writes_dom ({[handle]} ∪ tracked c));
          [exact Hw |].
        intros p [Hp | Hp]%elem_of_union.
        + by apply elem_of_singleton in Hp as ->.
        + rewrite Hd0. apply elem_of_union. right.
          by apply (tracked_live s k c).
      - intros p Hne. by rewrite Hreq, Hr0.
      - by rewrite Hreq.
      - by rewrite Hurl. }
    destruct Hfoot as (F1 & F2 & F3 & F4).
    destruct (StartLongQueuedRequestsDispatchTimerIfNeeded_same s2)
      as (Est & Ecm & Eun & _).
    destruct (negb _); intros [= <-]; rewrite ?Est, ?Ecm, ?Eun;
      (split; [exact F1 |]); (split; [exact F2 |]); (split; [exact F3 |]);
      (split; [exact F4 |]); right; (split; [reflexivity |]);
      by exists c, c'.
  - intros [= <-].
    cbn [ResourceScheduler.with_store ResourceScheduler.with_unowned_requests
         ResourceScheduler.store ResourceScheduler.unowned_requests_
         ResourceScheduler.client_map_].
    split; [| split; [| split; [| split; [| by left]]]].
    + rewrite <- Hd0. apply (only_writes_dom {[handle]}); [apply Start_writes |].
      intros p Hp. by apply elem_of_singleton in Hp as ->.
    + intros p Hne.
      rewrite (Start_frame request_) by (intros; reflexivity).
      by rewrite Hr0.
    + by rewrite (Start_frame request_) by (intros; reflexivity).
    + by destruct (Start_core st0 handle START_SYNC handle) as [_ ->].
Qed.

(** [RemoveRequest] takes the handle from the unowned requests or from what
    its client tracks, and nothing else. *)
Lemma RemoveRequest_footprint e s request s' :
  scheduler_invariant s ->
  request ∈ dom (requests (ResourceScheduler.store s)) ->
  ResourceScheduler.RemoveRequest e s request = Some s' ->
  dom (requests (ResourceScheduler.store s'))
  = dom (requests (ResourceScheduler.store s))
  /\ (forall p,
        request_ (deref (ResourceScheduler.store s') p)
        = request_ (deref (ResourceScheduler.store s) p))
  /\ url_requests (ResourceScheduler.store s')
     = url_requests (ResourceScheduler.store s)
  /\ ResourceScheduler.unowned_requests_ s'
     = ResourceScheduler.unowned_requests_ s ∖ {[request]}
  /\ (forall k,
        tracked <$> ResourceScheduler.client_map_ s' !! k
        = (fun c => tracked c ∖ {[request]})
          <$> ResourceScheduler.client_map_ s !! k).
Proof.
  intros Hinv Hdom. pose proof Hinv as (G1 & G2 & G3 & G4 & G5 & G6).
  unfold ResourceScheduler.RemoveRequest.
  case_bool_decide as Hu.
  - intros [= <-].
    cbn [ResourceScheduler.with_unowned_requests ResourceScheduler.store
         ResourceScheduler.unowned_requests_ ResourceScheduler.client_map_].
    do 4 (split; [reflexivity |]). intros k.
    destruct (ResourceScheduler.client_map_ s !! k) as [c |] eqn:Hk;
      [| reflexivity].
    cbn. f_equal. symmetry. apply difference_notin. by apply (G4 request k c).
  - set (k0 := client_id_ (deref (ResourceScheduler.store s) request)).
    assert (Hother : forall k c,
              ResourceScheduler.client_map_ s !! k = Some c -> k <> k0 ->
              request ∉ tracked c).
    { intros k c Hk Hne Hin.
      destruct (G1 k c Hk) as (_ & _ & _ & _ & Hd & _).
      destruct (Hd request Hin) as [_ Hid]. by apply Hne. }
    destruct (ResourceScheduler.client_map_ s !! k0) as [c |] eqn:Hk.
    + destruct (Client.RemoveRequest _ c _ request) as [[c' st'] |] eqn:Hremove;
        [| discriminate].
      intros [= <-].
      destruct (Client_RemoveRequest_writes _ k0 c _ request c' st'
                  (G1 k0 c Hk) Hremove) as [Ht Hw].
      cbn [ResourceScheduler.with_store ResourceScheduler.with_client_map
           ResourceScheduler.store ResourceScheduler.unowned_requests_
           ResourceScheduler.client_map_].
      split; [| split; [| split; [| split]]].
      * apply (only_writes_dom ({[request]} ∪ tracked c)); [exact Hw |].
        intros p [Hp | Hp]%elem_of_union.
        -- by apply elem_of_singleton in Hp as ->.
        -- by apply (tracked_live s k0 c).
      * intros p.
        by apply (Client_RemoveRequest_frame request_ (fun _ _ => eq_refl)
                    (fun _ _ => eq_refl) (fun _ _ _ => eq_refl) _ _ _ _ _ _
                    Hremove).
      * by apply Client_RemoveRequest_url_requests in Hremove.
      * symmetry. by apply difference_notin.
      * intros k. destruct (decide (k = k0)) as [-> | Hne].
        -- rewrite lookup_insert_eq, Hk. cbn. by rewrite Ht.
        -- rewrite lookup_insert_ne by done.
           destruct (ResourceScheduler.client_map_ s !! k) as [c2 |] eqn:Hk2;
             [| reflexivity].
           cbn. f_equal. symmetry. apply difference_notin.
           by apply (Hother k c2).
    + intros [= <-]. do 3 (split; [reflexivity |]).
      split; [symmetry; by apply difference_notin |].
      intros k.
      destruct (ResourceScheduler.client_map_ s !! k) as [c2 |] eqn:Hk2;
        [| reflexivity].
      cbn. f_equal. symmetry. apply difference_notin.
      apply (Hother k c2 Hk2). intros ->. congruence.
Qed.

(** Destroying a handle frees it, clears the user data of its request, and
    takes it from the unowned requests or from what its client tracks. *)
Lemma DestroyRequest_footprint e s handle s' :
  scheduler_invariant s ->
  handle ∈ dom (requests (ResourceScheduler.store s)) ->
  ResourceScheduler.DestroyRequest e s handle = Some s' ->
  dom (requests (ResourceScheduler.store s'))
  = dom (requests (ResourceScheduler.store s)) ∖ {[handle]}
  /\ (forall p, p <> handle ->
        request_ (deref (ResourceScheduler.store s') p)
        = request_ (deref (ResourceScheduler.store s) p))
  /\ url_requests (ResourceScheduler.store s')
     = <[request_ (deref (ResourceScheduler.store s) handle) :=
           net.SetUserData
             (url_requests (ResourceScheduler.store s)
              !!! request_ (deref (ResourceScheduler.store s) handle))
             None]> (url_requests (ResourceScheduler.store s))
  /\ ResourceScheduler.unowned_requests_ s'
     = ResourceScheduler.unowned_requests_ s ∖ {[handle]}
  /\ (forall k,
        tracked <$> ResourceScheduler.client_map_ s' !! k
        = (fun c => tracked c ∖ {[handle]})
          <$> ResourceScheduler.client_map_ s !! k).
Proof.
  intros Hinv Hdom. unfold ResourceScheduler.DestroyRequest.
  set (st := with_url_requests _ _).
  assert (Hinv1 : scheduler_invariant (ResourceScheduler.with_store s st))
    by (by apply scheduler_invariant_store).
  destruct (ResourceScheduler.RemoveRequest e
              (ResourceScheduler.with_store s st) handle)
    as [s1 |] eqn:Hremove; [| discriminate].
  intros [= <-].
  destruct (RemoveRequest_footprint e _ handle s1 Hinv1 Hdom Hremove)
    as (F1 & F2 & F3 & F4 & F5).
  cbn [ResourceScheduler.with_store ResourceScheduler.store
       ResourceScheduler.unowned_requests_ ResourceScheduler.client_map_
       requests url_requests] in *.
  split; [| split; [| split; [| split]]].
  - by rewrite dom_delete_L, F1.
  - intros p Hne.
    transitivity (request_ (deref (ResourceScheduler.store s1) p));
      [| exact (F2 p)].
    unfold deref. cbn [requests]. by rewrite lookup_total_delete_ne.
  - exact F3.
  - exact F4.
  - exact F5.
Qed.

(** Deleting a client hands the handles it tracked to the unowned
    requests. *)
Lemma OnClientDeleted_footprint e s child_id route_id s' :
  scheduler_invariant s ->
  ResourceScheduler.OnClientDeleted e s child_id route_id = Some s' ->
  dom (requests (ResourceScheduler.store s'))
  = dom (requests (ResourceScheduler.store s))
  /\ (forall p,
        request_ (deref (ResourceScheduler.store s') p)
        = request_ (deref (ResourceScheduler.store s) p))
  /\ url_requests (ResourceScheduler.store s')
     = url_requests (ResourceScheduler.store s)
  /\ exists c,
       ResourceScheduler.client_map_ s
       !! ResourceScheduler.MakeClientId child_id route_id = Some c
       /\ ResourceScheduler.unowned_requests_ s'
          = tracked c ∪ ResourceScheduler.unowned_requests_ s
       /\ ResourceScheduler.client_map_ s'
          = delete (ResourceScheduler.MakeClientId child_id route_id)
              (ResourceScheduler.client_map_ s).
Proof.
  intros Hinv. unfold ResourceScheduler.OnClientDeleted.
  destruct (ResourceScheduler.client_map_ s !! _) as [c |] eqn:Hk;
    [| discriminate].
  destruct (Client.StartAndRemoveAllRequests _ c _) as [[[c' st'] U] |] eqn:Hall;
    [| discriminate].
  intros [= <-].
  destruct (StartAndRemoveAllRequests_writes _ _ _ _ _ _ Hall)
    as (HU & Hw & Hurl).
  cbn [ResourceScheduler.with_client_map ResourceScheduler.client_map_
       ResourceScheduler.with_unowned_requests ResourceScheduler.with_store
       ResourceScheduler.store ResourceScheduler.unowned_requests_
       requests url_requests].
  split; [| split; [| split; [exact Hurl |]]].
  - apply (only_writes_dom (tracked c)); [exact Hw |].
    exact (tracked_live s _ c Hinv Hk).
  - intros p.
    change (request_ (deref st' p)
            = request_ (deref (ResourceScheduler.store s) p)).
    by apply (StartAndRemoveAllRequests_frame request_ (fun _ _ => eq_refl)
                (fun _ _ => eq_refl) (fun _ _ _ => eq_refl) _ _ _ _ _ _ Hall).
  - exists c. by rewrite HU.
Qed.

(** ** Handles and requests point at each other *)

Lemma linked_ext st st' :
  dom (requests st') = dom (requests st) ->
  (forall p, request_ (deref st' p) = request_ (deref st p)) ->
  (forall u,
     net.user_data <$> url_requests st' !! u
     = net.user_data <$> url_requests st !! u) ->
  linked st -> linked st'.
Proof.
  intros Hd Hr Hu [L1 L2]. split.
  - intros h Hh. rewrite Hd in Hh. destruct (L1 h Hh) as (r & Hl & Hud).
    rewrite Hr. pose proof (Hu (request_ (deref st h))) as E.
    rewrite Hl in E. cbn in E.
    destruct (url_requests st' !! request_ (deref st h)) as [r' |];
      [| discriminate].
    exists r'. split; [reflexivity |]. cbn in E. congruence.
  - intros u r' h Hl Hud. pose proof (Hu u) as E. rewrite Hl in E. cbn in E.
    destruct (url_requests st !! u) as [r |] eqn:Hl0; [| discriminate].
    cbn in E. rewrite Hd, Hr. apply (L2 u r h Hl0). congruence.
Qed.

Lemma step_linked LOAD_IGNORE_LIMITS kBrowserProcessId s s' :
  scheduler_invariant s ->
  linked (ResourceScheduler.store s) ->
  step LOAD_IGNORE_LIMITS kBrowserProcessId s s' ->
  linked (ResourceScheduler.store s').
Proof.
  intros Hinv Hlinked Hstep. pose proof Hlinked as [L1 L2].
  destruct (step_handles _ _ _ _ Hinv Hlinked Hstep)
    as [(Hd & Hr & Hu & _)
       | [(u & r & Hu & Hr & ->)
         | [(e & child_id & route_id & is_async & u & r & handle & Hu & Hr
             & Hfresh & Hsched)
           | [(e & handle & Hdom & Hdestroy)
             | [(e & child_id & route_id & nqe & this & Hfree & ->)
               | (e & child_id & route_id & Hdel)]]]]].
  - by apply (linked_ext (ResourceScheduler.store s)).
  - cbn [ResourceScheduler.with_store ResourceScheduler.store]. split.
    + intros h Hh. destruct (L1 h Hh) as (r0 & Hl & Hud).
      exists r0. split; [| exact Hud].
      rewrite deref_with_url_requests. cbn [with_url_requests url_requests].
      rewrite lookup_insert_ne; [exact Hl |]. intros E. congruence.
    + intros u' r' h. cbn [with_url_requests url_requests].
      destruct (decide (u = u')) as [<- | Hne].
      * rewrite lookup_insert_eq. intros [= <-]. congruence.
      * rewrite lookup_insert_ne by done. apply L2.
  - apply not_elem_of_dom in Hfresh.
    destruct (ScheduleRequest_footprint e s child_id route_id is_async u r
                handle s' Hinv Hu Hsched) as (F1 & F2 & F3 & F4 & _).
    split.
    + intros h Hh. rewrite F1 in Hh. rewrite F4.
      apply elem_of_union in Hh as [Hh | Hh].
      * apply elem_of_singleton in Hh as ->. rewrite F3, lookup_insert_eq.
        by eexists.
      * assert (Hne : h <> handle) by (by intros ->).
        destruct (L1 h Hh) as (r0 & Hl & Hud). rewrite (F2 h Hne).
        exists r0. split; [| exact Hud].
        rewrite lookup_insert_ne; [exact Hl |]. intros E. congruence.
    + intros u' r' h. rewrite F4, F1.
      destruct (decide (u = u')) as [<- | Hne].
      * rewrite lookup_insert_eq. intros [= <-]. cbn. intros [= <-].
        split; [| exact F3]. apply elem_of_union. left.
        by apply elem_of_singleton.
      * rewrite lookup_insert_ne by done. intros Hl Hud.
        destruct (L2 u' r' h Hl Hud) as [Hh Hreq].
        split; [apply elem_of_union; by right |].
        rewrite F2; [exact Hreq |]. by intros ->.
  - destruct (DestroyRequest_footprint e s handle s' Hinv Hdom Hdestroy)
      as (F1 & F2 & F3 & _).
    destruct (L1 handle Hdom) as (r1 & Hl1 & Hud1).
    split.
    + intros h Hh. rewrite F1 in Hh.
      apply elem_of_difference in Hh as [Hh Hne].
      rewrite elem_of_singleton in Hne.
      destruct (L1 h Hh) as (r0 & Hl & Hud). rewrite (F2 h Hne), F3.
      exists r0. split; [| exact Hud].
      rewrite lookup_insert_ne; [exact Hl |]. intros E.
      rewrite <- E in Hl. congruence.
    + intros u' r' h. rewrite F3, F1.
      destruct (decide (request_ (deref (ResourceScheduler.store s) handle)
                        = u')) as [<- | Hne].
      * rewrite lookup_insert_eq. intros [= <-]. discriminate.
      * rewrite lookup_insert_ne by done. intros Hl Hud.
        destruct (L2 u' r' h Hl Hud) as [Hh Hreq].
        assert (Hh2 : h <> handle) by (intros ->; contradiction).
        split; [| by rewrite F2].
        apply elem_of_difference. split; [exact Hh |].
        by rewrite elem_of_singleton.
  - exact Hlinked.
  - destruct (OnClientDeleted_footprint e s child_id route_id s' Hinv Hdel)
      as (F1 & F2 & F3 & _).
    apply (linked_ext (ResourceScheduler.store s)); [exact F1 | exact F2 | |
      exact Hlinked].
    intros u. by rewrite F3.
Qed.

Lemma new_store enabled manager :
  ResourceScheduler.store (ResourceScheduler.new enabled manager)
  = {| requests := ∅; url_requests := ∅; posted_tasks := []; resumed := [] |}
  /\ ResourceScheduler.unowned_requests_ (ResourceScheduler.new enabled manager)
     = ∅.
Proof.
  unfold ResourceScheduler.new.
  by destruct (StartLongQueuedRequestsDispatchTimerIfNeeded_same
                 {| ResourceScheduler.store :=
                      {| requests := ∅; url_requests := ∅; posted_tasks := [];
                         resumed := [] |};
                    ResourceScheduler.client_map_ := ∅;
                    ResourceScheduler.unowned_requests_ := ∅;
                    ResourceScheduler.enabled_ := enabled;
                    ResourceScheduler.params_manager_ := manager;
                    ResourceScheduler.long_queued_requests_dispatch_timer_ :=
                      false |}) as (-> & _ & -> & _).
Qed.

Lemma reachable_linked LOAD_IGNORE_LIMITS kBrowserProcessId s :
  reachable LOAD_IGNORE_LIMITS kBrowserProcessId s ->
  linked (ResourceScheduler.store s).
Proof.
  induction 1 as [enabled manager | s s' Hreach IH Hstep].
  - destruct (new_store enabled manager) as [-> _]. split.
    + intros h Hh. cbn [requests] in Hh. by rewrite dom_empty_L in Hh.
    + intros u r h Hl. cbn [url_requests] in Hl. by rewrite lookup_empty in Hl.
  - apply (step_linked LOAD_IGNORE_LIMITS kBrowserProcessId s s');
      [by apply (reachable_invariant LOAD_IGNORE_LIMITS kBrowserProcessId)
      | exact IH | exact Hstep].
Qed.

(** ** Every live handle is accounted for *)

Lemma step_accounted LOAD_IGNORE_LIMITS kBrowserProcessId s s' :
  scheduler_invariant s ->
  linked (ResourceScheduler.store s) ->
  accounted s ->
  step LOAD_IGNORE_LIMITS kBrowserProcessId s s' ->
  accounted s'.
Proof.
  intros Hinv Hlinked Hacc Hstep.
  destruct (step_handles _ _ _ _ Hinv Hlinked Hstep)
    as [(Hd & _ & _ & Hn & Ht)
       | [(u & r & Hu & Hr & ->)
         | [(e & child_id & route_id & is_async & u & r & handle & Hu & Hr
             & Hfresh & Hsched)
           | [(e & handle & Hdom & Hdestroy)
             | [(e & child_id & route_id & nqe & this & Hfree & ->)
               | (e & child_id & route_id & Hdel)]]]]].
  - intros h Hh. rewrite Hd in Hh. rewrite Hn.
    destruct (Hacc h Hh) as [Hun | (k & c & Hk & Hin)]; [by left | right].
    pose proof (Ht k) as E. rewrite Hk in E. cbn in E.
    destruct (ResourceScheduler.client_map_ s' !! k) as [c' |] eqn:Hk';
      [| discriminate].
    exists k, c'. split; [exact Hk' |]. cbn in E. injection E as ->.
    exact Hin.
  - exact Hacc.
  - destruct (ScheduleRequest_footprint e s child_id route_id is_async u r
                handle s' Hinv Hu Hsched) as (F1 & _ & _ & _ & F5).
    intros h Hh. rewrite F1 in Hh.
    destruct F5 as [[Hn Hm] | (Hn & c & c' & Hk & Hm & Ht)]; rewrite Hn, Hm.
    + apply elem_of_union in Hh as [Hh | Hh];
        [left; apply elem_of_union; by left |].
      destruct (Hacc h Hh) as [Hun | Htr]; [| by right].
      left. apply elem_of_union. by right.
    + apply elem_of_union in Hh as [Hh | Hh].
      * right. exists (ResourceScheduler.MakeClientId child_id route_id), c'.
        rewrite lookup_insert_eq, Ht. split; [reflexivity |].
        apply elem_of_union. by left.
      * destruct (Hacc h Hh) as [Hun | (k & c2 & Hk2 & Hin)]; [by left |].
        right.
        destruct (decide (k = ResourceScheduler.MakeClientId child_id route_id))
          as [-> | Hne].
        -- exists (ResourceScheduler.MakeClientId child_id route_id), c'.
           rewrite lookup_insert_eq, Ht. split; [reflexivity |].
           apply elem_of_union. right. congruence.
        -- exists k, c2. by rewrite lookup_insert_ne.
  - destruct (DestroyRequest_footprint e s handle s' Hinv Hdom Hdestroy)
      as (F1 & _ & _ & F4 & F5).
    intros h Hh. rewrite F1 in Hh. apply elem_of_difference in Hh as [Hh Hne].
    rewrite F4.
    destruct (Hacc h Hh) as [Hun | (k & c & Hk & Hin)].
    + left. by apply elem_of_difference.
    + right. pose proof (F5 k) as E. rewrite Hk in E. cbn in E.
      destruct (ResourceScheduler.client_map_ s' !! k) as [c' |] eqn:Hk';
        [| discriminate].
      exists k, c'. split; [exact Hk' |]. cbn in E. injection E as ->.
      by apply elem_of_difference.
  - intros h Hh.
    destruct (Hacc h Hh) as [Hun | (k & c & Hk & Hin)]; [by left | right].
    exists k, c. split; [| exact Hin].
    cbn [ResourceScheduler.OnClientCreated ResourceScheduler.with_client_map
         ResourceScheduler.client_map_].
    rewrite lookup_insert_ne; [exact Hk |]. intros <-. congruence.
  - destruct (OnClientDeleted_footprint e s child_id route_id s' Hinv Hdel)
      as (F1 & _ & _ & c & Hk & Hn & Hm).
    intros h Hh. rewrite F1 in Hh. rewrite Hn, Hm.
    destruct (Hacc h Hh) as [Hun | (k & c2 & Hk2 & Hin)].
    + left. apply elem_of_union. by right.
    + destruct (decide (k = ResourceScheduler.MakeClientId child_id route_id))
        as [-> | Hne].
      * left. apply elem_of_union. left. congruence.
      * right. exists k, c2. by rewrite lookup_delete_ne.
Qed.

Lemma reachable_accounted LOAD_IGNORE_LIMITS kBrowserProcessId s :
  reachable LOAD_IGNORE_LIMITS kBrowserProcessId s -> accounted s.
Proof.
  induction 1 as [enabled manager | s s' Hreach IH Hstep].
  - intros h Hh. destruct (new_store enabled manager) as [E _].
    rewrite E in Hh. cbn [requests] in Hh. by rewrite dom_empty_L in Hh.
  - apply (step_accounted LOAD_IGNORE_LIMITS kBrowserProcessId s s');
      [by apply (reachable_invariant LOAD_IGNORE_LIMITS kBrowserProcessId)
      | by apply (reachable_linked LOAD_IGNORE_LIMITS kBrowserProcessId)
      | exact IH | exact Hstep].
Qed.

(** X15. In every state the scheduler reaches, the live handles and the
    requests point at each other: the request of a live handle exists and
    its user data (what [ForRequest] reads) is the address of that handle,
    and the user data of a request is never stale, it is the address of a
    live handle of that very request. So [ForRequest] returns either null
    or a live handle, and no two live handles schedule the same request. *)
Theorem X15_handles_and_requests_linked LOAD_IGNORE_LIMITS kBrowserProcessId
    s :
  reachable LOAD_IGNORE_LIMITS kBrowserProcessId s ->
  (forall h,
     h ∈ dom (requests (ResourceScheduler.store s)) ->
     exists r,
       url_requests (ResourceScheduler.store s)
       !! request_ (deref (ResourceScheduler.store s) h) = Some r
       /\ net.user_data r = Some h)
  /\ (forall u r h,
        url_requests (ResourceScheduler.store s) !! u = Some r ->
        net.user_data r = Some h ->
        h ∈ dom (requests (ResourceScheduler.store s))
        /\ request_ (deref (ResourceScheduler.store s) h) = u)
  /\ (forall h h',
        h ∈ dom (requests (ResourceScheduler.store s)) ->
        h' ∈ dom (requests (ResourceScheduler.store s)) ->
        request_ (deref (ResourceScheduler.store s) h)
        = request_ (deref (ResourceScheduler.store s) h') ->
        h = h').
Proof.
  intros Hreach.
  destruct (reachable_linked _ _ _ Hreach) as [L1 L2].
  split; [exact L1 |]. split; [exact L2 |].
  intros h h' Hh Hh' E.
  destruct (L1 h Hh) as (r & Hl & Hud).
  destruct (L1 h' Hh') as (r' & Hl' & Hud').
  rewrite E in Hl. congruence.
Qed.

Lemma X15_handles_and_requests_linked_witness :
  reachable Example.LOAD_IGNORE_LIMITS Example.kBrowserProcessId
    Example.two_in_flight_scheduler
  /\ 102%positive
     ∈ dom (requests (ResourceScheduler.store Example.two_in_flight_scheduler))
  /\ exists r,
       url_requests (ResourceScheduler.store Example.two_in_flight_scheduler)
       !! request_
            (deref (ResourceScheduler.store Example.two_in_flight_scheduler)
               102) = Some r
       /\ net.user_data r = Some 102%positive.
Proof.
  assert (Hdom : 102%positive
                 ∈ dom (requests
                          (ResourceScheduler.store
                             Example.two_in_flight_scheduler))).
  { apply elem_of_dom. vm_compute. by eexists. }
  split; [exact two_in_flight_reachable |]. split; [exact Hdom |].
  destruct (X15_handles_and_requests_linked _ _ _ two_in_flight_reachable)
    as [H1 _].
  exact (H1 102%positive Hdom).
Defined.

(** X16. The scheduler never loses a handle: in every state it reaches, a
    live handle (one scheduled and not yet destroyed) is either among the
    unowned requests, and then no client tracks it, or it is not unowned
    and the client registered under its client id tracks it, in flight or
    pending. *)
Theorem X16_no_handle_lost LOAD_IGNORE_LIMITS kBrowserProcessId s h :
  reachable LOAD_IGNORE_LIMITS kBrowserProcessId s ->
  h ∈ dom (requests (ResourceScheduler.store s)) ->
  (h ∈ ResourceScheduler.unowned_requests_ s
   /\ forall client_id c,
        ResourceScheduler.client_map_ s !! client_id = Some c ->
        h ∉ tracked c)
  \/ ((h ∉ ResourceScheduler.unowned_requests_ s)
      /\ exists c,
           ResourceScheduler.client_map_ s
           !! client_id_ (deref (ResourceScheduler.store s) h) = Some c
           /\ (h ∈ Client.in_flight_requests_ c
               \/ h ∈ RequestQueue.queue_ (Client.pending_requests_ c))).
Proof.
  intros Hreach Hh.
  destruct (reachable_invariant _ _ s Hreach) as (G1 & G2 & G3 & G4 & G5 & G6).
  destruct (reachable_accounted _ _ s Hreach h Hh)
    as [Hun | (k & c & Hk & Hin)].
  - left. split; [exact Hun |]. intros k c Hk. by apply (G4 h k c).
  - right. split; [intros Hun; by apply (G4 h k c) |].
    destruct (G1 k c Hk) as (_ & _ & _ & _ & Hd & _).
    destruct (Hd h Hin) as [_ Hid]. exists c. rewrite Hid.
    split; [exact Hk |].
    unfold tracked in Hin. apply elem_of_union in Hin as [Hin | Hin];
      [by left | right; by apply elem_of_list_to_set in Hin].
Qed.

Lemma X16_no_handle_lost_witness :
  reachable Example.LOAD_IGNORE_LIMITS Example.kBrowserProcessId
    Example.mixed_scheduler
  /\ 108%positive
     ∈ dom (requests (ResourceScheduler.store Example.mixed_scheduler))
  /\ ((108%positive ∈ ResourceScheduler.unowned_requests_ Example.mixed_scheduler
       /\ forall client_id c,
            ResourceScheduler.client_map_ Example.mixed_scheduler !! client_id
            = Some c ->
            108%positive ∉ tracked c)
      \/ ((108%positive
           ∉ ResourceScheduler.unowned_requests_ Example.mixed_scheduler)
          /\ exists c,
               ResourceScheduler.client_map_ Example.mixed_scheduler
               !! client_id_
                    (deref (ResourceScheduler.store Example.mixed_scheduler)
                       108) = Some c
               /\ (108%positive ∈ Client.in_flight_requests_ c
                   \/ 108%positive
                      ∈ RequestQueue.queue_ (Client.pending_requests_ c)))).
Proof.
  assert (Hdom : 108%positive
                 ∈ dom (requests
                          (ResourceScheduler.store Example.mixed_scheduler))).
  { apply elem_of_dom. vm_compute. by eexists. }
  split; [exact mixed_reachable |]. split; [exact Hdom |].
  exact (X16_no_handle_lost _ _ _ _ mixed_reachable Hdom).
Defined.

(** ** Deleting a client *)

Lemma started_ext st st' p :
  (ready_ (deref st' p), deferred_ (deref st' p), request_ (deref st' p))
  = (ready_ (deref st p), deferred_ (deref st p), request_ (deref st p)) ->
  url_requests st' = url_requests st ->
  (StartTask p ∈ posted_tasks st -> StartTask p ∈ posted_tasks st') ->
  started st p -> started st' p.
Proof.
  intros [= Hr Hd Hq] Hu Ht. unfold started, url_request.
  rewrite Hr, Hd, Hq, Hu. intros [H | [H | [H1 H2]]]; [by left | tauto |].
  right. right. split; [exact H1 | by apply Ht].
Qed.

Lemma notify_in_flight_posted_tasks n l : forall st,
  posted_tasks
    (foldr
       (fun q st =>
          store_request st q (UpdateDelayableRequestsInFlight (deref st q) n))
       st l)
  = posted_tasks st.
Proof. induction l as [| q l IH]; intros st; simpl; [done | apply IH]. Qed.

Lemma InsertInFlightRequest_posted_tasks cx c st request :
  posted_tasks (Client.InsertInFlightRequest cx c st request).2
  = posted_tasks st.
Proof.
  unfold Client.InsertInFlightRequest.
  match goal with
  | |- context [Client.SetRequestAttributes ?c1 st request ?a] =>
      destruct (SetRequestAttributes_store c1 st request a) as (_ & Ht & _);
      destruct (Client.SetRequestAttributes c1 st request a) as [c2 st2]
  end.
  cbn [snd] in *. rewrite <- Ht.
  destruct (RequestAttributesAreSet _ kAttributeDelayable);
    destruct (_ || _); cbn [store_request with_requests posted_tasks];
    by rewrite ?notify_in_flight_posted_tasks.
Qed.

Lemma clear_attributes_store l : forall st,
  url_requests
    (foldr
       (fun q st =>
          store_request st q (set_attributes (deref st q) kAttributeNone))
       st l)
  = url_requests st
  /\ posted_tasks
       (foldr
          (fun q st =>
             store_request st q (set_attributes (deref st q) kAttributeNone))
          st l)
     = posted_tasks st.
Proof. induction l as [| q l IH]; intros st; simpl; [done | apply IH]. Qed.

(** [Start] starts the handle, and leaves started what was. *)
Lemma Start_started st request start_mode :
  started (Start st request start_mode) request
  /\ forall p, started st p -> started (Start st request start_mode) p.
Proof.
  unfold Start.
  destruct (net.status_is_success (url_request st request)) eqn:Hok;
    cbn [negb]; [| split; [by left | done]].
  destruct (deferred_ (deref st request)) eqn:Hdef.
  - destruct start_mode.
    + split.
      * right. left. by rewrite deref_store_request.
      * intros p Hp. destruct (decide (request = p)) as [<- | Hne].
        -- right. left. by rewrite deref_store_request.
        -- revert Hp. apply started_ext; [| reflexivity | done].
           rewrite deref_store_request_ne by done.
           change (deref (with_resumed ?s _) ?q) with (deref s q).
           by rewrite deref_store_request_ne.
    + split.
      * right. right. split; [exact Hdef |].
        cbn [PostTask posted_tasks]. apply elem_of_app. right.
        apply elem_of_cons. by left.
      * intros p. apply started_ext; [reflexivity | reflexivity |].
        intros Ht. cbn [PostTask posted_tasks]. apply elem_of_app.
        by left.
  - split.
    + right. left. by rewrite deref_store_request.
    + intros p Hp. destruct (decide (request = p)) as [<- | Hne].
      * right. left. by rewrite deref_store_request.
      * revert Hp. apply started_ext; [| reflexivity | done].
        by rewrite deref_store_request_ne.
Qed.

Lemma StartRequest_started cx c st request start_mode trigger :
  started (Client.StartRequest cx c st request start_mode trigger).2 request
  /\ forall p,
       started st p ->
       started (Client.StartRequest cx c st request start_mode trigger).2 p.
Proof.
  unfold Client.StartRequest.
  match goal with
  | |- context [Client.InsertInFlightRequest cx ?c0 st request] =>
      pose proof (fun p =>
                    InsertInFlightRequest_frame
                      (fun r => (ready_ r, deferred_ r, request_ r))
                      cx c0 st request p (fun _ _ => eq_refl)
                      (fun _ _ => eq_refl)) as Hf;
      pose proof (InsertInFlightRequest_posted_tasks cx c0 st request) as Ht;
      destruct (InsertInFlightRequest_store cx c0 st request request)
        as [_ Hu];
      destruct (Client.InsertInFlightRequest cx c0 st request) as [c1 st1]
  end.
  cbn [fst snd] in *.
  destruct (Start_started st1 request start_mode) as [H1 H2].
  split; [exact H1 |]. intros p Hp. apply H2. revert Hp.
  apply started_ext; [apply Hf | exact Hu |]. by rewrite Ht.
Qed.

Lemma StartAllPending_started cx n : forall c st c' st',
  Client.StartAllPending cx n c st = Some (c', st') ->
  (forall p, started st p -> started st' p)
  /\ (forall p,
        p ∈ RequestQueue.queue_ (Client.pending_requests_ c) ->
        started st' p).
Proof.
  induction n as [| n IH]; intros c st c' st'; simpl;
    destruct (RequestQueue.queue_ (Client.pending_requests_ c))
      as [| request l] eqn:Hqueue;
    try discriminate;
    try (intros [= <- <-]; split; [done | by intros p ?%elem_of_nil]).
  destruct (RequestQueue.Erase _ request) as [q |] eqn:Herase;
    [| discriminate].
  apply Erase_Some in Herase as [_ ->]. rewrite Hqueue. simpl.
  rewrite decide_True by reflexivity.
  match goal with
  | |- context [Client.StartRequest cx ?c0 st request START_ASYNC CLIENT_KILL] =>
      destruct (StartRequest_started cx c0 st request START_ASYNC CLIENT_KILL)
        as [H1 H2];
      pose proof (StartRequest_pending cx c st request START_ASYNC CLIENT_KILL
                    {| RequestQueue.fifo_ordering_ids_ :=
                         RequestQueue.fifo_ordering_ids_
                           (Client.pending_requests_ c);
                       RequestQueue.queue_ := l |}) as Hq1;
      destruct (Client.StartRequest cx c0 st request START_ASYNC CLIENT_KILL)
        as [c1 st1]
  end.
  cbn [fst snd] in *. intros Hrest.
  destruct (IH c1 st1 c' st' Hrest) as [H3 H4].
  split; [intros p Hp; by apply H3, H2 |].
  intros p [-> | Hp]%elem_of_cons; [by apply H3 |].
  apply H4. by rewrite Hq1.
Qed.

(** The teardown of a client starts its pending requests. *)
Lemma StartAndRemoveAllRequests_started cx c st c' st' U :
  Client.StartAndRemoveAllRequests cx c st = Some (c', st', U) ->
  forall p,
    p ∈ RequestQueue.queue_ (Client.pending_requests_ c) -> started st' p.
Proof.
  unfold Client.StartAndRemoveAllRequests.
  destruct (Client.StartAllPending _ _ c _) as [[c1 st1] |] eqn:Hstart;
    [| discriminate].
  intros [= <- <- <-] p Hp.
  destruct (StartAllPending_started _ _ _ _ _ _ Hstart) as [_ Hst].
  specialize (Hst p Hp). revert Hst.
  destruct (clear_attributes_store
              (elements (Client.in_flight_requests_ c1)) st1) as [Hu Ht].
  apply started_ext.
  - apply (clear_attributes_frame
             (fun r => (ready_ r, deferred_ r, request_ r))
             (fun _ _ => eq_refl)).
  - exact Hu.
  - by rewrite Ht.
Qed.

(** X3. The teardown of a client returns, whatever the state. It hands back
    as unowned exactly the requests the client tracked, pending or in
    flight, and every pending one has been started (it is ready afterwards,
    or, if it was deferred, the task that resumes it is posted, unless its
    request has failed or was cancelled). The client is left with an empty
    queue, no request in flight and both counters at 0, every request handed
    back has no attribute left, and no other handle is written. *)
Theorem X3_teardown_returns cx c st :
  exists c' st' unowned_requests,
    Client.StartAndRemoveAllRequests cx c st = Some (c', st', unowned_requests)
    /\ unowned_requests = tracked c
    /\ (forall p,
          p ∈ RequestQueue.queue_ (Client.pending_requests_ c) ->
          started st' p)
    /\ RequestQueue.queue_ (Client.pending_requests_ c') = []
    /\ Client.in_flight_requests_ c' = ∅
    /\ Client.in_flight_delayable_count_ c' = 0
    /\ Client.total_layout_blocking_count_ c' = 0
    /\ (forall p, p ∈ unowned_requests ->
          attributes_ (deref st' p) = kAttributeNone)
    /\ (forall p, p ∉ unowned_requests ->
          requests st' !! p = requests st !! p).
Proof.
  destruct (Client.StartAndRemoveAllRequests cx c st)
    as [[[c' st'] U] |] eqn:Hall.
  - exists c', st', U. split; [reflexivity |].
    destruct (StartAndRemoveAllRequests_writes _ _ _ _ _ _ Hall)
      as (HU & [_ Hw] & _).
    split; [exact HU |].
    split; [exact (StartAndRemoveAllRequests_started _ _ _ _ _ _ Hall) |].
    revert Hall. unfold Client.StartAndRemoveAllRequests.
    destruct (Client.StartAllPending cx _ c st) as [[c1 st1] |] eqn:Hstart;
      [| discriminate].
    intros [= <- <- HU1].
    split; [exact (StartAllPending_empty cx _ c st c1 st1 Hstart) |].
    split; [reflexivity |]. split; [reflexivity |]. split; [reflexivity |].
    split.
    + intros p Hp.
      destruct (clear_attributes_deref
                  (elements (Client.in_flight_requests_ c1)) st1 p)
        as (_ & E & _).
      rewrite E. rewrite decide_True; [reflexivity |].
      apply elem_of_elements. by rewrite HU1.
    + intros p Hp. apply Hw. by rewrite <- HU.
  - exfalso. revert Hall. unfold Client.StartAndRemoveAllRequests.
    destruct (StartAllPending_total cx _ c st (le_n _)) as [[c1 st1] Hstart].
    by rewrite Hstart.
Qed.

(** The teardown of the client with six requests in flight and two pending,
    of which the one at the head is handle 108. *)
Lemma X3_teardown_returns_witness :
  size (Client.in_flight_requests_ Example.mixed_client) = 6%nat
  /\ RequestQueue.queue_ (Client.pending_requests_ Example.mixed_client)
     = [108; 107]%positive
  /\ exists c' st' unowned_requests,
       Client.StartAndRemoveAllRequests Example.default_context
         Example.mixed_client (ResourceScheduler.store Example.mixed_scheduler)
       = Some (c', st', unowned_requests)
       /\ unowned_requests = tracked Example.mixed_client
       /\ started st' 108
       /\ started st' 107
       /\ attributes_ (deref st' 108) = kAttributeNone.
Proof.
  assert (Hq : RequestQueue.queue_
                 (Client.pending_requests_ Example.mixed_client)
               = [108; 107]%positive) by (vm_compute; reflexivity).
  split; [vm_compute; reflexivity |]. split; [exact Hq |].
  destruct (X3_teardown_returns Example.default_context Example.mixed_client
              (ResourceScheduler.store Example.mixed_scheduler))
    as (c' & st' & U & Hall & HU & Hstarted & _ & _ & _ & _ & Hnone & _).
  exists c', st', U. split; [exact Hall |]. split; [exact HU |].
  split; [apply Hstarted; rewrite Hq; apply elem_of_cons; by left |].
  split; [apply Hstarted; rewrite Hq; apply elem_of_cons; right;
          apply elem_of_cons; by left |].
  apply Hnone. rewrite HU. unfold tracked. apply elem_of_union_r.
  apply elem_of_list_to_set. rewrite Hq. apply elem_of_cons. by left.
Defined.

(** X17. Deleting a client hands all its requests over: in a state the
    scheduler has reached, [OnClientDeleted] removes the client from the
    map, moves exactly the handles it tracked, pending or in flight, to the
    unowned requests, and starts every pending one (it is ready afterwards,
    or, if it was deferred, the task that resumes it is posted, unless its
    request has failed or was cancelled). Handles that the client did not
    track are not written, and no task bound to the deleted client is left
    posted. *)
Theorem X17_client_deleted LOAD_IGNORE_LIMITS kBrowserProcessId e s child_id
    route_id c s' :
  reachable LOAD_IGNORE_LIMITS kBrowserProcessId s ->
  ResourceScheduler.client_map_ s
  !! ResourceScheduler.MakeClientId child_id route_id = Some c ->
  ResourceScheduler.OnClientDeleted e s child_id route_id = Some s' ->
  ResourceScheduler.client_map_ s'
  = delete (ResourceScheduler.MakeClientId child_id route_id)
      (ResourceScheduler.client_map_ s)
  /\ ResourceScheduler.unowned_requests_ s'
     = tracked c ∪ ResourceScheduler.unowned_requests_ s
  /\ (forall p,
        p ∈ RequestQueue.queue_ (Client.pending_requests_ c) ->
        started (ResourceScheduler.store s') p)
  /\ (forall p, p ∉ tracked c ->
        requests (ResourceScheduler.store s') !! p
        = requests (ResourceScheduler.store s) !! p)
  /\ dom (requests (ResourceScheduler.store s'))
     = dom (requests (ResourceScheduler.store s))
  /\ (forall t,
        t ∈ posted_tasks (ResourceScheduler.store s') ->
        bound_to_client (Client.this_ c) t = false).
Proof.
  intros Hreach Hk Hdel.
  pose proof (reachable_invariant _ _ s Hreach) as Hinv.
  destruct (OnClientDeleted_footprint e s child_id route_id s' Hinv Hdel)
    as (F1 & _ & _ & c0 & Hk0 & Hn & Hm).
  rewrite Hk in Hk0. injection Hk0 as <-.
  split; [exact Hm |]. split; [exact Hn |].
  revert Hdel. unfold ResourceScheduler.OnClientDeleted. rewrite Hk.
  destruct (Client.StartAndRemoveAllRequests _ c _) as [[[c' st'] U] |] eqn:Hall;
    [| discriminate].
  intros [= <-].
  cbn [ResourceScheduler.with_client_map ResourceScheduler.with_store
       ResourceScheduler.with_unowned_requests ResourceScheduler.store] in *.
  destruct (StartAndRemoveAllRequests_writes _ _ _ _ _ _ Hall)
    as (_ & [_ Hw] & _).
  split; [| split; [exact Hw | split; [exact F1 |]]].
  - intros p Hp. revert Hall. unfold Client.StartAndRemoveAllRequests.
    destruct (Client.StartAllPending _ _ c _) as [[c1 st1] |] eqn:Hstart;
      [| discriminate].
    intros [= <- <- <-].
    destruct (StartAllPending_started _ _ _ _ _ _ Hstart) as [_ Hst].
    specialize (Hst p Hp). revert Hst.
    destruct (clear_attributes_store
                (elements (Client.in_flight_requests_ c1)) st1) as [Hu Ht].
    apply started_ext; cbn [url_requests posted_tasks].
    + change (deref {| requests := requests ?st0; url_requests := _;
                       posted_tasks := _; resumed := _ |} ?q)
        with (deref st0 q).
      apply (clear_attributes_frame
               (fun r => (ready_ r, deferred_ r, request_ r))
               (fun _ _ => eq_refl)).
    + exact Hu.
    + intros Hin. apply list_elem_of_filter. rewrite Ht. by split.
  - intros t Hin. cbn [posted_tasks] in Hin.
    by apply list_elem_of_filter in Hin as [Hin _].
Qed.

Lemma X17_client_deleted_witness :
  reachable Example.LOAD_IGNORE_LIMITS Example.kBrowserProcessId
    Example.mixed_scheduler
  /\ ResourceScheduler.client_map_ Example.mixed_scheduler
     !! ResourceScheduler.MakeClientId 1 1 = Some Example.mixed_client
  /\ ResourceScheduler.OnClientDeleted (Example.environment false)
       Example.mixed_scheduler 1 1 = Some Example.mixed_deleted
  /\ ResourceScheduler.unowned_requests_ Example.mixed_deleted
     = tracked Example.mixed_client
       ∪ ResourceScheduler.unowned_requests_ Example.mixed_scheduler
  /\ started (ResourceScheduler.store Example.mixed_deleted) 108.
Proof.
  assert (Hk : ResourceScheduler.client_map_ Example.mixed_scheduler
               !! ResourceScheduler.MakeClientId 1 1
               = Some Example.mixed_client) by (vm_compute; reflexivity).
  assert (Hdel : ResourceScheduler.OnClientDeleted (Example.environment false)
                   Example.mixed_scheduler 1 1 = Some Example.mixed_deleted)
    by (vm_compute; reflexivity).
  split; [exact mixed_reachable |]. split; [exact Hk |].
  split; [exact Hdel |].
  destruct (X17_client_deleted _ _ _ _ _ _ _ _ mixed_reachable Hk Hdel)
    as (_ & Hn & Hst & _).
  split; [exact Hn |]. apply Hst.
  replace (RequestQueue.queue_ (Client.pending_requests_ Example.mixed_client))
    with [108%positive; 107%positive] by (vm_compute; reflexivity).
  apply elem_of_cons. by left.
Defined.

(** ** The dispatch timer after it has fired *)

Lemma pending_request_found s :
  existsb (fun kc => negb (Client.HasNoPendingRequests kc.2))
    (map_to_list (ResourceScheduler.client_map_ s)) = true
  <-> has_pending s.
Proof.
  rewrite existsb_exists. split.
  - intros ([k c] & Hin & Hq). exists k, c. split.
    + apply elem_of_map_to_list. by apply list_elem_of_In.
    + cbn [snd] in Hq. unfold Client.HasNoPendingRequests, RequestQueue.IsEmpty
        in Hq.
      by destruct (RequestQueue.queue_ (Client.pending_requests_ c)).
  - intros (k & c & Hk & Hq). exists (k, c). split.
    + apply list_elem_of_In. by apply elem_of_map_to_list.
    + cbn [snd]. unfold Client.HasNoPendingRequests, RequestQueue.IsEmpty.
      by destruct (RequestQueue.queue_ (Client.pending_requests_ c)).
Qed.

(** X18. When the timer that dispatches long-queued requests has fired and
    every client has made its pass, the timer is started again if and only
    if some client still has a request pending: it does not keep running
    once nothing is queued. *)
Theorem X18_timer_after_firing e s s' :
  ResourceScheduler.OnLongQueuedRequestsDispatchTimerFired e s = Some s' ->
  ResourceScheduler.long_queued_requests_dispatch_timer_ s' = true
  <-> has_pending s'.
Proof.
  unfold ResourceScheduler.OnLongQueuedRequestsDispatchTimerFired.
  destruct (ResourceScheduler.fire_clients e _ _) as [s1 |] eqn:Hfire;
    [| discriminate].
  intros [= <-]. apply fire_clients_quiet in Hfire as (_ & Ht & _).
  cbn [ResourceScheduler.with_timer
       ResourceScheduler.long_queued_requests_dispatch_timer_] in Ht.
  unfold ResourceScheduler.StartLongQueuedRequestsDispatchTimerIfNeeded.
  destruct (existsb _ _) eqn:Hfound; cbn [negb].
  - apply pending_request_found in Hfound. split; [| done].
    intros _. destruct Hfound as (k & c & Hk & Hq). by exists k, c.
  - rewrite Ht. split; [discriminate |].
    intros Hp. apply pending_request_found in Hp. congruence.
Qed.

Lemma X18_timer_after_firing_witness :
  ResourceScheduler.OnLongQueuedRequestsDispatchTimerFired
    (Example.environment false) Example.queued_scheduler
  = Some Example.queued_fired
  /\ Example.pending_of Example.queued_fired = [107; 108]%positive
  /\ (ResourceScheduler.long_queued_requests_dispatch_timer_
        Example.queued_fired = true
      <-> has_pending Example.queued_fired).
Proof.
  assert (Hfire : ResourceScheduler.OnLongQueuedRequestsDispatchTimerFired
                    (Example.environment false) Example.queued_scheduler
                  = Some Example.queued_fired) by (vm_compute; reflexivity).
  split; [exact Hfire |]. split; [vm_compute; reflexivity |].
  exact (X18_timer_after_firing _ _ _ Hfire).
Defined.

(** ** The requests in flight that are not delayable *)

Lemma in_flight_delayable_split a :
  RequestAttributesAreSet a kAttributeInFlightDelayable
  = RequestAttributesAreSet a kAttributeInFlight
    && RequestAttributesAreSet a kAttributeDelayable.
Proof.
  apply eq_true_iff_eq.
  rewrite andb_true_iff, !RequestAttributesAreSet_true. split.
  - intros H. split.
    + change kAttributeInFlight
        with (Z.land kAttributeInFlightDelayable kAttributeInFlight).
      by rewrite Z.land_assoc, H.
    + change kAttributeDelayable
        with (Z.land kAttributeInFlightDelayable kAttributeDelayable).
      by rewrite Z.land_assoc, H.
  - intros [H1 H2]. unfold kAttributeInFlightDelayable.
    by rewrite Z.land_lor_distr_r, H1, H2.
Qed.

(** X19. The subtraction in [CountInflightNonDelayableRequests] never wraps
    around: in every state the scheduler reaches, the cached count of
    delayable requests in flight of a client is at most the number of its
    requests in flight, and the difference is the number of requests in
    flight that do not have the Delayable attribute. *)
Theorem X19_non_delayable_count LOAD_IGNORE_LIMITS kBrowserProcessId s client_id
    c :
  reachable LOAD_IGNORE_LIMITS kBrowserProcessId s ->
  ResourceScheduler.client_map_ s !! client_id = Some c ->
  0 <= Client.in_flight_delayable_count_ c <= Client.in_flight_size c
  /\ Client.CountInflightNonDelayableRequests c
     = Client.in_flight_size c - Client.in_flight_delayable_count_ c
  /\ Client.CountInflightNonDelayableRequests c
     = Z.of_nat
         (size
            (filter
               (fun p =>
                  has_attributes (ResourceScheduler.store s)
                    kAttributeDelayable p = false)
               (Client.in_flight_requests_ c))).
Proof.
  intros Hreach Hk.
  destruct (reachable_invariant _ _ s Hreach) as (G1 & G2 & G3 & G4 & G5 & G6).
  pose proof (G1 client_id c Hk) as (Ha & _ & _ & _ & _ & Hf & _).
  set (st := ResourceScheduler.store s) in *.
  set (X := Client.in_flight_requests_ c) in *.
  assert (Hsize : Z.of_nat (size X) <= size_t_max).
  { apply size_addresses. intros p Hp. apply (G6 p client_id c Hk).
    unfold tracked. apply elem_of_union. by left. }
  assert (Hsplit :
            Z.of_nat (size X)
            = count_with_attributes st kAttributeInFlightDelayable X
              + Z.of_nat
                  (size
                     (filter
                        (fun p => has_attributes st kAttributeDelayable p
                                  = false) X))).
  { unfold count_with_attributes. rewrite <- Nat2Z.inj_add. f_equal.
    rewrite <- size_union.
    - f_equal. apply set_eq. intros p.
      rewrite elem_of_union, !elem_of_filter.
      split; [| tauto]. intros Hp.
      pose proof (Hf p Hp) as Hif. unfold has_attributes in *.
      rewrite in_flight_delayable_split, Hif. cbn [andb].
      destruct (RequestAttributesAreSet _ kAttributeDelayable); tauto.
    - intros p. rewrite !elem_of_filter. unfold has_attributes.
      rewrite in_flight_delayable_split.
      intros [H1 _] [H2 _]. rewrite H2 in H1.
      by rewrite andb_false_r in H1. }
  pose proof (count_with_attributes_bound st kAttributeInFlightDelayable X)
    as [Hlo Hhi].
  assert (Hd : Client.in_flight_delayable_count_ c
               = count_with_attributes st kAttributeInFlightDelayable X).
  { rewrite Ha. apply wrap_size_t_small. lia. }
  unfold Client.CountInflightNonDelayableRequests, Client.in_flight_size.
  fold X. rewrite Hd.
  split; [lia |].
  rewrite wrap_size_t_small by lia. split; [reflexivity | lia].
Qed.

Lemma X19_non_delayable_count_witness :
  reachable Example.LOAD_IGNORE_LIMITS Example.kBrowserProcessId
    Example.two_in_flight_scheduler
  /\ ResourceScheduler.client_map_ Example.two_in_flight_scheduler
     !! ResourceScheduler.MakeClientId 1 1 = Some Example.two_in_flight_client
  /\ Client.in_flight_delayable_count_ Example.two_in_flight_client = 1
  /\ Client.CountInflightNonDelayableRequests Example.two_in_flight_client
     = Client.in_flight_size Example.two_in_flight_client
       - Client.in_flight_delayable_count_ Example.two_in_flight_client.
Proof.
  assert (Hk : ResourceScheduler.client_map_ Example.two_in_flight_scheduler
               !! ResourceScheduler.MakeClientId 1 1
               = Some Example.two_in_flight_client)
    by (vm_compute; reflexivity).
  split; [exact two_in_flight_reachable |]. split; [exact Hk |].
  split; [vm_compute; reflexivity |].
  by destruct (X19_non_delayable_count _ _ _ _ _ two_in_flight_reachable Hk)
    as (_ & H & _).
Defined.

(** ** Re-prioritizing without an intra-priority *)

Lemma Client_ReprioritizeRequest_priority cx c st request old_priority_params
    new_priority_params c' st' :
  Client.ReprioritizeRequest cx c st request old_priority_params
    new_priority_params = Some (c', st') ->
  priority_ (deref st' request) = new_priority_params.
Proof.
  unfold Client.ReprioritizeRequest.
  set (st0 := store_request _ request _).
  assert (H0 : priority_ (deref st0 request) = new_priority_params)
    by (unfold st0; by rewrite deref_store_request).
  match goal with
  | |- context [Client.SetRequestAttributes c st0 request ?a] =>
      pose proof (SetRequestAttributes_frame priority_ c st0 request a request
                    (fun _ _ => eq_refl)) as H1;
      destruct (Client.SetRequestAttributes c st0 request a) as [c1 st1]
  end.
  cbn [snd] in H1. rewrite H0 in H1.
  destruct (negb _); [by intros [= <- <-] |].
  destruct (RequestQueue.Erase _ request) as [q |]; [| discriminate].
  rewrite Insert_queue.
  assert (H2 : forall x,
            priority_
              (deref
                 (store_request st1 request
                    (set_fifo_ordering (deref st1 request) x)) request)
            = new_priority_params)
    by (intros x; by rewrite deref_store_request).
  destruct (_ <? _); [| intros [= <- <-]; apply H2].
  unfold Client.ScheduleLoadAnyStartablePendingRequests.
  destruct (_ =? 0); intros [= <- <-]; apply H2.
Qed.

(** X20. [ReprioritizeRequest] without an intra-priority keeps the
    intra-priority of the handle: for a request that has a handle and does
    not ignore limits, the handle ends with the new priority and the
    intra-priority it had, whether or not a client is registered for it,
    and no other handle is written. *)
Theorem X20_reprioritize_keeps_intra_priority LOAD_IGNORE_LIMITS e s u r h
    new_priority s' :
  url_requests (ResourceScheduler.store s) !! u = Some r ->
  net.user_data r = Some h ->
  Z.land (net.load_flags r) LOAD_IGNORE_LIMITS = 0 ->
  ResourceScheduler.ReprioritizeRequest_priority LOAD_IGNORE_LIMITS e s u
    new_priority = Some s' ->
  priority_ (deref (ResourceScheduler.store s') h)
  = {| rp_priority := new_priority;
       intra_priority :=
         intra_priority (priority_ (deref (ResourceScheduler.store s) h)) |}
  /\ forall p, p <> h ->
       requests (ResourceScheduler.store s') !! p
       = requests (ResourceScheduler.store s) !! p.
Proof.
  intros Hu Hud Hflags.
  unfold ResourceScheduler.ReprioritizeRequest_priority,
    ResourceScheduler.ReprioritizeRequest.
  cbv zeta. rewrite (lookup_total_correct _ _ _ Hu), Hud, Hflags.
  cbn [Z.eqb negb].
  destruct (params_eq _ _) eqn:Heq.
  - intros [= <-]. apply params_eq_true in Heq. by split.
  - destruct (ResourceScheduler.client_map_ s !! _) as [c |].
    + destruct (Client.ReprioritizeRequest _ c _ h _ _) as [[c' st'] |] eqn:Hrep;
        [| discriminate].
      intros [= <-].
      cbn [ResourceScheduler.with_store ResourceScheduler.store].
      split; [by apply Client_ReprioritizeRequest_priority in Hrep |].
      destruct (Client_ReprioritizeRequest_writes _ _ _ _ _ _ _ _ Hrep)
        as (_ & [_ Hw] & _).
      intros p Hne. apply Hw. by rewrite elem_of_singleton.
    + intros [= <-].
      cbn [ResourceScheduler.with_store ResourceScheduler.store].
      split; [by rewrite deref_store_request |].
      intros p Hne. unfold store_request, with_requests, with_url_requests.
      cbn [requests]. by rewrite lookup_insert_ne.
Qed.

Lemma X20_reprioritize_keeps_intra_priority_witness :
  url_requests (ResourceScheduler.store Example.two_in_flight_scheduler)
  !! 1%positive
  = Some (url_requests (ResourceScheduler.store Example.two_in_flight_scheduler)
          !!! 1%positive)
  /\ net.user_data
       (url_requests (ResourceScheduler.store Example.two_in_flight_scheduler)
        !!! 1%positive) = Some 101%positive
  /\ ResourceScheduler.ReprioritizeRequest_priority Example.LOAD_IGNORE_LIMITS
       (Example.environment false) Example.two_in_flight_scheduler 1 net.MEDIUM
     = Some Example.two_in_flight_reprioritized
  /\ priority_
       (deref (ResourceScheduler.store Example.two_in_flight_reprioritized) 101)
     = {| rp_priority := net.MEDIUM; intra_priority := 0 |}.
Proof.
  assert (Hu : url_requests
                 (ResourceScheduler.store Example.two_in_flight_scheduler)
               !! 1%positive
               = Some (url_requests
                         (ResourceScheduler.store
                            Example.two_in_flight_scheduler) !!! 1%positive))
    by (vm_compute; reflexivity).
  assert (Hud : net.user_data
                  (url_requests
                     (ResourceScheduler.store Example.two_in_flight_scheduler)
                   !!! 1%positive) = Some 101%positive)
    by (vm_compute; reflexivity).
  assert (Hflags : Z.land
                     (net.load_flags
                        (url_requests
                           (ResourceScheduler.store
                              Example.two_in_flight_scheduler) !!! 1%positive))
                     Example.LOAD_IGNORE_LIMITS = 0)
    by (vm_compute; reflexivity).
  assert (Hrep : ResourceScheduler.ReprioritizeRequest_priority
                   Example.LOAD_IGNORE_LIMITS (Example.environment false)
                   Example.two_in_flight_scheduler 1 net.MEDIUM
                 = Some Example.two_in_flight_reprioritized)
    by (vm_compute; reflexivity).
  split; [exact Hu |]. split; [exact Hud |]. split; [exact Hrep |].
  destruct (X20_reprioritize_keeps_intra_priority _ _ _ _ _ _ _ _ Hu Hud Hflags
              Hrep) as [Hp _].
  rewrite Hp. f_equal.
Defined.

(** ** A client that comes and goes *)

Lemma filter_all {A} (P : A -> Prop) `{forall x, Decision (P x)} (l : list A) :
  (forall x, x ∈ l -> P x) -> filter P l = l.
Proof.
  induction l as [| x l IH]; intros Hl; [reflexivity |].
  rewrite filter_cons, decide_True by (apply Hl; apply elem_of_cons; by left).
  f_equal. apply IH. intros y Hy. apply Hl. apply elem_of_cons. by right.
Qed.

(** X21. A client that is created and deleted before any request was
    scheduled for it leaves no trace: when the client id is free and no
    posted task is bound to the address of the new client, [OnClientDeleted]
    right after [OnClientCreated] returns the scheduler to the state it was
    in, whatever the environment of either call. *)
Theorem X21_client_created_and_deleted kBrowserProcessId e e' s child_id
    route_id network_quality_estimator this :
  ResourceScheduler.client_map_ s
  !! ResourceScheduler.MakeClientId child_id route_id = None ->
  (forall t, t ∈ posted_tasks (ResourceScheduler.store s) ->
     bound_to_client this t = false) ->
  ResourceScheduler.OnClientDeleted e'
    (ResourceScheduler.OnClientCreated kBrowserProcessId e s child_id route_id
       network_quality_estimator this)
    child_id route_id
  = Some s.
Proof.
  intros Hfree Htasks.
  unfold ResourceScheduler.OnClientDeleted, ResourceScheduler.OnClientCreated.
  cbn [ResourceScheduler.with_client_map ResourceScheduler.client_map_
       ResourceScheduler.store].
  rewrite lookup_insert_eq.
  set (c := Client.new _ this _ network_quality_estimator).
  destruct (Client_new_members (ResourceScheduler.context e s) this
              (child_id =? kBrowserProcessId) network_quality_estimator)
    as (Ep & Ef & _).
  fold c in Ep, Ef.
  assert (Ethis : Client.this_ c = this)
    by (unfold c, Client.new; by destruct network_quality_estimator).
  unfold Client.StartAndRemoveAllRequests.
  rewrite Ep. cbn [RequestQueue.empty RequestQueue.queue_ length
                   Client.StartAllPending].
  rewrite Ep. cbn [RequestQueue.empty RequestQueue.queue_].
  rewrite Ef, elements_empty. cbn [foldr].
  rewrite Ethis, (filter_all _ _ Htasks).
  rewrite delete_insert_eq, (delete_id _ _ Hfree), union_empty_l_L.
  destruct s as [st m U en pm timer]. destruct st. reflexivity.
Qed.

Lemma X21_client_created_and_deleted_witness :
  ResourceScheduler.client_map_ Example.two_in_flight_scheduler
  !! ResourceScheduler.MakeClientId 2 7 = None
  /\ ResourceScheduler.OnClientDeleted (Example.environment true)
       (ResourceScheduler.OnClientCreated Example.kBrowserProcessId
          (Example.environment false) Example.two_in_flight_scheduler 2 7 true
          2%positive)
       2 7
     = Some Example.two_in_flight_scheduler.
Proof.
  assert (Hfree : ResourceScheduler.client_map_ Example.two_in_flight_scheduler
                  !! ResourceScheduler.MakeClientId 2 7 = None)
    by (vm_compute; reflexivity).
  assert (Htasks : posted_tasks
                     (ResourceScheduler.store Example.two_in_flight_scheduler)
                   = []) by (vm_compute; reflexivity).
  split; [exact Hfree |].
  apply (X21_client_created_and_deleted _ _ _ _ 2 7 true 2%positive Hfree).
  intros t Ht. rewrite Htasks in Ht. exfalso.
  exact (proj1 (elem_of_nil t) Ht).
Defined.

(** ** The requests of the browser *)

(** X22. The admission decision for a client of the browser process, in an
    enabled scheduler: it never stops the scan, so that a request held back
    never blocks the requests behind it; and it holds a request back exactly
    when throttling for P2P connections applies, that is, the feature is on,
    P2P connections are active (for no longer than the configured maximum
    wait) or ended less than the configured time ago, the effective
    connection type is between Slow-2G and 3G, the request is not at HIGHEST,
    and its traffic annotation may be throttled. *)
Theorem X22_browser_client_decision cx c st request :
  enabled cx = true ->
  Client.is_browser_client_ c = true ->
  Client.ShouldStartRequest cx c st request
  <> Some Client.DO_NOT_START_REQUEST_AND_STOP_SEARCHING
  /\ (Client.ShouldStartRequest cx c st request
      = Some Client.DO_NOT_START_REQUEST_AND_KEEP_SEARCHING
      <-> kPauseBrowserInitiatedHeavyTrafficForP2P (env cx) = true
          /\ (Client.p2p_connections_count_ c = 0 ->
              exists ended,
                Client.p2p_connections_count_end_timestamp_ c = Some ended
                /\ TimeTicks_sub (NowTicks (env cx)) ended
                   < TimeToPauseHeavyBrowserInitiatedRequestsAfterEndOfP2PConnections
                       (resource_scheduler_params_manager_ cx))
          /\ net.ect_ordinal net.EFFECTIVE_CONNECTION_TYPE_OFFLINE
             < net.ect_ordinal (Client.effective_connection_type_ c)
             < net.ect_ordinal net.EFFECTIVE_CONNECTION_TYPE_4G
          /\ net.priority (url_request st request) <> net.HIGHEST
          /\ (0 < Client.p2p_connections_count_ c ->
              exists active max_wait,
                Client.p2p_connections_count_active_timestamp_ c = Some active
                /\ max_wait_time_p2p_connections
                     (resource_scheduler_params_manager_ cx) = Some max_wait
                /\ TimeTicks_sub (NowTicks (env cx)) active <= max_wait)
          /\ CanThrottleNetworkTrafficAnnotationHash
               (resource_scheduler_params_manager_ cx)
               (net.traffic_annotation_hash (url_request st request)) = true).
Proof.
  intros Hen Hbrowser. unfold Client.ShouldStartRequest.
  rewrite Hen, Hbrowser. cbn [negb].
  unfold Client.ShouldThrottleBrowserInitiatedRequestDueToP2PConnections.
  cbv zeta.
  destruct (kPauseBrowserInitiatedHeavyTrafficForP2P (env cx)); cbn [negb];
    [| split; [discriminate | split; [discriminate | by intros [? _]]]].
  rewrite Z.geb_leb, Z.gtb_ltb.
  destruct (Z.eqb_spec (Client.p2p_connections_count_ c) 0) as [Hzero | Hnz].
  - rewrite Hzero. cbn [Z.ltb Z.compare].
    destruct (Client.p2p_connections_count_end_timestamp_ c) as [ended |];
      [| split; [discriminate |]; split; [discriminate |];
         intros (_ & H & _); by destruct (H eq_refl) as (? & ? & _)].
    rewrite Z.geb_leb.
    destruct (Z.leb_spec
                (TimeToPauseHeavyBrowserInitiatedRequestsAfterEndOfP2PConnections
                   (resource_scheduler_params_manager_ cx))
                (TimeTicks_sub (NowTicks (env cx)) ended)) as [Hlong | Hrecent].
    { split; [discriminate |]. split; [discriminate |].
      intros (_ & H & _). destruct (H eq_refl) as (x & [= <-] & Hx). lia. }
    destruct (Z.leb_spec
                (net.ect_ordinal (Client.effective_connection_type_ c))
                (net.ect_ordinal net.EFFECTIVE_CONNECTION_TYPE_OFFLINE))
      as [Hlow | Hlow]; cbn [orb].
    { split; [discriminate |]. split; [discriminate |].
      intros (_ & _ & H & _). lia. }
    destruct (Z.leb_spec
                (net.ect_ordinal net.EFFECTIVE_CONNECTION_TYPE_4G)
                (net.ect_ordinal (Client.effective_connection_type_ c)))
      as [Hhigh | Hhigh].
    { split; [discriminate |]. split; [discriminate |].
      intros (_ & _ & H & _). lia. }
    case_bool_decide as Hprio.
    { split; [discriminate |]. split; [discriminate |].
      by intros (_ & _ & _ & H & _). }
    destruct (CanThrottleNetworkTrafficAnnotationHash _ _); cbn [negb].
    + split; [discriminate |]. split; [intros _ | done].
      split; [done |]. split; [intros _; by exists ended |].
      split; [lia |]. split; [exact Hprio |]. split; [lia | done].
    + split; [discriminate |]. split; [discriminate |].
      by intros (_ & _ & _ & _ & _ & H).
  - destruct (Z.leb_spec
                (net.ect_ordinal (Client.effective_connection_type_ c))
                (net.ect_ordinal net.EFFECTIVE_CONNECTION_TYPE_OFFLINE))
      as [Hlow | Hlow]; cbn [orb].
    { split; [discriminate |]. split; [discriminate |].
      intros (_ & _ & H & _). lia. }
    destruct (Z.leb_spec
                (net.ect_ordinal net.EFFECTIVE_CONNECTION_TYPE_4G)
                (net.ect_ordinal (Client.effective_connection_type_ c)))
      as [Hhigh | Hhigh].
    { split; [discriminate |]. split; [discriminate |].
      intros (_ & _ & H & _). lia. }
    case_bool_decide as Hprio.
    { split; [discriminate |]. split; [discriminate |].
      by intros (_ & _ & _ & H & _). }
    destruct (Z.ltb_spec 0 (Client.p2p_connections_count_ c)) as [Hpos | Hneg].
    + destruct (Client.p2p_connections_count_active_timestamp_ c)
        as [active |];
        [| split; [discriminate |]; split; [discriminate |];
           intros (_ & _ & _ & _ & H & _);
           by destruct (H Hpos) as (? & ? & ? & _)].
      destruct (max_wait_time_p2p_connections _) as [max_wait |];
        [| split; [discriminate |]; split; [discriminate |];
           intros (_ & _ & _ & _ & H & _);
           by destruct (H Hpos) as (? & ? & _ & ? & _)].
      rewrite Z.gtb_ltb.
      destruct (Z.ltb_spec max_wait
                  (TimeTicks_sub (NowTicks (env cx)) active)) as [Hover | Hin].
      { split; [discriminate |]. split; [discriminate |].
        intros (_ & _ & _ & _ & H & _).
        destruct (H Hpos) as (x & y & [= <-] & [= <-] & Hx). lia. }
      destruct (CanThrottleNetworkTrafficAnnotationHash _ _); cbn [negb].
      * split; [discriminate |]. split; [intros _ | done].
        split; [done |]. split; [intros E; contradiction |].
        split; [lia |]. split; [exact Hprio |].
        split; [intros _; by exists active, max_wait | done].
      * split; [discriminate |]. split; [discriminate |].
        by intros (_ & _ & _ & _ & _ & H).
    + destruct (CanThrottleNetworkTrafficAnnotationHash _ _); cbn [negb].
      * split; [discriminate |]. split; [intros _ | done].
        split; [done |]. split; [intros E; contradiction |].
        split; [lia |]. split; [exact Hprio |]. split; [lia | done].
      * split; [discriminate |]. split; [discriminate |].
        by intros (_ & _ & _ & _ & _ & H).
Qed.

Lemma X22_browser_client_decision_witness :
  enabled Example.p2p_context = true
  /\ Client.is_browser_client_ Example.p2p_browser_client = true
  /\ Client.p2p_connections_count_ Example.p2p_browser_client = 1
  /\ Client.ShouldStartRequest Example.p2p_context Example.p2p_browser_client
       Example.low_request_store 101
     = Some Client.DO_NOT_START_REQUEST_AND_KEEP_SEARCHING
  /\ CanThrottleNetworkTrafficAnnotationHash
       (resource_scheduler_params_manager_ Example.p2p_context)
       (net.traffic_annotation_hash
          (url_request Example.low_request_store 101)) = true.
Proof.
  assert (Hen : enabled Example.p2p_context = true) by reflexivity.
  assert (Hb : Client.is_browser_client_ Example.p2p_browser_client = true)
    by (vm_compute; reflexivity).
  assert (Hkeep : Client.ShouldStartRequest Example.p2p_context
                    Example.p2p_browser_client Example.low_request_store 101
                  = Some Client.DO_NOT_START_REQUEST_AND_KEEP_SEARCHING)
    by (vm_compute; reflexivity).
  split; [exact Hen |]. split; [exact Hb |].
  split; [vm_compute; reflexivity |]. split; [exact Hkeep |].
  destruct (X22_browser_client_decision Example.p2p_context
              Example.p2p_browser_client Example.low_request_store 101 Hen Hb)
    as [_ [Hconds _]].
  by destruct (Hconds Hkeep) as (_ & _ & _ & _ & _ & H).
Defined.

(** ** Inserting into the queue and erasing from it *)

Lemma erase_node_multiset_insert comp x l :
  x ∉ l -> erase_node x (multiset_insert comp x l) = l.
Proof.
  induction l as [| y l IH]; intros Hx; simpl.
  - by rewrite decide_True.
  - apply not_elem_of_cons in Hx as [Hne Hx].
    destruct (comp x y); simpl.
    + by rewrite decide_True.
    + rewrite decide_False by exact Hne. f_equal. by apply IH.
Qed.

(** X23. [Erase] undoes [Insert] except for the ordering id: inserting a
    handle that is not queued stamps it with the next ordering id (modulo
    2^32) and queues it, and erasing it again leaves the queue with the
    handles it had, in the order they had, and with the id used up. Erasing
    a handle that is not queued is the failed [CHECK]. *)
Theorem X23_insert_then_erase q st request :
  request ∉ RequestQueue.queue_ q ->
  RequestQueue.Erase q request = None
  /\ RequestQueue.IsQueued (RequestQueue.Insert q st request).1 request = true
  /\ fifo_ordering_ (deref (RequestQueue.Insert q st request).2 request)
     = wrap_uint32 (RequestQueue.fifo_ordering_ids_ q + 1)
  /\ RequestQueue.Erase (RequestQueue.Insert q st request).1 request
     = Some {| RequestQueue.fifo_ordering_ids_ :=
                 wrap_uint32 (RequestQueue.fifo_ordering_ids_ q + 1);
               RequestQueue.queue_ := RequestQueue.queue_ q |}.
Proof.
  intros Hnotin. rewrite Insert_queue. cbn [fst snd].
  assert (Hin : RequestQueue.IsQueued
                  {| RequestQueue.fifo_ordering_ids_ :=
                       wrap_uint32 (RequestQueue.fifo_ordering_ids_ q + 1);
                     RequestQueue.queue_ :=
                       multiset_insert
                         (comes_before
                            (store_request st request
                               (set_fifo_ordering (deref st request)
                                  (wrap_uint32
                                     (RequestQueue.fifo_ordering_ids_ q + 1)))))
                         request (RequestQueue.queue_ q) |} request = true).
  { unfold RequestQueue.IsQueued. apply bool_decide_eq_true.
    cbn [RequestQueue.queue_]. apply multiset_insert_elem_of. by left. }
  split; [| split; [exact Hin | split]].
  - unfold RequestQueue.Erase, RequestQueue.IsQueued.
    by rewrite bool_decide_eq_false_2.
  - by rewrite deref_store_request.
  - unfold RequestQueue.Erase. rewrite Hin.
    cbn [RequestQueue.queue_ RequestQueue.fifo_ordering_ids_].
    by rewrite erase_node_multiset_insert.
Qed.

Lemma X23_insert_then_erase_witness :
  (101%positive
   ∉ RequestQueue.queue_
       (Client.pending_requests_ Example.lowest_client_after_erase.1))
  /\ RequestQueue.Erase
       (RequestQueue.Insert
          (Client.pending_requests_ Example.lowest_client_after_erase.1)
          Example.lowest_client_after_erase.2 101).1 101
     = Some {| RequestQueue.fifo_ordering_ids_ :=
                 wrap_uint32
                   (RequestQueue.fifo_ordering_ids_
                      (Client.pending_requests_
                         Example.lowest_client_after_erase.1) + 1);
               RequestQueue.queue_ :=
                 RequestQueue.queue_
                   (Client.pending_requests_
                      Example.lowest_client_after_erase.1) |}.
Proof.
  assert (Hnotin : 101%positive
                   ∉ RequestQueue.queue_
                       (Client.pending_requests_
                          Example.lowest_client_after_erase.1)).
  { apply (bool_decide_unpack _). vm_compute. exact I. }
  split; [exact Hnotin |].
  destruct (X23_insert_then_erase _ Example.lowest_client_after_erase.2 _
              Hnotin) as (_ & _ & _ & H).
  exact H.
Defined.
